(* ===== verification/_CoqProject ===== *)
-Q . S2P
Prelude.v
GoStrings.v
GoTime.v
GoFloat.v
GoNet.v
Externals.v
Eth.v
Repository.v
RepositoryClaims.v
SeenCounter.v
SlotCache.v
SlotExtractor.v
Processor.v
ProcessorFacts.v
Samples.v
ProcessorClaims.v
ProcSystem.v
Tables.v
Views.v
Host.v
Topics.v
PeerScore.v
PeerScoreClaims.v
GossipHandler.v
Subscription.v
GossipSub.v
GossipClaims.v
Dialer.v
Discovery.v
ReqResp.v
ReqRespClaims.v
Watcher.v
WatcherClaims.v
System.v
Cmd.v
