(* ===== verification/Prelude.v ===== *)
(** * peekd: a verification development

    peekd watches the gossip network of Ethereum's consensus layer. A libp2p host
    connects to peers that discovery finds and the dialer dials; the gossip
    service subscribes to every topic; each message is decoded, timed against its
    slot and kept in a cache until the slot is over, together with the number of
    times its id was seen; completed slots are written to ClickHouse in one batch
    each. The development models the Go code under src/ as Rocq functions and
    proves what makes its parts correct.

    ** Conventions

    - A call that can fail returns an [outcome]: a value, an error built with
      github.com/pkg/errors, or a panic (nil dereference, index, division,
      assertion, or a value). Methods with side effects return the changed
      receiver beside the outcome. [ptr A] is a pointer that may be nil.
    - Integers are [Z]; every conversion and every operation that can leave its
      width is wrapped by [u16], [u32], [u64] or [i64]. float64 is binary64 of
      the standard library's executable specification.
    - The iteration order of a Go map is a parameter of type [order], a
      permutation of the list of its entries, and sort.Slice is a [sorter]; the
      theorems hold for all of them.
    - A service loop consumes a list of events: what each [select] or blocking
      call of its turns meets. Logging is left out.
    - Code outside the repository is a type class whose fields are the calls the
      source makes; laws a theorem relies on are separate classes or decidable
      predicates ([DriverLaws], [BitfieldLaws], [Libp2pLaws], [MathLaws],
      [p2p_ok], [forks_ok], ...), each with an instance used by the witnesses.

    ** Files

    - Prelude (this file): errors, outcomes, wrapping integers, map orders and
      sorts, options, shared lemmas, the tactics and the hint database [peekd].
    - GoStrings, GoTime, GoFloat, GoNet: what the source uses of the packages
      strings, hex, fmt, time, net and of float64, with their facts (hex is
      injective, Split inverts concatenation, time arithmetic is exact in range,
      an IPv4 address prints to text that parses back).
    - Externals: Prysm, hexutil and go-bitfield as classes, and the documented
      mainnet values for witnesses. Samples: a sample processor.
    - Eth: eth/network.go. [GetForkVersion] refines the fork schedule up to Fulu
      and stays at Electra after it, the subnet bit vectors are exact, the
      network variable is guarded.
    - Repository, RepositoryClaims: repository/*.go and the column types of
      migrations/001. A batch save that returns no error adds exactly its rows,
      typed as the table; one that fails in sending (a timeout, a lost
      acknowledgement) may have stored some of them, and the driver's laws say
      no more; the factory opens and pings clickhouse and refuses any other type.
    - SeenCounter, SlotCache, SlotExtractor: processor/seen_counter.go,
      slot_cache.go, slot_extractor.go. The counter refines "increases since the
      last pop", the two-level cache refines one first-writer-wins map, the
      registry agrees with the table of message types.
    - Processor: processor/beacon_message_processor.go, every method.
      ProcessorFacts, ProcessorClaims: what each branch of [Process] leaves
      behind, timing of a record, which slots a flush removes and what it saves,
      the final flush at shutdown.
    - ProcSystem: the same operations as atomic steps of concurrent goroutines,
      with the flusher's position as part of the state. By rule induction over
      runs: no record is lost or duplicated, sightings are conserved, the
      invariant holds, and a flush terminates whatever the others do; its
      uninterrupted runs are exactly the results of [flushCompletedSlots].
    - Tables: the rows of the two tables of migrations/001 after any such run over
      the ClickHouse code, with saves that may fail: what was there, then rows of
      records handed over, in order and once, those of acknowledged saves among
      them, each typed as its columns. Views: the hourly view of migrations/002 over
      those rows: an hour is rolled up exactly when all of its 300 slots have a
      row, and every group sums the records of its key.
    - Host: host/host.go. Peer counts count distinct peers.
    - Topics: what Prysm documents of topic names and formats, and the proof
      that building and recognising topics agree.
    - PeerScore, PeerScoreClaims: gossip/peer_score.go. The parameters are
      complete for topic lists that have the sync committee topics last, as the
      service's default topics do (GossipClaims); a second computation
      panics; where the estimate has no effect and where the mesh parameters
      degenerate.
    - GossipHandler, Subscription, GossipSub, GossipClaims: gossip/handler.go,
      subscription.go, gossipsub.go. Handlers by fork, the subscription loop,
      topics, construction, joining, the path from a topic to a record, pruning.
    - Dialer, Discovery: peering/*.go. The dial decision is exact arithmetic; the
      address of a node, the local record, the discovery loop.
    - ReqResp, ReqRespClaims: reqresp/*.go, in a state and error monad over the
      stream. Exchanges between two nodes, answers of the inbound handlers,
      registration, for payloads in the range of their types; the witnesses run
      them over an SSZ codec.
    - Watcher, WatcherClaims: watcher/watcher.go. Which services a watcher has
      and what they are given; why creation fails.
    - System: a created watcher with its services running. A world holds the host
      and the processor once; a step is one action of the gossip service (start,
      prune), of a subscription, of pubsub, of discovery and dialer, of the
      service of the host, of the request handlers, of the network or of the
      processor, and carries a label. The labels determine the trace
      ([world_events]): an id asked for is a sighting, a message of another peer
      is processed as the type of its topic and fork. Every run is a run of
      ProcSystem with that trace (simulation), so the accounting of records,
      tables and sightings holds from [NewWatcher] on, a record's peer count is
      the host's count in the world in which its message was read, and every
      dial is to a public peer that discovery sent.
    - Cmd: cmd/*.go. The flags decide the options one by one; the main loop and
      its signals; exit codes.

    ** How the components meet

    The [Repository] class is the interface of the processor to its store: the
    processor's theorems are proved for any instance, and [adapter_repository]
    implements it with the ClickHouse code, whose theorems discharge it.
    [PeerCounter] is the processor's view of the host, implemented by
    [host_PeerCounter]. A subscription is generic in the state its handler
    works on; the gossip service instantiates it with itself. The gossip service
    holds the processor it feeds as a field; [ProcSystem] treats the same
    processor as shared by all goroutines, [System] adds the host that the
    processor, the gossip service and the dialer share by pointer ([write_host]
    is a write through it; that the pointers are the same is proved of
    [NewWatcher]).

    ** Bounds

    No definition needs fuel but the IPv6 parser, whose loop is bounded by the
    eight groups of an address. Timing is exact for genesis times and clocks
    within 2^61 seconds of year 1 and slots that start within 292 years of
    genesis. The dial decision is checked for every target below 10000 by
    computation, so that no rounding of 0.2 * target matters. Score parameters
    are for estimates below 2^63. Counts wrap modulo 2^32, and the theorems say so.

    ** Not modelled

    The callbacks of host/notify.go and the status ticker only log. Parsing of
    the command line (urfave/cli), the restarts of the supervisor (suture), what
    follows the end of the services (each [Serve] is modelled to its return, but
    the end of the program is not a step of [System]), the quantile aggregate of
    ClickHouse (a parameter of the view) and everything inside libp2p, pubsub,
    discv5, Prysm and the ClickHouse driver are not modelled. Steps of [System] are atomic per call the code protects by a
    lock or a channel; data races outside those are not modelled. *)

From stdpp Require Export base list gmap strings sets sorting relations.
From Stdlib Require Export ssreflect.
#[export] Unset SsrRewrite.
From Stdlib Require Export ZArith Lia.

(** ** Go errors, panics and outcomes

    [errors.New] / [errors.Errorf] and [errors.Wrap] / [errors.Wrapf] of
    github.com/pkg/errors build a chain; [error_ext] is an error made by code
    outside the repository. *)

Inductive error :=
  | errors_New (msg : string)
  | errors_Wrap (cause : error) (msg : string)
  | error_ext (msg : string).

(** What a goroutine can panic with: [panic(err)], an index out of range, a nil
    dereference, a failed type assertion, an integer division by zero, and a
    panic raised by a library with a message of its own. *)
Inductive panic_value :=
  | panic_error (e : error)
  | panic_index
  | panic_nil
  | panic_assert
  | panic_divide
  | panic_msg (msg : string).

Inductive outcome (A : Type) :=
  | Ret (a : A)
  | Fail (e : error)
  | Panicked (p : panic_value).
Arguments Ret {A} a.
Arguments Fail {A} e.
Arguments Panicked {A} p.

#[export] Instance error_eq_dec : EqDecision error.
Proof. solve_decision. Defined.
#[export] Instance panic_value_eq_dec : EqDecision panic_value.
Proof. solve_decision. Defined.
#[export] Instance outcome_eq_dec {A} `{EqDecision A} : EqDecision (outcome A).
Proof. solve_decision. Defined.

#[export] Instance outcome_ret : MRet outcome := @Ret.
#[export] Instance outcome_bind : MBind outcome := λ A B k c,
  match c with
  | Ret a => k a
  | Fail e => Fail e
  | Panicked p => Panicked p
  end.
#[export] Instance outcome_fmap : FMap outcome := λ A B f c,
  match c with
  | Ret a => Ret (f a)
  | Fail e => Fail e
  | Panicked p => Panicked p
  end.

(** [if err != nil { return errors.Wrap(err, msg) }] *)
Definition wrap {A} (msg : string) (c : outcome A) : outcome A :=
  match c with
  | Fail e => Fail (errors_Wrap e msg)
  | _ => c
  end.

(** A call returning only [error]. *)
Definition check_err (e : option error) : outcome unit :=
  match e with
  | None => Ret ()
  | Some e => Fail e
  end.

(** A call returning a value and an [error]. *)
Definition of_sum {A} (r : error + A) : outcome A :=
  match r with
  | inl e => Fail e
  | inr a => Ret a
  end.

(** [if v == nil { return errors.New(msg) }] *)
Definition ok_or {A} (o : option A) (msg : string) : outcome A :=
  match o with
  | Some a => Ret a
  | None => Fail (errors_New msg)
  end.

(** A pointer of the code: [None] is nil, and following it panics. *)
Abbreviation ptr := option (only parsing).
Definition deref {A} (p : ptr A) : outcome A :=
  match p with
  | Some a => Ret a
  | None => Panicked panic_nil
  end.

(** [xs[i]] on a slice. *)
Definition index {A} (xs : list A) (i : nat) : outcome A :=
  match xs !! i with
  | Some a => Ret a
  | None => Panicked panic_index
  end.

Definition is_ret {A} (c : outcome A) : bool :=
  match c with Ret _ => true | _ => false end.

Section outcome_lemmas.
Context {A B : Type}.
Implicit Types (c : outcome A) (k : A → outcome B).

Lemma bind_Ret_inv c k b :
  (c ≫= k) = Ret b → ∃ a, c = Ret a ∧ k a = Ret b.
Proof. destruct c; simpl; naive_solver. Qed.

Lemma wrap_Ret_inv msg c a : wrap msg c = Ret a ↔ c = Ret a.
Proof. destruct c; simpl; naive_solver. Qed.

Lemma ok_or_Ret_inv (o : option A) msg a : ok_or o msg = Ret a ↔ o = Some a.
Proof. destruct o; simpl; naive_solver. Qed.

Lemma of_sum_Ret_inv (r : error + A) a : of_sum r = Ret a ↔ r = inr a.
Proof. destruct r; simpl; naive_solver. Qed.

Lemma index_lookup (xs : list A) i a : xs !! i = Some a → index xs i = Ret a.
Proof. rw /index. by intros ->. Qed.
End outcome_lemmas.

(** ** Fixed-width integers

    A uintN value is a [Z] in [0, 2^N) and an intN value a [Z] in
    [-2^(N-1), 2^(N-1)); a conversion or an arithmetic operation of the code
    wraps its mathematical result with the functions below. *)

Declare Scope go_scope.
Delimit Scope go_scope with go.

Section Width.
Local Open Scope Z_scope.

Definition u16 (z : Z) : Z := z mod 2 ^ 16.
Definition u32 (z : Z) : Z := z mod 2 ^ 32.
Definition u64 (z : Z) : Z := z mod 2 ^ 64.
Definition i32 (z : Z) : Z := (z + 2 ^ 31) mod 2 ^ 32 - 2 ^ 31.
Definition i64 (z : Z) : Z := (z + 2 ^ 63) mod 2 ^ 64 - 2 ^ 63.

Definition is_u16 (z : Z) : Prop := 0 <= z < 2 ^ 16.
Definition is_u32 (z : Z) : Prop := 0 <= z < 2 ^ 32.
Definition is_u64 (z : Z) : Prop := 0 <= z < 2 ^ 64.
Definition is_i64 (z : Z) : Prop := - 2 ^ 63 <= z < 2 ^ 63.

Lemma u16_range z : is_u16 (u16 z).
Proof. apply Z.mod_pos_bound. lia. Qed.
Lemma u32_range z : is_u32 (u32 z).
Proof. apply Z.mod_pos_bound. lia. Qed.
Lemma u64_range z : is_u64 (u64 z).
Proof. apply Z.mod_pos_bound. lia. Qed.
Lemma i64_range z : is_i64 (i64 z).
Proof.
  rw /is_i64 /i64. pose proof (Z.mod_pos_bound (z + 2 ^ 63) (2 ^ 64)). lia.
Qed.

Lemma u16_small z : is_u16 z → u16 z = z.
Proof. apply Z.mod_small. Qed.
Lemma u32_small z : is_u32 z → u32 z = z.
Proof. apply Z.mod_small. Qed.
Lemma u64_small z : is_u64 z → u64 z = z.
Proof. apply Z.mod_small. Qed.
Lemma i64_small z : is_i64 z → i64 z = z.
Proof. rw /is_i64 /i64. intros ?. rw Z.mod_small; lia. Qed.

Lemma u32_u32 z : u32 (u32 z) = u32 z.
Proof. apply u32_small, u32_range. Qed.
Lemma u64_u64 z : u64 (u64 z) = u64 z.
Proof. apply u64_small, u64_range. Qed.
Lemma i64_i64 z : i64 (i64 z) = i64 z.
Proof. apply i64_small, i64_range. Qed.

(** A wrap differs from its argument by a multiple of the modulus. *)
Lemma i64_spec z : ∃ k, i64 z = z + k * 2 ^ 64.
Proof.
  exists (- ((z + 2 ^ 63) / 2 ^ 64)). rw /i64.
  pose proof (Z.div_mod (z + 2 ^ 63) (2 ^ 64)). lia.
Qed.
Lemma u32_spec z : ∃ k, u32 z = z + k * 2 ^ 32.
Proof.
  exists (- (z / 2 ^ 32)). rw /u32. pose proof (Z.div_mod z (2 ^ 32)). lia.
Qed.

(** Wrapping early does not change a wrapped sum or product. *)
Lemma i64_shift z k : i64 (z + k * 2 ^ 64) = i64 z.
Proof.
  rw /i64. replace (z + k * 2 ^ 64 + 2 ^ 63) with (z + 2 ^ 63 + k * 2 ^ 64) by lia.
  by rewrite Z_mod_plus_full.
Qed.
Lemma i64_add_l a b : i64 (i64 a + b) = i64 (a + b).
Proof.
  destruct (i64_spec a) as [k ->].
  replace (a + k * 2 ^ 64 + b) with (a + b + k * 2 ^ 64) by lia. apply i64_shift.
Qed.
Lemma i64_mul_l a b : i64 (i64 a * b) = i64 (a * b).
Proof.
  destruct (i64_spec a) as [k ->].
  replace ((a + k * 2 ^ 64) * b) with (a * b + k * b * 2 ^ 64) by lia.
  apply i64_shift.
Qed.
Lemma i64_inj_range a b : is_i64 b → (∃ k, a = b + k * 2 ^ 64) → i64 a = b.
Proof. intros Hb [k ->]. rewrite i64_shift. by apply i64_small. Qed.

(** Counting modulo 2^32 may wrap late or at every step. *)
Lemma u32_add_l a b : u32 (u32 a + b) = u32 (a + b).
Proof. rw /u32. by rw Zplus_mod_idemp_l. Qed.
Lemma u32_add_r a b : u32 (a + u32 b) = u32 (a + b).
Proof. rw /u32. by rw Zplus_mod_idemp_r. Qed.

(** [a / b] on unsigned integers; a zero divisor panics. *)
Definition udiv (a b : Z) : outcome Z :=
  if b =? 0 then Panicked panic_divide else Ret (a / b).
(** [a / b] on signed integers truncates toward zero. *)
Definition sdiv (a b : Z) : outcome Z :=
  if b =? 0 then Panicked panic_divide else Ret (i64 (Z.quot a b)).

Lemma udiv_Ret a b : b ≠ 0 → udiv a b = Ret (a / b).
Proof. rw /udiv. by intros ?%Z.eqb_neq; case_match. Qed.
Lemma sdiv_Ret a b : b ≠ 0 → sdiv a b = Ret (i64 (Z.quot a b)).
Proof. rw /sdiv. by intros ?%Z.eqb_neq; case_match. Qed.
End Width.

Create HintDb peekd.
Create Rewrite HintDb peekd.
#[export] Hint Resolve u16_range u32_range u64_range i64_range : peekd.
#[export] Hint Rewrite u32_u32 u64_u64 i64_i64 u32_add_l u32_add_r i64_add_l i64_mul_l : peekd.

(** Reduce the wraps whose argument is visibly in range. *)
Ltac unwrap_small :=
  repeat match goal with
  | |- context [u16 ?z] => rewrite (u16_small z) by (unfold is_u16; lia)
  | |- context [u32 ?z] => rewrite (u32_small z) by (unfold is_u32; lia)
  | |- context [u64 ?z] => rewrite (u64_small z) by (unfold is_u64; lia)
  | |- context [i64 ?z] => rewrite (i64_small z) by (unfold is_i64; lia)
  end.

(** ** Map iteration

    A Go [range] over a map visits the entries in an order the language leaves
    open. An [order] is one such choice; a definition that ranges over a map
    takes it as an argument and every theorem quantifies over it. *)
Record order (A : Type) := Order {
  ord_apply :> list A → list A;
  ord_perm : ∀ l, ord_apply l ≡ₚ l;
}.
Arguments Order {A} _ _.
Arguments ord_apply {A} _ _.
Arguments ord_perm {A} _ _.

Definition id_order {A} : order A := Order id (λ l, reflexivity l).
Definition rev_order {A} : order A :=
  Order (@rev A) (λ l, symmetry (Permutation_rev l)).

Section order_lemmas.
Context {A : Type} (o : order A).
Implicit Types (l : list A).

Lemma elem_of_ord x l : x ∈ o l ↔ x ∈ l.
Proof. by rw ord_perm. Qed.
Lemma NoDup_ord l : NoDup (o l) ↔ NoDup l.
Proof. by rw ord_perm. Qed.
Lemma length_ord l : length (o l) = length l.
Proof. by rw ord_perm. Qed.
Lemma ord_nil : o [] = [].
Proof. apply Permutation_nil_r. by rw ord_perm. Qed.
End order_lemmas.
#[export] Hint Rewrite @length_ord @ord_nil : peekd.

(** ** Sorting

    [sort.Slice] sorts by a comparison and leaves the order of equal elements
    open. A [sorter] is one such choice; its result is sorted when the
    comparison is a strict weak order on the elements. *)
Record strict_weak {A} (less : A → A → bool) (l : list A) : Prop := {
  sw_irrefl a : a ∈ l → less a a = false;
  sw_trans a b c : a ∈ l → b ∈ l → c ∈ l →
    less a b = true → less b c = true → less a c = true;
  sw_neg_trans a b c : a ∈ l → b ∈ l → c ∈ l →
    less a b = false → less b c = false → less a c = false;
}.

Record sorter (A : Type) := Sorter {
  sort_apply :> (A → A → bool) → list A → list A;
  sort_perm : ∀ less l, sort_apply less l ≡ₚ l;
  sort_sorted : ∀ less l, strict_weak less l →
    StronglySorted (λ a b, less b a = false) (sort_apply less l);
}.
Arguments Sorter {A} _ _ _.
Arguments sort_apply {A} _ _ _.
Arguments sort_perm {A} _ _ _.
Arguments sort_sorted {A} _ _ _ _.

(** Insertion sort is one. *)
Section Insertion.
Context {A : Type} (less : A → A → bool).

Fixpoint insert_sorted (x : A) (l : list A) : list A :=
  match l with
  | [] => [x]
  | y :: l => if less y x then y :: insert_sorted x l else x :: y :: l
  end.
Definition insertion_sort (l : list A) : list A := foldr insert_sorted [] l.

Lemma insert_sorted_perm x l : insert_sorted x l ≡ₚ x :: l.
Proof.
  induction l as [|y l IH]; [done|]. simpl. case_match; [|done].
  rewrite IH. apply Permutation_swap.
Qed.

Lemma insertion_sort_perm l : insertion_sort l ≡ₚ l.
Proof.
  induction l as [|x l IH]; [done|]. simpl. by rewrite insert_sorted_perm, IH.
Qed.

Lemma strict_weak_mono l l' : (∀ x, x ∈ l' → x ∈ l) → strict_weak less l → strict_weak less l'.
Proof. intros Hl []. split; eauto. Qed.

Lemma insert_sorted_sorted x l :
  strict_weak less (x :: l) → StronglySorted (λ a b, less b a = false) l →
  StronglySorted (λ a b, less b a = false) (insert_sorted x l).
Proof.
  intros Hw. induction 1 as [|y l Hs IH Hy]; simpl; [repeat constructor|].
  assert (x ∈ x :: y :: l) as Hx by set_solver. assert (y ∈ x :: y :: l) as Hyl by set_solver.
  destruct (less y x) eqn:Hyx.
  - apply SSorted_cons.
    + apply IH. apply (strict_weak_mono (x :: y :: l)); [set_solver|done].
    + rewrite insert_sorted_perm. apply Forall_cons. split; [|done].
      destruct (less x y) eqn:Hxy; [|done].
      pose proof (sw_trans _ _ Hw x y x Hx Hyl Hx Hxy Hyx) as Hxx.
      by rewrite (sw_irrefl _ _ Hw) in Hxx.
  - apply SSorted_cons; [by apply SSorted_cons|]. apply Forall_cons. split; [done|].
    rewrite Forall_forall in Hy |- *. intros z Hz.
    apply (sw_neg_trans _ _ Hw z y x); [set_solver|done|done|by apply Hy|done].
Qed.

Lemma insertion_sort_sorted l :
  strict_weak less l → StronglySorted (λ a b, less b a = false) (insertion_sort l).
Proof.
  induction l as [|x l IH]; intros Hw; simpl; [constructor|].
  apply insert_sorted_sorted.
  - apply (strict_weak_mono (x :: l)); [|done]. intros z. by rewrite insertion_sort_perm.
  - apply IH. apply (strict_weak_mono (x :: l)); [set_solver|done].
Qed.
End Insertion.

Definition insertion_sorter {A} : sorter A :=
  Sorter insertion_sort insertion_sort_perm insertion_sort_sorted.

(** ** Functional options

    [for _, opt := range opts { opt(o) }] *)
Definition apply_opts {O} (opts : list (O → O)) (o : O) : O :=
  foldl (λ o opt, opt o) o opts.

Lemma apply_opts_snoc {O} (opts : list (O → O)) opt o :
  apply_opts (opts ++ [opt]) o = opt (apply_opts opts o).
Proof. by rw /apply_opts foldl_app. Qed.

(** ** Lists *)
Section list_lemmas.
Context {A B : Type}.

Lemma fmap_ret_mapM (f : A → outcome B) (l : list A) (g : A → B) :
  (∀ x, x ∈ l → f x = Ret (g x)) → mapM f l = Ret (g <$> l).
Proof.
  induction l as [|x l IH]; intros Hf; simpl; [done|].
  rewrite (Hf x) by set_solver. simpl.
  rewrite IH by (intros; apply Hf; set_solver). done.
Qed.
End list_lemmas.

Lemma StronglySorted_filter {A} (R : relation A) (P : A → Prop) `{∀ x, Decision (P x)} l :
  StronglySorted R l → StronglySorted R (filter P l).
Proof.
  induction 1 as [|x l Hs IH Hx]; [constructor|].
  rewrite filter_cons. case_decide; [|done]. constructor; [done|].
  rewrite Forall_forall in Hx |- *. intros y [_ Hy]%list_elem_of_filter. by apply Hx.
Qed.

Lemma omap_Some_fmap {A B} (f : A → B) (l : list A) :
  omap (λ x, Some (f x)) l = f <$> l.
Proof. induction l; simpl; by f_equal. Qed.

Lemma bool_decide_ext_if {A} (P Q : Prop) `{Decision P, Decision Q} (a b : A) :
  (P ↔ Q) → (if bool_decide P then a else b) = (if bool_decide Q then a else b).
Proof. intros HPQ. by rewrite (bool_decide_ext P Q). Qed.
