(* ===== verification/GoStrings.v ===== *)
(** * Strings and bytes of the Go standard library

    What the source uses of [strings], [encoding/hex] and [fmt]: [Contains],
    [Split], [hex.EncodeToString] and [Sprintf] with the verbs %x, %d and %s.
    A Go string and a Go byte slice are both sequences of bytes; both are
    [string] here, one [ascii] per byte. *)

From S2P Require Import Prelude.
From Stdlib Require Import Ascii.
From stdpp Require Import pretty.

Local Open Scope string_scope.

(** ** strings.Contains *)

Fixpoint HasPrefix (s p : string) {struct p} : bool :=
  match p, s with
  | EmptyString, _ => true
  | String a p, String b s => bool_decide (a = b) && HasPrefix s p
  | String _ _, EmptyString => false
  end.

Fixpoint Contains (s sub : string) : bool :=
  HasPrefix s sub ||
  match s with
  | EmptyString => false
  | String _ s => Contains s sub
  end.

(** ** strings.Split with a one-byte separator *)

Fixpoint Split (sep : ascii) (s : string) : list string :=
  match s with
  | EmptyString => [""]
  | String a s =>
      if bool_decide (a = sep) then "" :: Split sep s
      else match Split sep s with
           | [] => [String a ""]
           | w :: ws => String a w :: ws
           end
  end.

(** The inverse of [Split], used in statements: [strings.Join]. *)
Fixpoint Join (sep : ascii) (ws : list string) : string :=
  match ws with
  | [] => ""
  | [w] => w
  | w :: ws => w +:+ String sep (Join sep ws)
  end.

(** ** Predicates on the bytes of a string *)

Fixpoint all_chars (P : ascii → bool) (s : string) : bool :=
  match s with
  | EmptyString => true
  | String a s => P a && all_chars P s
  end.

Definition slash : ascii := "/"%char.
Definition no_char (c : ascii) (s : string) : bool :=
  all_chars (λ a, negb (bool_decide (a = c))) s.

Definition is_digit (a : ascii) : bool :=
  let n := Ascii.N_of_ascii a in (48 <=? n)%N && (n <=? 57)%N.
Definition is_hex_digit (a : ascii) : bool :=
  let n := Ascii.N_of_ascii a in
  is_digit a || ((97 <=? n)%N && (n <=? 102)%N).

(** ** encoding/hex *)

(** [hextable] of encoding/hex is 0123456789abcdef. *)
Definition hex_digit (n : N) : ascii :=
  Ascii.ascii_of_N (if n <? 10 then 48 + n else 87 + n)%N.

Fixpoint EncodeToString (b : string) : string :=
  match b with
  | EmptyString => ""
  | String a b =>
      let n := Ascii.N_of_ascii a in
      String (hex_digit (n / 16)%N) (String (hex_digit (n mod 16)%N) (EncodeToString b))
  end.

(** The decoder used to state that the encoding loses nothing. *)
Definition hex_value (a : ascii) : option N :=
  let n := Ascii.N_of_ascii a in
  if is_digit a then Some (n - 48)%N
  else if is_hex_digit a then Some (n - 87)%N
  else None.

Fixpoint hex_decode (s : string) : option string :=
  match s with
  | EmptyString => Some ""
  | String h (String l s) =>
      h ← hex_value h; l ← hex_value l;
      String (Ascii.ascii_of_N (16 * h + l)%N) <$> hex_decode s
  | _ => None
  end.

(** ** fmt.Sprintf

    Operands are byte arrays, integers and strings. The bad-verb,
    missing-operand and extra-operand outputs are the ones of the fmt
    documentation. *)

Inductive fmt_arg :=
  | FBytes (b : string)
  | FUint (n : N)
  | FInt (z : Z)
  | FString (s : string).

Fixpoint bytes_list (b : string) : string :=
  match b with
  | EmptyString => ""
  | String a EmptyString => pretty (Ascii.N_of_ascii a)
  | String a b => pretty (Ascii.N_of_ascii a) +:+ " " +:+ bytes_list b
  end.

Definition fmt_type (a : fmt_arg) : string :=
  match a with
  | FBytes b => "[" +:+ pretty (N.of_nat (String.length b)) +:+ "]uint8"
  | FUint _ => "uint64"
  | FInt _ => "int"
  | FString _ => "string"
  end.
Definition fmt_v (a : fmt_arg) : string :=
  match a with
  | FBytes b => "[" +:+ bytes_list b +:+ "]"
  | FUint n => pretty n
  | FInt z => pretty z
  | FString s => s
  end.

Fixpoint hex_N_go (fuel : nat) (n : N) (acc : string) : string :=
  match fuel with
  | O => acc
  | S fuel =>
      let acc := String (hex_digit (n mod 16)%N) acc in
      if (n <? 16)%N then acc else hex_N_go fuel (n / 16)%N acc
  end.
Definition hex_N (n : N) : string := hex_N_go (S (N.size_nat n)) n "".

Definition fmt_verb (v : ascii) (a : fmt_arg) : string :=
  let bad := "%!" +:+ String v ("(" +:+ fmt_type a +:+ "=" +:+ fmt_v a +:+ ")") in
  if bool_decide (v = "x"%char) then
    match a with
    | FBytes b => EncodeToString b
    | FString s => EncodeToString s
    | FUint n => hex_N n
    | FInt z => (if (z <? 0)%Z then "-" else "") +:+ hex_N (Z.abs_N z)
    end
  else if bool_decide (v = "d"%char) then
    match a with
    | FBytes b => "[" +:+ bytes_list b +:+ "]"
    | FUint n => pretty n
    | FInt z => pretty z
    | FString _ => bad
    end
  else if bool_decide (v = "s"%char) then
    match a with
    | FBytes b => b
    | FString s => s
    | FUint _ | FInt _ => bad
    end
  else bad.

Fixpoint fmt_extra (args : list fmt_arg) : string :=
  match args with
  | [] => ""
  | [a] => fmt_type a +:+ "=" +:+ fmt_v a
  | a :: args => fmt_type a +:+ "=" +:+ fmt_v a +:+ ", " +:+ fmt_extra args
  end.

Definition fmt_end (args : list fmt_arg) : string :=
  match args with
  | [] => ""
  | _ => "%!(EXTRA " +:+ fmt_extra args +:+ ")"
  end.

Fixpoint Sprintf (f : string) (args : list fmt_arg) : string :=
  match f with
  | EmptyString => fmt_end args
  | String c f =>
      if bool_decide (c = "%"%char) then
        match f with
        | EmptyString => "%!(NOVERB)" +:+ fmt_end args
        | String v f =>
            if bool_decide (v = "%"%char) then String v (Sprintf f args)
            else match args with
                 | [] => "%!" +:+ String v "(MISSING)" +:+ Sprintf f []
                 | a :: args => fmt_verb v a +:+ Sprintf f args
                 end
        end
      else String c (Sprintf f args)
  end.

(** ** Lemmas *)

Lemma app_cons_s a (s t : string) : String a s +:+ t = String a (s +:+ t).
Proof. done. Qed.
Lemma app_nil_s (s : string) : s +:+ "" = s.
Proof. induction s as [|a s IH]; [done|]. by rewrite app_cons_s, IH. Qed.
Lemma app_assoc_s (s t u : string) : (s +:+ t) +:+ u = s +:+ t +:+ u.
Proof. induction s as [|a s IH]; [done|]. by rewrite !app_cons_s, IH. Qed.
#[export] Hint Rewrite app_nil_s app_assoc_s app_cons_s : peekd.

Section chars.
Implicit Types (P : ascii → bool) (s t : string).

Lemma all_chars_app P s t :
  all_chars P (s +:+ t) = all_chars P s && all_chars P t.
Proof.
  induction s as [|a s IH]; [done|].
  rewrite app_cons_s. simpl. rewrite IH. by destruct (P a).
Qed.

Lemma all_chars_impl P Q s :
  (∀ a, P a = true → Q a = true) → all_chars P s = true → all_chars Q s = true.
Proof.
  intros HPQ. induction s as [|a s IH]; [done|]. simpl.
  intros [HP%HPQ Hs]%andb_prop. rewrite HP. by apply IH.
Qed.
End chars.

Section contains.
Implicit Types (s t sub : string).

Lemma HasPrefix_spec s sub : HasPrefix s sub = true ↔ ∃ t, s = sub +:+ t.
Proof.
  revert s. induction sub as [|a sub IH]; intros s; simpl.
  - split; [by exists s | done].
  - destruct s as [|b s]; [split; [done | by intros [??]]|].
    rewrite andb_true_iff, bool_decide_eq_true, IH.
    split; [intros [-> [t ->]]; by exists t | intros [t [=]]; subst; eauto].
Qed.

(** [Contains] finds exactly the strings that occur as a contiguous part. *)
Lemma Contains_spec s sub :
  Contains s sub = true ↔ ∃ l r, s = l +:+ sub +:+ r.
Proof.
  induction s as [|a s IH]; simpl; rewrite orb_true_iff, HasPrefix_spec.
  - split.
    + intros [[t Ht]|?]; [by exists "", t | done].
    + intros [[|? l] [r Hr]]; [left; by exists r | done].
  - rewrite IH. split.
    + intros [[t Ht]|[l [r ->]]]; [by exists "", t | by exists (String a l), r].
    + intros [[|b l] [r Hr]]; [left; by exists r | right].
      injection Hr as -> ->. eauto.
Qed.

Lemma Contains_false s sub :
  Contains s sub = false ↔ ¬ ∃ l r, s = l +:+ sub +:+ r.
Proof. rewrite <-Contains_spec. destruct (Contains s sub); naive_solver. Qed.

Lemma Contains_self s sub t : Contains (s +:+ sub +:+ t) sub = true.
Proof. apply Contains_spec. eauto. Qed.

(** Every byte of a part is a byte of the whole. *)
Lemma Contains_all_chars P s sub :
  all_chars P s = true → all_chars P sub = false → Contains s sub = false.
Proof.
  intros Hs Hsub. apply not_true_iff_false. intros [l [r ->]]%Contains_spec.
  rewrite !all_chars_app in Hs. rewrite Hsub in Hs.
  by destruct (all_chars P l).
Qed.
End contains.

(** A part none of whose bytes satisfies [P] never overlaps a run of [P]
    bytes: it lies wholly before or after it. *)
Lemma app_split_cons (l1 r1 l2 r2 : string) :
  l1 +:+ r1 = l2 +:+ r2 →
  (∃ m, l1 = l2 +:+ m ∧ r2 = m +:+ r1) ∨ (∃ m, l2 = l1 +:+ m ∧ r1 = m +:+ r2).
Proof.
  revert l2. induction l1 as [|a l1 IH]; intros [|b l2] H.
  - left. by exists "".
  - right. exists (String b l2). done.
  - left. exists (String a l1). done.
  - injection H as -> H. destruct (IH _ H) as [[m [-> ->]]|[m [-> ->]]]; eauto.
Qed.

Section contains_sep.
Implicit Types (s t sub : string).

(** A part without the separator lies on one side of it. *)
Lemma Contains_sep c s t sub :
  sub ≠ "" → no_char c sub = true →
  Contains (s +:+ String c t) sub = Contains s sub || Contains t sub.
Proof.
  intros Hne Hc. apply eq_true_iff_eq. rewrite orb_true_iff, !Contains_spec. split.
  - intros [l [r H]].
    destruct (app_split_cons s (String c t) l (sub +:+ r) H)
      as [[m [-> Hm]]|[m [-> Hm]]].
    + destruct (app_split_cons _ _ _ _ Hm) as [[m' [-> Hm']]|[m' [-> Hm']]].
      * destruct m' as [|c' m'].
        { left. exists l, "". by autorewrite with peekd. }
        injection Hm' as <- ->.
        unfold no_char in Hc. rewrite all_chars_app in Hc. simpl in Hc.
        rewrite bool_decide_true in Hc by done. by destruct (all_chars _ m).
      * left. eauto.
    + destruct m as [|c' m].
      * destruct sub as [|a sub]; [done|]. injection Hm as <- ->.
        unfold no_char in Hc. simpl in Hc. by rewrite bool_decide_true in Hc.
      * injection Hm as <- ->. right. eauto.
  - intros [[l [r ->]]|[l [r ->]]].
    + exists l, (r +:+ String c t). by rewrite !app_assoc_s.
    + exists (s +:+ String c l), r. by rewrite !app_assoc_s.
Qed.

(** A part none of whose bytes satisfies [P] is not found in a [P] tail. *)
Lemma Contains_tail P s t sub :
  sub ≠ "" → all_chars P t = true → all_chars (λ a, negb (P a)) sub = true →
  Contains (s +:+ t) sub = Contains s sub.
Proof.
  intros Hne Ht Hsub. apply eq_true_iff_eq. rewrite !Contains_spec. split.
  - intros [l [r H]]. destruct (app_split_cons _ _ _ _ H) as [[m [-> Hm]]|[m [-> Hm]]].
    + destruct (app_split_cons _ _ _ _ Hm) as [[m' [-> Hm']]|[m' [-> Hm']]]; [|eauto].
      subst t. rewrite all_chars_app in Ht, Hsub.
      destruct m' as [|a m'].
      { exists l, "". by autorewrite with peekd. }
      exfalso. simpl in *. destruct (P a); simpl in *;
        [by destruct (all_chars _ m) | done].
    + exfalso. subst t. rewrite !all_chars_app in Ht.
      destruct sub as [|a sub]; [done|]. simpl in *.
      destruct (P a); simpl in *; [done|]. by destruct (all_chars P m).
  - intros [l [r ->]]. exists l, (r +:+ t). by rewrite !app_assoc_s.
Qed.
End contains_sep.

(** ** Splitting and joining *)

Lemma Split_no_char sep s : no_char sep s = true → Split sep s = [s].
Proof.
  unfold no_char. induction s as [|a s IH]; [done|]. simpl.
  intros [Ha Hs]%andb_prop. rewrite (IH Hs).
  rewrite bool_decide_false; [done|]. intros ->. by rewrite bool_decide_true in Ha.
Qed.

Lemma Split_cons sep w t :
  no_char sep w = true → Split sep (w +:+ String sep t) = w :: Split sep t.
Proof.
  unfold no_char. induction w as [|a w IH].
  { intros _. simpl. by rewrite bool_decide_true. }
  rewrite app_cons_s. simpl. intros [Ha Hs]%andb_prop. rewrite (IH Hs).
  rewrite bool_decide_false; [done|]. intros ->. by rewrite bool_decide_true in Ha.
Qed.

(** Splitting a joined list gives it back when no piece holds the separator. *)
Lemma Split_Join sep ws :
  ws ≠ [] → Forall (λ w, no_char sep w = true) ws → Split sep (Join sep ws) = ws.
Proof.
  intros Hne Hws. induction ws as [|w ws IH]; [done|].
  apply Forall_cons in Hws as [Hw Hws].
  destruct ws as [|w' ws]; [by apply Split_no_char|].
  change (Join sep (w :: w' :: ws)) with (w +:+ String sep (Join sep (w' :: ws))).
  rewrite Split_cons by done. by rewrite IH.
Qed.

Lemma Split_ne sep s : Split sep s ≠ [].
Proof.
  destruct s as [|a s]; [done|]. simpl.
  case_bool_decide; [done|]. by destruct (Split sep s).
Qed.

(** ** Hexadecimal *)

(** A bounded quantifier over [N], decided by enumeration. *)
Lemma small_N (P : N → Prop) (k : nat) n :
  Forall P (N.of_nat <$> seq 0 k) → (n < N.of_nat k)%N → P n.
Proof.
  rewrite Forall_forall. intros HP Hn. apply HP, list_elem_of_fmap.
  exists (N.to_nat n). rewrite N2Nat.id. split; [done|]. apply elem_of_seq. lia.
Qed.

Lemma hex_digit_spec n :
  (n < 16)%N → hex_value (hex_digit n) = Some n ∧ is_hex_digit (hex_digit n) = true.
Proof.
  intros Hn. pattern n. apply (small_N _ 16); [|done]. vm_compute. repeat constructor.
Qed.

Lemma N_of_ascii_bound a : (N_of_ascii a < 256)%N.
Proof. by destruct a as [[] [] [] [] [] [] [] []]. Qed.

Lemma nibbles a :
  let n := N_of_ascii a in (n / 16 < 16)%N ∧ (n mod 16 < 16)%N.
Proof.
  simpl. pose proof (N_of_ascii_bound a). split.
  - apply N.Div0.div_lt_upper_bound. lia.
  - apply N.mod_lt. lia.
Qed.

(** Decoding an encoding gives the bytes back. *)
Lemma hex_decode_encode b : hex_decode (EncodeToString b) = Some b.
Proof.
  induction b as [|a b IH]; [done|]. cbn [EncodeToString hex_decode].
  destruct (nibbles a) as [Hh Hl].
  destruct (hex_digit_spec _ Hh) as [-> _], (hex_digit_spec _ Hl) as [-> _].
  rewrite IH. simpl. do 2 f_equal.
  rewrite <-(ascii_N_embedding a) at 3. f_equal.
  symmetry. apply N.div_mod'.
Qed.

#[export] Instance EncodeToString_inj : Inj (=) (=) EncodeToString.
Proof.
  intros a b H. apply (f_equal hex_decode) in H.
  rewrite !hex_decode_encode in H. by injection H.
Qed.

Lemma EncodeToString_hex b : all_chars is_hex_digit (EncodeToString b) = true.
Proof.
  induction b as [|a b IH]; [done|]. cbn [EncodeToString all_chars].
  destruct (nibbles a) as [Hh Hl].
  destruct (hex_digit_spec _ Hh) as [_ ->], (hex_digit_spec _ Hl) as [_ ->]. done.
Qed.

Lemma EncodeToString_length b :
  String.length (EncodeToString b) = 2 * String.length b.
Proof. induction b as [|a b IH]; [done|]. simpl. lia. Qed.

(** ** Decimals *)

Lemma pretty_N_char_digit x : is_digit (pretty_N_char (x mod 10)) = true.
Proof.
  apply (small_N (λ n, is_digit (pretty_N_char n) = true) 10).
  - vm_compute. repeat constructor.
  - by apply N.mod_lt.
Qed.

Lemma pretty_N_go_digits x s :
  all_chars is_digit s = true → all_chars is_digit (pretty_N_go x s) = true.
Proof.
  revert s. induction (N.lt_wf_0 x) as [x _ IH]; intros s Hs.
  assert (x = 0 ∨ 0 < x)%N as [->|Hx] by lia; [by rewrite pretty_N_go_0|].
  rewrite pretty_N_go_step by done.
  apply IH; [by apply N.div_lt|]. simpl. by rewrite pretty_N_char_digit.
Qed.

Lemma pretty_N_digits (x : N) : all_chars is_digit (pretty x) = true.
Proof.
  unfold pretty, pretty_N. case_decide; [done|]. by apply pretty_N_go_digits.
Qed.

Lemma digits_no_slash s : all_chars is_digit s = true → no_char slash s = true.
Proof.
  apply all_chars_impl. intros a Ha. apply negb_true_iff, bool_decide_eq_false.
  by intros ->.
Qed.
Lemma hex_no_slash s : all_chars is_hex_digit s = true → no_char slash s = true.
Proof.
  apply all_chars_impl. intros a Ha. apply negb_true_iff, bool_decide_eq_false.
  by intros ->.
Qed.
#[export] Hint Resolve EncodeToString_hex pretty_N_digits digits_no_slash hex_no_slash : peekd.

(** ** Evaluating formats *)

Lemma Sprintf_plain f args : no_char "%"%char f = true →
  ∀ g, Sprintf (f +:+ g) args = f +:+ Sprintf g args.
Proof.
  unfold no_char. induction f as [|a f IH]; [done|]. cbn [all_chars].
  intros [Ha Hf]%andb_prop g. rewrite !app_cons_s. cbn [Sprintf].
  rewrite bool_decide_false by (intros ->; by rewrite bool_decide_true in Ha).
  by rewrite IH.
Qed.

Lemma Sprintf_plain_end f : no_char "%"%char f = true → Sprintf f [] = f.
Proof.
  intros Hf. rewrite <-(app_nil_s f) at 1. rewrite Sprintf_plain by done.
  cbn. by rewrite app_nil_s.
Qed.

Lemma Sprintf_verb v f a args :
  v ≠ "%"%char →
  Sprintf (String "%"%char (String v f)) (a :: args) = fmt_verb v a +:+ Sprintf f args.
Proof. intros Hv. cbn [Sprintf]. by rewrite bool_decide_true, bool_decide_false. Qed.
