(* ===== verification/GoTime.v ===== *)
(** * The time package

    [time.Duration] is an int64 number of nanoseconds; [time.Time] is modelled
    by its wall clock reading, seconds since the internal epoch (int64) and
    nanoseconds. Every subtraction of the source has an operand built by
    [time.Unix], which carries no monotonic reading, so [Sub] uses the wall
    clocks. *)

From S2P Require Import Prelude.
Local Open Scope Z_scope.

Definition Duration := Z.
Definition Millisecond : Duration := 1000000.
Definition Second : Duration := 1000000000.
Definition Hour : Duration := 3600 * Second.
Definition minDuration : Duration := - 2 ^ 63.
Definition maxDuration : Duration := 2 ^ 63 - 1.

Definition dmul (d e : Duration) : Duration := i64 (d * e).

(** [d.Milliseconds()] truncates toward zero. *)
Definition Milliseconds (d : Duration) : Z := Z.quot d Millisecond.

Record Time := MkTime { t_sec : Z; t_nsec : Z }.

#[export] Instance Time_eq_dec : EqDecision Time.
Proof. solve_decision. Defined.

Definition unixToInternal : Z := 62135596800.

(** [time.Unix(sec, 0)] and [t.Unix()] *)
Definition time_Unix (sec : Z) : Time := MkTime (i64 (sec + unixToInternal)) 0.
Definition Time_Unix (t : Time) : Z := i64 (t_sec t - unixToInternal).

Definition addSec (sec d : Z) : Z :=
  let sum := i64 (sec + d) in
  if Bool.eqb (sec <? sum) (0 <? d) then sum
  else if 0 <? d then 2 ^ 63 - 1
  else - (2 ^ 63 - 1).

Definition Time_Add (t : Time) (d : Duration) : Time :=
  let dsec := Z.quot d Second in
  let nsec := t_nsec t + Z.rem d Second in
  if Second <=? nsec then MkTime (addSec (t_sec t) (dsec + 1)) (nsec - Second)
  else if nsec <? 0 then MkTime (addSec (t_sec t) (dsec - 1)) (nsec + Second)
  else MkTime (addSec (t_sec t) dsec) nsec.

Definition Time_Equal (t u : Time) : bool :=
  (t_sec t =? t_sec u) && (t_nsec t =? t_nsec u).
Definition Time_Before (t u : Time) : bool :=
  (t_sec t <? t_sec u) || ((t_sec t =? t_sec u) && (t_nsec t <? t_nsec u)).

Definition Time_Sub (t u : Time) : Duration :=
  let d := i64 (dmul (i64 (t_sec t - t_sec u)) Second + (t_nsec t - t_nsec u)) in
  if Time_Equal (Time_Add u d) t then d
  else if Time_Before t u then minDuration
  else maxDuration.

(** ** The instants a [Time] stands for *)

(** A time the clock of a machine can show: within 2^62 seconds of the epoch. *)
Definition time_ok (t : Time) : Prop :=
  - 2 ^ 62 <= t_sec t < 2 ^ 62 ∧ 0 <= t_nsec t < Second.

(** Nanoseconds since the internal epoch, a mathematical integer. *)
Definition time_ns (t : Time) : Z := t_sec t * Second + t_nsec t.

Lemma time_Unix_Unix sec :
  - 2 ^ 61 <= sec <= 2 ^ 61 → Time_Unix (time_Unix sec) = sec.
Proof. intros ?. unfold Time_Unix, time_Unix, unixToInternal. simpl. unwrap_small. lia. Qed.

Lemma time_Unix_ok sec : - 2 ^ 61 <= sec <= 2 ^ 61 → time_ok (time_Unix sec).
Proof.
  intros ?. unfold time_ok, time_Unix, unixToInternal, Second. simpl. unwrap_small. lia.
Qed.

Lemma time_ns_inj t u : time_ok t → time_ok u → time_ns t = time_ns u → t = u.
Proof.
  destruct t as [ts tn], u as [us un]. unfold time_ok, time_ns, Second. simpl.
  intros ? ? ?. assert (ts = us) as -> by lia. f_equal. lia.
Qed.

Lemma addSec_small sec d :
  - 2 ^ 62 <= sec <= 2 ^ 62 → - 2 ^ 61 <= d <= 2 ^ 61 → addSec sec d = sec + d.
Proof.
  intros ? ?. unfold addSec. unwrap_small.
  replace (sec <? sec + d) with (0 <? d); [by rewrite Bool.eqb_reflx|].
  destruct (Z.ltb_spec 0 d), (Z.ltb_spec sec (sec + d)); lia.
Qed.

(** Adding a duration moves the instant by exactly that much. *)
Lemma Time_Add_ns t d :
  time_ok t → is_i64 d →
  time_ns (Time_Add t d) = time_ns t + d ∧ 0 <= t_nsec (Time_Add t d) < Second.
Proof.
  intros [Hs Hn] Hd. unfold is_i64 in Hd. unfold Time_Add, time_ns.
  pose proof (Z.quot_rem' d Second) as Hqr.
  pose proof (Z.rem_bound_abs d Second) as Hr.
  unfold Second in *.
  assert (- 2 ^ 60 <= d ÷ 1000000000 <= 2 ^ 60) as Hq.
  { split; [apply Z.quot_le_lower_bound | apply Z.quot_le_upper_bound]; lia. }
  destruct (Z.leb_spec 1000000000 (t_nsec t + Z.rem d 1000000000));
    [|destruct (Z.ltb_spec (t_nsec t + Z.rem d 1000000000) 0)];
    simpl; rewrite addSec_small by lia; lia.
Qed.

Lemma Time_Before_ns t u :
  time_ok t → time_ok u → Time_Before t u = (time_ns t <? time_ns u).
Proof.
  destruct t as [ts tn], u as [us un]. unfold time_ok, Time_Before, time_ns, Second. simpl.
  intros ? ?. apply eq_true_iff_eq. lia.
Qed.

(** [Sub] is the exact difference, saturated at the ends of int64. *)
Definition saturate (z : Z) : Duration :=
  if z <? minDuration then minDuration
  else if maxDuration <? z then maxDuration
  else z.

Lemma Time_Sub_saturate t u :
  time_ok t → time_ok u → Time_Sub t u = saturate (time_ns t - time_ns u).
Proof.
  intros Ht Hu. unfold Time_Sub.
  set (d := i64 _).
  assert (Hd : is_i64 d) by (apply i64_range).
  assert (Hk : ∃ k, d = time_ns t - time_ns u + k * 2 ^ 64).
  { destruct Ht as [? ?], Hu as [? ?]. subst d. unfold dmul, time_ns.
    rewrite (i64_small (t_sec t - t_sec u)) by (unfold is_i64; lia).
    rewrite i64_add_l. destruct (i64_spec ((t_sec t - t_sec u) * Second +
      (t_nsec t - t_nsec u))) as [k ->]. exists k. lia. }
  destruct (Time_Add_ns u d Hu Hd) as [Hadd Hnn].
  rewrite Time_Before_ns by done.
  assert (Time_Equal (Time_Add u d) t = (d =? time_ns t - time_ns u)) as ->.
  { destruct Ht as [? ?]. unfold Time_Equal, time_ns, Second in *.
    apply eq_true_iff_eq. lia. }
  unfold saturate, minDuration, maxDuration, is_i64 in *.
  destruct Hk as [k Hk].
  destruct (Z.eqb_spec d (time_ns t - time_ns u)) as [He|Hne].
  - rewrite <-He. destruct (Z.ltb_spec d (- 2 ^ 63)), (Z.ltb_spec (2 ^ 63 - 1) d); lia.
  - destruct (Z.ltb_spec (time_ns t) (time_ns u)),
      (Z.ltb_spec (time_ns t - time_ns u) (- 2 ^ 63)),
      (Z.ltb_spec (2 ^ 63 - 1) (time_ns t - time_ns u)); lia.
Qed.

Lemma saturate_id z : is_i64 z → saturate z = z.
Proof.
  unfold is_i64, saturate, minDuration, maxDuration. intros ?.
  destruct (Z.ltb_spec z (- 2 ^ 63)), (Z.ltb_spec (2 ^ 63 - 1) z); lia.
Qed.
