(* ===== verification/GoFloat.v ===== *)
(** * float64

    IEEE 754 binary64 with round to nearest even, on the executable
    specification of floats of the standard library ([SpecFloat] at 53 bits of
    precision and maximal exponent 1024). No expression of the source has the
    shape x*y+z, the one an implementation may fuse. *)

From S2P Require Import Prelude GoTime.
From Stdlib Require Import Floats.SpecFloat.
From stdpp Require Import pretty.
Local Open Scope Z_scope.

Definition float64 : Type := spec_float.

#[export] Instance float64_eq_dec : EqDecision float64.
Proof. unfold float64. solve_decision. Defined.

Definition fadd : float64 → float64 → float64 := SFadd 53 1024.
Definition fsub : float64 → float64 → float64 := SFsub 53 1024.
Definition fmul : float64 → float64 → float64 := SFmul 53 1024.
Definition fdiv : float64 → float64 → float64 := SFdiv 53 1024.
Definition fopp : float64 → float64 := SFopp.
Definition flt : float64 → float64 → bool := SFltb.
Definition fle : float64 → float64 → bool := SFleb.
Definition fge (x y : float64) : bool := fle y x.

Definition fzero : float64 := S754_zero false.
Definition finf : float64 := S754_infinity false.
Definition is_nan (x : float64) : bool :=
  match x with S754_nan => true | _ => false end.

(** The verb [%f]: six decimals, the nearest ones to the exact value, ties to even. *)
Definition round_half_even (num den : Z) : Z :=
  let q := num / den in
  let r := num mod den in
  if (2 * r <? den) || ((2 * r =? den) && Z.even q) then q else q + 1.
Definition decimals (q : Z) : string :=
  match pretty (Z.to_N (10 ^ 6 + q mod 10 ^ 6)) with
  | String _ digits => pretty (Z.to_N (q / 10 ^ 6)) +:+ "." +:+ digits
  | EmptyString => ""
  end.
Definition fmt_f (x : float64) : string :=
  match x with
  | S754_nan => "NaN"
  | S754_infinity s => if s then "-Inf" else "+Inf"
  | S754_zero s => if s then "-0.000000" else "0.000000"
  | S754_finite s m e =>
      (if s then "-" else "") +:+
      decimals (if 0 <=? e then Z.pos m * 2 ^ e * 10 ^ 6
                else round_half_even (Z.pos m * 10 ^ 6) (2 ^ (- e)))
  end.

(** [float64(n)] for an integer [n]. *)
Definition float_of_Z (n : Z) : float64 := binary_normalize 53 1024 n 0 false.

(** An untyped decimal constant [n/d] of the source, converted to float64: the
    nearest double ([n] and [d] are exactly representable, and division is
    correctly rounded). *)
Definition flit (n d : Z) : float64 := fdiv (float_of_Z n) (float_of_Z d).

(** [uint64(x)]: truncation; [None] where the language leaves the result open
    (NaN, infinities and values outside the range of the type). *)
Definition float_to_u64 (x : float64) : option Z :=
  match x with
  | S754_zero _ => Some 0
  | S754_finite false m e =>
      let z := if 0 <=? e then Z.pos m * 2 ^ e else Z.pos m / 2 ^ (- e) in
      if z <? 2 ^ 64 then Some z else None
  | _ => None
  end.

(** [d.Seconds()] *)
Definition Seconds (d : Duration) : float64 :=
  fadd (float_of_Z (Z.quot d Second))
       (fdiv (float_of_Z (Z.rem d Second)) (float_of_Z 1000000000)).

(** ** Integers below 2^53 are exact *)

Lemma iter_xO m (k : positive) :
  Z.pos (Pos.iter xO m k) = Z.pos m * 2 ^ Z.pos k.
Proof.
  induction k as [|k IH] using Pos.peano_ind; [simpl; lia|].
  rewrite Pos.iter_succ, Pos2Z.inj_succ, Z.pow_succ_r by lia. lia.
Qed.

Lemma digits2_bounds m :
  2 ^ (Z.pos (digits2_pos m) - 1) <= Z.pos m < 2 ^ Z.pos (digits2_pos m).
Proof.
  induction m as [m IH|m IH|]; simpl digits2_pos; [..|simpl; lia].
  - rewrite Pos2Z.inj_succ.
    replace (Z.succ (Z.pos (digits2_pos m)) - 1)
      with (Z.succ (Z.pos (digits2_pos m) - 1)) by lia.
    rewrite !Z.pow_succ_r by lia. lia.
  - rewrite Pos2Z.inj_succ.
    replace (Z.succ (Z.pos (digits2_pos m)) - 1)
      with (Z.succ (Z.pos (digits2_pos m) - 1)) by lia.
    rewrite !Z.pow_succ_r by lia. lia.
Qed.

Lemma digits2_unique m d :
  0 < d → 2 ^ (d - 1) <= Z.pos m < 2 ^ d → Z.pos (digits2_pos m) = d.
Proof.
  intros Hd Hm. pose proof (digits2_bounds m) as Hb.
  assert (Z.pos (digits2_pos m) - 1 < d).
  { apply (Z.pow_lt_mono_r_iff 2); lia. }
  assert (d - 1 < Z.pos (digits2_pos m)).
  { apply (Z.pow_lt_mono_r_iff 2); lia. }
  lia.
Qed.

(** The normalised double of a positive integer below 2^53. *)
Lemma float_of_Z_exact p :
  Z.pos p < 2 ^ 53 →
  ∃ m e, float_of_Z (Z.pos p) = S754_finite false m e ∧
         - 53 < e <= 0 ∧ Z.pos m = Z.pos p * 2 ^ (- e) ∧
         2 ^ 52 <= Z.pos m < 2 ^ 53.
Proof.
  intros Hp. pose proof (digits2_bounds p) as Hb.
  set (d := Z.pos (digits2_pos p)) in *.
  assert (1 <= d <= 53) as Hd.
  { split; [lia|]. assert (d - 1 < 53); [|lia].
    apply (Z.pow_lt_mono_r_iff 2); lia. }
  unfold float_of_Z, binary_normalize, binary_round.
  fold d. rewrite Z.add_0_r.
  assert (fexp 53 1024 d = d - 53) as -> by (unfold fexp, emin; lia).
  assert (∃ m, shl_align p 0 (d - 53) = (m, d - 53) ∧
               Z.pos m = Z.pos p * 2 ^ (53 - d)) as (m & -> & Hm).
  { unfold shl_align. rewrite Z.sub_0_r. destruct (d - 53) as [|k|k] eqn:E.
    - exists p. replace (53 - d) with 0 by lia. split; [done|lia].
    - lia.
    - exists (Pos.iter xO p k). split; [done|]. rewrite iter_xO. f_equal. f_equal. lia. }
  assert (2 ^ 52 <= Z.pos m < 2 ^ 53) as Hmb.
  { assert (2 ^ 52 = 2 ^ (d - 1) * 2 ^ (53 - d)) as ->
      by (rewrite <-Z.pow_add_r by lia; f_equal; lia).
    assert (2 ^ 53 = 2 ^ d * 2 ^ (53 - d)) as ->
      by (rewrite <-Z.pow_add_r by lia; f_equal; lia).
    rewrite Hm. pose proof (Z.pow_pos_nonneg 2 (53 - d)).
    split; [apply Z.mul_le_mono_nonneg_r | apply Z.mul_lt_mono_pos_r]; lia. }
  assert (Z.pos (digits2_pos m) = 53) as Hm53 by (apply digits2_unique; lia).
  exists m, (d - 53). split; [|split; [lia|split; [|done]]].
  - unfold binary_round_aux, shr_fexp, Zdigits2. rewrite Hm53.
    replace (53 + (d - 53)) with d by lia.
    assert (fexp 53 1024 d = d - 53) as -> by (unfold fexp, emin; lia).
    rewrite Z.sub_diag. simpl. rewrite Hm53.
    replace (53 + (d - 53)) with d by lia.
    assert (fexp 53 1024 d = d - 53) as -> by (unfold fexp, emin; lia).
    rewrite Z.sub_diag. simpl.
    destruct (Z.leb_spec (d - 53) (1024 - 53)); [done|lia].
  - rewrite Hm. f_equal. f_equal. lia.
Qed.

Lemma float_to_u64_of_Z n : 0 <= n < 2 ^ 53 → float_to_u64 (float_of_Z n) = Some n.
Proof.
  intros Hn. destruct n as [|p|p]; [done| |lia].
  destruct (float_of_Z_exact p) as (m & e & -> & He & Hm & _); [lia|]. simpl.
  assert ((if 0 <=? e then Z.pos m * 2 ^ e else Z.pos m / 2 ^ (- e)) = Z.pos p) as ->.
  { destruct (Z.leb_spec 0 e).
    - assert (e = 0) as -> by lia. rewrite Hm. simpl. lia.
    - rewrite Hm. apply Z.div_mul. pose proof (Z.pow_pos_nonneg 2 (- e)). lia. }
  destruct (Z.ltb_spec (Z.pos p) (2 ^ 64)); [done|lia].
Qed.

(** The seconds of a whole number of seconds. *)
Lemma Seconds_whole n :
  0 <= n < 2 ^ 53 → float_to_u64 (Seconds (n * Second)) = Some n.
Proof.
  intros Hn. unfold Seconds, Second.
  rewrite Z.quot_mul, Z.rem_mul by lia. rewrite <-(float_to_u64_of_Z n Hn).
  unfold fadd. change (fdiv (float_of_Z 0) (float_of_Z 1000000000)) with fzero.
  destruct n as [|p|p]; [done| |lia].
  destruct (float_of_Z_exact p) as (m & e & -> & _); [lia|]. done.
Qed.

(** ** Order of converted integers *)

Lemma float_of_Z_compare a b :
  0 <= a < 2 ^ 53 → 0 <= b < 2 ^ 53 →
  SFcompare (float_of_Z a) (float_of_Z b) = Some (a ?= b).
Proof.
  intros Ha Hb. destruct a as [|a|a], b as [|b|b]; try lia; [done|..].
  - destruct (float_of_Z_exact b) as (m & e & -> & _); [lia|]. done.
  - destruct (float_of_Z_exact a) as (m & e & -> & _); [lia|]. done.
  - destruct (float_of_Z_exact a) as (ma & ea & -> & Hea & Hma & Hba); [lia|].
    destruct (float_of_Z_exact b) as (mb & eb & -> & Heb & Hmb & Hbb); [lia|].
    cbn [SFcompare]. f_equal. change (Pos.compare_cont Eq ma mb) with (Z.pos ma ?= Z.pos mb).
    pose proof (Z.pow_pos_nonneg 2 (- ea)). pose proof (Z.pow_pos_nonneg 2 (- eb)).
    destruct (Z.compare_spec ea eb) as [->|Hlt|Hgt].
    + destruct (Z.compare_spec (Z.pos a) (Z.pos b)) as [Hab| |];
        [apply Z.compare_eq_iff | apply Z.compare_lt_iff | apply Z.compare_gt_iff]; nia.
    + symmetry. apply Z.compare_lt_iff.
      assert (2 ^ (- ea) = 2 ^ (- eb) * 2 ^ (eb - ea)) as E.
      { rewrite <-Z.pow_add_r by lia. f_equal. lia. }
      assert (2 ^ 1 <= 2 ^ (eb - ea)) by (apply Z.pow_le_mono_r; lia). nia.
    + symmetry. apply Z.compare_gt_iff.
      assert (2 ^ (- eb) = 2 ^ (- ea) * 2 ^ (ea - eb)) as E.
      { rewrite <-Z.pow_add_r by lia. f_equal. lia. }
      assert (2 ^ 1 <= 2 ^ (ea - eb)) by (apply Z.pow_le_mono_r; lia). nia.
Qed.

Lemma fle_of_Z a b :
  0 <= a < 2 ^ 53 → 0 <= b < 2 ^ 53 → fle (float_of_Z a) (float_of_Z b) = (a <=? b).
Proof.
  intros Ha Hb. unfold fle, SFleb. rewrite float_of_Z_compare by done.
  unfold Z.leb. by destruct (a ?= b).
Qed.
Lemma flt_of_Z a b :
  0 <= a < 2 ^ 53 → 0 <= b < 2 ^ 53 → flt (float_of_Z a) (float_of_Z b) = (a <? b).
Proof.
  intros Ha Hb. unfold flt, SFltb. rewrite float_of_Z_compare by done.
  unfold Z.ltb. by destruct (a ?= b).
Qed.

(** ** Order *)

Lemma fcompare_swap (x y : float64) :
  SFcompare y x = CompOpp <$> SFcompare x y.
Proof.
  destruct x as [sx|sx| |sx mx ex], y as [sy|sy| |sy my ey];
    repeat match goal with b : bool |- _ => destruct b end; try reflexivity; simpl;
    rewrite (Z.compare_antisym ex ey); destruct (ex ?= ey); simpl; try reflexivity.
  - f_equal. rewrite CompOpp_involutive. 
    rewrite (Pos.compare_cont_antisym my mx). simpl. rewrite ?CompOpp_involutive. reflexivity.
  - f_equal. rewrite (Pos.compare_cont_antisym mx my). reflexivity.
Qed.

Lemma flt_not_fge x y : flt x y = true → fge x y = false.
Proof.
  unfold flt, fge, fle, SFltb, SFleb. rewrite (fcompare_swap x y).
  by destruct (SFcompare x y) as [[]|].
Qed.

(** Off NaN the order is the lexicographic order of class, exponent and mantissa. *)
Definition rank (x : float64) : Z * Z * Z :=
  match x with
  | S754_infinity true => (-2, 0, 0)
  | S754_finite true m e => (-1, - e, - Z.pos m)
  | S754_zero _ | S754_nan => (0, 0, 0)
  | S754_finite false m e => (1, e, Z.pos m)
  | S754_infinity false => (2, 0, 0)
  end.
Definition rank_lt (a b : Z * Z * Z) : Prop :=
  a.1.1 < b.1.1 ∨ a.1.1 = b.1.1 ∧ (a.1.2 < b.1.2 ∨ a.1.2 = b.1.2 ∧ a.2 < b.2).

Lemma flt_rank x y :
  is_nan x = false → is_nan y = false → flt x y = true ↔ rank_lt (rank x) (rank y).
Proof.
  intros Hx Hy. unfold flt, SFltb, rank_lt.
  destruct x as [sx|[]| |[] mx ex], y as [sy|[]| |[] my ey]; try done; simpl;
    try (split; [done || lia|done || lia]).
  - destruct (Z.compare_spec ex ey); simpl; [|split; [done|lia]|split; [lia|done]].
    change (Pos.compare_cont Eq mx my) with (Pos.compare mx my).
    destruct (Pos.compare_spec mx my); simpl; split; done || lia.
  - destruct (Z.compare_spec ex ey); simpl; [|split; [lia|done]|split; [done|lia]].
    change (Pos.compare_cont Eq mx my) with (Pos.compare mx my).
    destruct (Pos.compare_spec mx my); simpl; split; done || lia.
Qed.

Lemma flt_irrefl x : flt x x = false.
Proof.
  destruct (is_nan x) eqn:Hx; [by destruct x|]. apply not_true_iff_false.
  rewrite flt_rank by done. unfold rank_lt. lia.
Qed.
Lemma flt_trans x y z :
  is_nan x = false → is_nan y = false → is_nan z = false →
  flt x y = true → flt y z = true → flt x z = true.
Proof. intros. rewrite flt_rank in * by done. unfold rank_lt in *. lia. Qed.
Lemma flt_neg_trans x y z :
  is_nan x = false → is_nan y = false → is_nan z = false →
  flt x y = false → flt y z = false → flt x z = false.
Proof.
  intros ???. rewrite <-!not_true_iff_false, !flt_rank by done. unfold rank_lt. lia.
Qed.

Lemma fle_flt x y : is_nan x = false → is_nan y = false → fle x y = negb (flt y x).
Proof.
  intros Hx Hy. unfold fle, flt, SFleb, SFltb. rewrite (fcompare_swap x y).
  destruct (SFcompare x y) as [[]|] eqn:Hc; [done..|].
  by destruct x as [|[]| |[]], y as [|[]| |[]].
Qed.
Lemma fle_not_nan x y : fle x y = true → is_nan x = false ∧ is_nan y = false.
Proof. by destruct x as [|[]| |[]], y as [|[]| |[]]. Qed.
Lemma float_of_Z_not_nan n : 0 <= n < 2 ^ 53 → is_nan (float_of_Z n) = false.
Proof.
  intros Hn. assert (fle (float_of_Z n) (float_of_Z n) = true) as Hle.
  { rewrite fle_of_Z by done. by apply Z.leb_refl. }
  by apply fle_not_nan in Hle as [? _].
Qed.

(** A number that is neither an infinity nor NaN. *)
Definition is_finite (x : float64) : bool :=
  match x with S754_zero _ | S754_finite _ _ _ => true | _ => false end.

(** ±0 or NaN: what is left of a product with a zero. *)
Definition null (x : float64) : bool :=
  match x with S754_zero _ | S754_nan => true | _ => false end.

Lemma null_fdiv s y : null (fdiv (S754_zero s) y) = true.
Proof. by destruct y. Qed.
Lemma null_fmul_l x y : null x = true → null (fmul x y) = true.
Proof. by destruct x, y. Qed.
Lemma null_fmul_r x y : null y = true → null (fmul x y) = true.
Proof. by destruct x, y. Qed.
Lemma null_not_pos x : null x = true → flt fzero x = false.
Proof. by destruct x as [[]|[]| |[]]. Qed.
Lemma fdiv_null x y : null y = true → null x = false → is_finite (fdiv x y) = false.
Proof. by destruct x, y. Qed.
Lemma is_finite_fopp x : is_finite (fopp x) = is_finite x.
Proof. by destruct x. Qed.

(** The operations are evaluated by [vm_compute] only. *)
#[global] Arguments fadd : simpl never.
#[global] Arguments fsub : simpl never.
#[global] Arguments fmul : simpl never.
#[global] Arguments fdiv : simpl never.
#[global] Arguments fopp : simpl never.
#[global] Arguments flt : simpl never.
#[global] Arguments fle : simpl never.
#[global] Arguments fge : simpl never.
#[global] Arguments float_of_Z : simpl never.
#[global] Arguments flit : simpl never.
