(* ===== verification/GoNet.v ===== *)
(** * IP addresses of the Go standard library

    What the source uses of net.IP: [ParseIP] (net/netip's parser of IPv4 and
    IPv6 text, zones refused), [To4], [To16], [IsPrivate] and [String]. An IP is
    a slice of bytes, each an [N] below 256; nil is the empty slice. *)

From S2P Require Import Prelude GoStrings.
From Stdlib Require Import Ascii.
From stdpp Require Import pretty.
Local Open Scope N_scope.

Definition IP := list N.

Definition v4InV6Prefix : list N := [0; 0; 0; 0; 0; 0; 0; 0; 0; 0; 255; 255].

(** [To4]: the four bytes of an IPv4 address, or nil. *)
Definition To4 (ip : IP) : option IP :=
  if bool_decide (length ip = 4%nat) then Some ip
  else if bool_decide (length ip = 16%nat ∧ take 12 ip = v4InV6Prefix) then Some (drop 12 ip)
  else None.

(** [To16]: the sixteen bytes of an address, or nil. *)
Definition To16 (ip : IP) : option IP :=
  if bool_decide (length ip = 4%nat) then Some (v4InV6Prefix ++ ip)
  else if bool_decide (length ip = 16%nat) then Some ip
  else None.

Definition IsPrivate (ip : IP) : bool :=
  match To4 ip with
  | Some (a :: b :: _) =>
      (a =? 10) || ((a =? 172) && (N.land b 240 =? 16)) || ((a =? 192) && (b =? 168))
  | Some _ => false
  | None =>
      bool_decide (length ip = 16%nat) && (N.land (default 0 (head ip)) 254 =? 252)
  end.

(** ** String *)

Definition dot : ascii := "."%char.
Definition colon : ascii := ":"%char.

(** The 16-bit groups of an address. *)
Fixpoint groups (bs : list N) : list N :=
  match bs with
  | a :: b :: bs => 256 * a + b :: groups bs
  | _ => []
  end.

(** The number of leading zero groups. *)
Fixpoint zero_run (gs : list N) : nat :=
  match gs with
  | 0 :: gs => S (zero_run gs)
  | _ => 0
  end.

(** The first longest run of at least two zero groups, as start and end. *)
Fixpoint best_run (i : nat) (gs : list N) (best : nat * nat) : nat * nat :=
  match gs with
  | [] => best
  | _ :: gs' =>
      let l := zero_run gs in
      let best :=
        if (2 <=? l)%nat && (best.2 - best.1 <? l)%nat then (i, (i + l)%nat) else best in
      best_run (S i) gs' best
  end.

(** The groups in hex between colons, the run as "::". *)
Fixpoint v6_go (i : nat) (run : nat * nat) (gs : list N) : string :=
  match gs with
  | [] => ""
  | g :: gs =>
      if (i =? run.1)%nat && (run.1 <? run.2)%nat then
        String colon (String colon (v6_go (S i) run gs))
      else if (run.1 <? i)%nat && (i <? run.2)%nat then v6_go (S i) run gs
      else (if (0 <? i)%nat && negb ((i =? run.2)%nat && (run.1 <? run.2)%nat)
            then String colon (hex_N g) else hex_N g) +:+ v6_go (S i) run gs
  end.

Definition v4_string (ip : list N) : string := GoStrings.Join dot (pretty <$> ip).
Definition v6_string (ip : list N) : string :=
  v6_go 0 (best_run 0 (groups ip) (0%nat, 0%nat)) (groups ip).

Fixpoint hex_bytes (bs : list N) : string :=
  match bs with
  | [] => ""
  | b :: bs => String (hex_digit (b / 16)) (String (hex_digit (b mod 16)) (hex_bytes bs))
  end.

Definition IP_String (ip : IP) : string :=
  if bool_decide (ip = []) then "<nil>"
  else if negb (bool_decide (length ip = 4%nat)) && negb (bool_decide (length ip = 16%nat))
    then "?" +:+ hex_bytes ip
  else match To4 ip with
       | Some p4 => v4_string p4
       | None => v6_string ip
       end.

(** ** ParseIP *)

(** [parseIPv4Fields]: [first] at index 0, [prevDot] after a dot. *)
Fixpoint v4_fields (s : string) (first prevDot : bool) (val : N) (digLen : nat)
    (fields : list N) : option (list N) :=
  match s with
  | EmptyString => if (length fields <? 3)%nat then None else Some (fields ++ [val])
  | String c s =>
      if is_digit c then
        if (digLen =? 1)%nat && (val =? 0) then None else
        let val := val * 10 + (N_of_ascii c - 48) in
        if 255 <? val then None else v4_fields s false false val (S digLen) fields
      else if bool_decide (c = dot) then
        if first || bool_decide (s = "") || prevDot then None
        else if (length fields =? 3)%nat then None
        else v4_fields s false true 0 0 (fields ++ [val])
      else None
  end.
Definition parseIPv4Fields (s : string) : option (list N) := v4_fields s true false 0 0 [].

(** The value of a hex digit of either case. *)
Definition hex_digit_value (c : ascii) : option N :=
  let n := N_of_ascii c in
  if (48 <=? n) && (n <=? 57) then Some (n - 48)
  else if (97 <=? n) && (n <=? 102) then Some (n - 87)
  else if (65 <=? n) && (n <=? 70) then Some (n - 55)
  else None.

(** A run of hex digits: its value, its length and the rest; more than four
    digits fail. *)
Fixpoint hex_run (s : string) (acc : N) (off : nat) : option (N * nat * string) :=
  match s with
  | EmptyString => Some (acc, off, s)
  | String c s' =>
      match hex_digit_value c with
      | None => Some (acc, off, s)
      | Some d => if (3 <? off)%nat then None else hex_run s' (acc * 16 + d) (S off)
      end
  end.

(** The loop of [parseIPv6]: at most eight groups. The bytes so far, the position
    of the ellipsis and what is left of the text. *)
Fixpoint v6_loop (fuel : nat) (s : string) (ip : list N) (ellipsis : option nat)
    : option (list N * option nat * string) :=
  match fuel with
  | O => Some (ip, ellipsis, s)
  | S fuel =>
      '(acc, off, rest) ← hex_run s 0 0;
      if (off =? 0)%nat then None else
      match rest with
      | EmptyString => Some (ip ++ [acc / 256; acc mod 256], ellipsis, "")
      | String c rest' =>
          if bool_decide (c = dot) then
            if bool_decide (ellipsis = None) && negb (length ip =? 12)%nat then None
            else if (16 <? length ip + 4)%nat then None
            else fields ← parseIPv4Fields s; Some (ip ++ fields, ellipsis, "")
          else
            let ip := ip ++ [acc / 256; acc mod 256] in
            if negb (bool_decide (c = colon)) then None else
            match rest' with
            | EmptyString => None
            | String c2 rest2 =>
                if bool_decide (c2 = colon) then
                  if bool_decide (ellipsis = None) then
                    if bool_decide (rest2 = "") then Some (ip, Some (length ip), "")
                    else v6_loop fuel rest2 ip (Some (length ip))
                  else None
                else v6_loop fuel rest' ip ellipsis
            end
      end
  end.

(** Check the end, and expand the ellipsis. *)
Definition v6_finish (r : list N * option nat * string) : option (list N) :=
  let '(ip, ellipsis, s) := r in
  if negb (bool_decide (s = "")) then None
  else match ellipsis with
       | None => if (length ip <? 16)%nat then None else Some ip
       | Some e =>
           if (length ip <? 16)%nat
           then Some (take e ip ++ replicate (16 - length ip) 0 ++ drop e ip) else None
       end.

Definition parseIPv6 (s : string) : option (list N) :=
  match s with
  | String c1 (String c2 s') =>
      if bool_decide (c1 = colon) && bool_decide (c2 = colon) then
        if bool_decide (s' = "") then Some (replicate 16 0)
        else r ← v6_loop 8 s' [] (Some 0%nat); v6_finish r
      else r ← v6_loop 8 s [] None; v6_finish r
  | _ => r ← v6_loop 8 s [] None; v6_finish r
  end.

(** [ParseAddr]: the first dot or colon decides; a zone makes [ParseIP] fail. *)
Fixpoint first_sep (s : string) : option ascii :=
  match s with
  | EmptyString => None
  | String c s => if bool_decide (c = dot ∨ c = colon ∨ c = "%"%char) then Some c else first_sep s
  end.

Definition ParseIP (s : string) : option IP :=
  match first_sep s with
  | Some c =>
      if bool_decide (c = dot) then (λ f, v4InV6Prefix ++ f) <$> parseIPv4Fields s
      else if bool_decide (c = colon) then
        if no_char "%"%char s then parseIPv6 s else None
      else None
  | None => None
  end.

(** ** Lemmas *)

Lemma v4_octet a (t : string) (first prevDot : bool) fields :
  a < 256 →
  v4_fields (pretty a +:+ t) first prevDot 0 0 fields =
  v4_fields t false false a (String.length (pretty a)) fields.
Proof.
  intros Ha. revert t first prevDot fields.
  apply (small_N (λ a, ∀ t first prevDot fields, v4_fields (pretty a +:+ t) first prevDot 0 0 fields =
    v4_fields t false false a (String.length (pretty a)) fields) 256); [|done].
  repeat constructor.
Qed.

Lemma first_sep_octet a (t : string) : a < 256 → first_sep (pretty a +:+ t) = first_sep t.
Proof.
  intros Ha. revert t.
  apply (small_N (λ a, ∀ t, first_sep (pretty a +:+ t) = first_sep t) 256); [|done].
  repeat constructor.
Qed.

Lemma v4_dot a t fields :
  a < 256 → t ≠ "" → (length fields < 3)%nat →
  v4_fields (String dot t) false false a (String.length (pretty a)) fields =
  v4_fields t false true 0 0 (fields ++ [a]).
Proof.
  intros Ha Ht Hf. cbn [v4_fields]. cbn [is_digit dot]. simpl.
  rewrite (bool_decide_false (t = "")) by done. simpl.
  destruct (Nat.eqb_spec (length fields) 3); [lia|done].
Qed.

Lemma pretty_ne (a : N) (t : string) : pretty a +:+ t ≠ "".
Proof.
  intros Heq. assert (pretty a = "") as Hp by (by destruct (pretty a)).
  revert Hp. unfold pretty, pretty_N. case_decide; [done|]. intros Hp.
  rewrite pretty_N_go_step in Hp by lia.
  assert (∀ x s, pretty_N_go x s = "" → s = "") as Hgo.
  { intros x. induction (N.lt_wf_0 x) as [x _ IH]. intros s.
    destruct (decide (0 < x)) as [Hx|Hx].
    - rewrite pretty_N_go_step by done. intros Hs.
      specialize (IH (x `div` 10) (N.div_lt x 10 Hx eq_refl) _ Hs). done.
    - assert (x = 0) as -> by lia. by rewrite pretty_N_go_0. }
  by apply Hgo in Hp.
Qed.

(** IPv4 text is read back. *)
Lemma ParseIP_v4 a b c d :
  a < 256 → b < 256 → c < 256 → d < 256 →
  ParseIP (IP_String [a; b; c; d]) = Some (v4InV6Prefix ++ [a; b; c; d]).
Proof.
  intros Ha Hb Hc Hd.
  change (IP_String [a; b; c; d]) with (pretty a +:+ String dot (pretty b +:+ String dot
    (pretty c +:+ String dot (pretty d)))).
  unfold ParseIP. rewrite first_sep_octet by done.
  change (first_sep (String dot ?t)) with (Some dot). cbv beta iota.
  rewrite (bool_decide_true (dot = dot)) by done. unfold parseIPv4Fields.
  rewrite v4_octet, v4_dot by (done || apply pretty_ne || (simpl; lia)).
  rewrite v4_octet, v4_dot by (done || apply pretty_ne || (simpl; lia)).
  rewrite v4_octet, v4_dot by (done || apply pretty_ne || (simpl; lia) ||
    (rewrite <-(app_nil_s (pretty d)); apply pretty_ne)).
  rewrite <-(app_nil_s (pretty d)), v4_octet by done. done.
Qed.

Lemma To4_v4 ip : length ip = 4%nat → To4 (v4InV6Prefix ++ ip) = Some ip.
Proof.
  by destruct ip as [|a [|b [|c [|d [|e ip]]]]].
Qed.

Lemma v4_fields_length s first prevDot val digLen fields fs :
  (length fields <= 3)%nat →
  v4_fields s first prevDot val digLen fields = Some fs → length fs = 4%nat.
Proof.
  revert first prevDot val digLen fields. induction s as [|c s IH]; intros first prevDot val digLen fields Hf.
  - simpl. destruct (Nat.ltb_spec (length fields) 3); [done|]. intros [= <-].
    rewrite length_app. simpl. lia.
  - cbn [v4_fields]. destruct (is_digit c).
    + destruct (_ && _); [done|]. simpl. destruct (255 <? _); [done|]. by apply IH.
    + case_bool_decide; [|done]. destruct (_ || _); [done|].
      destruct (Nat.eqb_spec (length fields) 3); [done|]. apply IH. rewrite length_app. simpl. lia.
Qed.

Lemma To4_length ip p4 : To4 ip = Some p4 → length p4 = 4%nat.
Proof.
  unfold To4. case_bool_decide as H4; [by intros [= <-]|]. case_bool_decide as H16; [|done].
  intros [= <-]. destruct H16 as [H16 _]. by rewrite length_drop, H16.
Qed.
Lemma To16_length ip p16 : To16 ip = Some p16 → length p16 = 16%nat.
Proof.
  unfold To16. case_bool_decide as H4; [intros [= <-]; simpl; lia|].
  case_bool_decide; [|done]. by intros [= <-].
Qed.

(** The text of an address with an IPv4 form is that form, and is read back. *)
Lemma ParseIP_String ip p4 :
  Forall (λ b, b < 256) ip → To4 ip = Some p4 →
  ParseIP (IP_String ip) = Some (v4InV6Prefix ++ p4).
Proof.
  intros Hb Hp4. pose proof (To4_length _ _ Hp4) as Hl.
  assert (IP_String ip = IP_String p4 ∧ Forall (λ b, b < 256) p4) as [-> Hb4].
  { revert Hp4. unfold To4. case_bool_decide as H4; [by intros [= <-]|].
    case_bool_decide as H16; [|done]. intros [= <-]. destruct H16 as [H16 Hpre].
    split; [|by apply Forall_drop]. rewrite <-(take_drop 12 ip), Hpre.
    assert (length (drop 12 ip) = 4%nat) as Hd by (by rewrite length_drop, H16).
    by destruct (drop 12 ip) as [|a [|b [|c [|d [|e l]]]]]. }
  destruct p4 as [|a [|b [|c [|d [|e p4]]]]]; try done.
  rewrite !Forall_cons in Hb4. apply ParseIP_v4; tauto.
Qed.
