(* ===== verification/Externals.v ===== *)
(** * The packages peekd calls

    Prysm's params, p2p, slots and forks packages, go-ethereum's hexutil and
    go-bitfield are not part of the repository. Each is a type class: its fields
    are parameters of the model, and the laws a theorem relies on are separate
    decidable predicates or classes, stating what the package documents. The
    instances at the end carry the documented mainnet values; they serve the
    witnesses, no definition uses them. *)

From S2P Require Import Prelude GoStrings GoTime.
Local Open Scope Z_scope.

(** ** params.BeaconChainConfig: the fields the source reads *)
Record BeaconChainConfig := {
  SecondsPerSlot : Z;
  SlotsPerEpoch : Z;
  GenesisForkVersion : string;
  AltairForkVersion : string;
  AltairForkEpoch : Z;
  BellatrixForkVersion : string;
  BellatrixForkEpoch : Z;
  CapellaForkVersion : string;
  CapellaForkEpoch : Z;
  DenebForkVersion : string;
  DenebForkEpoch : Z;
  ElectraForkVersion : string;
  ElectraForkEpoch : Z;
  FuluForkVersion : string;
  FuluForkEpoch : Z;
  AttestationSubnetCount : Z;
  SyncCommitteeSubnetCount : Z;
  BlobsidecarSubnetCount : Z;
  TargetCommitteeSize : Z;
  MaxCommitteesPerSlot : Z;
  TargetAggregatorsPerCommittee : Z;
  TargetAggregatorsPerSyncSubcommittee : Z;
  SyncCommitteeSize : Z;
  MaxPayloadSize : Z;
  GenesisValidatorsRoot : string;
}.

(** params.NetworkConfig: the fields the source reads *)
Record NetworkConfig := {
  AttSubnetKey : string;
  SyncCommsSubnetKey : string;
  ETH2Key : string;
  BootstrapNodes : list string;
}.

(** The params package: the two network names and configurations. *)
Class Params := {
  MainnetName : string;
  HoodiName : string;
  MainnetConfig : BeaconChainConfig;
  HoodiConfig : BeaconChainConfig;
  HoodiNetworkConfig : NetworkConfig;
}.

(** ** The beacon-chain/p2p package: gossip message names and topic formats,
    req/resp topics, and the protocol suffix of the SSZ encoder. *)
Class P2P := {
  GossipBlockMessage : string;
  GossipAggregateAndProofMessage : string;
  GossipContributionAndProofMessage : string;
  GossipProposerSlashingMessage : string;
  GossipAttesterSlashingMessage : string;
  GossipExitMessage : string;
  GossipBlsToExecutionChangeMessage : string;
  GossipAttestationMessage : string;
  GossipSyncCommitteeMessage : string;
  GossipBlobSidecarMessage : string;
  BlockSubnetTopicFormat : string;
  BlobSubnetTopicFormat : string;
  AggregateAndProofSubnetTopicFormat : string;
  AttestationSubnetTopicFormat : string;
  SyncContributionAndProofSubnetTopicFormat : string;
  SyncCommitteeSubnetTopicFormat : string;
  ProposerSlashingSubnetTopicFormat : string;
  AttesterSlashingSubnetTopicFormat : string;
  BlsToExecutionChangeSubnetTopicFormat : string;
  ExitSubnetTopicFormat : string;
  ProtocolSuffixSSZSnappy : string;
  RPCPingTopicV1 : string;
  RPCGoodByeTopicV1 : string;
  RPCStatusTopicV1 : string;
  RPCMetaDataTopicV1 : string;
  RPCMetaDataTopicV2 : string;
}.

(** ** time/slots: [slots.Since(t)] at the current time, and [slots.ToEpoch] *)
Class Slots := {
  slots_Since : Time → Time → Z;
  slots_ToEpoch : Z → Z;
}.

(** ** network/forks: the digest of the current fork (four bytes) and the version
    and epoch of the next one *)
Class Forks := {
  CreateForkDigest : Time → string → error + string;
  NextForkData : Z → error + string * Z;
}.

(** ** common/hexutil *)
Class Hexutil := { MustDecode : string → outcome string }.

(** ** go-bitfield: Bitvector64 and Bitvector4 *)
Class Bitfield := {
  Bitvector64 : Type;
  Bitvector4 : Type;
  NewBitvector64 : Bitvector64;
  MakeBitvector4 : Z → Bitvector4;
  SetBitAt64 : Bitvector64 → Z → bool → Bitvector64;
  SetBitAt4 : Bitvector4 → Z → bool → Bitvector4;
  BitAt64 : Bitvector64 → Z → bool;
  BitAt4 : Bitvector4 → Z → bool;
}.

(** What go-bitfield documents: a fresh vector has no bit set, a write changes
    the addressed bit only, and an index past the end is ignored. *)
Class BitfieldLaws `{Bitfield} := {
  NewBitvector64_bit i : BitAt64 NewBitvector64 i = false;
  MakeBitvector4_bit i : BitAt4 (MakeBitvector4 0) i = false;
  SetBitAt64_bit b i v j : 0 <= i →
    BitAt64 (SetBitAt64 b i v) j = if bool_decide (i = j ∧ i < 64) then v else BitAt64 b j;
  SetBitAt4_bit b i v j : 0 <= i →
    BitAt4 (SetBitAt4 b i v) j = if bool_decide (i = j ∧ i < 4) then v else BitAt4 b j;
}.

(** ** What the configurations guarantee *)

(** The forks whose versions the source reads, oldest first. *)
Definition forks (c : BeaconChainConfig) : list (Z * string) :=
  [(0, GenesisForkVersion c);
   (AltairForkEpoch c, AltairForkVersion c);
   (BellatrixForkEpoch c, BellatrixForkVersion c);
   (CapellaForkEpoch c, CapellaForkVersion c);
   (DenebForkEpoch c, DenebForkVersion c);
   (ElectraForkEpoch c, ElectraForkVersion c)].

(** Forks are scheduled in order, with distinct versions of four bytes. *)
Definition forks_ok (c : BeaconChainConfig) : bool :=
  bool_decide (Sorted Z.le (forks c).*1) &&
  bool_decide (NoDup (forks c).*2) &&
  bool_decide (Forall (λ v, String.length v = 4%nat) (forks c).*2).

(** The whole schedule of a configuration: the source reads the epoch of Fulu too. *)
Definition schedule (c : BeaconChainConfig) : list (Z * string) :=
  forks c ++ [(FuluForkEpoch c, FuluForkVersion c)].
Definition schedule_ok (c : BeaconChainConfig) : bool :=
  forks_ok c && (ElectraForkEpoch c <=? FuluForkEpoch c).

(** The counts and durations of a usable configuration. *)
Definition config_ok (c : BeaconChainConfig) : bool :=
  (0 <? SecondsPerSlot c) && (SecondsPerSlot c <? 2 ^ 16) &&
  (0 <? SlotsPerEpoch c) && (SlotsPerEpoch c <? 2 ^ 10) &&
  (0 <=? AttestationSubnetCount c) && (AttestationSubnetCount c <? 2 ^ 16) &&
  (0 <=? SyncCommitteeSubnetCount c) && (SyncCommitteeSubnetCount c <? 2 ^ 16) &&
  (0 <=? BlobsidecarSubnetCount c) && (BlobsidecarSubnetCount c <? 2 ^ 16).

(** ** Mainnet, as documented *)

Definition version (n : N) : string :=
  String (Ascii.ascii_of_N n) (String Ascii.zero (String Ascii.zero
    (String Ascii.zero EmptyString))).

Definition mainnet : BeaconChainConfig := {|
  SecondsPerSlot := 12; SlotsPerEpoch := 32;
  GenesisForkVersion := version 0;
  AltairForkVersion := version 1; AltairForkEpoch := 74240;
  BellatrixForkVersion := version 2; BellatrixForkEpoch := 144896;
  CapellaForkVersion := version 3; CapellaForkEpoch := 194048;
  DenebForkVersion := version 4; DenebForkEpoch := 269568;
  ElectraForkVersion := version 5; ElectraForkEpoch := 364032;
  FuluForkVersion := version 6; FuluForkEpoch := 411392;
  AttestationSubnetCount := 64; SyncCommitteeSubnetCount := 4;
  BlobsidecarSubnetCount := 6; TargetCommitteeSize := 128;
  MaxCommitteesPerSlot := 64; TargetAggregatorsPerCommittee := 16;
  TargetAggregatorsPerSyncSubcommittee := 16; SyncCommitteeSize := 512;
  MaxPayloadSize := 10485760; GenesisValidatorsRoot := EmptyString;
|}.

Definition hoodi_network : NetworkConfig := {|
  AttSubnetKey := "attnets"; SyncCommsSubnetKey := "syncnets"; ETH2Key := "eth2";
  BootstrapNodes := [];
|}.

Definition prysm_params : Params := {|
  MainnetName := "mainnet"; HoodiName := "hoodi";
  MainnetConfig := mainnet; HoodiConfig := mainnet;
  HoodiNetworkConfig := hoodi_network;
|}.

Definition prysm_p2p : P2P := {|
  GossipBlockMessage := "beacon_block";
  GossipAggregateAndProofMessage := "beacon_aggregate_and_proof";
  GossipContributionAndProofMessage := "sync_committee_contribution_and_proof";
  GossipProposerSlashingMessage := "proposer_slashing";
  GossipAttesterSlashingMessage := "attester_slashing";
  GossipExitMessage := "voluntary_exit";
  GossipBlsToExecutionChangeMessage := "bls_to_execution_change";
  GossipAttestationMessage := "beacon_attestation";
  GossipSyncCommitteeMessage := "sync_committee";
  GossipBlobSidecarMessage := "blob_sidecar";
  BlockSubnetTopicFormat := "/eth2/%x/beacon_block";
  BlobSubnetTopicFormat := "/eth2/%x/blob_sidecar_%d";
  AggregateAndProofSubnetTopicFormat := "/eth2/%x/beacon_aggregate_and_proof";
  AttestationSubnetTopicFormat := "/eth2/%x/beacon_attestation_%d";
  SyncContributionAndProofSubnetTopicFormat :=
    "/eth2/%x/sync_committee_contribution_and_proof";
  SyncCommitteeSubnetTopicFormat := "/eth2/%x/sync_committee_%d";
  ProposerSlashingSubnetTopicFormat := "/eth2/%x/proposer_slashing";
  AttesterSlashingSubnetTopicFormat := "/eth2/%x/attester_slashing";
  BlsToExecutionChangeSubnetTopicFormat := "/eth2/%x/bls_to_execution_change";
  ExitSubnetTopicFormat := "/eth2/%x/voluntary_exit";
  ProtocolSuffixSSZSnappy := "ssz_snappy";
  RPCPingTopicV1 := "/eth2/beacon_chain/req/ping/1";
  RPCGoodByeTopicV1 := "/eth2/beacon_chain/req/goodbye/1";
  RPCStatusTopicV1 := "/eth2/beacon_chain/req/status/1";
  RPCMetaDataTopicV1 := "/eth2/beacon_chain/req/metadata/1";
  RPCMetaDataTopicV2 := "/eth2/beacon_chain/req/metadata/2";
|}.

Definition clock_slots : Slots := {|
  slots_Since := λ genesis now, Z.max 0 ((Time_Unix now - Time_Unix genesis) / 12);
  slots_ToEpoch := λ slot, slot / 32;
|}.

(** A fixed digest; no fork is scheduled next. *)
Definition fixed_forks : Forks := {|
  CreateForkDigest := λ _ _, inr (String (Ascii.ascii_of_N 106) (String (Ascii.ascii_of_N 149)
    (String (Ascii.ascii_of_N 161) (String (Ascii.ascii_of_N 169) ""))));
  NextForkData := λ _, inr (version 5, 2 ^ 64 - 1);
|}.

Definition hex_hexutil : Hexutil := {|
  MustDecode := λ s,
    match s with
    | String _ (String _ s) =>
        match hex_decode s with
        | Some b => Ret b
        | None => Panicked (panic_msg "invalid hex string")
        end
    | _ => Panicked (panic_msg "empty hex string")
    end;
|}.

(** Bit vectors as sets of indices. *)
Definition set_bitfield : Bitfield := {|
  Bitvector64 := gset Z; Bitvector4 := gset Z;
  NewBitvector64 := ∅; MakeBitvector4 := λ _, ∅;
  SetBitAt64 := λ b i v,
    if bool_decide (i < 64) then (if v then {[i]} ∪ b else b ∖ {[i]}) else b;
  SetBitAt4 := λ b i v,
    if bool_decide (i < 4) then (if v then {[i]} ∪ b else b ∖ {[i]}) else b;
  BitAt64 := λ b i, bool_decide (i ∈ b);
  BitAt4 := λ b i, bool_decide (i ∈ b);
|}.

Lemma set_bitfield_write (n : Z) (b : gset Z) i (v : bool) j :
  bool_decide (j ∈ (if bool_decide (i < n)
                    then (if v then {[i]} ∪ b else b ∖ {[i]}) else b)) =
  (if bool_decide (i = j ∧ i < n) then v else bool_decide (j ∈ b)).
Proof.
  destruct (decide (i < n)) as [Hi|Hi].
  - rewrite (bool_decide_true (i < n)) by done. destruct (decide (i = j)) as [->|Hj].
    + rewrite (bool_decide_true (j = j ∧ j < n)) by done. destruct v;
        [apply bool_decide_eq_true | apply bool_decide_eq_false]; set_solver.
    + rewrite (bool_decide_false (i = j ∧ i < n)) by lia.
      apply bool_decide_ext. destruct v; set_solver.
  - rewrite (bool_decide_false (i < n)), (bool_decide_false (i = j ∧ i < n)) by lia.
    done.
Qed.

Definition set_bitfield_laws : @BitfieldLaws set_bitfield.
Proof.
  split; simpl.
  - intros i. by apply bool_decide_eq_false, not_elem_of_empty.
  - intros i. by apply bool_decide_eq_false, not_elem_of_empty.
  - intros b i v j _. apply (set_bitfield_write 64).
  - intros b i v j _. apply (set_bitfield_write 4).
Qed.
