(* ===== verification/Eth.v ===== *)
(** * eth/network.go: the selected network and what is derived from it

    The package variable [network] is an argument of every getter; [SetNetwork]
    returns its new value. A getter on an unset network panics. *)

From S2P Require Import Prelude GoStrings GoTime Externals.
Local Open Scope Z_scope.

(** Package state: the [network] variable, and the network configuration that
    Prysm keeps globally and [params.UseHoodiNetworkConfig] replaces. *)
Record eth_state := EthState {
  network : string;
  networkConfig : NetworkConfig;
}.

Record GenesisConfig := {
  GenesisTime : Time;
  GenesisValidatorRoot : string;
}.

Definition network_error : error := errors_New "failed to get ethereum network".

Section Eth.
Context `{Params, P2P, Slots, Hexutil, Bitfield}.

Definition supported (net : string) : bool :=
  bool_decide (net = MainnetName) || bool_decide (net = HoodiName).

Definition GetNetwork (net : string) : outcome string :=
  if supported net then Ret net else Panicked (panic_error network_error).

Definition SetNetwork (net : string) (old : string) : string * option error :=
  if supported net then (net, None)
  else (old, Some (errors_New "network must be set only for supported ethereum")).

(** [switch GetNetwork() { case MainnetName: a; case HoodiName: b; default: panic }] *)
Definition by_network {A} (net : string) (main hoodi : outcome A) : outcome A :=
  n ← GetNetwork net;
  if bool_decide (n = MainnetName) then main
  else if bool_decide (n = HoodiName) then hoodi
  else Panicked (panic_error network_error).

Definition genesis_config (unix : Z) (root : string) : outcome GenesisConfig :=
  root ← MustDecode root;
  Ret {| GenesisTime := time_Unix unix; GenesisValidatorRoot := root |}.

Definition GetGenesisConfig (net : string) : outcome GenesisConfig :=
  by_network net
    (genesis_config 1606824023
       "0x4b363db94e286120d76eb905340fdd4e54bfe9f06bf33ff6cf5ad27f511bfe95")
    (genesis_config 1742213400
       "0x212f13fc4df078b6cb7db228f1c8307566dcecf900867401a92023d7ba99cb5f").

Definition GetBeaconNetworkConfig (s : eth_state) : eth_state * outcome NetworkConfig :=
  match by_network (network s) (Ret false) (Ret true) with
  | Ret false => (s, Ret (networkConfig s))
  | Ret true =>
      let s := EthState (network s) HoodiNetworkConfig in
      (s, Ret (networkConfig s))
  | Fail e => (s, Fail e)
  | Panicked p => (s, Panicked p)
  end.

Definition GetBeaconChainConfig (net : string) : outcome BeaconChainConfig :=
  by_network net (Ret MainnetConfig) (Ret HoodiConfig).

(** The conversion [[4]byte(slice)]. *)
Definition to_array4 (v : string) : outcome string :=
  if (4 <=? String.length v)%nat then Ret (String.substring 0 4 v)
  else Panicked panic_index.

Definition fork_version (c : BeaconChainConfig) (epoch : Z) : outcome string :=
  if epoch <? AltairForkEpoch c then to_array4 (GenesisForkVersion c)
  else if epoch <? BellatrixForkEpoch c then to_array4 (AltairForkVersion c)
  else if epoch <? CapellaForkEpoch c then to_array4 (BellatrixForkVersion c)
  else if epoch <? DenebForkEpoch c then to_array4 (CapellaForkVersion c)
  else if epoch <? ElectraForkEpoch c then to_array4 (DenebForkVersion c)
  else if epoch <? FuluForkEpoch c then to_array4 (ElectraForkVersion c)
  else to_array4 (ElectraForkVersion c).

Definition GetForkVersion (net : string) (epoch : Z) : outcome string :=
  beaconConfig ← GetBeaconChainConfig net;
  fork_version beaconConfig epoch.

Definition GetCurrentForkVersion (net : string) (now : Time) : outcome string :=
  g ← GetGenesisConfig net;
  let curEpoch := slots_ToEpoch (slots_Since (GenesisTime g) now) in
  GetForkVersion net curEpoch.

Definition HasSubnets (net rawTopic : string) : outcome (Z * bool) :=
  beaconConfig ← GetBeaconChainConfig net;
  Ret (if bool_decide (rawTopic = BlobSubnetTopicFormat) then
         (BlobsidecarSubnetCount beaconConfig, true)
       else if bool_decide (rawTopic = AttestationSubnetTopicFormat) then
         (AttestationSubnetCount beaconConfig, true)
       else if bool_decide (rawTopic = SyncCommitteeSubnetTopicFormat) then
         (SyncCommitteeSubnetCount beaconConfig, true)
       else (0, false)).

Definition GetSlotDuration (net : string) : outcome Duration :=
  c ← GetBeaconChainConfig net;
  Ret (dmul (dmul 1 Second) (i64 (SecondsPerSlot c))).

Definition GetEpochDuration (net : string) : outcome Duration :=
  d ← GetSlotDuration net;
  c ← GetBeaconChainConfig net;
  Ret (dmul d (i64 (SlotsPerEpoch c))).

Definition GetAttestationAllSubnetBitvector (net : string) : outcome Bitvector64 :=
  c ← GetBeaconChainConfig net;
  Ret (foldl (λ b i, SetBitAt64 b i true) NewBitvector64
         (seqZ 0 (AttestationSubnetCount c))).

Definition GetSyncCommitteeAllSubnetBitvector (net : string) : outcome Bitvector4 :=
  c ← GetBeaconChainConfig net;
  Ret (foldl (λ b i, SetBitAt4 b i true) (MakeBitvector4 0)
         (seqZ 0 (SyncCommitteeSubnetCount c))).

(** ** Lemmas *)

Lemma supported_spec net : supported net = true ↔ net = MainnetName ∨ net = HoodiName.
Proof. unfold supported. rewrite orb_true_iff, !bool_decide_eq_true. done. Qed.

Lemma by_network_supported {A} net (main hoodi : outcome A) :
  supported net = true →
  by_network net main hoodi = if bool_decide (net = MainnetName) then main else hoodi.
Proof.
  intros Hs. unfold by_network, GetNetwork. rewrite Hs. simpl.
  apply supported_spec in Hs as [->| ->]; [by rewrite bool_decide_true|].
  case_bool_decide; [done|]. by rewrite bool_decide_true.
Qed.

Lemma by_network_unsupported {A} net (main hoodi : outcome A) :
  supported net = false → by_network net main hoodi = Panicked (panic_error network_error).
Proof. intros Hs. unfold by_network, GetNetwork. by rewrite Hs. Qed.

(** The configuration a supported network selects. *)
Definition chain_config (net : string) : BeaconChainConfig :=
  if bool_decide (net = MainnetName) then MainnetConfig else HoodiConfig.

Lemma GetBeaconChainConfig_supported net :
  supported net = true → GetBeaconChainConfig net = Ret (chain_config net).
Proof.
  intros Hs. unfold GetBeaconChainConfig, chain_config.
  rewrite by_network_supported by done. by case_bool_decide.
Qed.

Lemma GetSlotDuration_supported net :
  supported net = true → 0 <= SecondsPerSlot (chain_config net) < 2 ^ 16 →
  GetSlotDuration net = Ret (SecondsPerSlot (chain_config net) * Second).
Proof.
  intros Hs Hc. unfold GetSlotDuration.
  rewrite GetBeaconChainConfig_supported by done. simpl. f_equal.
  unfold dmul, Second. unwrap_small. lia.
Qed.

Lemma GetEpochDuration_supported net :
  supported net = true → 0 <= SecondsPerSlot (chain_config net) < 2 ^ 16 →
  0 <= SlotsPerEpoch (chain_config net) < 2 ^ 10 →
  GetEpochDuration net =
    Ret (SecondsPerSlot (chain_config net) * SlotsPerEpoch (chain_config net) * Second).
Proof.
  intros Hs Hc He. unfold GetEpochDuration.
  rewrite GetSlotDuration_supported by done. simpl.
  rewrite GetBeaconChainConfig_supported by done. simpl. f_equal.
  unfold dmul, Second. rewrite (i64_small (SlotsPerEpoch _)) by (unfold is_i64; lia).
  rewrite i64_small by (unfold is_i64; nia). lia.
Qed.

Lemma to_array4_exact v : String.length v = 4%nat → to_array4 v = Ret v.
Proof.
  intros Hv. unfold to_array4. rewrite Hv. simpl. f_equal.
  destruct v as [|a [|b [|c [|d [|e v]]]]]; done.
Qed.

Lemma forks_ok_spec c :
  forks_ok c = true →
  (0 <= AltairForkEpoch c <= BellatrixForkEpoch c ∧
   BellatrixForkEpoch c <= CapellaForkEpoch c <= DenebForkEpoch c ∧
   DenebForkEpoch c <= ElectraForkEpoch c) ∧
  NoDup (forks c).*2 ∧ Forall (λ v, String.length v = 4%nat) (forks c).*2.
Proof.
  unfold forks_ok. rewrite !andb_true_iff, !bool_decide_eq_true.
  intros [[Hs Hd] Hl]. split; [|done].
  simpl in Hs. repeat match goal with
    | H : Sorted _ (_ :: _) |- _ => inversion H; clear H; subst
    | H : HdRel _ _ (_ :: _) |- _ => inversion H; clear H; subst
    end; lia.
Qed.
End Eth.

(** ** The fork schedule, as a specification *)

(** The last fork, in schedule order, whose epoch has been reached. *)
Definition active_fork (c : BeaconChainConfig) (epoch : Z) : option (Z * string) :=
  last (filter (λ f, f.1 <= epoch) (forks c)).

Section ForkSchedule.
Context (c : BeaconChainConfig) (Hc : forks_ok c = true).

Lemma fork_version_active epoch :
  0 <= epoch → fork_version c epoch = from_option (λ f, Ret f.2) (Panicked panic_nil) (active_fork c epoch).
Proof.
  intros He. destruct (forks_ok_spec c Hc) as (Hord & _ & Hlen).
  unfold fork_version, active_fork, forks in *.
  simpl in Hlen. rewrite !Forall_cons in Hlen. destruct_and!.
  repeat match goal with
    | |- context [epoch <? ?e] => destruct (Z.ltb_spec epoch e)
    end;
  repeat first [rewrite filter_cons_True by (simpl; lia)
               | rewrite filter_cons_False by (simpl; lia)];
  rewrite filter_nil; simpl; by apply to_array4_exact.
Qed.

(** From Electra on the version is Electra's. *)
Lemma fork_version_late epoch :
  ElectraForkEpoch c <= epoch → fork_version c epoch = Ret (ElectraForkVersion c).
Proof.
  intros He. destruct (forks_ok_spec c Hc) as (Hord & _ & Hlen).
  unfold forks in Hlen. simpl in Hlen. rewrite !Forall_cons in Hlen. destruct_and!.
  unfold fork_version. rewrite !(proj2 (Z.ltb_ge epoch _)) by lia.
  destruct (epoch <? FuluForkEpoch c); by apply to_array4_exact.
Qed.
End ForkSchedule.

(** The fork found is scheduled, has been reached, and no reached fork is later. *)
Lemma active_fork_latest c epoch :
  forks_ok c = true → 0 <= epoch →
  ∃ f, active_fork c epoch = Some f ∧ f ∈ forks c ∧ f.1 <= epoch ∧
    ∀ g, g ∈ forks c → g.1 <= epoch → g.1 <= f.1.
Proof.
  intros Hc He.
  assert (StronglySorted (λ a b : Z * string, a.1 <= b.1) (forks c)) as Hs.
  { destruct (forks_ok_spec c Hc) as (Hord & _ & _). unfold forks.
    rewrite !StronglySorted_cons, !Forall_cons, !Forall_nil. simpl.
    split_and!; [lia..|constructor]. }
  apply (StronglySorted_filter _ (λ f, f.1 <= epoch)) in Hs.
  assert (∃ f, active_fork c epoch = Some f) as [f Hf].
  { unfold active_fork. destruct (last _) as [f|] eqn:Hl; [by exists f|].
    apply last_None in Hl. unfold forks in Hl. by rewrite filter_cons_True in Hl. }
  exists f. split; [done|].
  apply last_Some in Hf as [l Hl]. rewrite Hl in Hs.
  assert (f ∈ filter (λ f : Z * string, f.1 <= epoch) (forks c))
    as [Hle Hin]%list_elem_of_filter by (rewrite Hl; set_solver).
  split; [done|]. split; [done|]. intros g Hg Hge.
  assert (g ∈ l ++ [f]) as [Hgl|Hgl]%elem_of_app
    by (rewrite <- Hl; by apply list_elem_of_filter).
  - apply (StronglySorted_app_1_elem_of _ l [f] g f Hs Hgl). by apply list_elem_of_singleton.
  - apply list_elem_of_singleton in Hgl as ->. lia.
Qed.

(** Setting the bits of a list of positions of a vector of [n] bits. *)
Lemma set_bits_spec {V} (n : Z) (setBit : V → Z → bool → V) (bitAt : V → Z → bool) :
  (∀ b i v j, 0 <= i →
    bitAt (setBit b i v) j = if bool_decide (i = j ∧ i < n) then v else bitAt b j) →
  ∀ l b j, Forall (Z.le 0) l →
    bitAt (foldl (λ b i, setBit b i true) b l) j =
    bool_decide (j ∈ l ∧ j < n) || bitAt b j.
Proof.
  intros Hset l. induction l as [|i l IH]; intros b j Hl; cbn [foldl].
  { by rewrite (bool_decide_false (j ∈ [] ∧ j < n)) by set_solver. }
  apply Forall_cons in Hl as [Hi Hl]. rewrite IH, Hset by done.
  destruct (decide (i = j ∧ i < n)) as [[-> Hn]|Hij].
  - rewrite (bool_decide_true (j = j ∧ j < n)) by done.
    rewrite (bool_decide_true (j ∈ j :: l ∧ j < n)) by set_solver. apply orb_true_r.
  - rewrite (bool_decide_false (i = j ∧ i < n)) by done. f_equal.
    apply bool_decide_ext. rewrite elem_of_cons. naive_solver.
Qed.

Lemma elem_of_seqZ_0 n j : j ∈ seqZ 0 n ↔ 0 <= j < n.
Proof. rewrite elem_of_seqZ. lia. Qed.
Lemma seqZ_0_nonneg n : Forall (Z.le 0) (seqZ 0 n).
Proof. apply Forall_forall. intros j Hj%elem_of_seqZ_0. lia. Qed.

(** ** Properties *)

Section Claims.
Context `{Params, P2P, Slots, Hexutil, Bitfield}.

(** C19. On a supported network whose configuration schedules its forks in order,
    Fulu last, [GetForkVersion] refines the schedule up to Fulu: the version
    returned is that of a scheduled fork whose epoch has been reached, and no
    reached fork of the whole schedule is later. From the epoch of Fulu on the
    fork reached is Fulu, and the version returned is still Electra's. On any
    other network it panics. *)
Theorem fork_version_refines (net : string) (epoch : Z) :
  schedule_ok (chain_config net) = true → 0 <= epoch →
  (supported net = true → epoch < FuluForkEpoch (chain_config net) →
   ∃ e v, GetForkVersion net epoch = Ret v ∧ (e, v) ∈ schedule (chain_config net) ∧ e <= epoch ∧
     ∀ g, g ∈ schedule (chain_config net) → g.1 <= epoch → g.1 <= e) ∧
  (supported net = true → FuluForkEpoch (chain_config net) <= epoch →
   last (filter (λ g, g.1 <= epoch) (schedule (chain_config net))) =
     Some (FuluForkEpoch (chain_config net), FuluForkVersion (chain_config net)) ∧
   GetForkVersion net epoch = Ret (ElectraForkVersion (chain_config net))) ∧
  (supported net = false → GetForkVersion net epoch = Panicked (panic_error network_error)).
Proof.
  intros [Hc Hfulu%Z.leb_le]%andb_true_iff He. split_and!; intros Hs.
  - intros Hlt. destruct (active_fork_latest _ _ Hc He) as ([e v] & Hf & Hin & Hle & Hlast).
    exists e, v. split_and!; [|unfold schedule; set_solver|done|].
    + unfold GetForkVersion. rewrite GetBeaconChainConfig_supported by done. simpl.
      rewrite fork_version_active by done. by rewrite Hf.
    + intros g [Hg|Hg]%elem_of_app Hge; [by apply Hlast|].
      apply list_elem_of_singleton in Hg as ->. simpl in Hge. lia.
  - intros Hge. split.
    + unfold schedule. rewrite filter_app, filter_cons_True, filter_nil by done. apply last_snoc.
    + unfold GetForkVersion. rewrite GetBeaconChainConfig_supported by done. simpl.
      apply fork_version_late; [done|lia].
  - unfold GetForkVersion, GetBeaconChainConfig. by rewrite by_network_unsupported.
Qed.

(** The network variable only ever holds a supported name once set:
    [SetNetwork] stores a supported name without error and [GetNetwork] then
    returns it; any other name is refused with an error and the variable keeps
    its value, and reading an unsupported variable panics. *)
Lemma set_network_guarded (net old : string) :
  (supported net = true →
     SetNetwork net old = (net, None) ∧ GetNetwork (SetNetwork net old).1 = Ret net) ∧
  (supported net = false →
     (SetNetwork net old).1 = old ∧ is_Some (SetNetwork net old).2 ∧
     GetNetwork net = Panicked (panic_error network_error)) ∧
  (supported old = true → supported (SetNetwork net old).1 = true).
Proof.
  unfold SetNetwork, GetNetwork. destruct (supported net) eqn:Hs; simpl; rewrite ?Hs;
    split_and!; intros; simplify_eq; done.
Qed.

(** C39. The subnet bit vectors announced to the network have exactly the bits of
    the configured subnets set: bit j of the attestation vector is set iff j is
    below the attestation subnet count and below 64, bit j of the sync
    committee vector iff j is below its subnet count and below 4. *)
Theorem subnet_bitvectors_exact `{!BitfieldLaws} (net : string) :
  supported net = true →
  ∃ a s, GetAttestationAllSubnetBitvector net = Ret a ∧
    GetSyncCommitteeAllSubnetBitvector net = Ret s ∧
    (∀ j, BitAt64 a j = true ↔
       0 <= j < Z.min 64 (AttestationSubnetCount (chain_config net))) ∧
    (∀ j, BitAt4 s j = true ↔
       0 <= j < Z.min 4 (SyncCommitteeSubnetCount (chain_config net))).
Proof.
  intros Hs. unfold GetAttestationAllSubnetBitvector, GetSyncCommitteeAllSubnetBitvector.
  rewrite GetBeaconChainConfig_supported by done. simpl. do 2 eexists.
  split_and!; [done..| |]; intros j.
  - rewrite (set_bits_spec 64 _ BitAt64 SetBitAt64_bit) by apply seqZ_0_nonneg.
    rewrite NewBitvector64_bit, orb_false_r, bool_decide_eq_true, elem_of_seqZ_0. lia.
  - rewrite (set_bits_spec 4 _ BitAt4 SetBitAt4_bit) by apply seqZ_0_nonneg.
    rewrite MakeBitvector4_bit, orb_false_r, bool_decide_eq_true, elem_of_seqZ_0. lia.
Qed.
End Claims.

(** ** Witnesses, on mainnet *)
Section Witnesses.
#[local] Existing Instance prysm_params.
#[local] Existing Instance prysm_p2p.
#[local] Existing Instance clock_slots.
#[local] Existing Instance hex_hexutil.
#[local] Existing Instance set_bitfield.
#[local] Existing Instance set_bitfield_laws.

Lemma fork_version_refines_witness :
  (∃ e v, GetForkVersion "mainnet" 300000 = Ret v ∧ (e, v) ∈ schedule mainnet) ∧
  GetForkVersion "mainnet" 411392 = Ret (version 5).
Proof.
  split.
  - destruct (fork_version_refines "mainnet" 300000) as [Hw _]; [vm_compute; reflexivity|lia|].
    destruct Hw as (e & v & Hg & Hin & _); [reflexivity|reflexivity|]. by exists e, v.
  - destruct (fork_version_refines "mainnet" 411392) as (_ & Hl & _); [vm_compute; reflexivity|lia|].
    apply Hl; [reflexivity|]. vm_compute. discriminate.
Defined.

Lemma subnet_bitvectors_exact_witness :
  ∃ a, GetAttestationAllSubnetBitvector "mainnet" = Ret a ∧ BitAt64 a 63 = true.
Proof.
  destruct (subnet_bitvectors_exact "mainnet") as (a & s & Ha & _ & Hb & _); [reflexivity|].
  exists a. split; [exact Ha|]. apply Hb. vm_compute. split; congruence.
Defined.
End Witnesses.
