(* ===== verification/Repository.v ===== *)
(** * repository: the records, the ClickHouse backend and the factory

    [models.go], [clickhouse.go] and [repository.go]. The Repository interface
    is the class [Repository]; [adapter] over a ClickHouse connection is its
    instance. The ClickHouse driver is outside the repository: the class
    [Driver] has the calls the source makes, [DriverLaws] what a batch insert
    documents. *)

From S2P Require Import Prelude GoStrings GoTime.
From stdpp Require Import pretty.
Local Open Scope Z_scope.

(** ** models.go *)

Record GeneralMessageHistory := {
  gm_ArrivalTime : Time;
  gm_ForkVersion : string;
  gm_Topic : string;
  gm_NodeRegion : string;
  gm_NodeAlias : string;
  gm_NodePeerCount : Z;
  gm_MessageID : string;
  gm_SizeBytes : Z;
}.

Record SlotMessageStats := {
  Slot : Z;
  TopicGroup : string;
  ForkVersion : string;
  Topic : string;
  NodeRegion : string;
  NodeAlias : string;
  NodePeerCount : Z;
  MessageID : string;
  SlotStartTime : Time;
  FirstArrivalTime : Time;
  LatencyMS : Z;
  SizeBytes : Z;
  SeenCount : Z;
}.

#[export] Instance SlotMessageStats_eq_dec : EqDecision SlotMessageStats.
Proof. solve_decision. Defined.

(** [stat.SeenCount = n] *)
Definition set_SeenCount (s : SlotMessageStats) (n : Z) : SlotMessageStats := {|
  Slot := Slot s; TopicGroup := TopicGroup s; ForkVersion := ForkVersion s;
  Topic := Topic s; NodeRegion := NodeRegion s; NodeAlias := NodeAlias s;
  NodePeerCount := NodePeerCount s; MessageID := MessageID s;
  SlotStartTime := SlotStartTime s; FirstArrivalTime := FirstArrivalTime s;
  LatencyMS := LatencyMS s; SizeBytes := SizeBytes s; SeenCount := n;
|}.

(** ** The driver *)

Inductive value :=
  | VUInt64 (n : Z)
  | VUInt32 (n : Z)
  | VString (s : string)
  | VTime (t : Time).

#[export] Instance value_eq_dec : EqDecision value.
Proof. solve_decision. Defined.

(** clickhouse.Options, the fields the source sets. *)
Record Options := {
  Addr : list string;
  Auth_Database : string;
  Auth_Username : string;
  Auth_Password : string;
  Protocol_Native : bool;
  max_execution_time : Z;
  DialTimeout : Duration;
  Compression_LZ4 : bool;
  TLS_InsecureSkipVerify : option bool;
}.

Class Driver := {
  Conn : Type;
  Batch : Type;
  clickhouse_Open : Options → error + Conn;
  conn_Ping : Conn → option error;
  conn_Exec : Conn → string → list value → Conn * option error;
  conn_PrepareBatch : Conn → string → Conn * (error + Batch);
  batch_Append : Batch → list value → Batch * option error;
  batch_Send : Conn → Batch → Conn * option error;
  conn_Close : Conn → Conn * option error;
}.

(** A batch insert: a batch starts empty, an append that succeeds adds one row to
    it, and a send that succeeds adds the whole batch to the table. A send that
    fails says nothing of what the server stored before the connection was lost
    or the context ended: any of the rows may be in the table. *)
Class DriverLaws `{Driver} := {
  table_rows : Conn → string → list (list value);
  batch_table : Batch → string;
  batch_rows : Batch → list (list value);
  PrepareBatch_conn c q t : table_rows (conn_PrepareBatch c q).1 t = table_rows c t;
  PrepareBatch_batch c t b :
    (conn_PrepareBatch c ("INSERT INTO " +:+ t)).2 = inr b → batch_table b = t ∧ batch_rows b = [];
  Append_ok b r : (batch_Append b r).2 = None →
    batch_table (batch_Append b r).1 = batch_table b ∧
    batch_rows (batch_Append b r).1 = batch_rows b ++ [r];
  Send_ok c b t : (batch_Send c b).2 = None →
    table_rows (batch_Send c b).1 t =
      table_rows c t ++ (if bool_decide (t = batch_table b) then batch_rows b else []);
  Send_error c b t : (batch_Send c b).2 ≠ None →
    ∃ rows, rows `sublist_of` batch_rows b ∧
      table_rows (batch_Send c b).1 t =
        table_rows c t ++ (if bool_decide (t = batch_table b) then rows else []);
}.

(** ** clickhouse.go *)

Record clickhouseConfig := {
  Host : string;
  Port : Z;
  Database : string;
  Username : string;
  Password : string;
  Secure : bool;
}.

Section ClickHouse.
Context `{Driver}.

Definition clickhouse_options (cfg : clickhouseConfig) : Options := {|
  Addr := [Sprintf "%s:%d" [FString (Host cfg); FUint (Z.to_N (Port cfg))]];
  Auth_Database := Database cfg;
  Auth_Username := Username cfg;
  Auth_Password := Password cfg;
  Protocol_Native := true;
  max_execution_time := 60;
  DialTimeout := 5 * Second;
  Compression_LZ4 := true;
  TLS_InsecureSkipVerify := if Secure cfg then Some true else None;
|}.

Definition NewClickHouseRepository (cfg : clickhouseConfig) : outcome Conn :=
  conn ← wrap "failed to connect to ClickHouse" (of_sum (clickhouse_Open (clickhouse_options cfg)));
  _ ← wrap "failed to ping ClickHouse" (check_err (conn_Ping conn));
  Ret conn.

Definition general_query : string :=
  "
		INSERT INTO general_message_histories (
			arrival_time,
			fork_version,
			topic,
			node_region,
			node_alias,
			node_peer_count,
			message_id,
			size_bytes
		) VALUES (
			?, ?, ?, ?, ?, ?, ?, ?
		)
	".

Definition general_args (h : GeneralMessageHistory) : list value :=
  [VTime (gm_ArrivalTime h); VString (gm_ForkVersion h); VString (gm_Topic h);
   VString (gm_NodeRegion h); VString (gm_NodeAlias h); VUInt32 (gm_NodePeerCount h);
   VString (gm_MessageID h); VUInt32 (gm_SizeBytes h)].

Definition ch_SaveGeneralMessageHistory (c : Conn) (history : ptr GeneralMessageHistory)
    : Conn * option error :=
  match history with
  | None => (c, Some (errors_New "history is nil"))
  | Some h =>
      match conn_Exec c general_query (general_args h) with
      | (c, Some e) => (c, Some (errors_Wrap e "failed to save general message history"))
      | (c, None) => (c, None)
      end
  end.

Definition stat_row (s : SlotMessageStats) : list value :=
  [VUInt64 (Slot s); VString (TopicGroup s); VString (ForkVersion s); VString (Topic s);
   VString (NodeRegion s); VString (NodeAlias s); VUInt32 (NodePeerCount s);
   VString (MessageID s); VTime (SlotStartTime s); VTime (FirstArrivalTime s);
   VUInt32 (LatencyMS s); VUInt32 (SizeBytes s); VUInt32 (SeenCount s)].

(** The loop over [stats]; the first failed append ends it. *)
Fixpoint append_all (b : Batch) (stats : list SlotMessageStats) : Batch * option error :=
  match stats with
  | [] => (b, None)
  | stat :: stats =>
      match batch_Append b (stat_row stat) with
      | (b, Some e) => (b, Some (errors_Wrap e "failed to append message stats"))
      | (b, None) => append_all b stats
      end
  end.

Definition ch_SaveSlotMessageStatsMulti (c : Conn) (stats : list SlotMessageStats)
    : Conn * option error :=
  match stats with
  | [] => (c, None)
  | _ =>
      match conn_PrepareBatch c "INSERT INTO slot_message_stats" with
      | (c, inr b) =>
          match append_all b stats with
          | (_, Some e) => (c, Some e)
          | (b, None) =>
              match batch_Send c b with
              | (c, Some e) => (c, Some (errors_Wrap e "failed to send batch"))
              | (c, None) => (c, None)
              end
          end
      | (c, inl e) => (c, Some (errors_Wrap e "failed to prepare batch"))
      end
  end.

Definition ch_Close (c : Conn) : Conn * option error := conn_Close c.
End ClickHouse.

(** The insert statement of a general record: without an error it adds its
    arguments as one row to the table it names; with one it adds that row or
    nothing. It changes no other table. *)
Class ExecLaws `{DriverLaws} := {
  Exec_general c args : ∃ rows, rows `sublist_of` [args] ∧
    ((conn_Exec c general_query args).2 = None → rows = [args]) ∧
    ∀ t, table_rows (conn_Exec c general_query args).1 t =
      table_rows c t ++ (if bool_decide (t = "general_message_histories") then rows else []);
}.

(** ** repository.go *)

(** The interface. Its methods change the state behind the handle. *)
Class Repository (R : Type) := {
  SaveGeneralMessageHistory : R → ptr GeneralMessageHistory → R * option error;
  SaveSlotMessageStatsMulti : R → list SlotMessageStats → R * option error;
  Close : R → R * option error;
}.

(** [adapter] forwards to the ClickHouse repository it holds. *)
Record adapter `{Driver} := Adapter { chRepo : Conn }.

#[export] Instance adapter_repository `{Driver} : Repository adapter := {
  SaveGeneralMessageHistory a h :=
    let '(c, e) := ch_SaveGeneralMessageHistory (chRepo a) h in (Adapter _ c, e);
  SaveSlotMessageStatsMulti a stats :=
    let '(c, e) := ch_SaveSlotMessageStatsMulti (chRepo a) stats in (Adapter _ c, e);
  Close a := let '(c, e) := ch_Close (chRepo a) in (Adapter _ c, e);
}.

Record RepositoryOption := {
  dbType : string;
  dbName : string;
  dbHost : string;
  dbPort : Z;
  dbUser : string;
  dbPassword : string;
  dbSecure : bool;
}.

Definition WithDBType (v : string) (o : RepositoryOption) : RepositoryOption :=
  {| dbType := v; dbName := dbName o; dbHost := dbHost o; dbPort := dbPort o;
     dbUser := dbUser o; dbPassword := dbPassword o; dbSecure := dbSecure o |}.
Definition WithDBName (v : string) (o : RepositoryOption) : RepositoryOption :=
  {| dbType := dbType o; dbName := v; dbHost := dbHost o; dbPort := dbPort o;
     dbUser := dbUser o; dbPassword := dbPassword o; dbSecure := dbSecure o |}.
Definition WithDBHost (v : string) (o : RepositoryOption) : RepositoryOption :=
  {| dbType := dbType o; dbName := dbName o; dbHost := v; dbPort := dbPort o;
     dbUser := dbUser o; dbPassword := dbPassword o; dbSecure := dbSecure o |}.
Definition WithDBPort (v : Z) (o : RepositoryOption) : RepositoryOption :=
  {| dbType := dbType o; dbName := dbName o; dbHost := dbHost o; dbPort := v;
     dbUser := dbUser o; dbPassword := dbPassword o; dbSecure := dbSecure o |}.
Definition WithDBUser (v : string) (o : RepositoryOption) : RepositoryOption :=
  {| dbType := dbType o; dbName := dbName o; dbHost := dbHost o; dbPort := dbPort o;
     dbUser := v; dbPassword := dbPassword o; dbSecure := dbSecure o |}.
Definition WithDBPassword (v : string) (o : RepositoryOption) : RepositoryOption :=
  {| dbType := dbType o; dbName := dbName o; dbHost := dbHost o; dbPort := dbPort o;
     dbUser := dbUser o; dbPassword := v; dbSecure := dbSecure o |}.
Definition WithDBSecure (v : bool) (o : RepositoryOption) : RepositoryOption :=
  {| dbType := dbType o; dbName := dbName o; dbHost := dbHost o; dbPort := dbPort o;
     dbUser := dbUser o; dbPassword := dbPassword o; dbSecure := v |}.

Definition repository_defaults : RepositoryOption :=
  {| dbType := "clickhouse"; dbName := "peekd"; dbHost := "localhost"; dbPort := 9000;
     dbUser := "default"; dbPassword := ""; dbSecure := false |}.

Definition NewRepository `{Driver} (opts : list (RepositoryOption → RepositoryOption))
    : outcome adapter :=
  let o := apply_opts opts repository_defaults in
  if bool_decide (dbType o = "clickhouse") then
    let chConfig := {| Host := dbHost o; Port := u16 (dbPort o); Database := dbName o;
                       Username := dbUser o; Password := dbPassword o;
                       Secure := dbSecure o |} in
    chRepo ← wrap "failed to create ClickHouse repository" (NewClickHouseRepository chConfig);
    Ret (Adapter _ chRepo)
  else Fail (errors_New ("unsupported database type: " +:+ dbType o)).

(** ** The table definition of migrations/001_init_tables.sql *)

Inductive column_type := CUInt64 | CUInt32 | CString | CDateTime.

Definition slot_message_stats_columns : list (string * column_type) :=
  [("slot", CUInt64); ("topic_group", CString); ("fork_version", CString);
   ("topic", CString); ("node_region", CString); ("node_alias", CString);
   ("node_peer_count", CUInt32); ("message_id", CString);
   ("slot_start_time", CDateTime); ("first_arrival_time", CDateTime);
   ("latency_ms", CUInt32); ("size_bytes", CUInt32); ("seen_count", CUInt32)].

Definition general_message_histories_columns : list (string * column_type) :=
  [("arrival_time", CDateTime); ("fork_version", CString); ("topic", CString);
   ("node_region", CString); ("node_alias", CString); ("node_peer_count", CUInt32);
   ("message_id", CString); ("size_bytes", CUInt32)].

Definition value_type (v : value) : column_type :=
  match v with
  | VUInt64 _ => CUInt64
  | VUInt32 _ => CUInt32
  | VString _ => CString
  | VTime _ => CDateTime
  end.

(** ** Lemmas *)

Lemma sublist_fmap_inv {A B} (g : A → B) l k :
  k `sublist_of` (g <$> l) → ∃ l', k = g <$> l' ∧ l' `sublist_of` l.
Proof.
  revert k. induction l as [|x l IH]; intros k Hk; simpl in Hk.
  - apply sublist_nil_r in Hk as ->. by exists [].
  - apply sublist_cons_r in Hk as [Hk|(k' & -> & Hk)].
    + destruct (IH _ Hk) as (l' & -> & Hl'). exists l'. by split; [|apply sublist_cons].
    + destruct (IH _ Hk) as (l' & -> & Hl'). exists (x :: l'). by split; [|apply sublist_skip].
Qed.

Section BatchLemmas.
Context `{DriverLaws}.

Lemma append_all_ok b stats b' :
  append_all b stats = (b', None) →
  batch_table b' = batch_table b ∧ batch_rows b' = batch_rows b ++ (stat_row <$> stats).
Proof.
  revert b. induction stats as [|s stats IH]; intros b; simpl.
  - intros [= <-]. by rewrite app_nil_r.
  - pose proof (Append_ok b (stat_row s)) as Hok.
    destruct (batch_Append b (stat_row s)) as [b1 [e|]]; [done|]. simpl in Hok.
    destruct Hok as [Ht Hr]; [done|]. intros Hb. destruct (IH _ Hb) as [-> ->].
    split; [done|]. by rewrite Hr, <-(assoc_L (++)).
Qed.

(** A batch insert adds the rows of some of its records, of all if it succeeds and
    of none if it fails before the batch is sent; it changes no other table. *)
Lemma save_batch_rows c stats :
  let '(c', e) := ch_SaveSlotMessageStatsMulti c stats in
  ∃ ws, ws `sublist_of` stats ∧ (e = None → ws = stats) ∧
    (is_Some e → (∀ e', e ≠ Some (errors_Wrap e' "failed to send batch")) → ws = []) ∧
    ∀ t, table_rows c' t =
      table_rows c t ++ (if bool_decide (t = "slot_message_stats") then stat_row <$> ws else []).
Proof.
  destruct stats as [|s stats]; unfold ch_SaveSlotMessageStatsMulti.
  { exists []. split_and!; [done..|]. intros t. by case_bool_decide; rewrite app_nil_r. }
  pose proof (PrepareBatch_conn c "INSERT INTO slot_message_stats") as Hc.
  pose proof (PrepareBatch_batch c "slot_message_stats") as Hb.
  change ("INSERT INTO " +:+ "slot_message_stats") with "INSERT INTO slot_message_stats" in Hb.
  destruct (conn_PrepareBatch c _) as [c1 [e1|b]]; simpl in Hc, Hb.
  { exists []. split_and!; [apply sublist_nil_l|done..|]. intros t. rewrite Hc.
    by case_bool_decide; rewrite app_nil_r. }
  destruct (Hb b eq_refl) as [Hbt Hbr].
  destruct (append_all b (s :: stats)) as [b1 [e1|]] eqn:Happ.
  { exists []. split_and!; [apply sublist_nil_l|done..|]. intros t. rewrite Hc.
    by case_bool_decide; rewrite app_nil_r. }
  apply append_all_ok in Happ as [Ht Hr]. rewrite Hbt in Ht. rewrite Hbr in Hr.
  pose proof (Send_ok c1 b1) as Hok. pose proof (Send_error c1 b1) as Herr.
  destruct (batch_Send c1 b1) as [c2 [e2|]]; cbn [fst snd] in Hok, Herr.
  - destruct (Herr "slot_message_stats") as (rows & Hsub & Hrows); [done|].
    rewrite Hr in Hsub. apply (sublist_fmap_inv stat_row) in Hsub as (ws & -> & Hws).
    exists ws. split_and!; [done|done|intros _ Hne; by destruct (Hne e2)|]. intros t.
    destruct (decide (t = "slot_message_stats")) as [->|Hne].
    + by rewrite Hrows, Hc, Ht, bool_decide_true by done.
    + destruct (Herr t) as (rows' & _ & ->); [done|]. by rewrite Hc, Ht, bool_decide_false by done.
  - exists (s :: stats). split_and!; [done|done|by intros [? [=]]|]. intros t.
    rewrite Hok, Hc, Ht by done. case_bool_decide; [|done]. by rewrite Hr.
Qed.
End BatchLemmas.
