(* ===== verification/RepositoryClaims.v ===== *)
(** * Properties of the repository package

    What a batch save through the interface leaves in the table, by its outcome;
    the factory connects where its options say. [mem_driver] is a driver that
    keeps its tables in memory and fails in several ways, for the witnesses. *)

From S2P Require Import Prelude GoStrings GoTime Repository.
From stdpp Require Import pretty.
Local Open Scope Z_scope.

(** The table a save writes, seen through the adapter. *)
Definition stats_table `{DriverLaws} (a : adapter) : list (list value) :=
  table_rows (chRepo a) "slot_message_stats".

(** The ClickHouse configuration the options of the factory stand for. *)
Definition repository_config (o : RepositoryOption) : clickhouseConfig :=
  {| Host := dbHost o; Port := u16 (dbPort o); Database := dbName o;
     Username := dbUser o; Password := dbPassword o; Secure := dbSecure o |}.

(** The result of connecting: the first failing step decides. *)
Definition connect_spec `{Driver} (cfg : clickhouseConfig) : error + Conn :=
  match clickhouse_Open (clickhouse_options cfg) with
  | inl e => inl (errors_Wrap e "failed to connect to ClickHouse")
  | inr c =>
      match conn_Ping c with
      | Some e => inl (errors_Wrap e "failed to ping ClickHouse")
      | None => inr c
      end
  end.

Lemma clickhouse_addr cfg :
  Addr (clickhouse_options cfg) = [Host cfg +:+ ":" +:+ pretty (Z.to_N (Port cfg))].
Proof.
  simpl. f_equal. f_equal.
  change (String (Ascii.ascii_of_nat 58) (pretty (Z.to_N (Port cfg)) +:+ "") = ":" +:+ pretty (Z.to_N (Port cfg))).
  by rewrite app_nil_s.
Qed.

(** ** An in-memory driver *)

Fixpoint skip (n : nat) (s : string) : string :=
  match n, s with
  | S n, String _ s => skip n s
  | _, _ => s
  end.

(** Tables by name; a batch with its table; opening refuses an empty host; a row
    with an empty message id cannot be appended. A row with the id
    "late" (in hex) is stored but its acknowledgement is lost; of a batch with
    the id "lost" only the first row is stored. *)
Definition late : string := "6c617465".
Definition lost : string := "6c6f7374".
Definition has_id (i : nat) (id : string) (r : list value) : bool :=
  bool_decide (r !! i = Some (VString id)).
Definition mem_driver : Driver := {|
  Conn := gmap string (list (list value));
  Batch := string * list (list value);
  clickhouse_Open o :=
    if HasPrefix (default "" (head (Addr o))) ":" then inl (error_ext "no host") else inr ∅;
  conn_Ping _ := None;
  conn_Exec c q args :=
    let t := if bool_decide (q = general_query) then "general_message_histories" else q in
    if has_id 6 lost args then (c, Some (error_ext "timeout"))
    else (partial_alter (λ l, Some (default [] l ++ [args])) t c,
          if has_id 6 late args then Some (error_ext "timeout") else None);
  conn_PrepareBatch c q := (c, inr (skip 12 q, []));
  batch_Append b r :=
    if has_id 7 "" r then (b, Some (error_ext "empty id"))
    else ((b.1, b.2 ++ [r]), None);
  batch_Send c b :=
    let rows := if existsb (has_id 7 lost) b.2 then take 1 b.2 else b.2 in
    (partial_alter (λ l, Some (default [] l ++ rows)) b.1 c,
     if existsb (has_id 7 lost) b.2 || existsb (has_id 7 late) b.2
     then Some (error_ext "timeout") else None);
  conn_Close c := (c, None);
|}.

(** Appending rows to one table. *)
Lemma mem_table (c : gmap string (list (list value))) t t' rows :
  default [] (partial_alter (λ l, Some (default [] l ++ rows)) t' c !! t) =
  default [] (c !! t) ++ (if bool_decide (t = t') then rows else []).
Proof.
  case_bool_decide as Ht; [subst t; by rewrite lookup_partial_alter_eq|].
  by rewrite lookup_partial_alter_ne, app_nil_r by done.
Qed.

Definition mem_driver_laws : @DriverLaws mem_driver.
Proof.
  refine {| table_rows := λ (c : @Conn mem_driver) t, default [] ((c : gmap _ _) !! t);
            batch_table := λ b : @Batch mem_driver, b.1;
            batch_rows := λ b : @Batch mem_driver, b.2 |}.
  - done.
  - by intros c t b [= <-].
  - intros b r. simpl. by destruct (has_id 7 "" r).
  - intros c b t. cbn [batch_Send mem_driver fst snd].
    destruct (existsb (has_id 7 lost) b.2); [done|]. intros _. apply mem_table.
  - intros c b t _. cbn [batch_Send mem_driver fst snd].
    exists (if existsb (has_id 7 lost) b.2 then take 1 b.2 else b.2).
    split; [|apply mem_table]. destruct (existsb (has_id 7 lost) b.2); [apply sublist_take|done].
Defined.

Definition mem_driver_exec : @ExecLaws mem_driver mem_driver_laws.
Proof.
  split. intros c args. cbn [conn_Exec mem_driver table_rows mem_driver_laws].
  rewrite (bool_decide_true (general_query = general_query)) by done.
  exists (if has_id 6 lost args then [] else [args]).
  destruct (has_id 6 lost args); cbn [fst snd].
  - split_and!; [apply sublist_nil_l|done|]. intros t. by case_bool_decide; rewrite app_nil_r.
  - split_and!; [done|done|]. intros t. apply mem_table.
Defined.

(** Whether an error comes from sending a batch. *)
Lemma decide_send (e : error) :
  (∃ e', e = errors_Wrap e' "failed to send batch") ∨
  ¬ ∃ e', e = errors_Wrap e' "failed to send batch".
Proof.
  destruct e as [m|c m|m]; [right; by intros [? [=]]| |right; by intros [? [=]]].
  destruct (decide (m = "failed to send batch")) as [->|Hm]; [by left; exists c|].
  right. intros [? [= -> ?]]. done.
Qed.

(** ** Properties *)

(** C20. A batch save through the Repository interface, by its outcome. Without an
    error the table gains exactly the rows of the given records, in order. An
    error in preparing or appending leaves it unchanged; after an error in
    sending it holds some of the rows, in order, and nothing else. No other
    table changes, every row has the column types of the table of the
    migration, in order, and an empty batch does not touch the connection. *)
Theorem batch_save_rows `{DriverLaws} (a : adapter) (stats : list SlotMessageStats) :
  (match SaveSlotMessageStatsMulti a stats with
   | (a', None) => stats_table a' = stats_table a ++ (stat_row <$> stats)
   | (a', Some e) =>
       (stats_table a' = stats_table a ∨ ∃ e', e = errors_Wrap e' "failed to send batch") ∧
       ∃ ws, ws `sublist_of` stats ∧ stats_table a' = stats_table a ++ (stat_row <$> ws)
   end) ∧
  (∀ t, t ≠ "slot_message_stats" →
     table_rows (chRepo (SaveSlotMessageStatsMulti a stats).1) t = table_rows (chRepo a) t) ∧
  Forall (λ s, value_type <$> stat_row s = slot_message_stats_columns.*2) stats ∧
  SaveSlotMessageStatsMulti a [] = (a, None).
Proof.
  pose proof (save_batch_rows (chRepo a) stats) as Hs. simpl.
  destruct (ch_SaveSlotMessageStatsMulti (chRepo a) stats) as [c' e].
  destruct Hs as (ws & Hsub & Hok & Herr & Ht). unfold stats_table. simpl.
  split_and!; [| |by apply Forall_true|by destruct a].
  - specialize (Ht "slot_message_stats"). rewrite bool_decide_true in Ht by done.
    destruct e as [e|]; [|by rewrite Ht, Hok]. split; [|by exists ws].
    destruct (decide_send e) as [Hsend|Hsend]; [by right|left].
    rewrite Ht, Herr, app_nil_r; [done..|]. intros e' [= ->]. apply Hsend. by exists e'.
  - intros t Hne. rewrite Ht. by rewrite bool_decide_false, app_nil_r by done.
Qed.

(** The factory supports exactly the type clickhouse: any other type, the
    empty one included, is an error naming it, and for clickhouse the result is
    that of opening and then pinging host:port (the port taken modulo 2^16)
    with the database, credentials and TLS setting of the options, each failure
    reported with its step. *)
Theorem new_repository_connects `{Driver}
    (opts : list (RepositoryOption → RepositoryOption)) :
  let o := apply_opts opts repository_defaults in
  NewRepository opts =
    (if bool_decide (dbType o = "clickhouse") then
       match connect_spec (repository_config o) with
       | inl e => Fail (errors_Wrap e "failed to create ClickHouse repository")
       | inr c => Ret (Adapter _ c)
       end
     else Fail (errors_New ("unsupported database type: " +:+ dbType o))) ∧
  Addr (clickhouse_options (repository_config o)) =
    [dbHost o +:+ ":" +:+ pretty (Z.to_N (dbPort o mod 2 ^ 16))] ∧
  NewRepository [WithDBType ""] = Fail (errors_New "unsupported database type: ").
Proof.
  intros o. split_and!; [| |done].
  - unfold NewRepository, NewClickHouseRepository, connect_spec. fold o.
    case_bool_decide; [|done]. fold (repository_config o).
    destruct (clickhouse_Open _) as [e|c]; [done|]. simpl. by destruct (conn_Ping c).
  - by rewrite clickhouse_addr.
Qed.

(** ** Witness *)
Section Witness.
#[local] Existing Instance mem_driver.
#[local] Existing Instance mem_driver_laws.

Definition mem_stat (id : string) : SlotMessageStats := {|
  Slot := 7; TopicGroup := "beacon_block"; ForkVersion := "6a95a1a9";
  Topic := "beacon_block"; NodeRegion := "r"; NodeAlias := "a"; NodePeerCount := 3;
  MessageID := id; SlotStartTime := time_Unix 0; FirstArrivalTime := time_Unix 1;
  LatencyMS := 1000; SizeBytes := 5; SeenCount := 2 |}.

(** A batch that is stored, one that cannot be appended, and one that is cut off. *)
Lemma batch_save_rows_witness :
  stats_table (SaveSlotMessageStatsMulti (Adapter _ ∅) [mem_stat "x"; mem_stat "y"]).1 =
    stat_row <$> [mem_stat "x"; mem_stat "y"] ∧
  stats_table (SaveSlotMessageStatsMulti (Adapter _ ∅) [mem_stat "x"; mem_stat ""]).1 = [] ∧
  ∃ ws, ws `sublist_of` [mem_stat "x"; mem_stat lost] ∧
    stats_table (SaveSlotMessageStatsMulti (Adapter _ ∅) [mem_stat "x"; mem_stat lost]).1 =
      stat_row <$> ws.
Proof.
  split_and!.
  - exact (proj1 (batch_save_rows (Adapter _ ∅) [mem_stat "x"; mem_stat "y"])).
  - destruct (batch_save_rows (Adapter _ ∅) [mem_stat "x"; mem_stat ""]) as [Hs _].
    destruct (SaveSlotMessageStatsMulti (Adapter _ ∅) [mem_stat "x"; mem_stat ""])
      as [a' [e|]] eqn:Hr; [|vm_compute in Hr; discriminate].
    destruct Hs as [[Hu|[e' ->]] _]; [exact Hu|vm_compute in Hr; discriminate].
  - destruct (batch_save_rows (Adapter _ ∅) [mem_stat "x"; mem_stat lost]) as [Hs _].
    destruct (SaveSlotMessageStatsMulti (Adapter _ ∅) [mem_stat "x"; mem_stat lost])
      as [a' [e|]] eqn:Hr; [|vm_compute in Hr; discriminate].
    destruct Hs as [_ Hws]. exact Hws.
Defined.
End Witness.
