(* ===== verification/SeenCounter.v ===== *)
(** * processor/seen_counter.go: how often a message id was seen

    The counter is a map from hex message ids to uint32 counts behind a mutex,
    so every method is one atomic step. *)

From S2P Require Import Prelude GoStrings.
Local Open Scope Z_scope.

Definition hexEncode (b : string) : string := EncodeToString b.

Record SeenCounter := MkSeenCounter { counts : gmap string Z }.

Definition NewSeenCounter : SeenCounter := MkSeenCounter ∅.

(** [sc.counts[msgID]++]: a missing key counts as zero, uint32 wraps. *)
Definition IncreaseByRawID (sc : SeenCounter) (rawID : string) : SeenCounter :=
  let msgID := hexEncode rawID in
  MkSeenCounter (<[msgID := u32 (default 0 (counts sc !! msgID) + 1)]> (counts sc)).

Definition Pop (sc : SeenCounter) (msgID : string) : SeenCounter * (Z * bool) :=
  match counts sc !! msgID with
  | Some value => (MkSeenCounter (delete msgID (counts sc)), (value, true))
  | None => (sc, (0, false))
  end.

(** ** Specification: the calls since the last pop *)

Inductive call :=
  | CIncrease (rawID : string)
  | CPop (msgID : string).

Definition call_step (sc : SeenCounter) (c : call) : SeenCounter :=
  match c with
  | CIncrease raw => IncreaseByRawID sc raw
  | CPop id => (Pop sc id).1
  end.
Definition run_calls (cs : list call) : SeenCounter := foldl call_step NewSeenCounter cs.

(** The increases of [id] in a history after the last pop of it. *)
Definition since_pop (id : string) (n : nat) (c : call) : nat :=
  match c with
  | CIncrease raw => if bool_decide (hexEncode raw = id) then S n else n
  | CPop id' => if bool_decide (id' = id) then O else n
  end.
Definition seen_since_pop (cs : list call) (id : string) : nat := foldl (since_pop id) O cs.

(** What the map holds for an id after [n] increases since the last pop. *)
Definition count_of (n : nat) : option Z :=
  match n with
  | O => None
  | S _ => Some (u32 (Z.of_nat n))
  end.

Lemma default_count_of n : u32 (default 0 (count_of n) + 1) = u32 (Z.of_nat (S n)).
Proof. destruct n as [|n]; [done|]. simpl default. rewrite u32_add_l. f_equal. lia. Qed.

Lemma lookup_IncreaseByRawID sc raw id :
  counts (IncreaseByRawID sc raw) !! id =
    if bool_decide (hexEncode raw = id)
    then Some (u32 (default 0 (counts sc !! id) + 1)) else counts sc !! id.
Proof.
  simpl. case_bool_decide as Hid; [subst id; by rewrite lookup_insert_eq|].
  by rewrite lookup_insert_ne.
Qed.

Lemma lookup_Pop sc id' id :
  counts (Pop sc id').1 !! id = if bool_decide (id' = id) then None else counts sc !! id.
Proof.
  unfold Pop. case_bool_decide as Hid.
  - subst. destruct (counts sc !! id) eqn:E; simpl; [by rewrite lookup_delete_eq|done].
  - destruct (counts sc !! id') eqn:E; simpl; [by rewrite lookup_delete_ne|done].
Qed.

Lemma Pop_result sc id :
  (Pop sc id).2 = match counts sc !! id with Some v => (v, true) | None => (0, false) end.
Proof. unfold Pop. by destruct (counts sc !! id). Qed.

Lemma run_calls_lookup cs id :
  counts (run_calls cs) !! id = count_of (seen_since_pop cs id).
Proof.
  induction cs as [|c cs IH] using rev_ind; [done|].
  unfold run_calls, seen_since_pop in *. rewrite !foldl_app. simpl.
  destruct c as [raw|id']; simpl call_step; simpl since_pop.
  - rewrite lookup_IncreaseByRawID, IH.
    case_bool_decide; [|done]. by rewrite default_count_of.
  - rewrite lookup_Pop, IH. by case_bool_decide.
Qed.

(** Increases commute: any interleaving of the same calls of several
    goroutines leaves the same counter. *)
Lemma IncreaseByRawID_comm sc r1 r2 :
  IncreaseByRawID (IncreaseByRawID sc r1) r2 = IncreaseByRawID (IncreaseByRawID sc r2) r1.
Proof.
  cut (counts (IncreaseByRawID (IncreaseByRawID sc r1) r2) =
       counts (IncreaseByRawID (IncreaseByRawID sc r2) r1)).
  { by destruct (IncreaseByRawID (IncreaseByRawID sc r1) r2),
      (IncreaseByRawID (IncreaseByRawID sc r2) r1); simpl; intros ->. }
  apply map_eq. intros id. rewrite !lookup_IncreaseByRawID.
  by repeat case_bool_decide.
Qed.

Definition increase_all (sc : SeenCounter) (raws : list string) : SeenCounter :=
  foldl IncreaseByRawID sc raws.

#[export] Instance increase_all_perm sc : Proper ((≡ₚ) ==> (=)) (increase_all sc).
Proof.
  intros l k Hlk. revert sc. unfold increase_all.
  induction Hlk as [|x l k _ IH|x y l|l k m _ IH1 _ IH2]; intros sc; simpl; [done|..].
  - apply IH.
  - by rewrite IncreaseByRawID_comm.
  - by rewrite IH1, IH2.
Qed.

Lemma increase_all_lookup sc raws raw :
  counts sc !! hexEncode raw = None →
  counts (increase_all sc raws) !! hexEncode raw = count_of (length (filter (.= raw) raws)).
Proof.
  intros Hfresh. induction raws as [|r raws IH] using rev_ind; [done|].
  unfold increase_all in *. rewrite foldl_app, filter_app, length_app. cbn [foldl].
  rewrite lookup_IncreaseByRawID, IH. case_bool_decide as Hr.
  - apply (inj EncodeToString) in Hr as ->. rewrite filter_cons_True, filter_nil by done.
    rewrite default_count_of. simpl. by rewrite Nat.add_comm.
  - rewrite filter_cons_False, filter_nil by naive_solver. simpl. by rewrite Nat.add_0_r.
Qed.

(** ** Properties *)

(** C27. The counter implements "increases since the last pop" modulo 2^32: after
    any history of calls, popping an id reports [true] exactly when the id was
    increased since its last pop, with the number of those increases reduced
    to a uint32, and the pop makes the id unseen and leaves every other id
    alone. *)
Theorem seen_counter_refines (cs : list call) (id : string) :
  (Pop (run_calls cs) id).2 =
    (u32 (Z.of_nat (seen_since_pop cs id)), bool_decide (seen_since_pop cs id ≠ O)) ∧
  (∀ id', counts (Pop (run_calls cs) id).1 !! id' =
     if bool_decide (id = id') then None else count_of (seen_since_pop cs id')).
Proof.
  split.
  - rewrite Pop_result, run_calls_lookup. by destruct (seen_since_pop cs id).
  - intros id'. by rewrite lookup_Pop, run_calls_lookup.
Qed.

(** Concurrent increases are not lost: whatever the order in which the
    goroutines get the mutex, increasing an id not seen since the last pop by
    every raw id of a list makes the next pop of that id return how often the
    id occurs in the list, and distinct raw ids never share a counter. *)
Lemma concurrent_increases_counted (sc : SeenCounter) (raws sched : list string) (raw : string)
  (Hfresh : counts sc !! hexEncode raw = None)
  (Hsched : sched ≡ₚ raws)
  (Hbound : Z.of_nat (length (filter (.= raw) raws)) < 2 ^ 32) :
  increase_all sc sched = increase_all sc raws ∧
  (Pop (increase_all sc sched) (hexEncode raw)).2 =
    (Z.of_nat (length (filter (.= raw) raws)),
     bool_decide (length (filter (.= raw) raws) ≠ O)).
Proof.
  split; [by rewrite Hsched|].
  rewrite Pop_result, Hsched, increase_all_lookup by done.
  destruct (length (filter (.= raw) raws)) as [|n]; [done|]. simpl.
  by rewrite u32_small by (unfold is_u32; lia).
Qed.

