(* ===== verification/SlotCache.v ===== *)
(** * processor/slot_cache.go: the records waiting for their slot to complete

    A two-level map, slot to message id to record, behind a read-write mutex:
    every method is one atomic step. [DrainSlot] reads the removed slot after
    unlocking, when no other goroutine can reach it any more. *)

From S2P Require Import Prelude Repository.
Local Open Scope Z_scope.

(** SlotCache (beacon_message_processor.go): the records of one slot. *)
Record SlotCache := MkSlotCache {
  cache_Slot : Z;
  MessageStats : gmap string SlotMessageStats;
}.

Record SlotCacheStore := MkStore { caches : gmap Z SlotCache }.

Definition NewSlotCacheStore : SlotCacheStore := MkStore ∅.

Definition Add (s : SlotCacheStore) (slot : Z) (msgID : string) (stat : SlotMessageStats)
    : SlotCacheStore * bool :=
  let '(cs, cache) :=
    match caches s !! slot with
    | Some cache => (caches s, cache)
    | None =>
        let cache := MkSlotCache slot ∅ in
        (<[slot := cache]> (caches s), cache)
    end in
  match MessageStats cache !! msgID with
  | Some _ => (MkStore cs, false)
  | None =>
      let cache := MkSlotCache (cache_Slot cache) (<[msgID := stat]> (MessageStats cache)) in
      (MkStore (<[slot := cache]> cs), true)
  end.

(** [slot < currentSlot-1] on uint64: the subtraction wraps at zero. *)
Definition completed (currentSlot slot : Z) : bool := slot <? u64 (currentSlot - 1).

Definition CompletedSlots (o : order Z) (s : SlotCacheStore) (currentSlot : Z) : list Z :=
  filter (λ slot, completed currentSlot slot = true) (o (map_to_list (caches s)).*1).

Definition DrainSlot (o : order SlotMessageStats) (s : SlotCacheStore) (slot : Z)
    : SlotCacheStore * list SlotMessageStats :=
  match caches s !! slot with
  | None => (s, [])
  | Some cache =>
      (MkStore (delete slot (caches s)), o (map_to_list (MessageStats cache)).*2)
  end.

(** ** Views *)

(** The record cached for a message in a slot. *)
Definition cached (s : SlotCacheStore) (slot : Z) (id : string) : option SlotMessageStats :=
  cache ← caches s !! slot; MessageStats cache !! id.

(** All records of a slot, and of the store, as multisets. *)
Definition slot_records (c : SlotCache) : list SlotMessageStats :=
  (map_to_list (MessageStats c)).*2.
Definition records (s : SlotCacheStore) : list SlotMessageStats :=
  map_to_list (caches s) ≫= λ p, slot_records p.2.

(** Every record sits under its own slot and message id, and no slot is empty. *)
Definition store_wf (s : SlotCacheStore) : Prop :=
  ∀ slot c, caches s !! slot = Some c →
    cache_Slot c = slot ∧ MessageStats c ≠ ∅ ∧
    ∀ id st, MessageStats c !! id = Some st → Slot st = slot ∧ MessageID st = id.

(** ** Lemmas *)

Lemma Add_spec s slot id stat :
  Add s slot id stat =
    match cached s slot id with
    | Some _ => (s, false)
    | None =>
        (MkStore (<[slot := MkSlotCache
             (from_option cache_Slot slot (caches s !! slot))
             (<[id := stat]> (from_option MessageStats ∅ (caches s !! slot)))]> (caches s)),
         true)
    end.
Proof.
  unfold Add, cached. destruct s as [cs]; simpl.
  destruct (cs !! slot) as [c|] eqn:Hc; simpl.
  - by destruct (MessageStats c !! id).
  - by rewrite insert_insert_eq.
Qed.

Lemma cached_Add s slot id stat slot' id' :
  cached (Add s slot id stat).1 slot' id' =
    if bool_decide (slot = slot' ∧ id = id')
    then Some (default stat (cached s slot id)) else cached s slot' id'.
Proof.
  rewrite Add_spec. destruct (cached s slot id) as [st|] eqn:Hst; simpl.
  - case_bool_decide as Heq; [by destruct Heq as [<- <-]|done].
  - unfold cached at 1. simpl. destruct (decide (slot = slot')) as [<-|Hs].
    + rewrite lookup_insert_eq. simpl. destruct (decide (id = id')) as [<-|Hid].
      * by rewrite lookup_insert_eq, bool_decide_true.
      * rewrite lookup_insert_ne, bool_decide_false by naive_solver.
        unfold cached. by destruct (caches s !! slot).
    + rewrite lookup_insert_ne, bool_decide_false by naive_solver. done.
Qed.

Lemma Add_result s slot id stat :
  (Add s slot id stat).2 = bool_decide (cached s slot id = None).
Proof. rewrite Add_spec. by destruct (cached s slot id). Qed.

Lemma cached_DrainSlot o s slot slot' id :
  cached (DrainSlot o s slot).1 slot' id =
    if bool_decide (slot = slot') then None else cached s slot' id.
Proof.
  unfold DrainSlot, cached. case_bool_decide as Hs.
  - subst. destruct (caches s !! slot') eqn:E; simpl; [by rewrite lookup_delete_eq|].
    by rewrite E.
  - destruct (caches s !! slot) eqn:E; simpl; [by rewrite lookup_delete_ne|done].
Qed.

Lemma elem_of_DrainSlot o s slot st :
  st ∈ (DrainSlot o s slot).2 ↔ ∃ id, cached s slot id = Some st.
Proof.
  unfold DrainSlot, cached. destruct (caches s !! slot) as [c|] eqn:E; simpl.
  - rewrite elem_of_ord, list_elem_of_fmap. split.
    + intros [[id st'] [-> Hin]]. exists id. by apply elem_of_map_to_list in Hin.
    + intros [id Hid]. exists (id, st). by rewrite elem_of_map_to_list.
  - split; [by intros ?%not_elem_of_nil | naive_solver].
Qed.

Lemma elem_of_CompletedSlots o s cur slot :
  slot ∈ CompletedSlots o s cur ↔ is_Some (caches s !! slot) ∧ completed cur slot = true.
Proof.
  unfold CompletedSlots. rewrite list_elem_of_filter, elem_of_ord, list_elem_of_fmap. split.
  - intros [Hc [[slot' c] [-> Hin]]]. apply elem_of_map_to_list in Hin. eauto.
  - intros [[c Hc] Hcomp]. split; [done|]. exists (slot, c).
    by rewrite elem_of_map_to_list.
Qed.

Lemma NoDup_CompletedSlots o s cur : NoDup (CompletedSlots o s cur).
Proof. unfold CompletedSlots. apply NoDup_filter, NoDup_ord, NoDup_fst_map_to_list. Qed.

(** *** The multiset of cached records *)

Lemma records_insert (cs : gmap Z SlotCache) slot c :
  cs !! slot = None →
  records (MkStore (<[slot := c]> cs)) ≡ₚ slot_records c ++ records (MkStore cs).
Proof.
  intros Hs. unfold records. simpl. rewrite map_to_list_insert by done. done.
Qed.

Lemma records_delete (cs : gmap Z SlotCache) slot c :
  cs !! slot = Some c →
  records (MkStore cs) ≡ₚ slot_records c ++ records (MkStore (delete slot cs)).
Proof.
  intros Hs. rewrite <-(insert_delete_id cs slot c) at 1 by done.
  apply records_insert, lookup_delete_eq.
Qed.

Lemma slot_records_insert n (m : gmap string SlotMessageStats) id st :
  m !! id = None →
  slot_records (MkSlotCache n (<[id := st]> m)) ≡ₚ st :: slot_records (MkSlotCache n m).
Proof. intros Hid. unfold slot_records. simpl. by rewrite map_to_list_insert. Qed.

(** Adding a new message adds its record and nothing else. *)
Lemma records_Add s slot id stat :
  records (Add s slot id stat).1 ≡ₚ
    (if (Add s slot id stat).2 then [stat] else []) ++ records s.
Proof.
  rewrite Add_spec. unfold cached. destruct s as [cs]; simpl.
  destruct (cs !! slot) as [[n m]|] eqn:Hc; simpl.
  - destruct (m !! id) as [st|] eqn:Hid; simpl; [done|].
    rewrite <-insert_delete_eq, records_insert by apply lookup_delete_eq.
    rewrite slot_records_insert by done. by rewrite (records_delete cs slot _ Hc).
  - rewrite records_insert by done. unfold slot_records. simpl.
    by rewrite map_to_list_insert, map_to_list_empty by apply lookup_empty.
Qed.

(** Draining moves the records of the slot to the result. *)
Lemma records_DrainSlot o s slot :
  records s ≡ₚ (DrainSlot o s slot).2 ++ records (DrainSlot o s slot).1.
Proof.
  unfold DrainSlot. destruct s as [cs]; simpl.
  destruct (cs !! slot) as [c|] eqn:Hc; simpl; [|done].
  rewrite ord_perm. by apply records_delete.
Qed.

(** *** Well-formedness *)

Lemma store_wf_empty : store_wf NewSlotCacheStore.
Proof. intros slot c Hc. cbn in Hc. by rewrite lookup_empty in Hc. Qed.

Lemma store_wf_Add s slot id stat :
  store_wf s → Slot stat = slot → MessageID stat = id →
  store_wf (Add s slot id stat).1.
Proof.
  intros Hwf Hslot Hid. rewrite Add_spec.
  destruct (cached s slot id) eqn:Hcached; [done|]. simpl.
  intros slot' c. simpl. destruct (decide (slot = slot')) as [<-|Hs].
  - rewrite lookup_insert_eq. intros [= <-]. simpl.
    split; [|split; [apply insert_non_empty|]].
    + destruct (caches s !! slot) as [c|] eqn:Hc; [|done]. simpl. by apply Hwf in Hc as [? _].
    + intros id' st. destruct (decide (id = id')) as [<-|Hne].
      * rewrite lookup_insert_eq. by intros [= <-].
      * rewrite lookup_insert_ne by done. intros Hst.
        destruct (caches s !! slot) as [c|] eqn:Hc; simpl in Hst.
        -- apply Hwf in Hc as (_ & _ & Hc). by apply Hc.
        -- by rewrite lookup_empty in Hst.
  - rewrite lookup_insert_ne by done. apply Hwf.
Qed.

Lemma store_wf_DrainSlot o s slot : store_wf s → store_wf (DrainSlot o s slot).1.
Proof.
  intros Hwf. unfold DrainSlot. destruct (caches s !! slot) eqn:Hc; simpl; [|done].
  intros slot' c'. simpl. rewrite lookup_delete_Some. intros [_ Hc']. by apply Hwf.
Qed.

Lemma DrainSlot_wf o s slot st :
  store_wf s → st ∈ (DrainSlot o s slot).2 →
  Slot st = slot ∧ cached s slot (MessageID st) = Some st.
Proof.
  intros Hwf [id Hid]%elem_of_DrainSlot. unfold cached in *.
  destruct (caches s !! slot) as [c|] eqn:Hc; [|done]. simpl in *.
  destruct (Hwf slot c Hc) as (_ & _ & Hst). destruct (Hst _ _ Hid) as [? ->]. done.
Qed.

Lemma DrainSlot_NoDup o s slot :
  store_wf s → NoDup (MessageID <$> (DrainSlot o s slot).2).
Proof.
  intros Hwf. unfold DrainSlot. destruct (caches s !! slot) as [c|] eqn:Hc; simpl;
    [|constructor].
  rewrite ord_perm. destruct (Hwf slot c Hc) as (_ & _ & Hst).
  rewrite <-list_fmap_compose.
  rewrite (list_fmap_ext _ fst (map_to_list (MessageStats c))).
  { apply NoDup_fst_map_to_list. }
  intros i [id st] Hi. simpl. apply list_elem_of_lookup_2, elem_of_map_to_list in Hi.
  by apply Hst in Hi as [_ ->].
Qed.

Lemma DrainSlot_nonempty o s slot :
  store_wf s → is_Some (caches s !! slot) → (DrainSlot o s slot).2 ≠ [].
Proof.
  intros Hwf [c Hc]. unfold DrainSlot. rewrite Hc. simpl.
  destruct (Hwf slot c Hc) as (_ & Hne & _). intros Hnil. apply Hne.
  apply map_to_list_empty_iff. apply (fmap_nil_inv snd).
  apply Permutation_nil_r. by rewrite <-Hnil, ord_perm.
Qed.

(** With a positive current slot the test is the documented one. *)
Lemma CompletedSlots_NoDup o s cur : NoDup (CompletedSlots o s cur).
Proof.
  apply NoDup_filter. rewrite ord_perm. apply NoDup_fst_map_to_list.
Qed.

Lemma completed_bound cur slot :
  0 <= cur < 2 ^ 64 →
  completed cur slot = true ↔ slot < (if bool_decide (cur = 0) then 2 ^ 64 - 1 else cur - 1).
Proof.
  intros Hc. unfold completed. rewrite Z.ltb_lt. case_bool_decide as H0.
  - by subst cur.
  - by rewrite u64_small by (unfold is_u64; lia).
Qed.

Lemma completed_spec cur slot :
  1 <= cur < 2 ^ 64 → completed cur slot = (slot <? cur - 1).
Proof. intros Hc. unfold completed. by rewrite u64_small by (unfold is_u64; lia). Qed.

(** ** Specification: one map from (slot, message id) to the first record *)

Definition spec_add (m : gmap (Z * string) SlotMessageStats)
    (slot : Z) (id : string) (stat : SlotMessageStats)
    : gmap (Z * string) SlotMessageStats * bool :=
  match m !! (slot, id) with
  | Some _ => (m, false)
  | None => (<[(slot, id) := stat]> m, true)
  end.
Definition spec_slot (m : gmap (Z * string) SlotMessageStats) (slot : Z) :=
  filter (λ kv : Z * string * SlotMessageStats, kv.1.1 = slot) m.
Definition spec_drop (m : gmap (Z * string) SlotMessageStats) (slot : Z) :=
  filter (λ kv : Z * string * SlotMessageStats, kv.1.1 ≠ slot) m.

Definition abstracts (s : SlotCacheStore) (m : gmap (Z * string) SlotMessageStats) : Prop :=
  ∀ slot id, cached s slot id = m !! (slot, id).

Lemma abstracts_Add s m slot id stat :
  abstracts s m →
  (Add s slot id stat).2 = (spec_add m slot id stat).2 ∧
  abstracts (Add s slot id stat).1 (spec_add m slot id stat).1.
Proof.
  intros Habs. rewrite Add_result. unfold spec_add. rewrite <-Habs. split.
  { by destruct (cached s slot id). }
  intros slot' id'. rewrite cached_Add.
  destruct (cached s slot id) as [st|] eqn:Hst; simpl.
  - rewrite <-Habs. case_bool_decide as Heq; [|done]. by destruct Heq as [<- <-].
  - rewrite lookup_insert, <-Habs. case_decide as Hk; simplify_eq.
    + by rewrite bool_decide_true.
    + by rewrite bool_decide_false by naive_solver.
Qed.

Lemma spec_slot_kmap s m slot c :
  abstracts s m → caches s !! slot = Some c →
  spec_slot m slot = kmap (pair slot) (MessageStats c).
Proof.
  intros Habs Hc. apply map_eq. intros [slot' id]. apply option_eq. intros st.
  unfold spec_slot. rewrite map_lookup_filter_Some, lookup_kmap_Some by apply _. simpl.
  rewrite <-Habs. unfold cached. split.
  - intros [Hst ->]. rewrite Hc in Hst. eauto.
  - intros (id' & [= <- <-] & Hst). rewrite Hc. done.
Qed.

Lemma abstracts_DrainSlot o s m slot :
  abstracts s m →
  (DrainSlot o s slot).2 ≡ₚ (map_to_list (spec_slot m slot)).*2 ∧
  abstracts (DrainSlot o s slot).1 (spec_drop m slot).
Proof.
  intros Habs. split.
  - destruct (caches s !! slot) as [c|] eqn:Hc; unfold DrainSlot; rewrite Hc; simpl.
    + rewrite ord_perm, (spec_slot_kmap s m slot c) by done.
      rewrite map_to_list_kmap by apply _. by rewrite <-list_fmap_compose.
    + assert (spec_slot m slot = ∅) as ->; [|by rewrite map_to_list_empty].
      apply map_empty. intros [slot' id]. apply eq_None_not_Some. intros [st Hst].
      apply map_lookup_filter_Some in Hst as [Hst Heq]. simpl in Heq. subst.
      rewrite <-Habs in Hst. unfold cached in Hst. by rewrite Hc in Hst.
  - intros slot' id. rewrite cached_DrainSlot. unfold spec_drop. symmetry.
    case_bool_decide as Hs.
    + subst. apply eq_None_not_Some. intros [st Hst].
      by apply map_lookup_filter_Some in Hst as [_ Hst].
    + rewrite Habs. destruct (m !! (slot', id)) as [st|] eqn:Hst.
      * apply map_lookup_filter_Some. split; [done|]. naive_solver.
      * apply map_lookup_filter_None. by left.
Qed.

(** ** Properties *)

(** C5. The two-level cache implements a single map from (slot, message id) to the
    first record added for it: [Add] reports whether the key was new and never
    overwrites, [DrainSlot] returns exactly the records of the slot in some
    order and removes them and nothing else. *)
Theorem slot_cache_refines (s : SlotCacheStore) (m : gmap (Z * string) SlotMessageStats)
  (slot : Z) (id : string) (stat : SlotMessageStats) (o : order SlotMessageStats)
  (Habs : abstracts s m) :
  ((Add s slot id stat).2 = (spec_add m slot id stat).2 ∧
   abstracts (Add s slot id stat).1 (spec_add m slot id stat).1) ∧
  ((DrainSlot o s slot).2 ≡ₚ (map_to_list (spec_slot m slot)).*2 ∧
   abstracts (DrainSlot o s slot).1 (spec_drop m slot)).
Proof. split; [by apply abstracts_Add | by apply abstracts_DrainSlot]. Qed.

Definition sample_stat (slot : Z) (id : string) : SlotMessageStats := {|
  Slot := slot; TopicGroup := "beacon_block"; ForkVersion := "6a95a1a9";
  Topic := "beacon_block"; NodeRegion := "local"; NodeAlias := "local";
  NodePeerCount := 1; MessageID := id;
  SlotStartTime := GoTime.MkTime 0 0; FirstArrivalTime := GoTime.MkTime 0 0;
  LatencyMS := 0; SizeBytes := 0; SeenCount := 0;
|}.

Lemma slot_cache_refines_witness :
  (Add NewSlotCacheStore 7 "a" (sample_stat 7 "a")).2 = true.
Proof.
  exact (proj1 (proj1 (slot_cache_refines NewSlotCacheStore ∅ 7 "a" (sample_stat 7 "a") id_order
    (λ slot id, eq_refl)))).
Defined.

(** [CompletedSlots] returns, without repetition and whatever the iteration
    order, the cached slots strictly below the current slot minus one; the
    uint64 subtraction makes a current slot of zero select every cached slot
    but the largest uint64. *)
Lemma completed_slots_exact (o : order Z) (s : SlotCacheStore) (cur : Z)
  (Hcur : is_u64 cur) :
  NoDup (CompletedSlots o s cur) ∧
  ∀ slot, slot ∈ CompletedSlots o s cur ↔
    is_Some (caches s !! slot) ∧ (if cur =? 0 then slot < 2 ^ 64 - 1 else slot < cur - 1).
Proof.
  unfold is_u64 in Hcur. split; [apply NoDup_CompletedSlots|]. intros slot.
  rewrite elem_of_CompletedSlots. destruct (Z.eqb_spec cur 0) as [->|Hne].
  - unfold completed. change (u64 (0 - 1)) with (2 ^ 64 - 1). by rewrite Z.ltb_lt.
  - rewrite completed_spec by lia. by rewrite Z.ltb_lt.
Qed.

