(* ===== verification/SlotExtractor.v ===== *)
(** * processor/slot_extractor.go: from a decoded message to its kind and slot

    The registry maps a message's dynamic type to the function that reads its
    slot, or marks it as a general message. The Prysm protobuf types appear
    with the fields the extractors follow; every pointer on the way may be nil. *)

From S2P Require Import Prelude.
Local Open Scope Z_scope.

Inductive messageKind := slotMessage | generalMessage.

#[export] Instance messageKind_eq_dec : EqDecision messageKind.
Proof. solve_decision. Defined.

(** The pointer types of package ethtypes the processor knows, and any other. *)
Inductive MsgType :=
  | T_SignedBeaconBlock
  | T_SignedBeaconBlockAltair
  | T_SignedBeaconBlockBellatrix
  | T_SignedBeaconBlockCapella
  | T_SignedBeaconBlockDeneb
  | T_SignedBeaconBlockElectra
  | T_SignedAggregateAttestationAndProof
  | T_SignedAggregateAttestationAndProofElectra
  | T_SignedContributionAndProof
  | T_Attestation
  | T_AttestationElectra
  | T_SingleAttestation
  | T_SyncCommitteeMessage
  | T_SyncCommitteeContribution
  | T_BlobSidecar
  | T_ProposerSlashing
  | T_AttesterSlashing
  | T_AttesterSlashingElectra
  | T_VoluntaryExit
  | T_BLSToExecutionChange
  | T_other (name : string).

#[export] Instance MsgType_eq_dec : EqDecision MsgType.
Proof. solve_decision. Defined.

Definition MsgType_code (t : MsgType) : nat + string :=
  match t with
  | T_SignedBeaconBlock => inl 0%nat
  | T_SignedBeaconBlockAltair => inl 1%nat
  | T_SignedBeaconBlockBellatrix => inl 2%nat
  | T_SignedBeaconBlockCapella => inl 3%nat
  | T_SignedBeaconBlockDeneb => inl 4%nat
  | T_SignedBeaconBlockElectra => inl 5%nat
  | T_SignedAggregateAttestationAndProof => inl 6%nat
  | T_SignedAggregateAttestationAndProofElectra => inl 7%nat
  | T_SignedContributionAndProof => inl 8%nat
  | T_Attestation => inl 9%nat
  | T_AttestationElectra => inl 10%nat
  | T_SingleAttestation => inl 11%nat
  | T_SyncCommitteeMessage => inl 12%nat
  | T_SyncCommitteeContribution => inl 13%nat
  | T_BlobSidecar => inl 14%nat
  | T_ProposerSlashing => inl 15%nat
  | T_AttesterSlashing => inl 16%nat
  | T_AttesterSlashingElectra => inl 17%nat
  | T_VoluntaryExit => inl 18%nat
  | T_BLSToExecutionChange => inl 19%nat
  | T_other n => inr n
  end.
Definition MsgType_of_code (c : nat + string) : MsgType :=
  match c with
  | inr n => T_other n
  | inl 0%nat => T_SignedBeaconBlock
  | inl 1%nat => T_SignedBeaconBlockAltair
  | inl 2%nat => T_SignedBeaconBlockBellatrix
  | inl 3%nat => T_SignedBeaconBlockCapella
  | inl 4%nat => T_SignedBeaconBlockDeneb
  | inl 5%nat => T_SignedBeaconBlockElectra
  | inl 6%nat => T_SignedAggregateAttestationAndProof
  | inl 7%nat => T_SignedAggregateAttestationAndProofElectra
  | inl 8%nat => T_SignedContributionAndProof
  | inl 9%nat => T_Attestation
  | inl 10%nat => T_AttestationElectra
  | inl 11%nat => T_SingleAttestation
  | inl 12%nat => T_SyncCommitteeMessage
  | inl 13%nat => T_SyncCommitteeContribution
  | inl 14%nat => T_BlobSidecar
  | inl 15%nat => T_ProposerSlashing
  | inl 16%nat => T_AttesterSlashing
  | inl 17%nat => T_AttesterSlashingElectra
  | inl 18%nat => T_VoluntaryExit
  | inl _ => T_BLSToExecutionChange
  end.
#[export] Instance MsgType_countable : Countable MsgType.
Proof. by apply (inj_countable' MsgType_code MsgType_of_code); intros []. Defined.

(** A decoded message: what its type holds on the path to the slot. *)
Inductive SszMsg :=
  | SignedBeaconBlock (Block : ptr Z)
  | SignedBeaconBlockAltair (Block : ptr Z)
  | SignedBeaconBlockBellatrix (Block : ptr Z)
  | SignedBeaconBlockCapella (Block : ptr Z)
  | SignedBeaconBlockDeneb (Block : ptr Z)
  | SignedBeaconBlockElectra (Block : ptr Z)
  | SignedAggregateAttestationAndProof (Message_Aggregate_Data : ptr (ptr (ptr Z)))
  | SignedAggregateAttestationAndProofElectra (Message_Aggregate_Data : ptr (ptr (ptr Z)))
  | SignedContributionAndProof (Message_Contribution : ptr (ptr Z))
  | Attestation (Data : ptr Z)
  | AttestationElectra (Data : ptr Z)
  | SingleAttestation (Data : ptr Z)
  | SyncCommitteeMessage (Slot : Z)
  | SyncCommitteeContribution (Slot : Z)
  | BlobSidecar (SignedBlockHeader_Header : ptr (ptr Z))
  | ProposerSlashing
  | AttesterSlashing
  | AttesterSlashingElectra
  | VoluntaryExit
  | BLSToExecutionChange
  | OtherMsg (name : string).

(** reflect.TypeOf *)
Definition TypeOf (m : SszMsg) : MsgType :=
  match m with
  | SignedBeaconBlock _ => T_SignedBeaconBlock
  | SignedBeaconBlockAltair _ => T_SignedBeaconBlockAltair
  | SignedBeaconBlockBellatrix _ => T_SignedBeaconBlockBellatrix
  | SignedBeaconBlockCapella _ => T_SignedBeaconBlockCapella
  | SignedBeaconBlockDeneb _ => T_SignedBeaconBlockDeneb
  | SignedBeaconBlockElectra _ => T_SignedBeaconBlockElectra
  | SignedAggregateAttestationAndProof _ => T_SignedAggregateAttestationAndProof
  | SignedAggregateAttestationAndProofElectra _ => T_SignedAggregateAttestationAndProofElectra
  | SignedContributionAndProof _ => T_SignedContributionAndProof
  | Attestation _ => T_Attestation
  | AttestationElectra _ => T_AttestationElectra
  | SingleAttestation _ => T_SingleAttestation
  | SyncCommitteeMessage _ => T_SyncCommitteeMessage
  | SyncCommitteeContribution _ => T_SyncCommitteeContribution
  | BlobSidecar _ => T_BlobSidecar
  | ProposerSlashing => T_ProposerSlashing
  | AttesterSlashing => T_AttesterSlashing
  | AttesterSlashingElectra => T_AttesterSlashingElectra
  | VoluntaryExit => T_VoluntaryExit
  | BLSToExecutionChange => T_BLSToExecutionChange
  | OtherMsg n => T_other n
  end.

(** The name [%T] prints: the pointer to the type in Prysm's package eth; the name
    of any other type is that of its constructor. *)
Definition type_name (t : MsgType) : string :=
  match t with
  | T_SignedBeaconBlock => "*eth.SignedBeaconBlock"
  | T_SignedBeaconBlockAltair => "*eth.SignedBeaconBlockAltair"
  | T_SignedBeaconBlockBellatrix => "*eth.SignedBeaconBlockBellatrix"
  | T_SignedBeaconBlockCapella => "*eth.SignedBeaconBlockCapella"
  | T_SignedBeaconBlockDeneb => "*eth.SignedBeaconBlockDeneb"
  | T_SignedBeaconBlockElectra => "*eth.SignedBeaconBlockElectra"
  | T_SignedAggregateAttestationAndProof => "*eth.SignedAggregateAttestationAndProof"
  | T_SignedAggregateAttestationAndProofElectra => "*eth.SignedAggregateAttestationAndProofElectra"
  | T_SignedContributionAndProof => "*eth.SignedContributionAndProof"
  | T_Attestation => "*eth.Attestation"
  | T_AttestationElectra => "*eth.AttestationElectra"
  | T_SingleAttestation => "*eth.SingleAttestation"
  | T_SyncCommitteeMessage => "*eth.SyncCommitteeMessage"
  | T_SyncCommitteeContribution => "*eth.SyncCommitteeContribution"
  | T_BlobSidecar => "*eth.BlobSidecar"
  | T_ProposerSlashing => "*eth.ProposerSlashing"
  | T_AttesterSlashing => "*eth.AttesterSlashing"
  | T_AttesterSlashingElectra => "*eth.AttesterSlashingElectra"
  | T_VoluntaryExit => "*eth.VoluntaryExit"
  | T_BLSToExecutionChange => "*eth.BLSToExecutionChange"
  | T_other name => name
  end.

Definition slotExtractorFunc := SszMsg → outcome Z.

Record slotExtractorRegistry := MkRegistry {
  slotExtractors : gmap MsgType slotExtractorFunc;
  generalExtractors : gset MsgType;
}.

Definition registerSlotExtractor (t : MsgType) (fn : slotExtractorFunc)
    (r : slotExtractorRegistry) : slotExtractorRegistry :=
  MkRegistry (<[t := fn]> (slotExtractors r)) (generalExtractors r).

Definition registerGeneralMessage (t : MsgType) (r : slotExtractorRegistry)
    : slotExtractorRegistry :=
  MkRegistry (slotExtractors r) ({[t]} ∪ generalExtractors r).

Definition extract (r : slotExtractorRegistry) (msg : SszMsg) : outcome (messageKind * Z) :=
  let t := TypeOf msg in
  match slotExtractors r !! t with
  | Some fn => slot ← fn msg; Ret (slotMessage, slot)
  | None =>
      if bool_decide (t ∈ generalExtractors r) then Ret (generalMessage, 0)
      else Fail (errors_New ("unsupported message type: " +:+ type_name t))
  end.

(** [msg.( *T )] on a message of another type panics. *)
Definition assert_failed : outcome Z := Panicked panic_assert.

Definition registerDefaults (r : slotExtractorRegistry) : slotExtractorRegistry :=
  foldl (λ r reg, reg r) r [
    registerSlotExtractor T_SignedBeaconBlock (λ msg,
      match msg with SignedBeaconBlock p => deref p | _ => assert_failed end);
    registerSlotExtractor T_SignedBeaconBlockAltair (λ msg,
      match msg with SignedBeaconBlockAltair p => deref p | _ => assert_failed end);
    registerSlotExtractor T_SignedBeaconBlockBellatrix (λ msg,
      match msg with SignedBeaconBlockBellatrix p => deref p | _ => assert_failed end);
    registerSlotExtractor T_SignedBeaconBlockCapella (λ msg,
      match msg with SignedBeaconBlockCapella p => deref p | _ => assert_failed end);
    registerSlotExtractor T_SignedBeaconBlockDeneb (λ msg,
      match msg with SignedBeaconBlockDeneb p => deref p | _ => assert_failed end);
    registerSlotExtractor T_SignedBeaconBlockElectra (λ msg,
      match msg with SignedBeaconBlockElectra p => deref p | _ => assert_failed end);
    registerSlotExtractor T_SignedAggregateAttestationAndProof (λ msg,
      match msg with SignedAggregateAttestationAndProof p => m ← deref p; a ← deref m; deref a | _ => assert_failed end);
    registerSlotExtractor T_SignedAggregateAttestationAndProofElectra (λ msg,
      match msg with SignedAggregateAttestationAndProofElectra p => m ← deref p; a ← deref m; deref a | _ => assert_failed end);
    registerSlotExtractor T_SignedContributionAndProof (λ msg,
      match msg with SignedContributionAndProof p => m ← deref p; deref m | _ => assert_failed end);
    registerSlotExtractor T_Attestation (λ msg,
      match msg with Attestation p => deref p | _ => assert_failed end);
    registerSlotExtractor T_AttestationElectra (λ msg,
      match msg with AttestationElectra p => deref p | _ => assert_failed end);
    registerSlotExtractor T_SingleAttestation (λ msg,
      match msg with SingleAttestation p => deref p | _ => assert_failed end);
    registerSlotExtractor T_SyncCommitteeMessage (λ msg,
      match msg with SyncCommitteeMessage p => Ret p | _ => assert_failed end);
    registerSlotExtractor T_SyncCommitteeContribution (λ msg,
      match msg with SyncCommitteeContribution p => Ret p | _ => assert_failed end);
    registerSlotExtractor T_BlobSidecar (λ msg,
      match msg with BlobSidecar p => h ← deref p; deref h | _ => assert_failed end);
    registerGeneralMessage T_ProposerSlashing;
    registerGeneralMessage T_AttesterSlashing;
    registerGeneralMessage T_AttesterSlashingElectra;
    registerGeneralMessage T_VoluntaryExit;
    registerGeneralMessage T_BLSToExecutionChange].

Definition newSlotExtractorRegistry : slotExtractorRegistry :=
  registerDefaults (MkRegistry ∅ ∅).

(** ** Specification: one case per supported type *)

Definition slot_of (m : SszMsg) : outcome (messageKind * Z) :=
  match m with
  | SignedBeaconBlock p | SignedBeaconBlockAltair p | SignedBeaconBlockBellatrix p | SignedBeaconBlockCapella p | SignedBeaconBlockDeneb p | SignedBeaconBlockElectra p
  | Attestation p | AttestationElectra p | SingleAttestation p =>
      s ← deref p; Ret (slotMessage, s)
  | SignedAggregateAttestationAndProof p
  | SignedAggregateAttestationAndProofElectra p =>
      m ← deref p; a ← deref m; s ← deref a; Ret (slotMessage, s)
  | SignedContributionAndProof p | BlobSidecar p =>
      m ← deref p; s ← deref m; Ret (slotMessage, s)
  | SyncCommitteeMessage s | SyncCommitteeContribution s => Ret (slotMessage, s)
  | ProposerSlashing | AttesterSlashing | AttesterSlashingElectra | VoluntaryExit | BLSToExecutionChange =>
      Ret (generalMessage, 0)
  | OtherMsg name => Fail (errors_New ("unsupported message type: " +:+ name))
  end.

Lemma extract_spec m : extract newSlotExtractorRegistry m = slot_of m.
Proof.
  destruct m as [p|p|p|p|p|p|p|p|p|p|p|p|s|s|p| | | | | |n]; try reflexivity.
  all: by destruct p as [[[]|]|].
Qed.

(** ** Properties *)

(** C30. The default registry classifies every message as the table of supported
    types says: the fifteen slot-bearing types yield the slot at the end of
    their pointer path (a nil pointer on the path panics), the five general
    types yield no slot, and any other type is the error that names it as
    unsupported; no type assertion ever fails. *)
Theorem extract_classifies (m : SszMsg) :
  extract newSlotExtractorRegistry m = slot_of m ∧
  extract newSlotExtractorRegistry m ≠ Panicked panic_assert.
Proof.
  rewrite extract_spec. split; [done|].
  by destruct m; repeat match goal with p : option _ |- _ => destruct p end.
Qed.
