(* ===== verification/Processor.v ===== *)
(** * processor/beacon_message_processor.go: decoding, caching and flushing

    The processor's fields are a record; a method takes it and returns it with
    an outcome. The clock, the peer count and the iteration orders of the maps
    are arguments. A spawned goroutine is an element of [spawned]: it runs
    later, in [run_spawned]. Log calls are left out. *)

From S2P Require Import Prelude GoStrings GoTime GoFloat Externals Eth.
From S2P Require Import Repository SeenCounter SlotCache SlotExtractor.
Local Open Scope Z_scope.

(** ** beacon_messages.go *)

Record GeneralMessageMetadata := {
  g_PeerID : string;
  g_Topic : string;
  g_MsgID : string;
  g_MsgSize : Z;
  g_MsgArrival : Time;
}.

Record SlotMessageMetadata := {
  s_PeerID : string;
  s_Topic : string;
  s_MsgID : string;
  s_MsgSize : Z;
  s_MsgArrival : Time;
  s_MsgDelayInSlot : Duration;
  s_Slot : Z;
}.

(** pubsub.Message, the parts the processor reads. *)
Record Message := {
  ReceivedFrom : string;
  msg_Topic : string;
  msg_ID : string;
  msg_Data : string;
}.

(** The interface PeerCounter; a call may panic. *)
Class PeerCounter (PC : Type) := TotalPeerCount : PC → outcome Z.

(** The SSZ network encoder of Prysm and the text form of a peer id. [DecodeGossip]
    fills an object of the given type, or fails. *)
Class Encoder := {
  DecodeGossip : string → MsgType → error + SszMsg;
  peer_String : string → string;
}.
Class EncoderLaws `{Encoder} := {
  DecodeGossip_type data t m : DecodeGossip data t = inr m → TypeOf m = t;
}.

(** ** Topics *)

Section Topics.
Context `{P2P}.

Definition TopicToTopicGroup (topic : string) : string :=
  if Contains topic GossipBlockMessage then GossipBlockMessage
  else if Contains topic GossipAggregateAndProofMessage then GossipAggregateAndProofMessage
  else if Contains topic GossipContributionAndProofMessage
    then GossipContributionAndProofMessage
  else if Contains topic GossipProposerSlashingMessage then GossipProposerSlashingMessage
  else if Contains topic GossipAttesterSlashingMessage then GossipAttesterSlashingMessage
  else if Contains topic GossipExitMessage then GossipExitMessage
  else if Contains topic GossipBlsToExecutionChangeMessage
    then GossipBlsToExecutionChangeMessage
  else if Contains topic GossipAttestationMessage then GossipAttestationMessage
  else if Contains topic GossipSyncCommitteeMessage then GossipSyncCommitteeMessage
  else if Contains topic GossipBlobSidecarMessage then GossipBlobSidecarMessage
  else "unknown".

Definition parseEth2Topic (topic : string) : outcome (string * string) :=
  let parts := Split slash topic in
  p2 ← index parts 2; p3 ← index parts 3; Ret (p2, p3).
End Topics.

(** ** The processor *)

Record BeaconMessageProcessor (R PC : Type) := MkProcessor {
  repo : ptr R;
  peerCounter : ptr PC;
  beaconConfig : BeaconChainConfig;
  genesisTime : Time;
  nodeAlias : string;
  nodeRegion : string;
  slotCache : SlotCacheStore;
  seenCounter : SeenCounter;
  extractors : slotExtractorRegistry;
  messageNotify : nat;
  spawned : list GeneralMessageHistory;
}.
Arguments MkProcessor {R PC}.
Arguments repo {R PC}.
Arguments peerCounter {R PC}.
Arguments beaconConfig {R PC}.
Arguments genesisTime {R PC}.
Arguments nodeAlias {R PC}.
Arguments nodeRegion {R PC}.
Arguments slotCache {R PC}.
Arguments seenCounter {R PC}.
Arguments extractors {R PC}.
Arguments messageNotify {R PC}.
Arguments spawned {R PC}.

(** The capacity of the [messageNotify] channel. *)
Definition notify_cap : nat := 100.

Section Processor.
Context {R PC : Type} `{Repository R} `{PeerCounter PC} `{P2P} `{Encoder}.
Abbreviation proc := (BeaconMessageProcessor R PC).
Implicit Types (p : proc).

Definition set_repo (r : R) p : proc :=
  MkProcessor (Some r) (peerCounter p) (beaconConfig p) (genesisTime p) (nodeAlias p)
    (nodeRegion p) (slotCache p) (seenCounter p) (extractors p) (messageNotify p) (spawned p).
Definition set_slotCache (s : SlotCacheStore) p : proc :=
  MkProcessor (repo p) (peerCounter p) (beaconConfig p) (genesisTime p) (nodeAlias p)
    (nodeRegion p) s (seenCounter p) (extractors p) (messageNotify p) (spawned p).
Definition set_seenCounter (s : SeenCounter) p : proc :=
  MkProcessor (repo p) (peerCounter p) (beaconConfig p) (genesisTime p) (nodeAlias p)
    (nodeRegion p) (slotCache p) s (extractors p) (messageNotify p) (spawned p).
Definition set_notify (n : nat) p : proc :=
  MkProcessor (repo p) (peerCounter p) (beaconConfig p) (genesisTime p) (nodeAlias p)
    (nodeRegion p) (slotCache p) (seenCounter p) (extractors p) n (spawned p).
Definition set_spawned (l : list GeneralMessageHistory) p : proc :=
  MkProcessor (repo p) (peerCounter p) (beaconConfig p) (genesisTime p) (nodeAlias p)
    (nodeRegion p) (slotCache p) (seenCounter p) (extractors p) (messageNotify p) l.

(** [time.Duration(slot) * time.Second * time.Duration(SecondsPerSlot)] *)
Definition slot_offset p (slot : Z) : Duration :=
  dmul (dmul (i64 slot) Second) (i64 (SecondsPerSlot (beaconConfig p))).

Definition getDelayInSlot p (arrivalTime : Time) (slot : Z) : Duration :=
  let slotTime := Time_Add (genesisTime p) (slot_offset p slot) in
  Time_Sub arrivalTime slotTime.

Definition getSlotDuration p : Duration :=
  dmul (i64 (SecondsPerSlot (beaconConfig p))) Second.

Definition newGeneralMetadata (now : Time) (msg : Message) : GeneralMessageMetadata := {|
  g_PeerID := peer_String (ReceivedFrom msg);
  g_Topic := msg_Topic msg;
  g_MsgID := EncodeToString (msg_ID msg);
  g_MsgSize := Z.of_nat (String.length (msg_Data msg));
  g_MsgArrival := now;
|}.

Definition newSlotMetadata p (now : Time) (msg : Message) (slot : Z) : SlotMessageMetadata := {|
  s_PeerID := peer_String (ReceivedFrom msg);
  s_Topic := msg_Topic msg;
  s_MsgID := EncodeToString (msg_ID msg);
  s_MsgSize := Z.of_nat (String.length (msg_Data msg));
  s_MsgArrival := now;
  s_MsgDelayInSlot := getDelayInSlot p now slot;
  s_Slot := slot;
|}.

(** The record built by [processGeneralMessageMetadata]. *)
Definition general_record p (md : GeneralMessageMetadata) : outcome GeneralMessageHistory :=
  '(forkVersion, messageType) ← parseEth2Topic (g_Topic md);
  pc ← deref (peerCounter p);
  peers ← TotalPeerCount pc;
  Ret {| gm_ArrivalTime := g_MsgArrival md; gm_ForkVersion := forkVersion;
         gm_Topic := messageType; gm_NodeRegion := nodeRegion p;
         gm_NodeAlias := nodeAlias p; gm_NodePeerCount := u32 peers;
         gm_MessageID := g_MsgID md; gm_SizeBytes := u32 (g_MsgSize md) |}.

Definition processGeneralMessageMetadata p (md : GeneralMessageMetadata) : proc * outcome unit :=
  match general_record p md with
  | Ret record => (set_spawned (spawned p ++ [record]) p, Ret ())
  | Fail e => (p, Fail e)
  | Panicked v => (p, Panicked v)
  end.

(** The goroutine started for a general record: a failed save is only logged. *)
Definition save_general p (record : GeneralMessageHistory) : proc * outcome unit :=
  match repo p with
  | None => (p, Panicked panic_nil)
  | Some r => (set_repo (SaveGeneralMessageHistory r (Some record)).1 p, Ret ())
  end.
Definition run_spawned p : proc * outcome unit :=
  match spawned p with
  | [] => (p, Ret ())
  | record :: rest => save_general (set_spawned rest p) record
  end.

(** The record built by [processSlotMessageMetadata]. *)
Definition slot_record p (md : SlotMessageMetadata) : outcome SlotMessageStats :=
  let slotStartTime := Time_Add (genesisTime p) (slot_offset p (s_Slot md)) in
  '(forkVersion, messageType) ← parseEth2Topic (s_Topic md);
  pc ← deref (peerCounter p);
  peers ← TotalPeerCount pc;
  Ret {| Slot := s_Slot md; TopicGroup := TopicToTopicGroup (s_Topic md);
         ForkVersion := forkVersion; Topic := messageType;
         NodeRegion := nodeRegion p; NodeAlias := nodeAlias p;
         NodePeerCount := u32 peers; MessageID := s_MsgID md;
         SlotStartTime := slotStartTime; FirstArrivalTime := s_MsgArrival md;
         LatencyMS := u32 (Milliseconds (s_MsgDelayInSlot md));
         SizeBytes := u32 (s_MsgSize md); SeenCount := 0 |}.

(** [select { case p.messageNotify <- struct{}{}: default: }] *)
Definition notify p : proc :=
  if (messageNotify p <? notify_cap)%nat then set_notify (S (messageNotify p)) p else p.

Definition processSlotMessageMetadata p (md : SlotMessageMetadata) : proc * outcome unit :=
  match slot_record p md with
  | Ret record =>
      let '(cache, _) := Add (slotCache p) (s_Slot md) (s_MsgID md) record in
      (notify (set_slotCache cache p), Ret ())
  | Fail e => (p, Fail e)
  | Panicked v => (p, Panicked v)
  end.

(** The errors of the two metadata handlers are dropped by the caller. *)
Definition drop_err (r : proc * outcome unit) : proc * outcome unit :=
  match r with
  | (p, Fail _) => (p, Ret ())
  | _ => r
  end.

Definition Process p (now : Time) (msg : Message) (dst : MsgType) : proc * outcome unit :=
  match DecodeGossip (msg_Data msg) dst with
  | inl e => (p, Fail (errors_Wrap e "failed to decode gossip message"))
  | inr m =>
      match extract (extractors p) m with
      | Fail e => (p, Fail e)
      | Panicked v => (p, Panicked v)
      | Ret (slotMessage, slot) =>
          drop_err (processSlotMessageMetadata p (newSlotMetadata p now msg slot))
      | Ret (generalMessage, _) =>
          drop_err (processGeneralMessageMetadata p (newGeneralMetadata now msg))
      end
  end.

Definition IncreaseSeenCountByRawID p (msgIDRaw : string) : proc :=
  set_seenCounter (IncreaseByRawID (seenCounter p) msgIDRaw) p.

(** ** Flushing *)

(** One pass of [for _, stat := range stats]: pop the count of each record. *)
Definition count_stat (sc : SeenCounter) (stat : SlotMessageStats)
    : SeenCounter * SlotMessageStats :=
  match Pop sc (MessageID stat) with
  | (sc, (seenCount, true)) => (sc, set_SeenCount stat seenCount)
  | (sc, (_, false)) => (sc, set_SeenCount stat 1)
  end.
Fixpoint count_stats (sc : SeenCounter) (stats : list SlotMessageStats)
    : SeenCounter * list SlotMessageStats :=
  match stats with
  | [] => (sc, [])
  | stat :: stats =>
      let '(sc, stat) := count_stat sc stat in
      let '(sc, stats) := count_stats sc stats in
      (sc, stat :: stats)
  end.

Definition saveToRepository p (stats : list SlotMessageStats) : proc * outcome unit :=
  match stats with
  | [] => (p, Ret ())
  | _ =>
      match repo p with
      | None => (p, Panicked panic_nil)
      | Some r =>
          let '(r, e) := SaveSlotMessageStatsMulti r stats in
          (set_repo r p, wrap "failed to save slot message stats batch" (check_err e))
      end
  end.

(** The body of the loop over the completed slots. *)
Definition flush_slot (o : order SlotMessageStats) p (slot : Z) : proc * outcome unit :=
  let '(cache, stats) := DrainSlot o (slotCache p) slot in
  let p := set_slotCache cache p in
  match stats with
  | [] => (p, Ret ())
  | _ =>
      let '(sc, stats) := count_stats (seenCounter p) stats in
      drop_err (saveToRepository (set_seenCounter sc p) stats)
  end.

Fixpoint flush_slots (o : Z → order SlotMessageStats) p (slots : list Z) : proc * outcome unit :=
  match slots with
  | [] => (p, Ret ())
  | slot :: slots =>
      match flush_slot (o slot) p slot with
      | (p, Ret _) => flush_slots o p slots
      | r => r
      end
  end.

(** [uint64(time.Now().Unix()) / uint64(p.getSlotDuration().Seconds())] *)
Definition current_slot p (now : Time) : outcome Z :=
  match float_to_u64 (Seconds (getSlotDuration p)) with
  | Some d => udiv (u64 (Time_Unix now)) d
  | None => Panicked (panic_msg "implementation-defined float conversion")
  end.

Definition flushCompletedSlots (os : order Z) (o : Z → order SlotMessageStats) p (now : Time)
    : proc * outcome unit :=
  match current_slot p now with
  | Ret currentSlot => flush_slots o p (CompletedSlots os (slotCache p) currentSlot)
  | Fail e => (p, Fail e)
  | Panicked v => (p, Panicked v)
  end.

(** ** The service loop

    An event is the branch the [select] takes. *)
Inductive serve_event :=
  | EvDone (now : Time) (os : order Z) (o : Z → order SlotMessageStats)
  | EvTick (now : Time) (os : order Z) (o : Z → order SlotMessageStats)
  | EvNotify.

(** [None]: still serving when the events run out. *)
Fixpoint serve_loop p (evs : list serve_event) : proc * option (outcome unit) :=
  match evs with
  | [] => (p, None)
  | EvDone now os o :: _ =>
      let '(p, r) := flushCompletedSlots os o p now in (p, Some r)
  | EvTick now os o :: evs =>
      match flushCompletedSlots os o p now with
      | (p, Ret _) => serve_loop p evs
      | (p, r) => (p, Some r)
      end
  | EvNotify :: evs => serve_loop (set_notify (pred (messageNotify p)) p) evs
  end.

(** [time.NewTicker] panics on a non-positive interval. *)
Definition Serve p (evs : list serve_event) : proc * option (outcome unit) :=
  if getSlotDuration p <=? 0
  then (p, Some (Panicked (panic_msg "non-positive interval for NewTicker")))
  else serve_loop p evs.
End Processor.

(** ** Construction *)

Record BeaconMessageProcessorOption (R PC : Type) := {
  o_repo : ptr R;
  o_nodeAlias : string;
  o_nodeRegion : string;
  o_peerCounter : ptr PC;
}.
Arguments o_repo {R PC}.
Arguments o_nodeAlias {R PC}.
Arguments o_nodeRegion {R PC}.
Arguments o_peerCounter {R PC}.

Section Construction.
Context {R PC : Type} `{Params, P2P, Slots, Hexutil, Bitfield}.
Abbreviation opt := (BeaconMessageProcessorOption R PC).

Definition WithRepository (r : R) (o : opt) : opt :=
  {| o_repo := Some r; o_nodeAlias := o_nodeAlias o;
     o_nodeRegion := o_nodeRegion o; o_peerCounter := o_peerCounter o |}.
Definition WithNodeAlias (v : string) (o : opt) : opt :=
  {| o_repo := o_repo o; o_nodeAlias := v;
     o_nodeRegion := o_nodeRegion o; o_peerCounter := o_peerCounter o |}.
Definition WithNodeRegion (v : string) (o : opt) : opt :=
  {| o_repo := o_repo o; o_nodeAlias := o_nodeAlias o;
     o_nodeRegion := v; o_peerCounter := o_peerCounter o |}.
Definition WithPeerCounter (pc : PC) (o : opt) : opt :=
  {| o_repo := o_repo o; o_nodeAlias := o_nodeAlias o;
     o_nodeRegion := o_nodeRegion o; o_peerCounter := Some pc |}.

Definition NewBeaconMessageProcessor (net : string) (opts : list (opt → opt))
    : outcome (BeaconMessageProcessor R PC) :=
  let o := apply_opts opts
    {| o_repo := None; o_nodeAlias := ""; o_nodeRegion := ""; o_peerCounter := None |} in
  config ← GetBeaconChainConfig net;
  genesis ← GetGenesisConfig net;
  Ret (MkProcessor (o_repo o) (o_peerCounter o) config (GenesisTime genesis)
         (o_nodeAlias o) (o_nodeRegion o) NewSlotCacheStore NewSeenCounter
         newSlotExtractorRegistry 0 []).
End Construction.
