(* ===== verification/ProcessorFacts.v ===== *)
(** * Properties of the beacon message processor

    Timing of records, the effect of [Process] on every branch, the processor's
    invariant, and what a flush sends to the repository. *)

From S2P Require Import Prelude GoStrings GoTime GoFloat Externals Eth.
From S2P Require Import Repository SeenCounter SlotCache SlotExtractor Processor.
Local Open Scope Z_scope.

(** ** Timing *)

Section Timing.
Context {R PC : Type} `{Repository R} `{PeerCounter PC} `{P2P} `{Encoder}.
Implicit Types (p : BeaconMessageProcessor R PC).

(** A genesis time the clocks can show, and a slot whose start is in range of
    a Duration since genesis (292 years). *)
Definition genesis_ok p : Prop :=
  - 2 ^ 61 <= t_sec (genesisTime p) < 2 ^ 61 ∧ 0 <= t_nsec (genesisTime p) < Second.
Definition slot_ok p (slot : Z) : Prop :=
  0 <= slot ∧ 1 <= SecondsPerSlot (beaconConfig p) ∧
  slot * SecondsPerSlot (beaconConfig p) * Second < 2 ^ 63.

(** The start of a slot, in nanoseconds of the mathematical clock. *)
Definition slot_start_ns p (slot : Z) : Z :=
  time_ns (genesisTime p) + slot * SecondsPerSlot (beaconConfig p) * Second.

Lemma slot_offset_exact p slot :
  slot_ok p slot → slot_offset p slot = slot * SecondsPerSlot (beaconConfig p) * Second.
Proof.
  intros (Hs & Hp & Hb). unfold slot_offset, dmul, Second in *.
  set (sps := SecondsPerSlot (beaconConfig p)) in *.
  assert (slot * 1000000000 <= slot * sps * 1000000000) by nia.
  assert (sps < 2 ^ 63 ∨ slot = 0) as [Hsp| ->] by nia.
  - rewrite (i64_small slot) by (unfold is_i64; lia).
    rewrite (i64_small (slot * _)) by (unfold is_i64; lia).
    rewrite (i64_small sps) by (unfold is_i64; lia).
    rewrite i64_small by (unfold is_i64; lia). lia.
  - done.
Qed.

Lemma slot_start_exact p slot :
  genesis_ok p → slot_ok p slot →
  let t := Time_Add (genesisTime p) (slot_offset p slot) in
  time_ok t ∧ time_ns t = slot_start_ns p slot.
Proof.
  intros [Hgs Hgn] Hs. simpl. rewrite slot_offset_exact by done.
  destruct Hs as (Hs & Hp & Hb). unfold slot_start_ns.
  set (d := slot * SecondsPerSlot (beaconConfig p) * Second) in *.
  assert (0 <= d) by (unfold d, Second in *; nia).
  destruct (Time_Add_ns (genesisTime p) d) as [Hns Hn];
    [split; lia | unfold is_i64; lia |].
  split; [|done]. split; [|done].
  unfold time_ns, Second in *. lia.
Qed.

Lemma getDelayInSlot_exact p now slot :
  genesis_ok p → slot_ok p slot → time_ok now →
  getDelayInSlot p now slot = saturate (time_ns now - slot_start_ns p slot).
Proof.
  intros Hg Hs Hn. destruct (slot_start_exact p slot Hg Hs) as [Hok <-].
  unfold getDelayInSlot. by apply Time_Sub_saturate.
Qed.

(** The uint32 latency of a delay. *)
Lemma latency_late d :
  0 <= d < 2 ^ 32 * Millisecond → u32 (Milliseconds d) = d / Millisecond.
Proof.
  intros Hd. unfold Milliseconds, Millisecond in *. rewrite Z.quot_div_nonneg by lia.
  apply u32_small. unfold is_u32. split; [apply Z.div_pos; lia|].
  apply Z.div_lt_upper_bound; lia.
Qed.

Lemma latency_early d :
  0 < d → - d / - Millisecond < 2 ^ 32 → Millisecond <= d →
  u32 (Milliseconds (- d)) = 2 ^ 32 - d / Millisecond.
Proof.
  intros Hd Hb Hm. unfold Milliseconds, Millisecond in *.
  rewrite Z.div_opp_opp in Hb by lia.
  rewrite Z.quot_opp_l, Z.quot_div_nonneg by lia. unfold u32.
  assert (1 <= d / 1000000) by (apply Z.div_le_lower_bound; lia).
  rewrite <-(Z_mod_plus_full _ 1), Z.mod_small; lia.
Qed.
End Timing.

(** ** What a processed message leaves behind *)

Section Process.
Context {R PC : Type} `{Repository R} `{PeerCounter PC} `{P2P} `{Encoder}.
Implicit Types (p : BeaconMessageProcessor R PC).

(** Everything but the cache and the notification channel. *)
Definition same_rest p p' : Prop :=
  repo p' = repo p ∧ peerCounter p' = peerCounter p ∧ beaconConfig p' = beaconConfig p ∧
  genesisTime p' = genesisTime p ∧ nodeAlias p' = nodeAlias p ∧
  nodeRegion p' = nodeRegion p ∧ seenCounter p' = seenCounter p ∧
  extractors p' = extractors p ∧ spawned p' = spawned p.

Lemma notify_rest p : same_rest p (notify p) ∧ slotCache (notify p) = slotCache p.
Proof. unfold notify. by case_match. Qed.

Lemma notify_bound p :
  (messageNotify p <= notify_cap)%nat → (messageNotify (notify p) <= notify_cap)%nat.
Proof.
  unfold notify. intros Hn. destruct (Nat.ltb_spec (messageNotify p) notify_cap); simpl; lia.
Qed.

Lemma slot_record_fields p md st :
  slot_record p md = Ret st →
  Slot st = s_Slot md ∧ MessageID st = s_MsgID md ∧
  TopicGroup st = TopicToTopicGroup (s_Topic md) ∧
  parseEth2Topic (s_Topic md) = Ret (ForkVersion st, Topic st) ∧
  LatencyMS st = u32 (Milliseconds (s_MsgDelayInSlot md)) ∧
  SlotStartTime st = Time_Add (genesisTime p) (slot_offset p (s_Slot md)) ∧
  FirstArrivalTime st = s_MsgArrival md ∧ SizeBytes st = u32 (s_MsgSize md) ∧
  NodeAlias st = nodeAlias p ∧ NodeRegion st = nodeRegion p ∧
  (∃ pc n, peerCounter p = Some pc ∧ TotalPeerCount pc = Ret n ∧ NodePeerCount st = u32 n).
Proof.
  unfold slot_record. intros ([fv ty] & Hp & Hk)%bind_Ret_inv.
  apply bind_Ret_inv in Hk as (pc & Hpc & Hk).
  apply bind_Ret_inv in Hk as (n & Hn & [= <-]).
  destruct (peerCounter p) as [pc'|]; [|done]. injection Hpc as ->. simpl.
  rewrite Hp. eauto 20.
Qed.

Lemma processSlot_Ret p md st :
  slot_record p md = Ret st →
  processSlotMessageMetadata p md =
    (notify (set_slotCache (Add (slotCache p) (s_Slot md) (s_MsgID md) st).1 p), Ret ()).
Proof.
  intros Hst. unfold processSlotMessageMetadata. rewrite Hst.
  by destruct (Add (slotCache p) (s_Slot md) (s_MsgID md) st).
Qed.

(** A record can be built from a topic of at least four segments. *)
Lemma slot_record_total p md fv ty pc n :
  parseEth2Topic (s_Topic md) = Ret (fv, ty) → peerCounter p = Some pc →
  TotalPeerCount pc = Ret n →
  ∃ st, slot_record p md = Ret st.
Proof. intros Ht Hpc Hn. unfold slot_record. rewrite Ht, Hpc. simpl. rewrite Hn. simpl. eauto. Qed.
(** A slot message that decodes is cached, and nothing else changes. *)
Lemma Process_slot p now msg dst m slot fv ty pc n
  (Hdec : DecodeGossip (msg_Data msg) dst = inr m)
  (Hslot : slot_of m = Ret (slotMessage, slot))
  (Htopic : parseEth2Topic (msg_Topic msg) = Ret (fv, ty))
  (Hpc : peerCounter p = Some pc) (Hn : TotalPeerCount pc = Ret n)
  (Hext : extractors p = newSlotExtractorRegistry) :
  let id := EncodeToString (msg_ID msg) in
  ∃ p' st, Process p now msg dst = (p', Ret ()) ∧ same_rest p p' ∧
    slot_record p (newSlotMetadata p now msg slot) = Ret st ∧
    (∀ slot' id', cached (slotCache p') slot' id' =
       if bool_decide (slot = slot' ∧ id = id')
       then Some (default st (cached (slotCache p) slot id))
       else cached (slotCache p) slot' id') ∧
    (messageNotify p <= messageNotify p' <= S (messageNotify p))%nat.
Proof.
  simpl. destruct (slot_record_total p (newSlotMetadata p now msg slot) fv ty pc n) as [st Hst];
    [done..|].
  unfold Process. rewrite Hdec, Hext, extract_spec, Hslot, (processSlot_Ret _ _ st) by done.
  simpl. eexists _, st. split; [done|].
  destruct (notify_rest (set_slotCache (Add (slotCache p) slot (EncodeToString (msg_ID msg))
    st).1 p)) as [Hrest Hca]. rewrite Hca. split_and!; [done|done| | |].
  - intros slot' id'. apply cached_Add.
  - unfold notify. case_match; simpl; lia.
  - unfold notify. case_match; simpl; lia.
Qed.

Lemma parse_short topic :
  (length (Split slash topic) < 4)%nat → parseEth2Topic topic = Panicked panic_index.
Proof.
  unfold parseEth2Topic, index. destruct (Split slash topic) as [|a [|b [|c [|d l]]]];
    simpl; done || lia.
Qed.
Lemma parse_long topic :
  (4 <= length (Split slash topic))%nat → ∃ parts, parseEth2Topic topic = Ret parts.
Proof.
  unfold parseEth2Topic, index. destruct (Split slash topic) as [|a [|b [|c [|d l]]]];
    simpl; eauto || lia.
Qed.

(** The three places where building a record panics: the topic, a nil peer
    counter, the peer counter. *)
Definition record_panics p (topic : string) (v : panic_value) : Prop :=
  parseEth2Topic topic = Panicked v ∨
  (∃ parts, parseEth2Topic topic = Ret parts) ∧
  (peerCounter p = None ∧ v = panic_nil ∨
   ∃ pc, peerCounter p = Some pc ∧ TotalPeerCount pc = Panicked v).

Lemma slot_record_panics p md v :
  record_panics p (s_Topic md) v → slot_record p md = Panicked v.
Proof.
  unfold slot_record. intros [->|[[[fv ty] ->] [[-> ->]|(pc & -> & Hv)]]]; simpl; [done..|].
  by rewrite Hv.
Qed.
Lemma general_record_panics p md v :
  record_panics p (g_Topic md) v → general_record p md = Panicked v.
Proof.
  unfold general_record. intros [->|[[[fv ty] ->] [[-> ->]|(pc & -> & Hv)]]]; simpl; [done..|].
  by rewrite Hv.
Qed.

(** A supported message whose record panics makes [Process] panic. *)
Lemma Process_panics p now msg dst m ks v :
  extractors p = newSlotExtractorRegistry → DecodeGossip (msg_Data msg) dst = inr m →
  slot_of m = Ret ks → record_panics p (msg_Topic msg) v →
  Process p now msg dst = (p, Panicked v).
Proof.
  intros Hext Hdec Hslot Hv. unfold Process. rewrite Hdec, Hext, extract_spec, Hslot.
  destruct ks as [[] slot].
  - unfold processSlotMessageMetadata. by rewrite (slot_record_panics _ _ v).
  - unfold processGeneralMessageMetadata. by rewrite (general_record_panics _ _ v).
Qed.

(** Running the pending saves, oldest first. *)
Definition save_one (r : R) (h : GeneralMessageHistory) : R :=
  (SaveGeneralMessageHistory r (Some h)).1.
Fixpoint run_pending (n : nat) p : BeaconMessageProcessor R PC * outcome unit :=
  match n with
  | O => (p, Ret ())
  | S n =>
      match run_spawned p with
      | (p, Ret _) => run_pending n p
      | r => r
      end
  end.

Lemma run_pending_all p r :
  repo p = Some r →
  run_pending (length (spawned p)) p =
    (set_spawned [] (set_repo (foldl save_one r (spawned p)) p), Ret ()).
Proof.
  remember (spawned p) as l eqn:Hl. revert p r Hl. induction l as [|h l IH]; intros p r Hl Hr; simpl.
  - destruct p. simpl in *. by subst.
  - unfold run_spawned. rewrite <-Hl. unfold save_general. simpl. rewrite Hr.
    by rewrite (IH _ (save_one r h)).
Qed.
End Process.

(** ** The invariant *)

(** The uint32 fields of a record are in range. *)
Definition stat_ok (st : SlotMessageStats) : Prop :=
  is_u32 (NodePeerCount st) ∧ is_u32 (LatencyMS st) ∧ is_u32 (SizeBytes st) ∧
  is_u32 (SeenCount st).
Definition history_ok (h : GeneralMessageHistory) : Prop :=
  is_u32 (gm_NodePeerCount h) ∧ is_u32 (gm_SizeBytes h).

Record proc_wf {R PC} (p : BeaconMessageProcessor R PC) : Prop := {
  wf_cache : store_wf (slotCache p);
  wf_extractors : extractors p = newSlotExtractorRegistry;
  wf_notify : (messageNotify p <= notify_cap)%nat;
  wf_counts : map_Forall (λ _ n, is_u32 n) (counts (seenCounter p));
  wf_stats : Forall stat_ok (records (slotCache p));
  wf_spawned : Forall history_ok (spawned p);
}.

Section Invariant.
Context {R PC : Type} `{Repository R} `{PeerCounter PC} `{P2P} `{Encoder}.
Implicit Types (p : BeaconMessageProcessor R PC).

Lemma slot_record_ok p md st : slot_record p md = Ret st → stat_ok st.
Proof.
  intros Hst. pose proof Hst as Hst'.
  apply slot_record_fields in Hst as (_ & _ & _ & _ & Hl & _ & _ & Hz & _ & _ & pc & n & _ & _ & Hn).
  unfold slot_record in Hst'. apply bind_Ret_inv in Hst' as ([? ?] & _ & Hst').
  apply bind_Ret_inv in Hst' as (? & _ & Hst').
  apply bind_Ret_inv in Hst' as (? & _ & [= <-]). unfold stat_ok. simpl.
  split_and!; auto with peekd; unfold is_u32; lia.
Qed.

Lemma general_record_ok p md h : general_record p md = Ret h → history_ok h.
Proof.
  unfold general_record. intros ([? ?] & _ & Hk)%bind_Ret_inv.
  apply bind_Ret_inv in Hk as (? & _ & Hk).
  apply bind_Ret_inv in Hk as (? & _ & [= <-]). split; simpl; auto with peekd.
Qed.

Lemma wf_processSlot p md :
  proc_wf p → proc_wf (processSlotMessageMetadata p md).1.
Proof.
  intros Hp. unfold processSlotMessageMetadata.
  destruct (slot_record p md) as [st|e|v] eqn:Hst; [|done..].
  pose proof (slot_record_ok _ _ _ Hst) as Hok.
  apply slot_record_fields in Hst as (Hslot & Hid & _).
  pose proof (store_wf_Add (slotCache p) (s_Slot md) (s_MsgID md) st
    (wf_cache p Hp) Hslot Hid) as Hwf.
  pose proof (records_Add (slotCache p) (s_Slot md) (s_MsgID md) st) as Hrec.
  destruct (Add (slotCache p) (s_Slot md) (s_MsgID md) st) as [cache b]. simpl in *.
  destruct (notify_rest (set_slotCache cache p))
    as [(_ & _ & _ & _ & _ & _ & Hsc & Hex & Hsp) Hca].
  split; rewrite ?Hca, ?Hsc, ?Hex, ?Hsp; simpl; try apply Hp; [done|..].
  - apply notify_bound. apply Hp.
  - rewrite Hrec. destruct b; simpl; [constructor|]; try apply Hp. done.
Qed.

Lemma wf_processGeneral p md :
  proc_wf p → proc_wf (processGeneralMessageMetadata p md).1.
Proof.
  intros Hp. unfold processGeneralMessageMetadata.
  destruct (general_record p md) as [h|e|v] eqn:Hh; [|done..].
  split; simpl; try apply Hp.
  apply Forall_app; split; [apply Hp|]. constructor; [|done].
  exact (general_record_ok p md h Hh).
Qed.

Lemma drop_err_fst (r : BeaconMessageProcessor R PC * outcome unit) :
  (drop_err r).1 = r.1.
Proof. by destruct r as [? []]. Qed.

Lemma wf_Process p now msg dst : proc_wf p → proc_wf (Process p now msg dst).1.
Proof.
  intros Hp. unfold Process. destruct (DecodeGossip _ _) as [e|m]; [done|].
  destruct (extract _ m) as [[[] slot]|e|v]; [| |done..]; rewrite drop_err_fst.
  - by apply wf_processSlot.
  - by apply wf_processGeneral.
Qed.

Lemma wf_Increase p raw : proc_wf p → proc_wf (IncreaseSeenCountByRawID p raw).
Proof.
  intros Hp. split; simpl; try apply Hp.
  apply map_Forall_insert_2; [auto with peekd | apply Hp].
Qed.

Lemma count_stats_wf sc stats :
  map_Forall (λ _ n, is_u32 n) (counts sc) → Forall stat_ok stats →
  map_Forall (λ _ n, is_u32 n) (counts (count_stats sc stats).1) ∧
  Forall stat_ok (count_stats sc stats).2.
Proof.
  revert sc. induction stats as [|st stats IH]; intros sc Hsc Hst; simpl; [done|].
  apply Forall_cons in Hst as [Hst Hstats].
  unfold count_stat, Pop.
  destruct (counts sc !! MessageID st) as [v|] eqn:Hv; simpl.
  - assert (Hsc' : map_Forall (λ _ n, is_u32 n) (delete (MessageID st) (counts sc)))
      by (by apply map_Forall_delete).
    specialize (IH (MkSeenCounter _) Hsc' Hstats).
    destruct (count_stats _ stats) as [sc' stats']. simpl in *.
    destruct IH as [? ?]. split; [done|]. constructor; [|done].
    destruct Hst as (? & ? & ? & ?). by split_and!; [..|apply (Hsc _ _ Hv)].
  - specialize (IH sc Hsc Hstats).
    destruct (count_stats _ stats) as [sc' stats']. simpl in *.
    destruct IH as [? ?]. split; [done|]. constructor; [|done].
    destruct Hst as (? & ? & ? & ?). split_and!; simpl; try done; unfold is_u32; lia.
Qed.
End Invariant.

(** ** Flushing *)

(** The batch a slot turns into: the drained records with the popped counts, or
    one where nothing was counted. *)
Definition seen_batch (sc : SeenCounter) (stats : list SlotMessageStats)
    : list SlotMessageStats :=
  (λ st, set_SeenCount st (default 1 (counts sc !! MessageID st))) <$> stats.

Lemma count_stat_spec sc st :
  count_stat sc st =
    ((Pop sc (MessageID st)).1, set_SeenCount st (default 1 (counts sc !! MessageID st))).
Proof. unfold count_stat, Pop. by destruct (counts sc !! MessageID st). Qed.

Lemma count_stats_counts sc stats id :
  counts (count_stats sc stats).1 !! id =
    if bool_decide (id ∈ MessageID <$> stats) then None else counts sc !! id.
Proof.
  revert sc. induction stats as [|st stats IH]; intros sc.
  { done. }
  cbn [count_stats]. rewrite count_stat_spec.
  specialize (IH (Pop sc (MessageID st)).1).
  destruct (count_stats _ stats) as [sc' stats']. simpl in *. rewrite IH, lookup_Pop.
  repeat case_bool_decide; try done; exfalso; set_solver.
Qed.

Lemma count_stats_batch sc stats :
  NoDup (MessageID <$> stats) → (count_stats sc stats).2 = seen_batch sc stats.
Proof.
  revert sc. induction stats as [|st stats IH]; intros sc Hnd; [done|].
  cbn [count_stats]. rewrite count_stat_spec.
  apply NoDup_cons in Hnd as [Hni Hnd]. specialize (IH (Pop sc (MessageID st)).1 Hnd).
  destruct (count_stats _ stats) as [sc' stats']. simpl in *. rewrite IH.
  unfold seen_batch. simpl. f_equal. apply list_fmap_ext. intros i st' Hi.
  rewrite lookup_Pop, bool_decide_false; [done|].
  intros Heq. apply Hni. rewrite Heq. apply list_elem_of_fmap. exists st'.
  split; [done|]. exact (list_elem_of_lookup_2 _ _ _ Hi).
Qed.

Section Flush.
Context {R PC : Type} `{Repository R} `{PeerCounter PC} `{P2P} `{Encoder}.
Implicit Types (p : BeaconMessageProcessor R PC).

Lemma saveToRepository_repo p stats r :
  repo p = Some r → stats ≠ [] →
  drop_err (saveToRepository p stats) =
    (set_repo (SaveSlotMessageStatsMulti r stats).1 p, Ret ()).
Proof.
  intros Hr Hne. destruct stats as [|st stats]; [done|]. unfold saveToRepository.
  rewrite Hr. by destruct (SaveSlotMessageStatsMulti r (st :: stats)) as [r' [e|]].
Qed.

Lemma count_stats_nil sc stats : (count_stats sc stats).2 = [] → stats = [].
Proof.
  destruct stats as [|st stats]; [done|]. cbn [count_stats].
  destruct (count_stat sc st) as [sc1 st1]. by destruct (count_stats sc1 stats).
Qed.

(** One slot of a flush, on any well-formed cache. *)
Lemma flush_slot_spec o p slot r :
  store_wf (slotCache p) → repo p = Some r → is_Some (caches (slotCache p) !! slot) →
  let stats := (DrainSlot o (slotCache p) slot).2 in
  let batch := seen_batch (seenCounter p) stats in
  flush_slot o p slot =
    (set_repo (SaveSlotMessageStatsMulti r batch).1
       (set_seenCounter (count_stats (seenCounter p) stats).1
          (set_slotCache (DrainSlot o (slotCache p) slot).1 p)), Ret ()).
Proof.
  intros Hwf Hr Hs. simpl.
  pose proof (DrainSlot_nonempty o _ _ Hwf Hs) as Hne.
  pose proof (DrainSlot_NoDup o _ slot Hwf) as Hnd.
  unfold flush_slot. destruct (DrainSlot o (slotCache p) slot) as [cache stats]. simpl in *.
  destruct stats as [|st0 stats0] eqn:E; [done|]. rewrite <-E in *. clear E.
  rewrite <-(count_stats_batch (seenCounter p) stats Hnd).
  pose proof (count_stats_nil (seenCounter p) stats) as Hcn.
  destruct (count_stats (seenCounter p) stats) as [sc batch]. simpl in *.
  rewrite (saveToRepository_repo _ _ r); [done|done|]. intros ->. by apply Hne, Hcn.
Qed.

Lemma flush_slot_absent o p slot :
  caches (slotCache p) !! slot = None → (flush_slot o p slot) = (p, Ret ()).
Proof. intros Hs. unfold flush_slot, DrainSlot. rewrite Hs. by destruct p. Qed.

Lemma wf_flush_slot o p slot : proc_wf p → proc_wf (flush_slot o p slot).1.
Proof.
  intros Hp. unfold flush_slot.
  pose proof (store_wf_DrainSlot o _ slot (wf_cache p Hp)) as Hwf.
  pose proof (records_DrainSlot o (slotCache p) slot) as Hrec.
  destruct (DrainSlot o (slotCache p) slot) as [cache stats]. simpl in *.
  assert (Forall stat_ok stats ∧ Forall stat_ok (records cache)) as [Hst Hca].
  { apply Forall_app. rewrite <-Hrec. apply Hp. }
  destruct stats as [|st0 stats0] eqn:E; [split; simpl; done || apply Hp|].
  rewrite <-E in *. clear E.
  pose proof (count_stats_wf _ _ (wf_counts p Hp) Hst) as [Hsc _].
  destruct (count_stats (seenCounter p) stats) as [sc batch]. simpl in *.
  rewrite drop_err_fst. unfold saveToRepository.
  destruct batch as [|b batch]; [split; simpl; done || apply Hp|].
  destruct (repo _) as [r|]; [|split; simpl; done || apply Hp].
  destruct (SaveSlotMessageStatsMulti r (b :: batch)). split; simpl; done || apply Hp.
Qed.

Lemma flush_slots_ext o o' p slots :
  (∀ slot, slot ∈ slots → o slot = o' slot) → flush_slots o p slots = flush_slots o' p slots.
Proof.
  revert p. induction slots as [|slot slots IH]; intros p Ho; simpl; [done|].
  rewrite (Ho slot) by set_solver.
  destruct (flush_slot (o' slot) p slot) as [p1 [[]|e|v]]; [|done..]. apply IH. set_solver.
Qed.

Lemma wf_flush_slots o p slots : proc_wf p → proc_wf (flush_slots o p slots).1.
Proof.
  revert p. induction slots as [|slot slots IH]; intros p Hp; [done|]. simpl.
  pose proof (wf_flush_slot (o slot) p slot Hp) as Hp'.
  destruct (flush_slot (o slot) p slot) as [p' []]; simpl in *; auto.
Qed.

Lemma wf_flush os o p now : proc_wf p → proc_wf (flushCompletedSlots os o p now).1.
Proof.
  intros Hp. unfold flushCompletedSlots.
  destruct (current_slot p now); [by apply wf_flush_slots|done..].
Qed.

(** A flush with a repository never panics, empties the chosen slots and
    leaves the others, and pops only counts of records it drained. *)
Lemma flush_slots_spec o p slots r :
  store_wf (slotCache p) → repo p = Some r →
  ∃ p' r', flush_slots o p slots = (p', Ret ()) ∧ repo p' = Some r' ∧
    beaconConfig p' = beaconConfig p ∧
    (∀ slot, caches (slotCache p') !! slot =
      if bool_decide (slot ∈ slots) then None else caches (slotCache p) !! slot) ∧
    (∀ id, (∀ slot, slot ∈ slots → cached (slotCache p) slot id = None) →
      counts (seenCounter p') !! id = counts (seenCounter p) !! id).
Proof.
  revert p r. induction slots as [|slot slots IH]; intros p r Hwf Hr.
  { exists p, r. split_and!; [done..| |done]. intros slot.
    rewrite bool_decide_false; [done|]. apply not_elem_of_nil. }
  simpl. destruct (caches (slotCache p) !! slot) as [c|] eqn:Hc.
  - rewrite (flush_slot_spec (o slot) p slot r) by (done || by exists c).
    set (p1 := set_repo _ _).
    destruct (IH p1 _ (store_wf_DrainSlot (o slot) _ slot Hwf) eq_refl)
      as (p' & r' & Hf & Hr' & Hcfg & Hca & Hcnt).
    exists p', r'. split_and!; [done..| |].
    + intros slot'. rewrite Hca. simpl. unfold DrainSlot. rewrite Hc. simpl.
      destruct (decide (slot = slot')) as [<-|Hne].
      * rewrite lookup_delete_eq, (bool_decide_true (slot ∈ slot :: slots)) by set_solver.
        by case_bool_decide.
      * rewrite lookup_delete_ne by done. apply bool_decide_ext_if; set_solver.
    + intros id Hid. rewrite Hcnt.
      * simpl. rewrite count_stats_counts, bool_decide_false; [done|].
        intros (st & -> & Hst)%list_elem_of_fmap.
        apply (DrainSlot_wf (o slot) _ _ _ Hwf) in Hst as [_ Hst].
        rewrite Hid in Hst by set_solver. done.
      * intros slot' Hslot'. simpl. rewrite cached_DrainSlot.
        case_bool_decide; [done|]. apply Hid. set_solver.
  - rewrite flush_slot_absent by done.
    destruct (IH p r Hwf Hr) as (p' & r' & Hf & Hr' & Hcfg & Hca & Hcnt).
    exists p', r'. split_and!; [done..| |].
    + intros slot'. rewrite Hca. destruct (decide (slot = slot')) as [<-|Hne].
      * rewrite (bool_decide_true (slot ∈ slot :: slots)) by set_solver.
        rewrite Hc. by case_bool_decide.
      * apply bool_decide_ext_if; set_solver.
    + intros id Hid. apply Hcnt. intros slot' Hslot'. apply Hid. set_solver.
Qed.

Lemma current_slot_exact p now :
  1 <= SecondsPerSlot (beaconConfig p) → SecondsPerSlot (beaconConfig p) * Second < 2 ^ 63 →
  current_slot p now = Ret (u64 (Time_Unix now) / SecondsPerSlot (beaconConfig p)).
Proof.
  intros Hl Hu. unfold current_slot, getSlotDuration, dmul.
  unfold Second in Hu.
  rewrite (i64_small (SecondsPerSlot _)) by (unfold is_i64; lia).
  rewrite i64_small by (unfold is_i64, Second; lia).
  rewrite Seconds_whole by lia. apply udiv_Ret. lia.
Qed.
End Flush.
