(* ===== verification/Samples.v ===== *)
(** * Concrete instances for the witnesses

    A repository that logs what it is given, a fixed peer count, an encoder that
    decodes any non-empty payload, and a mainnet processor built from them. *)

From S2P Require Import Prelude GoStrings GoTime GoFloat Externals Eth.
From S2P Require Import Repository SeenCounter SlotCache SlotExtractor Processor.
Local Open Scope Z_scope.

Record log_repo := LogRepo {
  log_general : list (ptr GeneralMessageHistory);
  log_batches : list (list SlotMessageStats);
}.

Definition log_repository : Repository log_repo := {|
  SaveGeneralMessageHistory r h := (LogRepo (log_general r ++ [h]) (log_batches r), None);
  SaveSlotMessageStatsMulti r b := (LogRepo (log_general r) (log_batches r ++ [b]), None);
  Close r := (r, None);
|}.

Definition fixed_peers : PeerCounter Z := λ n, Ret n.

(** A message of the given type with slot 100 at the end of its path. *)
Definition sample_msg (t : MsgType) : SszMsg :=
  match t with
  | T_SignedBeaconBlock => SignedBeaconBlock (Some 100)
  | T_SignedBeaconBlockAltair => SignedBeaconBlockAltair (Some 100)
  | T_SignedBeaconBlockBellatrix => SignedBeaconBlockBellatrix (Some 100)
  | T_SignedBeaconBlockCapella => SignedBeaconBlockCapella (Some 100)
  | T_SignedBeaconBlockDeneb => SignedBeaconBlockDeneb (Some 100)
  | T_SignedBeaconBlockElectra => SignedBeaconBlockElectra (Some 100)
  | T_SignedAggregateAttestationAndProof =>
      SignedAggregateAttestationAndProof (Some (Some (Some 100)))
  | T_SignedAggregateAttestationAndProofElectra =>
      SignedAggregateAttestationAndProofElectra (Some (Some (Some 100)))
  | T_SignedContributionAndProof => SignedContributionAndProof (Some (Some 100))
  | T_Attestation => Attestation (Some 100)
  | T_AttestationElectra => AttestationElectra (Some 100)
  | T_SingleAttestation => SingleAttestation (Some 100)
  | T_SyncCommitteeMessage => SyncCommitteeMessage 100
  | T_SyncCommitteeContribution => SyncCommitteeContribution 100
  | T_BlobSidecar => BlobSidecar (Some (Some 100))
  | T_ProposerSlashing => ProposerSlashing
  | T_AttesterSlashing => AttesterSlashing
  | T_AttesterSlashingElectra => AttesterSlashingElectra
  | T_VoluntaryExit => VoluntaryExit
  | T_BLSToExecutionChange => BLSToExecutionChange
  | T_other n => OtherMsg n
  end.

Definition sample_encoder : Encoder := {|
  DecodeGossip data t :=
    if bool_decide (data = "") then inl (error_ext "empty payload") else inr (sample_msg t);
  peer_String s := EncodeToString s;
|}.

Definition sample_encoder_laws : @EncoderLaws sample_encoder.
Proof. split. intros data t m. simpl. case_bool_decide; [done|]. by intros [= <-]; destruct t. Qed.

(** Mainnet genesis, and a clock reading some seconds after it. *)
Definition mainnet_genesis : Time := time_Unix 1606824023.
Definition after_genesis (s : Z) : Time := time_Unix (1606824023 + s).

Definition sample_proc : BeaconMessageProcessor log_repo Z :=
  MkProcessor (Some (LogRepo [] [])) (Some 42) mainnet mainnet_genesis "test-node" "test-region"
    NewSlotCacheStore NewSeenCounter newSlotExtractorRegistry 0 [].

Definition sample_message : Message := {|
  ReceivedFrom := "peer"; msg_Topic := "/eth2/6a95a1a9/beacon_block/ssz_snappy";
  msg_ID := "id"; msg_Data := "block";
|}.

(** The sample processor with the record of one block of slot 100 cached. *)
Definition sample_cached : BeaconMessageProcessor log_repo Z :=
  set_slotCache (Add NewSlotCacheStore 100 "6964" (sample_stat 100 "6964")).1 sample_proc.
