(* ===== verification/ProcessorClaims.v ===== *)
(** * The properties of the beacon message processor *)

From S2P Require Import Prelude GoStrings GoTime GoFloat Externals Eth.
From S2P Require Import Repository SeenCounter SlotCache SlotExtractor Processor.
From S2P Require Import ProcessorFacts Samples.
Local Open Scope Z_scope.

Section Claims.
Context {R PC : Type} `{Repository R} `{PeerCounter PC} `{P2P} `{Encoder}.
Implicit Types (p : BeaconMessageProcessor R PC).

(** C13. Timing of a recorded message. The slot start of the record is genesis plus
    slot times slot duration, exactly; a message at most 2^32 ms after its
    slot start is recorded with the delay in whole milliseconds; one that
    arrives early by 1 ms or more wraps to 2^32 minus the lead, which the
    hourly view's bound of 768000 ms excludes for leads up to 49 days. *)
Theorem slot_record_timing p now msg slot st
  (Hgen : genesis_ok p) (Hslot : slot_ok p slot) (Hnow : time_ok now)
  (Hst : slot_record p (newSlotMetadata p now msg slot) = Ret st) :
  time_ns (SlotStartTime st) = slot_start_ns p slot ∧
  let delay := time_ns now - slot_start_ns p slot in
  (0 <= delay < 2 ^ 32 * Millisecond → LatencyMS st = delay / Millisecond) ∧
  (Millisecond <= - delay < (2 ^ 32 - 768000) * Millisecond →
    LatencyMS st = 2 ^ 32 - - delay / Millisecond ∧ 768000 <= LatencyMS st).
Proof.
  apply slot_record_fields in Hst as (_ & _ & _ & _ & Hl & Hs & _).
  destruct (slot_start_exact p slot Hgen Hslot) as [_ Hstart].
  rewrite Hs, Hl. simpl. rewrite getDelayInSlot_exact by done. split; [done|].
  set (delay := time_ns now - slot_start_ns p slot). unfold Millisecond in *. split; intros Hd.
  - rewrite saturate_id by (unfold is_i64; lia). by apply latency_late.
  - rewrite saturate_id by (unfold is_i64; lia).
    assert (- delay / 1000000 < 2 ^ 32 - 768000) by (apply Z.div_lt_upper_bound; lia).
    rewrite <-(Z.opp_involutive delay) at 1 3.
    rewrite latency_early; unfold Millisecond; [lia|lia| |lia].
    rewrite Z.div_opp_opp; lia.
Qed.

(** C12. A decoded slot message whose topic has four segments is cached under its
    slot and hex id, the first record winning over any later one; every other
    cached record, the seen counts, the repository and the spawned saves are
    untouched, and at most one notification is queued. *)
Theorem process_slot_message p now msg dst m slot fv ty pc n
  (Hdec : DecodeGossip (msg_Data msg) dst = inr m)
  (Hslot : slot_of m = Ret (slotMessage, slot))
  (Htopic : parseEth2Topic (msg_Topic msg) = Ret (fv, ty))
  (Hpc : peerCounter p = Some pc) (Hn : TotalPeerCount pc = Ret n)
  (Hext : extractors p = newSlotExtractorRegistry) :
  let id := EncodeToString (msg_ID msg) in
  ∃ p' st, Process p now msg dst = (p', Ret ()) ∧ same_rest p p' ∧
    slot_record p (newSlotMetadata p now msg slot) = Ret st ∧
    (∀ slot' id', cached (slotCache p') slot' id' =
       if bool_decide (slot = slot' ∧ id = id')
       then Some (default st (cached (slotCache p) slot id))
       else cached (slotCache p) slot' id') ∧
    (messageNotify p <= messageNotify p' <= S (messageNotify p))%nat.
Proof.
  exact (Process_slot p now msg dst m slot fv ty pc n Hdec Hslot Htopic Hpc Hn Hext).
Qed.


(** C29. The failing branches of [Process] leave the processor as it was: a payload
    that does not decode is the wrapped decoder error, an unsupported type is
    the error naming it, a nil pointer on the path to the slot panics, and so
    do a topic with fewer than four segments, a nil peer counter, and a peer
    counter that panics. *)
Theorem process_failures p now msg dst
  (Hext : extractors p = newSlotExtractorRegistry) :
  (∀ e, DecodeGossip (msg_Data msg) dst = inl e →
    Process p now msg dst = (p, Fail (errors_Wrap e "failed to decode gossip message"))) ∧
  (∀ m, DecodeGossip (msg_Data msg) dst = inr m →
    (∀ name, m = OtherMsg name →
      Process p now msg dst = (p, Fail (errors_New ("unsupported message type: " +:+ name)))) ∧
    (∀ v, slot_of m = Panicked v → Process p now msg dst = (p, Panicked v)) ∧
    ((∃ ks, slot_of m = Ret ks) →
      ((length (Split slash (msg_Topic msg)) < 4)%nat →
        Process p now msg dst = (p, Panicked panic_index)) ∧
      ((4 <= length (Split slash (msg_Topic msg)))%nat →
        (peerCounter p = None → Process p now msg dst = (p, Panicked panic_nil)) ∧
        (∀ pc v, peerCounter p = Some pc → TotalPeerCount pc = Panicked v →
          Process p now msg dst = (p, Panicked v))))).
Proof.
  split; [intros e He; unfold Process; by rewrite He|]. intros m Hm.
  split_and!.
  - intros name ->. unfold Process. by rewrite Hm, Hext, extract_spec.
  - intros v Hv. unfold Process. by rewrite Hm, Hext, extract_spec, Hv.
  - intros [ks Hks]. pose proof (Process_panics p now msg dst m ks) as Hpan.
    split; intros Hlen; [|apply parse_long in Hlen; split].
    + apply Hpan; [done..|]. left. by apply parse_short.
    + intros Hnil. apply Hpan; [done..|]. right. split; [done|]. by left.
    + intros pc v Hpc Hv. apply Hpan; [done..|]. right. split; [done|]. right. by exists pc.
Qed.
End Claims.

Section FlushClaims.
Context {R PC : Type} `{Repository R} `{PeerCounter PC} `{P2P} `{Encoder}.
Implicit Types (p : BeaconMessageProcessor R PC).

Lemma current_bound p now :
  1 <= SecondsPerSlot (beaconConfig p) →
  0 <= u64 (Time_Unix now) / SecondsPerSlot (beaconConfig p) < 2 ^ 64.
Proof.
  intros Hsps. pose proof (u64_range (Time_Unix now)) as Hu. unfold is_u64 in Hu. split.
  - apply Z.div_pos; lia.
  - apply Z.div_lt_upper_bound; nia.
Qed.

(** C4. Flushing a cached slot hands the repository one batch: every record of the
    slot exactly once, in some order, each with the number of times its id
    was seen (one if it was never counted) and otherwise unchanged. The slot
    leaves the cache, the counts of its ids are forgotten, and every other
    slot and count stays, whether or not the save succeeds. *)
Theorem flush_slot_sends_batch p o slot c r
  (Hwf : store_wf (slotCache p)) (Hc : caches (slotCache p) !! slot = Some c)
  (Hr : repo p = Some r) :
  ∃ p' batch, flush_slot o p slot = (p', Ret ()) ∧
    repo p' = Some (SaveSlotMessageStatsMulti r batch).1 ∧
    batch ≡ₚ seen_batch (seenCounter p) (slot_records c) ∧
    (∀ slot' id, cached (slotCache p') slot' id =
      if bool_decide (slot = slot') then None else cached (slotCache p) slot' id) ∧
    (∀ id, counts (seenCounter p') !! id =
      if bool_decide (is_Some (MessageStats c !! id)) then None
      else counts (seenCounter p) !! id).
Proof.
  rewrite (flush_slot_spec o p slot r) by (done || by exists c).
  eexists _, _. split; [done|]. simpl. split_and!; [done|..].
  - unfold DrainSlot. rewrite Hc. simpl. unfold seen_batch. by rewrite ord_perm.
  - intros slot' id. apply cached_DrainSlot.
  - intros id. rewrite count_stats_counts. apply bool_decide_ext_if.
    destruct (Hwf slot c Hc) as (_ & _ & Hids).
    unfold DrainSlot. rewrite Hc. simpl. split.
    + intros (st & -> & Hst)%list_elem_of_fmap.
      rewrite elem_of_ord, list_elem_of_fmap in Hst.
      destruct Hst as ([id st'] & -> & Hst). apply elem_of_map_to_list in Hst.
      destruct (Hids _ _ Hst) as [_ Hm]. simpl. rewrite Hm. eauto.
    + intros [st Hst]. apply list_elem_of_fmap. exists st.
      split; [by destruct (Hids _ _ Hst)|].
      rewrite elem_of_ord, list_elem_of_fmap. exists (id, st).
      by rewrite elem_of_map_to_list.
Qed.

(** C6. A flush terminates without panic, removes exactly the slots below the
    computed current slot minus one (the Unix time over the slot length; a
    current slot of 0 wraps to 2^64 - 1) and keeps every other slot; it pops no
    count of an id that is not cached in one of those slots, so the counts of
    general messages are never freed. *)
Theorem flush_completed_exact p os o now r
  (Hwf : store_wf (slotCache p)) (Hr : repo p = Some r)
  (Hsps : 1 <= SecondsPerSlot (beaconConfig p) ∧
          SecondsPerSlot (beaconConfig p) * Second < 2 ^ 63) :
  let cur := u64 (Time_Unix now) / SecondsPerSlot (beaconConfig p) in
  let bound := if bool_decide (cur = 0) then 2 ^ 64 - 1 else cur - 1 in
  ∃ p', flushCompletedSlots os o p now = (p', Ret ()) ∧
    (∀ slot, caches (slotCache p') !! slot =
      if bool_decide (slot < bound) then None else caches (slotCache p) !! slot) ∧
    (∀ id, (∀ slot, slot < bound → cached (slotCache p) slot id = None) →
      counts (seenCounter p') !! id = counts (seenCounter p) !! id).
Proof.
  simpl. unfold flushCompletedSlots. rewrite current_slot_exact by lia.
  set (cur := u64 (Time_Unix now) / SecondsPerSlot (beaconConfig p)).
  destruct (flush_slots_spec o p (CompletedSlots os (slotCache p) cur) r)
    as (p' & r' & Hf & _ & _ & Hca & Hcnt); [done..|].
  pose proof (current_bound p now (proj1 Hsps)) as Hcur. fold cur in Hcur.
  pose proof (λ slot, completed_bound cur slot Hcur) as Hbound.
  set (bound := if bool_decide (cur = 0) then _ else _) in *. exists p'. split; [done|]. split.
  - intros slot. rewrite Hca. specialize (Hbound slot).
    destruct (decide (slot ∈ CompletedSlots os (slotCache p) cur)) as [Hin|Hin];
      [rewrite (bool_decide_true _ Hin)|rewrite (bool_decide_false _ Hin)].
    + apply elem_of_CompletedSlots in Hin as [_ Hin]. by rewrite bool_decide_true by by apply Hbound.
    + rewrite elem_of_CompletedSlots in Hin. case_bool_decide; [|done].
      apply eq_None_not_Some. naive_solver.
  - intros id Hid. apply Hcnt. intros slot Hslot. apply Hid, Hbound.
    by apply elem_of_CompletedSlots in Hslot as [_ ?].
Qed.

(** C15. The current slot of a flush is counted from the Unix epoch while the slots
    of the messages are counted from genesis: with genesis at least two slots
    after the epoch, every slot that has started by [now], the running one
    included, is flushed. *)
Theorem flush_takes_running_slot p os o now r slot
  (Hwf : store_wf (slotCache p)) (Hr : repo p = Some r)
  (Hsps : 1 <= SecondsPerSlot (beaconConfig p) ∧
          SecondsPerSlot (beaconConfig p) * Second < 2 ^ 63)
  (Hgen : 2 * SecondsPerSlot (beaconConfig p) <= Time_Unix (genesisTime p) <= Time_Unix now)
  (Hslot : slot <= (Time_Unix now - Time_Unix (genesisTime p)) /
                   SecondsPerSlot (beaconConfig p)) :
  ∃ p', flushCompletedSlots os o p now = (p', Ret ()) ∧
    caches (slotCache p') !! slot = None.
Proof.
  unfold flushCompletedSlots. rewrite current_slot_exact by lia.
  set (sps := SecondsPerSlot (beaconConfig p)) in *.
  pose proof (i64_range (t_sec now - unixToInternal)) as Hrange.
  fold (Time_Unix now) in Hrange. unfold is_i64 in Hrange.
  rewrite u64_small by (unfold is_u64; lia).
  set (cur := Time_Unix now / sps).
  destruct (flush_slots_spec o p (CompletedSlots os (slotCache p) cur) r)
    as (p' & r' & Hf & _ & _ & Hca & _); [done..|].
  exists p'. split; [done|]. rewrite Hca. case_bool_decide as Hin; [done|].
  rewrite elem_of_CompletedSlots in Hin. apply eq_None_not_Some. intros Hsome.
  apply Hin. split; [done|].
  assert ((Time_Unix now - Time_Unix (genesisTime p)) / sps <= cur - 2).
  { transitivity ((Time_Unix now + -2 * sps) / sps); [apply Z.div_le_mono; lia|].
    rewrite Z.div_add by lia. unfold cur. lia. }
  assert (0 <= (Time_Unix now - Time_Unix (genesisTime p)) / sps) by (apply Z.div_pos; lia).
  assert (cur < 2 ^ 64) by (apply Z.div_lt_upper_bound; lia).
  rewrite completed_spec by lia. apply Z.ltb_lt. lia.
Qed.

(** C25. Shutdown: whatever ticks and notifications came before, once the context is
    done the service loop returns without error, and its final flush leaves
    no slot below the current slot minus one in the cache. *)
Theorem serve_final_flush p evs now os o r
  (Hp : proc_wf p) (Hr : repo p = Some r)
  (Hsps : 1 <= SecondsPerSlot (beaconConfig p) ∧
          SecondsPerSlot (beaconConfig p) * Second < 2 ^ 63)
  (Hevs : Forall (λ ev, match ev with EvDone _ _ _ => False | _ => True end) evs) :
  ∃ p', Serve p (evs ++ [EvDone now os o]) = (p', Some (Ret ())) ∧ proc_wf p' ∧
    let cur := u64 (Time_Unix now) / SecondsPerSlot (beaconConfig p) in
    ∀ slot, slot < (if bool_decide (cur = 0) then 2 ^ 64 - 1 else cur - 1) →
      caches (slotCache p') !! slot = None.
Proof.
  unfold Serve. assert ((getSlotDuration p <=? 0) = false) as ->.
  { unfold getSlotDuration, dmul, Second in *.
    rewrite (i64_small (SecondsPerSlot _)) by (unfold is_i64; lia).
    rewrite i64_small by (unfold is_i64; lia). lia. }
  revert p r Hp Hr Hsps. induction evs as [|ev evs IH]; intros p r Hp Hr Hsps.
  - simpl. pose proof (wf_flush os o p now Hp) as Hp'.
    unfold flushCompletedSlots in *. rewrite current_slot_exact in * by lia.
    set (cur := u64 (Time_Unix now) / SecondsPerSlot (beaconConfig p)) in *.
    destruct (flush_slots_spec o p (CompletedSlots os (slotCache p) cur) r)
      as (p' & r' & Hf & _ & _ & Hca & _); [apply Hp|done|].
    rewrite Hf in *. exists p'. split_and!; [done..|]. cbn zeta. intros slot Hslot%completed_bound;
      [|apply (current_bound p now), Hsps].
    rewrite Hca. case_bool_decide as Hin; [done|].
    rewrite elem_of_CompletedSlots in Hin. apply eq_None_not_Some. naive_solver.
  - apply Forall_cons in Hevs as [Hev Hevs]. destruct ev as [|now' os' o'|]; [done| |].
    + simpl. pose proof (wf_flush os' o' p now' Hp) as Hp'.
      unfold flushCompletedSlots in *. rewrite current_slot_exact in * by lia.
      destruct (flush_slots_spec o' p (CompletedSlots os' (slotCache p)
        (u64 (Time_Unix now') / SecondsPerSlot (beaconConfig p))) r)
        as (p' & r' & Hf & Hr' & Hcfg & _); [apply Hp|done|].
      rewrite Hf in *. rewrite <-Hcfg in Hsps |- *. by apply (IH Hevs p' r').
    + simpl. apply (IH Hevs (set_notify (pred (messageNotify p)) p) r); [|done..].
      split; simpl; try apply Hp. pose proof (wf_notify p Hp). lia.
Qed.
End FlushClaims.

(** ** Witnesses *)

#[local] Existing Instance log_repository.
#[local] Existing Instance fixed_peers.
#[local] Existing Instance prysm_p2p.
#[local] Existing Instance sample_encoder.

Lemma sample_genesis_ok : genesis_ok sample_proc.
Proof. vm_compute. split; split; congruence. Qed.
Lemma sample_slot_ok slot : 0 <= slot < 10000000 → slot_ok sample_proc slot.
Proof. unfold slot_ok, sample_proc, Second. simpl. lia. Qed.
Lemma sample_time_ok s : 0 <= s < 2 ^ 40 → time_ok (after_genesis s).
Proof. intros ?. apply time_Unix_ok. lia. Qed.
Lemma sample_proc_wf : proc_wf sample_proc.
Proof.
  split; simpl; [apply store_wf_empty|done|lia|apply map_Forall_empty|constructor..].
Qed.
Lemma sample_cached_wf : store_wf (slotCache sample_cached).
Proof. apply store_wf_Add; [apply store_wf_empty|done..]. Qed.

(** A block of slot 100 that arrives one second into its slot. *)
Lemma slot_record_timing_witness :
  ∃ st, slot_record sample_proc
          (newSlotMetadata sample_proc (after_genesis 1201) sample_message 100) = Ret st ∧
        LatencyMS st = 1000.
Proof.
  eexists. split; [vm_compute; reflexivity|].
  refine (eq_trans (proj1 (proj2 (slot_record_timing sample_proc (after_genesis 1201)
    sample_message 100 _ sample_genesis_ok _ _ _)) _) _).
  - apply sample_slot_ok. lia.
  - apply sample_time_ok. lia.
  - vm_compute. reflexivity.
  - vm_compute. split; congruence.
  - vm_compute. reflexivity.
Defined.

Lemma process_slot_message_witness :
  ∃ p' st, Process sample_proc (after_genesis 1201) sample_message T_SignedBeaconBlockElectra
             = (p', Ret ()) ∧ cached (slotCache p') 100 "6964" = Some st.
Proof.
  destruct (process_slot_message sample_proc (after_genesis 1201) sample_message
    T_SignedBeaconBlockElectra (SignedBeaconBlockElectra (Some 100)) 100
    "6a95a1a9" "beacon_block" 42 42) as (p' & st & Hp & _ & _ & Hc & _);
    [vm_compute; reflexivity..|].
  exists p', st. split; [exact Hp|]. rewrite Hc. reflexivity.
Defined.


Lemma process_failures_witness :
  let msg topic := {| ReceivedFrom := "peer"; msg_Topic := topic; msg_ID := "id";
                      msg_Data := "block" |} in
  (Process sample_proc (after_genesis 5) (msg "/eth2/x") T_SyncCommitteeMessage).2 =
    Panicked panic_index ∧
  (Process sample_proc (after_genesis 5) (msg "/eth2/x") (T_other "*eth.Deposit")).2 =
    Fail (errors_New "unsupported message type: *eth.Deposit").
Proof.
  intros msg. split.
  - destruct (process_failures sample_proc (after_genesis 5) (msg "/eth2/x")
      T_SyncCommitteeMessage eq_refl) as [_ Hf].
    destruct (Hf (SyncCommitteeMessage 100)) as (_ & _ & Hp); [vm_compute; reflexivity|].
    destruct Hp as [Hp _]; [eexists; reflexivity|]. rewrite Hp; [reflexivity|].
    apply PeanoNat.Nat.ltb_lt. vm_compute. reflexivity.
  - destruct (process_failures sample_proc (after_genesis 5) (msg "/eth2/x")
      (T_other "*eth.Deposit") eq_refl) as [_ Hf].
    destruct (Hf (OtherMsg "*eth.Deposit")) as (Hu & _); [vm_compute; reflexivity|].
    rewrite (Hu "*eth.Deposit" eq_refl). reflexivity.
Defined.

Lemma flush_slot_sends_batch_witness :
  ∃ p', flush_slot rev_order sample_cached 100 = (p', Ret ()).
Proof.
  destruct (flush_slot_sends_batch sample_cached rev_order 100
    (MkSlotCache 100 {["6964" := sample_stat 100 "6964"]}) (LogRepo [] []) sample_cached_wf
    eq_refl eq_refl) as (p' & _ & Hp & _).
  exists p'. exact Hp.
Defined.

Lemma flush_completed_exact_witness :
  ∃ p', flushCompletedSlots rev_order (λ _, id_order) sample_cached (after_genesis 1300)
          = (p', Ret ()).
Proof.
  destruct (flush_completed_exact sample_cached rev_order (λ _, id_order) (after_genesis 1300)
    (LogRepo [] []) sample_cached_wf eq_refl) as (p' & Hp & _).
  - vm_compute. split; congruence.
  - exists p'. exact Hp.
Defined.

(** Five seconds into slot 100, the slot is flushed. *)
Lemma flush_takes_running_slot_witness :
  ∃ p', flushCompletedSlots id_order (λ _, id_order) sample_cached (after_genesis 1205)
          = (p', Ret ()) ∧ caches (slotCache p') !! 100 = None.
Proof.
  apply (flush_takes_running_slot sample_cached id_order (λ _, id_order) (after_genesis 1205)
    (LogRepo [] []) 100 sample_cached_wf eq_refl); vm_compute; try split; congruence.
Defined.

Lemma serve_final_flush_witness :
  ∃ p', Serve sample_proc ([EvNotify; EvTick (after_genesis 12) id_order (λ _, id_order)] ++
          [EvDone (after_genesis 20) rev_order (λ _, id_order)]) = (p', Some (Ret ())).
Proof.
  destruct (serve_final_flush sample_proc
    [EvNotify; EvTick (after_genesis 12) id_order (λ _, id_order)] (after_genesis 20)
    rev_order (λ _, id_order) (LogRepo [] []) sample_proc_wf eq_refl) as (p' & Hp & _).
  - vm_compute. split; congruence.
  - repeat constructor.
  - exists p'. exact Hp.
Defined.
