(* ===== verification/ProcSystem.v ===== *)
(** * The processor under concurrency

    The goroutines of the running watcher share the processor: subscriptions
    call [Process], pubsub calls the message id callback, saves of general
    messages run on their own, the service loop flushes. Each of their accesses
    to the shared cache and counter takes a mutex, so a run is an interleaving
    of atomic steps; a flush is many of them. The steps are the operations of
    Processor.v, and the flusher's position in [flushCompletedSlots] is part of
    the state. *)

From Stdlib Require Import Wellfounded.
From S2P Require Import Prelude GoStrings GoTime GoFloat Externals Eth.
From S2P Require Import Repository SeenCounter SlotCache SlotExtractor Processor.
From S2P Require Import ProcessorFacts Samples.
Local Open Scope Z_scope.

(** Where the service loop is: between flushes; at the head of the loop over the
    slots left; or counting the records of a drained slot, [done] with their
    counts and [todo] without. *)
Inductive flusher :=
  | FIdle
  | FSlots (slots : list Z)
  | FCount (slots : list Z) (done todo : list SlotMessageStats).

(** What a step does to the outside or to the books. *)
Inductive event :=
  | ESeen (id : string)
  | EStored (st : SlotMessageStats)
  | EStarted (h : GeneralMessageHistory)
  | EPopped (st : SlotMessageStats) (n : option Z)
  | ESaved (batch : list SlotMessageStats)
  | ESavedGeneral (h : GeneralMessageHistory).
Abbreviation trace := (list event).

Definition stored (tr : trace) : list SlotMessageStats :=
  omap (λ e, match e with EStored st => Some st | _ => None end) tr.
Definition saved (tr : trace) : list SlotMessageStats :=
  tr ≫= λ e, match e with ESaved batch => batch | _ => [] end.
Definition counted (tr : trace) : list SlotMessageStats :=
  omap (λ e, match e with EPopped st n => Some (set_SeenCount st (default 1 n)) | _ => None end) tr.
Definition started (tr : trace) : list GeneralMessageHistory :=
  omap (λ e, match e with EStarted h => Some h | _ => None end) tr.
Definition saved_general (tr : trace) : list GeneralMessageHistory :=
  omap (λ e, match e with ESavedGeneral h => Some h | _ => None end) tr.

(** How often an id was seen, and the sum of the counts popped for it. *)
Definition seen_event (id : string) (e : event) : Z :=
  match e with ESeen id' => if bool_decide (id' = id) then 1 else 0 | _ => 0 end.
Definition popped_event (id : string) (e : event) : Z :=
  match e with
  | EPopped st n => if bool_decide (MessageID st = id) then default 0 n else 0
  | _ => 0
  end.
Definition total (f : event → Z) (tr : trace) : Z := foldr Z.add 0 (f <$> tr).

Definition in_hand (f : flusher) : list SlotMessageStats :=
  match f with FCount _ done todo => done ++ todo | _ => [] end.
Definition done_of (f : flusher) : list SlotMessageStats :=
  match f with FCount _ done _ => done | _ => [] end.

(** A record without its count. *)
Definition forget (st : SlotMessageStats) : SlotMessageStats := set_SeenCount st 0.

Definition is_panic {A} (r : outcome A) : bool :=
  match r with Panicked _ => true | _ => false end.

Section System.
Context {R PC : Type} `{Repository R} `{PeerCounter PC} `{P2P} `{Encoder}.
Abbreviation proc := (BeaconMessageProcessor R PC).
Implicit Types (p : proc) (f : flusher) (tr : trace).

Definition set_peerCounter (pc : PC) p : proc :=
  MkProcessor (repo p) (Some pc) (beaconConfig p) (genesisTime p) (nodeAlias p)
    (nodeRegion p) (slotCache p) (seenCounter p) (extractors p) (messageNotify p) (spawned p).

(** What [Process] stores or starts. *)
Definition process_events p (now : Time) (msg : Message) (dst : MsgType) : trace :=
  match DecodeGossip (msg_Data msg) dst with
  | inl _ => []
  | inr m =>
      match extract (extractors p) m with
      | Ret (slotMessage, slot) =>
          let md := newSlotMetadata p now msg slot in
          match slot_record p md with
          | Ret st => if (Add (slotCache p) (s_Slot md) (s_MsgID md) st).2 then [EStored st] else []
          | _ => []
          end
      | Ret (generalMessage, _) =>
          match general_record p (newGeneralMetadata now msg) with
          | Ret h => [EStarted h]
          | _ => []
          end
      | _ => []
      end
  end.

(** The steps of all goroutines but the flusher. A panic ends the program. *)
Inductive env_step : proc → trace → proc → Prop :=
  | env_process p now msg dst :
      is_panic (Process p now msg dst).2 = false →
      env_step p (process_events p now msg dst) (Process p now msg dst).1
  | env_seen p raw :
      env_step p [ESeen (hexEncode raw)] (IncreaseSeenCountByRawID p raw)
  | env_save p r l h k :
      spawned p = l ++ h :: k → repo p = Some r →
      env_step p [ESavedGeneral h] (save_general (set_spawned (l ++ k) p) h).1
  | env_notified p n : messageNotify p = S n → env_step p [] (set_notify n p)
  | env_peers p pc : env_step p [] (set_peerCounter pc p).

(** The steps of [flushCompletedSlots]. *)
Inductive flush_step : proc * flusher → trace → proc * flusher → Prop :=
  | flush_begin p now os cur :
      current_slot p now = Ret cur →
      flush_step (p, FIdle) [] (p, FSlots (CompletedSlots os (slotCache p) cur))
  | flush_empty p o slot slots cache :
      DrainSlot o (slotCache p) slot = (cache, []) →
      flush_step (p, FSlots (slot :: slots)) [] (set_slotCache cache p, FSlots slots)
  | flush_drain p o slot slots cache st stats :
      DrainSlot o (slotCache p) slot = (cache, st :: stats) →
      flush_step (p, FSlots (slot :: slots)) []
        (set_slotCache cache p, FCount slots [] (st :: stats))
  | flush_count p slots done st todo :
      flush_step (p, FCount slots done (st :: todo))
        [EPopped st (counts (seenCounter p) !! MessageID st)]
        (set_seenCounter (count_stat (seenCounter p) st).1 p,
         FCount slots (done ++ [(count_stat (seenCounter p) st).2]) todo)
  | flush_save p p' slots done :
      drop_err (saveToRepository p done) = (p', Ret ()) →
      flush_step (p, FCount slots done []) [ESaved done] (p', FSlots slots)
  | flush_end p : flush_step (p, FSlots []) [] (p, FIdle).

Inductive step : proc * flusher → trace → proc * flusher → Prop :=
  | step_env p tr p' f : env_step p tr p' → step (p, f) tr (p', f)
  | step_flush s tr s' : flush_step s tr s' → step s tr s'.

Inductive run : proc * flusher → trace → proc * flusher → Prop :=
  | run_nil s : run s [] s
  | run_snoc s tr s' tr' s'' : run s tr s' → step s' tr' s'' → run s (tr ++ tr') s''.

(** ** Lemmas *)

Lemma run_one s tr s' : step s tr s' → run s tr s'.
Proof. intros Hs. apply (run_snoc s [] s tr s'); [constructor|done]. Qed.
Lemma run_app s tr s' tr' s'' : run s tr s' → run s' tr' s'' → run s (tr ++ tr') s''.
Proof.
  intros Ha Hb. revert Ha. induction Hb as [|s' tr1 s1 tr2 s2 _ IH Hst]; intros Ha.
  - by rewrite app_nil_r.
  - rewrite (assoc_L (++)). by eapply run_snoc; [apply IH|].
Qed.

Lemma total_app g tr tr' : total g (tr ++ tr') = total g tr + total g tr'.
Proof. unfold total. rewrite fmap_app. induction (g <$> tr); simpl; lia. Qed.

(** *** The books of one step *)

(** [Process] files one new record, starts one save, or neither. *)
Lemma process_effect p now msg dst :
  let p' := (Process p now msg dst).1 in
  let tr := process_events p now msg dst in
  records (slotCache p') ≡ₚ stored tr ++ records (slotCache p) ∧
  spawned p' = spawned p ++ started tr ∧ seenCounter p' = seenCounter p ∧
  ∀ e, e ∈ tr → match e with EStored _ | EStarted _ => True | _ => False end.
Proof.
  simpl. unfold Process, process_events.
  destruct (DecodeGossip _ _) as [e|m]; [by rewrite app_nil_r; split_and!; try set_solver|].
  destruct (extract (extractors p) m) as [[[] slot]|e|v];
    [| |by rewrite app_nil_r; split_and!; try set_solver..]; rewrite drop_err_fst.
  - set (md := newSlotMetadata p now msg slot). unfold processSlotMessageMetadata.
    destruct (slot_record p md) as [st|e|v];
      [|by rewrite app_nil_r; split_and!; try set_solver..].
    pose proof (records_Add (slotCache p) (s_Slot md) (s_MsgID md) st) as Hrec.
    destruct (Add _ _ _ st) as [cache b]. simpl in *.
    destruct (notify_rest (set_slotCache cache p)) as [(_ & _ & _ & _ & _ & _ & Hsc & _ & Hsp) Hca].
    rewrite Hca, Hsc, Hsp. simpl.
    destruct b; simpl; rewrite app_nil_r; split_and!; try done; set_solver.
  - unfold processGeneralMessageMetadata.
    destruct (general_record p _) as [h|e|v]; simpl;
      rewrite ?app_nil_r; split_and!; try done; set_solver.
Qed.

Definition count_in p (id : string) : Z := default 0 (counts (seenCounter p) !! id).

(** Every step balances the books: records, saves, counted records and counts. *)
Definition balanced (s : proc * flusher) (tr : trace) (s' : proc * flusher) : Prop :=
  forget <$> (saved tr ++ in_hand s'.2 ++ records (slotCache s'.1)) ≡ₚ
    forget <$> (stored tr ++ in_hand s.2 ++ records (slotCache s.1)) ∧
  spawned s.1 ++ started tr ≡ₚ saved_general tr ++ spawned s'.1 ∧
  saved tr ++ done_of s'.2 = done_of s.2 ++ counted tr ∧
  ∀ id, (count_in s'.1 id + total (popped_event id) tr) mod 2 ^ 32 =
        (count_in s.1 id + total (seen_event id) tr) mod 2 ^ 32.

(** A step without events that keeps the cache, the saves and the counts. *)
Lemma balanced_quiet p p' f :
  slotCache p' = slotCache p → spawned p' = spawned p → seenCounter p' = seenCounter p →
  balanced (p, f) [] (p', f).
Proof.
  intros Hc Hs Hn. unfold balanced, count_in. simpl. rewrite Hc, Hs, Hn, !app_nil_r. by split_and!.
Qed.

Lemma forget_set st n : forget (set_SeenCount st n) = forget st.
Proof. done. Qed.

(** Events of [Process] are in no other book. *)
Lemma process_books tr :
  (∀ e, e ∈ tr → match e with EStored _ | EStarted _ => True | _ => False end) →
  saved tr = [] ∧ saved_general tr = [] ∧ counted tr = [] ∧
  ∀ id, total (popped_event id) tr = 0 ∧ total (seen_event id) tr = 0.
Proof.
  induction tr as [|e tr IH]; intros Htr; [done|].
  destruct IH as (H1' & H2' & H3' & H4'); [intros e' ?; apply Htr; set_solver|].
  specialize (Htr e ltac:(set_solver)).
  destruct e; try done; unfold total in *; simpl; by split_and!.
Qed.

Lemma balanced_env p tr p' f : env_step p tr p' → balanced (p, f) tr (p', f).
Proof.
  intros [p1 now msg dst _|p1 raw|p1 r l h k Hsp Hr|p1 n Hn|p1 pc].
  - destruct (process_effect p1 now msg dst) as (Hrec & Hsp & Hsc & Hev).
    destruct (process_books _ Hev) as (Hs & Hg & Hc & Ht).
    unfold balanced, count_in. simpl. rewrite Hs, Hg, Hc, Hsp, Hsc, app_nil_r, Hrec. simpl.
    split_and!; [|done|done|intros id; by destruct (Ht id) as [-> ->]].
    f_equiv. rewrite !(assoc (++)). f_equiv. by rewrite (comm (++)).
  - unfold balanced, count_in. simpl. rewrite !app_nil_r. split_and!; [done..|].
    intros id. unfold total. simpl. destruct (decide (hexEncode raw = id)) as [<-|Hid].
    + rewrite lookup_insert_eq, bool_decide_true by done. simpl.
      rewrite !Z.add_0_r. unfold u32. by rewrite Zmod_mod.
    + by rewrite lookup_insert_ne, bool_decide_false by done.
  - unfold balanced, count_in, save_general. simpl. rewrite Hr. simpl.
    rewrite Hsp, !app_nil_r. split_and!; [done| |done|done]. by rewrite Permutation_middle.
  - by apply balanced_quiet.
  - by apply balanced_quiet.
Qed.

(** Draining moves records from the cache to the flusher. *)
Lemma balanced_drain p o slot slots cache stats f' :
  DrainSlot o (slotCache p) slot = (cache, stats) →
  in_hand f' = stats → done_of f' = [] →
  balanced (p, FSlots (slot :: slots)) [] (set_slotCache cache p, f').
Proof.
  intros Hd Hh Hdone. pose proof (records_DrainSlot o (slotCache p) slot) as Hrec.
  rewrite Hd in Hrec. unfold balanced, count_in. simpl in *.
  rewrite Hh, Hdone, Hrec, !app_nil_r. by split_and!.
Qed.

Lemma balanced_count p slots done st todo :
  balanced (p, FCount slots done (st :: todo))
    [EPopped st (counts (seenCounter p) !! MessageID st)]
    (set_seenCounter (count_stat (seenCounter p) st).1 p,
     FCount slots (done ++ [(count_stat (seenCounter p) st).2]) todo).
Proof.
  rewrite count_stat_spec. unfold balanced, count_in. simpl.
  split_and!; [|by rewrite app_nil_r|done|].
  - rewrite !fmap_app. simpl. rewrite forget_set. by rewrite <-!(assoc_L (++)).
  - intros id. rewrite lookup_Pop. unfold total. simpl.
    case_bool_decide as Hid; [subst id; simpl|]; f_equal; lia.
Qed.

Lemma saveToRepository_rest p p' done :
  drop_err (saveToRepository p done) = (p', Ret ()) →
  slotCache p' = slotCache p ∧ spawned p' = spawned p ∧ seenCounter p' = seenCounter p.
Proof.
  unfold saveToRepository. destruct done as [|st done]; [by intros [= <-]|].
  destruct (repo p) as [r|]; [|done].
  destruct (SaveSlotMessageStatsMulti r (st :: done)) as [r' [e|]]; by intros [= <-].
Qed.

Lemma balanced_flush s tr s' : flush_step s tr s' → balanced s tr s'.
Proof.
  intros [p now os cur _|p o slot slots cache Hd|p o slot slots cache st stats Hd|
          p slots done st todo|p p' slots done Hsave|p].
  - unfold balanced. simpl. rewrite !app_nil_r. by split_and!.
  - by apply (balanced_drain p o slot slots cache []).
  - by apply (balanced_drain p o slot slots cache (st :: stats)).
  - apply balanced_count.
  - apply saveToRepository_rest in Hsave as (Hc & Hs & Hn).
    unfold balanced, count_in. simpl. rewrite Hc, Hs, Hn, !app_nil_r. by split_and!.
  - unfold balanced. simpl. rewrite !app_nil_r. by split_and!.
Qed.

Lemma balanced_app s tr s' tr' s'' :
  balanced s tr s' → balanced s' tr' s'' → balanced s (tr ++ tr') s''.
Proof.
  intros (A1 & A2 & A3 & A4) (B1 & B2 & B3 & B4). unfold balanced.
  unfold saved, stored, started, saved_general, counted in *.
  rewrite !bind_app, !omap_app. split_and!.
  - rewrite !fmap_app in *. rewrite <-(assoc (++)), B1.
    rewrite (assoc (++)), (comm (++) (forget <$> _ : list _)), <-(assoc (++)). 
    rewrite A1. rewrite !(assoc (++)). do 2 f_equiv. apply (comm (++)).
  - rewrite (assoc (++)), A2, <-(assoc (++)), B2. by rewrite (assoc (++)).
  - by rewrite <-(assoc_L (++)), B3, (assoc_L (++)), A3, <-(assoc_L (++)).
  - intros id. rewrite !total_app. specialize (A4 id). specialize (B4 id).
    rewrite (Z.add_comm (total (popped_event id) tr)), Z.add_assoc, Zplus_mod, B4, <-Zplus_mod.
    rewrite <-Z.add_assoc, (Z.add_comm (total (seen_event id) tr')), Z.add_assoc.
    rewrite Zplus_mod, A4, <-Zplus_mod. f_equal. lia.
Qed.

Lemma balanced_run s tr s' : run s tr s' → balanced s tr s'.
Proof.
  induction 1 as [[p f]|s tr s' tr' s'' _ IH Hst]; [by apply balanced_quiet|].
  apply (balanced_app s tr s'); [done|].
  destruct Hst; [by apply balanced_env|by apply balanced_flush].
Qed.

(** *** The repository receives the saves of the trace, in order *)

Definition repo_event (r : R) (e : event) : R :=
  match e with
  | ESaved batch => (SaveSlotMessageStatsMulti r batch).1
  | ESavedGeneral h => (SaveGeneralMessageHistory r (Some h)).1
  | _ => r
  end.
Definition repo_after (r : R) tr : R := foldl repo_event r tr.

(** A drained slot is not empty. *)
Definition flusher_ok f : Prop :=
  match f with FCount _ done todo => done ++ todo ≠ [] | _ => True end.

Lemma repo_process p now msg dst r :
  repo p = Some r → repo (Process p now msg dst).1 = Some (repo_after r (process_events p now msg dst)).
Proof.
  intros Hr. assert (repo_after r (process_events p now msg dst) = r) as ->.
  { destruct (process_effect p now msg dst) as (_ & _ & _ & Hev). revert Hev.
    unfold repo_after. induction (process_events p now msg dst) as [|e tr IH]; [done|].
    intros Hev. pose proof (Hev e ltac:(set_solver)) as He.
    destruct e; try done; apply IH; intros e' ?; apply Hev; set_solver. }
  unfold Process. destruct (DecodeGossip _ _) as [e|m]; [done|].
  destruct (extract (extractors p) m) as [[[] slot]|e|v]; [| |done..]; rewrite drop_err_fst.
  - unfold processSlotMessageMetadata. destruct (slot_record p _) as [st|e|v]; [|done..].
    destruct (Add _ _ _ st) as [cache b]. simpl.
    destruct (notify_rest (set_slotCache cache p)) as [(Hrep & _) _]. by rewrite Hrep.
  - unfold processGeneralMessageMetadata. by destruct (general_record p _).
Qed.

Lemma repo_step s tr s' r :
  step s tr s' → repo s.1 = Some r → flusher_ok s.2 →
  repo s'.1 = Some (repo_after r tr) ∧ flusher_ok s'.2.
Proof.
  intros [p tr1 p' f Henv|s1 tr1 s1' Hfl] Hr Hf; [split; [|done]|].
  - destruct Henv as [p1 now msg dst _|p1 raw|p1 r1 l h k _ _|p1 n _|p1 pc]; simpl in *; try done.
    + by apply repo_process.
    + unfold save_general. simpl. by rewrite Hr.
  - destruct Hfl as [p now os cur _|p o slot slots cache Hd|p o slot slots cache st stats Hd|
          p slots done st todo|p p' slots done Hsave|p]; simpl in *; try by split.
    + split; [done|]. by destruct done.
    + rewrite app_nil_r in Hf. rewrite (saveToRepository_repo p done r) in Hsave by done.
      by injection Hsave as <-.
Qed.

Lemma repo_run s tr s' r :
  run s tr s' → repo s.1 = Some r → flusher_ok s.2 →
  repo s'.1 = Some (repo_after r tr) ∧ flusher_ok s'.2.
Proof.
  induction 1 as [s|s tr s' tr' s'' _ IH Hst]; intros Hr Hf; [done|].
  destruct (IH Hr Hf) as [Hr' Hf']. unfold repo_after. rewrite foldl_app.
  exact (repo_step _ _ _ _ Hst Hr' Hf').
Qed.

(** *** The invariant of a run *)

Lemma wf_rest p p' :
  proc_wf p → slotCache p' = slotCache p → seenCounter p' = seenCounter p →
  spawned p' = spawned p → extractors p' = extractors p →
  (messageNotify p' <= messageNotify p)%nat → proc_wf p'.
Proof.
  intros Hp Hc Hs Hsp He Hn. split; rewrite ?Hc, ?Hs, ?Hsp, ?He; try apply Hp.
  pose proof (wf_notify p Hp). lia.
Qed.

Lemma wf_env p tr p' : proc_wf p → env_step p tr p' → proc_wf p'.
Proof.
  intros Hp Hst. revert Hp. destruct Hst as [p1 now msg dst _|p1 raw|p1 r l h k Hsp Hr|p1 n Hn|p1 pc];
    intros Hp.
  - by apply wf_Process.
  - by apply wf_Increase.
  - unfold save_general. simpl. rewrite Hr. split; simpl; try apply Hp.
    pose proof (wf_spawned p1 Hp) as Hl. rewrite Hsp in Hl.
    apply Forall_app in Hl as [Hl1 [_ Hl2]%Forall_cons]. by apply Forall_app.
  - apply (wf_rest p1); try done. simpl. rewrite Hn. apply le_S, le_n.
  - by apply (wf_rest p1).
Qed.

(** The records in the flusher's hands are in range too. *)
Definition sys_wf (s : proc * flusher) : Prop := proc_wf s.1 ∧ Forall stat_ok (in_hand s.2).

Lemma wf_drain p o slot cache stats :
  proc_wf p → DrainSlot o (slotCache p) slot = (cache, stats) →
  proc_wf (set_slotCache cache p) ∧ Forall stat_ok stats.
Proof.
  intros Hp Hd. pose proof (store_wf_DrainSlot o _ slot (wf_cache p Hp)) as Hwf.
  pose proof (records_DrainSlot o (slotCache p) slot) as Hrec. rewrite Hd in Hwf, Hrec. simpl in *.
  pose proof (wf_stats p Hp) as Hst. rewrite Hrec in Hst. apply Forall_app in Hst as [Hst Hca].
  split; [|done]. split; simpl; try apply Hp; done.
Qed.

Lemma wf_flush_step s tr s' :
  flush_step s tr s' → sys_wf s → sys_wf s' ∧ Forall stat_ok (saved tr).
Proof.
  intros [p now os cur _|p o slot slots cache Hd|p o slot slots cache st stats Hd|
          p slots done st todo|p p' slots done Hsave|p] [Hp Hh]; simpl in *.
  - done.
  - by destruct (wf_drain p o slot cache [] Hp Hd).
  - by destruct (wf_drain p o slot cache (st :: stats) Hp Hd).
  - apply Forall_app in Hh as [Hd [Hst Ht]%Forall_cons].
    destruct (count_stats_wf (seenCounter p) [st] (wf_counts p Hp)) as [Hc Hs]; [by constructor|].
    cbn [count_stats] in Hc, Hs. destruct (count_stat (seenCounter p) st) as [sc st']. simpl in *.
    apply Forall_cons in Hs as [Hst' _]. split; [|done]. split; simpl.
    + split; simpl; try apply Hp; done.
    + by rewrite !Forall_app, Forall_singleton.
  - rewrite app_nil_r in Hh |- *. split; [|done]. split; [|done]. simpl.
    revert Hsave. unfold saveToRepository. destruct done as [|st done]; [by intros [= <-]|].
    destruct (repo p) as [r|]; [|done].
    destruct (SaveSlotMessageStatsMulti r (st :: done)) as [r' [e|]]; intros [= <-];
      by apply (wf_rest p).
  - done.
Qed.

Lemma saved_app tr tr' : saved (tr ++ tr') = saved tr ++ saved tr'.
Proof. apply bind_app. Qed.

Lemma saved_env p tr p' : env_step p tr p' → saved tr = [].
Proof.
  intros [p1 now msg dst _|p1 raw|p1 r l h k Hsp Hr|p1 n Hn|p1 pc]; try done.
  destruct (process_effect p1 now msg dst) as (_ & _ & _ & Hev).
  by destruct (process_books _ Hev) as (Hs & _).
Qed.

Lemma wf_run s tr s' : run s tr s' → sys_wf s → sys_wf s' ∧ Forall stat_ok (saved tr).
Proof.
  induction 1 as [s|s tr s' tr' s'' _ IH Hst]; intros Hs; [by split|].
  destruct (IH Hs) as [Hs' Hsaved]. rewrite saved_app, Forall_app.
  destruct Hst as [p tr1 p' f Henv|s1 tr1 s1' Hfl].
  - rewrite (saved_env _ _ _ Henv). destruct Hs' as [Hp Hh].
    split; [|done]. split; [by apply (wf_env p tr1 p')|done].
  - destruct (wf_flush_step _ _ _ Hfl Hs'). by split_and!.
Qed.

(** *** The flusher on its own *)

(** Slots left and phase, then records left to count. *)
Definition flusher_measure f : nat * nat :=
  match f with
  | FIdle => (0, 0)
  | FSlots slots => (2 * length slots + 1, 0)
  | FCount slots _ todo => (2 * length slots + 2, length todo)
  end%nat.
Definition lex_lt (x y : nat * nat) : Prop := (x.1 < y.1 ∨ x.1 = y.1 ∧ x.2 < y.2)%nat.

Lemma lex_lt_wf : well_founded lex_lt.
Proof.
  intros [a b]. revert b. induction (lt_wf a) as [a _ IHa]. intros b.
  induction (lt_wf b) as [b _ IHb]. constructor. intros [a' b'] [Hlt|[Heq Hlt]]; simpl in *.
  - by apply IHa.
  - subst a'. by apply IHb.
Qed.

Lemma flush_decreases s tr s' :
  flush_step s tr s' → s.2 ≠ FIdle → lex_lt (flusher_measure s'.2) (flusher_measure s.2).
Proof. unfold lex_lt. intros [] Hf; simpl in *; try done; lia. Qed.

(** The position after some flush step not a begin. *)
Definition flush_next f' f : Prop :=
  f ≠ FIdle ∧ ∃ p tr p', flush_step (p, f) tr (p', f').

Lemma flush_next_wf : well_founded flush_next.
Proof.
  apply (wf_incl _ _ (λ f' f, lex_lt (flusher_measure f') (flusher_measure f))).
  - intros f' f (Hf & p & tr & p' & Hst). by apply (flush_decreases _ _ _ Hst).
  - apply wf_inverse_image, lex_lt_wf.
Qed.

(** A flush without interruption, from a point inside it on. *)
Inductive flush_run : proc * flusher → trace → proc * flusher → Prop :=
  | flush_run_nil s : flush_run s [] s
  | flush_run_cons s tr s' tr' s'' :
      s.2 ≠ FIdle → flush_step s tr s' → flush_run s' tr' s'' → flush_run s (tr ++ tr') s''.

(** It is a run of the system. *)
Lemma run_flush_run s tr s' : flush_run s tr s' → run s tr s'.
Proof.
  induction 1 as [|s tr s' tr' s'' _ Hst _ IH]; [apply run_nil|].
  exact (run_app _ _ _ _ _ (run_one _ _ _ (step_flush _ _ _ Hst)) IH).
Qed.

(** Counting a whole slot: the records still to count decide the batch. *)
Lemma flush_run_count p slots dn todo p2 :
  (∃ tr, flush_run (p, FCount slots dn todo) tr (p2, FIdle)) ↔
  let '(sc, stats) := count_stats (seenCounter p) todo in
  ∃ p1 tr, drop_err (saveToRepository (set_seenCounter sc p) (dn ++ stats)) = (p1, Ret ()) ∧
    flush_run (p1, FSlots slots) tr (p2, FIdle).
Proof.
  revert p dn. induction todo as [|st todo IH]; intros p dn; cbn [count_stats].
  - rewrite app_nil_r. assert (set_seenCounter (seenCounter p) p = p) as -> by by destruct p.
    split.
    + intros [tr Hrun]. inversion Hrun as [|s tr1 s1 tr2 s2 _ Hst Hrest]; subst.
      inversion Hst; subst. eauto.
    + intros (p1 & tr & Hs & Hrun). eexists. eapply flush_run_cons; [done|exact (flush_save _ _ _ _ Hs)|exact Hrun].
  - specialize (IH (set_seenCounter (count_stat (seenCounter p) st).1 p)
      (dn ++ [(count_stat (seenCounter p) st).2])). simpl in IH.
    assert ((∃ tr, flush_run (p, FCount slots dn (st :: todo)) tr (p2, FIdle)) ↔
      ∃ tr, flush_run (set_seenCounter (count_stat (seenCounter p) st).1 p,
        FCount slots (dn ++ [(count_stat (seenCounter p) st).2]) todo) tr (p2, FIdle)) as ->.
    { split; intros [tr Hrun].
      - inversion Hrun as [|s tr1 s1 tr2 s2 _ Hst Hrest]; subst. inversion Hst; subst. eauto.
      - eexists. eapply flush_run_cons; [done|apply flush_count|exact Hrun]. }
    rewrite IH. destruct (count_stat (seenCounter p) st) as [sc1 st1]. simpl.
    destruct (count_stats sc1 todo) as [sc stats]. by rewrite <-(assoc_L (++)).
Qed.

(** One slot of the loop. *)
Lemma flush_run_slot p slot slots p2 :
  (∃ tr, flush_run (p, FSlots (slot :: slots)) tr (p2, FIdle)) ↔
  ∃ o p1 tr, flush_slot o p slot = (p1, Ret ()) ∧ flush_run (p1, FSlots slots) tr (p2, FIdle).
Proof.
  split.
  - intros [tr Hrun]. inversion Hrun as [|s tr1 s1 tr2 s2 _ Hst Hrest]; subst.
    inversion Hst as [|? o ? ? cache Hd|? o ? ? cache st stats Hd| | |]; subst; exists o;
      unfold flush_slot; rewrite Hd; [eauto|].
    assert (∃ tr, flush_run (set_slotCache cache p, FCount slots [] (st :: stats)) tr (p2, FIdle))
      as Hc%flush_run_count by eauto.
    destruct (count_stats _ (st :: stats)) as [sc batch]. simpl in Hc. done.
  - intros (o & p1 & tr & Hs & Hrun). unfold flush_slot in Hs.
    destruct (DrainSlot o (slotCache p) slot) as [cache [|st stats]] eqn:Hd.
    { injection Hs as <-. eexists. eapply flush_run_cons; [done|exact (flush_empty _ _ _ _ _ Hd)|exact Hrun]. }
    assert (∃ tr, flush_run (set_slotCache cache p, FCount slots [] (st :: stats)) tr (p2, FIdle))
      as [tr' Hc].
    { apply flush_run_count. destruct (count_stats _ (st :: stats)) as [sc batch]. eauto. }
    eexists. eapply flush_run_cons; [done|exact (flush_drain _ _ _ _ _ _ _ Hd)|exact Hc].
Qed.

(** The whole loop, for some order of the records of every slot. *)
Lemma flush_run_slots p slots p2 :
  NoDup slots →
  (∃ tr, flush_run (p, FSlots slots) tr (p2, FIdle)) ↔ ∃ o, flush_slots o p slots = (p2, Ret ()).
Proof.
  revert p. induction slots as [|slot slots IH]; intros p Hnd.
  - split.
    + intros [tr Hrun]. inversion Hrun as [|s tr1 s1 tr2 s2 _ Hst Hrest]; subst.
      inversion Hst; subst. exists (λ _, id_order).
      inversion Hrest as [|s3 tr3 s4 tr4 s5 Hidle]; subst; [done|by destruct Hidle].
    + intros [o [= <-]]. eexists. eapply flush_run_cons; [done|apply flush_end|apply flush_run_nil].
  - apply NoDup_cons in Hnd as [Hnew Hnd]. rewrite flush_run_slot. split.
    + intros (o1 & p1 & tr & Hs & Hrun).
      destruct (proj1 (IH p1 Hnd)) as [o Ho]; [by exists tr|].
      exists (λ s, if bool_decide (s = slot) then o1 else o s). simpl.
      rewrite bool_decide_true by done.
      rewrite Hs. rewrite <-Ho. apply flush_slots_ext. intros s Hin.
      by rewrite bool_decide_false by set_solver.
    + intros [o Ho]. simpl in Ho.
      destruct (flush_slot (o slot) p slot) as [p1 [[]|e|v]] eqn:Hs; [|done..].
      destruct (proj2 (IH p1 Hnd)) as [tr Hrun]; [by exists o|]. eauto.
Qed.

(** A flush without interruption is [flushCompletedSlots]. *)
Lemma flush_run_exact p p' :
  (∃ os o now, flushCompletedSlots os o p now = (p', Ret ())) ↔
  ∃ slots tr, flush_step (p, FIdle) [] (p, FSlots slots) ∧ flush_run (p, FSlots slots) tr (p', FIdle).
Proof.
  split.
  - intros (os & o & now & Hf). unfold flushCompletedSlots in Hf.
    destruct (current_slot p now) as [cur|e|v] eqn:Hcur; [|done..].
    destruct (proj2 (flush_run_slots p _ p' (CompletedSlots_NoDup os (slotCache p) cur)))
      as [tr Hrun]; [by exists o|].
    eexists _, tr. split; [exact (flush_begin _ _ os _ Hcur)|done].
  - intros (slots & tr & Hst & Hrun).
    inversion Hst as [? now os cur Hcur| | | | |]; subst.
    destruct (proj1 (flush_run_slots p _ p' (CompletedSlots_NoDup os (slotCache p) cur)))
      as [o Ho]; [by exists tr|].
    exists os, o, now. unfold flushCompletedSlots. by rewrite Hcur.
Qed.

Lemma run_flush os o p now p' :
  flushCompletedSlots os o p now = (p', Ret ()) → ∃ tr, run (p, FIdle) tr (p', FIdle).
Proof.
  intros Hf. destruct (proj1 (flush_run_exact p p')) as (slots & tr & Hst & Hrun); [eauto|].
  eexists. eapply run_app; [apply run_one, step_flush, Hst|]. exact (run_flush_run _ _ _ Hrun).
Qed.

Lemma flush_can_step p f r :
  repo p = Some r → f ≠ FIdle → ∃ tr s', flush_step (p, f) tr s'.
Proof.
  intros Hr Hf. destruct f as [|[|slot slots]|slots dn [|st todo]]; [done|..].
  - eexists _, _. apply flush_end.
  - destruct (DrainSlot id_order (slotCache p) slot) as [cache [|st stats]] eqn:Hd.
    + eexists _, _. exact (flush_empty _ _ _ _ _ Hd).
    + eexists _, _. exact (flush_drain _ _ _ _ _ _ _ Hd).
  - assert (∃ p', drop_err (saveToRepository p dn) = (p', Ret ())) as [p' Hs].
    { destruct dn as [|st dn]; [by eexists|].
      rewrite (saveToRepository_repo p _ r) by done. by eexists. }
    eexists _, _. exact (flush_save _ _ _ _ Hs).
  - eexists _, _. apply flush_count.
Qed.

(** ** Properties *)

(** C1. Under any interleaving of processed messages, counted ids, running saves
    and a flush at any point of its work, no slot record is lost, duplicated
    or altered: the records in the batches handed to the repository, those in
    the flusher's hands and those cached are together exactly the records
    stored, up to their counts. Every save of a general message that was
    started has run once or is still pending, and the repository is in the
    state that these saves, in this order, produce. *)
Theorem no_record_lost p0 p f tr r0
  (Hr : repo p0 = Some r0) (Hrun : run (p0, FIdle) tr (p, f)) :
  repo p = Some (repo_after r0 tr) ∧
  forget <$> (saved tr ++ in_hand f ++ records (slotCache p)) ≡ₚ
    forget <$> (stored tr ++ records (slotCache p0)) ∧
  saved_general tr ++ spawned p ≡ₚ spawned p0 ++ started tr.
Proof.
  destruct (balanced_run _ _ _ Hrun) as (Hrec & Hsp & _).
  split; [by apply (repo_run _ _ _ _ Hrun)|]. split; [exact Hrec|by symmetry].
Qed.

(** C9. Under any interleaving every sighting of a message id is accounted for:
    modulo 2^32, the sightings are the count still held plus the counts popped
    for records of that id, even when ids are seen while their slot is being
    flushed. Each record handed to the repository carries the count popped
    for it, one if none was, in the order the flusher popped them. *)
Theorem seen_counts_conserved p0 p f tr (Hrun : run (p0, FIdle) tr (p, f)) :
  saved tr ++ done_of f = counted tr ∧
  ∀ id, (count_in p id + total (popped_event id) tr) mod 2 ^ 32 =
        (count_in p0 id + total (seen_event id) tr) mod 2 ^ 32.
Proof. destruct (balanced_run _ _ _ Hrun) as (_ & _ & Hc & Hn). by split. Qed.

(** Every state reached from a well-formed processor is well formed, and every
    record in the flusher's hands or handed to the repository has its uint32
    fields in range, whatever the interleaving. *)
Theorem run_invariant p0 p f tr (Hp : proc_wf p0) (Hrun : run (p0, FIdle) tr (p, f)) :
  proc_wf p ∧ Forall stat_ok (saved tr ++ in_hand f).
Proof.
  destruct (wf_run _ _ _ Hrun) as [[Hp' Hh] Hs]; [by split; [|constructor]|].
  split; [done|]. by apply Forall_app.
Qed.

(** C26. A flush terminates whatever the other goroutines do: its steps between two
    idle points are well founded even when records keep arriving, none of
    their steps moves it, and with a repository it is never stuck. The flushes
    that run from idle to idle without interruption are exactly the results of
    [flushCompletedSlots], over the orders of its maps. *)
Theorem flush_terminates :
  well_founded flush_next ∧
  (∀ p f r, repo p = Some r → f ≠ FIdle → ∃ tr s', flush_step (p, f) tr s') ∧
  (∀ p p', (∃ os o now, flushCompletedSlots os o p now = (p', Ret ())) ↔
     ∃ slots tr, flush_step (p, FIdle) [] (p, FSlots slots) ∧
       flush_run (p, FSlots slots) tr (p', FIdle)).
Proof.
  split_and!; [apply flush_next_wf|apply flush_can_step|apply flush_run_exact].
Qed.
End System.

(** ** Witnesses: a block is processed and counted twice, then flushed *)

Section Witnesses.
#[local] Existing Instance log_repository.
#[local] Existing Instance fixed_peers.
#[local] Existing Instance prysm_p2p.
#[local] Existing Instance sample_encoder.

Definition sample_processed : BeaconMessageProcessor log_repo Z :=
  (Process sample_proc (after_genesis 1201) sample_message T_SignedBeaconBlockElectra).1.
Definition sample_before : BeaconMessageProcessor log_repo Z :=
  IncreaseSeenCountByRawID (IncreaseSeenCountByRawID sample_processed "id") "id".
Definition sample_flushed : BeaconMessageProcessor log_repo Z :=
  (flushCompletedSlots rev_order (λ _, id_order) sample_before (after_genesis 1300)).1.

Lemma sample_step_process : run (sample_proc, FIdle)
  (process_events sample_proc (after_genesis 1201) sample_message T_SignedBeaconBlockElectra)
  (sample_processed, FIdle).
Proof. apply run_one, step_env. unfold sample_processed. apply env_process. vm_compute. reflexivity. Qed.

Lemma sample_step_seen p : run (R := log_repo) (PC := Z) (p, FIdle)
  ([ESeen (hexEncode "id")] ++ [ESeen (hexEncode "id")])
  (IncreaseSeenCountByRawID (IncreaseSeenCountByRawID p "id") "id", FIdle).
Proof. eapply run_app; apply run_one, step_env, env_seen. Qed.

Lemma sample_step_flush : ∃ tr, run (sample_before, FIdle) tr (sample_flushed, FIdle).
Proof.
  apply (run_flush rev_order (λ _, id_order) sample_before (after_genesis 1300)).
  vm_compute. reflexivity.
Qed.

Lemma sample_run : ∃ tr, run (sample_proc, FIdle) tr (sample_flushed, FIdle).
Proof.
  destruct sample_step_flush as [tr Hrun]. eexists.
  eapply run_app; [apply sample_step_process|].
  eapply run_app; [apply sample_step_seen|exact Hrun].
Qed.

Lemma no_record_lost_witness :
  ∃ tr, repo sample_flushed = Some (repo_after (LogRepo [] []) tr).
Proof.
  destruct sample_run as [tr Hrun]. exists tr.
  exact (proj1 (no_record_lost sample_proc sample_flushed FIdle tr (LogRepo [] []) eq_refl Hrun)).
Defined.

Lemma seen_counts_conserved_witness :
  ∃ tr, run (sample_proc, FIdle) tr (sample_flushed, FIdle) ∧ saved tr ++ [] = counted tr.
Proof.
  destruct sample_run as [tr Hrun]. exists tr. split; [exact Hrun|].
  exact (proj1 (seen_counts_conserved sample_proc sample_flushed FIdle tr Hrun)).
Defined.

Lemma flush_terminates_witness : ∃ tr s', flush_step (sample_before, FSlots [100]) tr s'.
Proof.
  destruct (flush_terminates (R := log_repo) (PC := Z)) as (_ & Hstep & _).
  apply (Hstep sample_before (FSlots [100]) (LogRepo [] [])); [vm_compute; reflexivity|discriminate].
Defined.
End Witnesses.
