(* ===== verification/Tables.v ===== *)
(** * What a run leaves in the database

    The processor's runs of ProcSystem.v over the ClickHouse repository: the
    rows of the two tables, and their types. *)

From S2P Require Import Prelude GoStrings GoTime GoFloat Externals Eth.
From S2P Require Import Repository RepositoryClaims SeenCounter SlotCache SlotExtractor.
From S2P Require Import Processor ProcessorFacts Samples ProcSystem.
Local Open Scope Z_scope.

(** The SSZ decoder yields slots of type uint64. *)
Class EncoderSlots `{Encoder} := {
  DecodeGossip_slot data t m k slot :
    DecodeGossip data t = inr m → slot_of m = Ret (k, slot) → is_u64 slot;
}.

(** A value fits a column: its constructor, and the range of an integer. *)
Definition value_fits (c : column_type) (v : value) : Prop :=
  value_type v = c ∧
  match v with VUInt64 n => is_u64 n | VUInt32 n => is_u32 n | _ => True end.
Definition row_fits (columns : list (string * column_type)) (row : list value) : Prop :=
  Forall2 value_fits columns.*2 row.

Definition general_table `{DriverLaws} (a : adapter) : list (list value) :=
  table_rows (chRepo a) "general_message_histories".

Lemma Forall_sublist {A} (P : A → Prop) l k : l `sublist_of` k → Forall P k → Forall P l.
Proof. intros Hs. rewrite !Forall_forall. eauto using elem_of_sublist. Qed.

Section Tables.
Context `{DriverLaws} `{!ExecLaws}.
Implicit Types (a : adapter) (tr : trace).

(** The records an event hands to the repository, and those of them whose save
    returned no error. *)
Definition offered (e : event) : list SlotMessageStats :=
  match e with ESaved batch => batch | _ => [] end.
Definition offered_general (e : event) : list GeneralMessageHistory :=
  match e with ESavedGeneral h => [h] | _ => [] end.
Definition acked a (e : event) : list SlotMessageStats :=
  match e with
  | ESaved batch => if (SaveSlotMessageStatsMulti a batch).2 is Some _ then [] else batch
  | _ => []
  end.
Definition acked_general a (e : event) : list GeneralMessageHistory :=
  match e with
  | ESavedGeneral h => if (SaveGeneralMessageHistory a (Some h)).2 is Some _ then [] else [h]
  | _ => []
  end.
(** Along a trace, each event on the repository the earlier ones left. *)
Fixpoint along {A} (g : adapter → event → list A) a tr : list A :=
  match tr with
  | [] => []
  | e :: tr => g a e ++ along g (repo_event a e) tr
  end.

(** No save of the trace failed. *)
Definition event_succeeds a (e : event) : Prop :=
  match e with
  | ESaved batch => (SaveSlotMessageStatsMulti a batch).2 = None
  | ESavedGeneral h => (SaveGeneralMessageHistory a (Some h)).2 = None
  | _ => True
  end.
Fixpoint all_succeed a tr : Prop :=
  match tr with
  | [] => True
  | e :: tr => event_succeeds a e ∧ all_succeed (repo_event a e) tr
  end.

Lemma saved_offered tr : saved tr = tr ≫= offered.
Proof. done. Qed.
Lemma saved_general_offered tr : saved_general tr = tr ≫= offered_general.
Proof. induction tr as [|[] tr IH]; simpl; rewrite ?IH; done. Qed.

(** What one event adds to a table: at least the acknowledged records, at most
    the offered ones. *)
Definition extends {A} (table : adapter → list (list value)) (row : A → list value)
    (ack : adapter → event → list A) (offer : event → list A) : Prop :=
  ∀ a e, ∃ ws, table (repo_event a e) = table a ++ (row <$> ws) ∧
    ack a e `sublist_of` ws ∧ ws `sublist_of` offer e.

(** An event that leaves a table alone. *)
Lemma extends_quiet {A} (row : A → list value) (rows rows' : list (list value)) offer :
  rows' = rows → ∃ ws, rows' = rows ++ (row <$> ws) ∧ [] `sublist_of` ws ∧ ws `sublist_of` offer.
Proof. intros ->. exists []. rewrite app_nil_r. split_and!; [done|done|apply sublist_nil_l]. Qed.

Lemma extends_stats : extends stats_table stat_row acked offered.
Proof.
  intros a e. destruct e as [id|st|h|st n|batch|h]; try by apply extends_quiet.
  - simpl. pose proof (save_batch_rows (chRepo a) batch) as Hs.
    destruct (ch_SaveSlotMessageStatsMulti (chRepo a) batch) as [c e].
    destruct Hs as (ws & Hsub & Hok & _ & Ht). exists ws. unfold stats_table. simpl.
    rewrite Ht, bool_decide_true by done. split_and!; [done| |done].
    destruct e; [apply sublist_nil_l|by rewrite Hok].
  - apply extends_quiet. unfold stats_table. simpl.
    destruct (Exec_general (chRepo a) (general_args h)) as (rows & _ & _ & Ht).
    specialize (Ht "slot_message_stats"). rewrite bool_decide_false, app_nil_r in Ht by done.
    by destruct (conn_Exec (chRepo a) general_query (general_args h)) as [c [e|]].
Qed.

Lemma extends_general : extends general_table general_args acked_general offered_general.
Proof.
  intros a e. destruct e as [id|st|h|st n|batch|h]; try by apply extends_quiet.
  - apply extends_quiet. unfold general_table. simpl.
    pose proof (save_batch_rows (chRepo a) batch) as Hs.
    destruct (ch_SaveSlotMessageStatsMulti (chRepo a) batch) as [c e].
    destruct Hs as (ws & _ & _ & _ & Ht). simpl. by rewrite Ht, bool_decide_false, app_nil_r by done.
  - simpl. destruct (Exec_general (chRepo a) (general_args h)) as (rows & Hsub & Hok & Ht).
    change [general_args h] with (general_args <$> [h]) in Hsub.
    apply sublist_fmap_inv in Hsub as (ws & -> & Hsub). exists ws. unfold general_table. simpl.
    specialize (Ht "general_message_histories"). rewrite bool_decide_true in Ht by done.
    destruct (conn_Exec (chRepo a) general_query (general_args h)) as [c [e|]]; simpl in *.
    + split_and!; [done|apply sublist_nil_l|done].
    + split_and!; [done| |done]. destruct ws as [|h1 [|h2 ws]]; try discriminate (Hok eq_refl).
      apply sublist_cons_r in Hsub as [Hn%sublist_nil_r|(k & [= -> _] & _)]; done.
Qed.

(** The same along a trace. *)
Lemma extends_along {A} table (row : A → list value) ack offer a tr :
  extends table row ack offer →
  ∃ ws, table (repo_after a tr) = table a ++ (row <$> ws) ∧
    along ack a tr `sublist_of` ws ∧ ws `sublist_of` (tr ≫= offer).
Proof.
  intros Hext. revert a. induction tr as [|e tr IH]; intros a.
  { exists []. by rewrite app_nil_r. }
  destruct (Hext a e) as (ws1 & Ht1 & Ha1 & Ho1). destruct (IH (repo_event a e)) as (ws2 & Ht2 & Ha2 & Ho2).
  exists (ws1 ++ ws2). split_and!; [|by apply sublist_app..].
  change (repo_after a (e :: tr)) with (repo_after (repo_event a e) tr).
  by rewrite Ht2, Ht1, fmap_app, (assoc_L (++)).
Qed.

(** Without failures every record offered is acknowledged. *)
Lemma all_succeed_acked a tr :
  all_succeed a tr → along acked a tr = saved tr ∧ along acked_general a tr = saved_general tr.
Proof.
  rewrite saved_offered, saved_general_offered. revert a.
  induction tr as [|e tr IH]; intros a Hok; [done|].
  destruct Hok as [He Hok]. destruct (IH _ Hok) as [Hw Hg]. cbn [along]. rewrite Hw, Hg.
  destruct e as [id|st|h|st n|batch|h]; try done; simpl in He |- *; by rewrite He.
Qed.
End Tables.

(** ** Rows of a run *)

(** What the events of a run hold. *)
Definition event_fits (e : event) : Prop :=
  match e with
  | EStored st => is_u64 (Slot st)
  | EStarted h => history_ok h
  | _ => True
  end.

Local Ltac fits_columns :=
  repeat (apply List.Forall2_cons; [by split|]); apply List.Forall2_nil.

Lemma stat_row_fits st :
  stat_ok st → is_u64 (Slot st) → row_fits slot_message_stats_columns (stat_row st).
Proof. intros (? & ? & ? & ?) ?. unfold row_fits, stat_row. simpl. fits_columns. Qed.
Lemma general_args_fits h :
  history_ok h → row_fits general_message_histories_columns (general_args h).
Proof. intros [? ?]. unfold row_fits, general_args. simpl. fits_columns. Qed.

Section Runs.
Context {R PC : Type} `{Repository R} `{PeerCounter PC} `{P2P} `{EncoderSlots}.
Implicit Types (p : BeaconMessageProcessor R PC) (tr : trace).

Lemma process_events_fit p now msg dst :
  extractors p = newSlotExtractorRegistry → Forall event_fits (process_events p now msg dst).
Proof.
  intros Hext. unfold process_events.
  destruct (DecodeGossip _ _) as [e|m] eqn:Hdec; [constructor|].
  rewrite Hext, extract_spec.
  destruct (slot_of m) as [[[] slot]|e|v] eqn:Hslot; [| |constructor..].
  - destruct (slot_record p _) as [st|e|v] eqn:Hst; [|constructor..].
    apply slot_record_fields in Hst as (Hs & _). simpl in Hs.
    case_match; [|constructor]. apply Forall_singleton. simpl. rewrite Hs.
    exact (DecodeGossip_slot _ _ _ _ _ Hdec Hslot).
  - destruct (general_record p _) as [h|e|v] eqn:Hh; [|constructor..].
    apply Forall_singleton. exact (general_record_ok _ _ _ Hh).
Qed.

Lemma step_events_fit (s s' : BeaconMessageProcessor R PC * flusher) tr :
  step s tr s' → proc_wf s.1 → Forall event_fits tr.
Proof.
  intros [p tr1 p' f Henv|s1 tr1 s1' Hfl] Hp.
  - revert Hp. destruct Henv as [p1 now msg dst _|p1 raw|p1 r l h k _ _|p1 n _|p1 pc]; intros Hp;
      try by repeat constructor. apply process_events_fit, Hp.
  - destruct Hfl; by repeat constructor.
Qed.

Lemma run_events_fit (s s' : BeaconMessageProcessor R PC * flusher) tr :
  run s tr s' → sys_wf s → Forall event_fits tr.
Proof.
  induction 1 as [s|s tr s' tr' s'' Hrun IH Hst]; intros Hs; [constructor|].
  apply Forall_app. split; [by apply IH|].
  destruct (wf_run _ _ _ Hrun Hs) as [[Hp _] _]. by apply (step_events_fit s' s'').
Qed.

Lemma stored_fit tr : Forall event_fits tr → Forall (λ st, is_u64 (Slot st)) (stored tr).
Proof.
  induction 1 as [|e tr He _ IH]; [constructor|]. destruct e; try apply IH. by constructor.
Qed.
Lemma started_fit tr : Forall event_fits tr → Forall history_ok (started tr).
Proof.
  induction 1 as [|e tr He _ IH]; [constructor|]. destruct e; try apply IH. by constructor.
Qed.

(** Whatever is handed to the repository fits its table. *)
Lemma run_saved_fit p0 p f tr :
  proc_wf p0 → Forall (λ st, is_u64 (Slot st)) (records (slotCache p0)) →
  run (p0, FIdle) tr (p, f) →
  Forall (λ st, row_fits slot_message_stats_columns (stat_row st)) (saved tr) ∧
  Forall (λ h, row_fits general_message_histories_columns (general_args h)) (saved_general tr).
Proof.
  intros Hp0 Hslots Hrun. assert (sys_wf (p0, FIdle)) as Hs0 by (split; [done|constructor]).
  pose proof (run_events_fit _ _ _ Hrun Hs0) as Hfit.
  destruct (wf_run _ _ _ Hrun Hs0) as [_ Hok].
  destruct (balanced_run _ _ _ Hrun) as (Hrec & Hsp & _). simpl in Hrec, Hsp. split.
  - assert (Forall (λ st, is_u64 (Slot st)) (forget <$> saved tr)) as Hu.
    { rewrite fmap_app in Hrec. refine (proj1 (proj1 (Forall_app _ _ _) _)). rewrite Hrec.
      rewrite Forall_fmap. apply Forall_app. split; [by apply stored_fit|done]. }
    rewrite Forall_fmap in Hu. rewrite Forall_forall in Hu, Hok |- *.
    intros st Hst. apply stat_row_fits; [by apply Hok|by apply (Hu st)].
  - assert (Forall history_ok (saved_general tr)) as Hh.
    { refine (proj1 (proj1 (Forall_app _ _ _) _)). rewrite <-Hsp. apply Forall_app.
      split; [apply Hp0|by apply started_fit]. }
    by eapply Forall_impl; [|apply general_args_fits].
Qed.
End Runs.

(** ** Properties *)

Section Claims.
Context `{DriverLaws} `{!ExecLaws} {PC : Type} `{PeerCounter PC} `{P2P} `{Encoder}.
Implicit Types (p : BeaconMessageProcessor adapter PC).

(** C7. After any run, under any interleaving and with any failures of the
    database, the two tables hold what they held before and then rows of records
    handed to the repository, in the order they were handed over and each at
    most once: at least those of the saves that returned no error; of a save
    that failed, those the server had stored. If none failed, the slot rows
    added, the records in the flusher's hands and those cached are the records
    stored. *)
Theorem tables_after_run p0 p f tr a0
  (Hr : repo p0 = Some a0) (Hrun : run (p0, FIdle) tr (p, f)) :
  ∃ a ws gs, repo p = Some a ∧
    stats_table a = stats_table a0 ++ (stat_row <$> ws) ∧
    general_table a = general_table a0 ++ (general_args <$> gs) ∧
    along acked a0 tr `sublist_of` ws ∧ ws `sublist_of` saved tr ∧
    along acked_general a0 tr `sublist_of` gs ∧ gs `sublist_of` saved_general tr ∧
    (all_succeed a0 tr →
       forget <$> (ws ++ in_hand f ++ records (slotCache p)) ≡ₚ
         forget <$> (stored tr ++ records (slotCache p0)) ∧
       gs ++ spawned p ≡ₚ spawned p0 ++ started tr).
Proof.
  destruct (repo_run _ _ _ _ Hrun Hr I) as [Ha _].
  destruct (balanced_run _ _ _ Hrun) as (Hrec & Hsp & _).
  destruct (extends_along _ _ _ _ a0 tr extends_stats) as (ws & Hws & Hack & Hoff).
  destruct (extends_along _ _ _ _ a0 tr extends_general) as (gs & Hgs & Hgack & Hgoff).
  rewrite <-saved_general_offered in Hgoff.
  exists (repo_after a0 tr), ws, gs. split_and!; [done..|].
  intros Hok. destruct (all_succeed_acked a0 tr Hok) as [Heq Hgeq]. rewrite Heq in Hack.
  rewrite Hgeq in Hgack. rewrite (anti_symm sublist ws (saved tr)) by done.
  rewrite (anti_symm sublist gs (saved_general tr)) by done.
  split; [exact Hrec|by symmetry].
Qed.

(** C8. Every row a run writes fits the columns of its table, in number, order,
    type and integer range: tables that hold only such rows before hold only
    such rows after. *)
Theorem tables_well_typed `{!EncoderSlots} p0 p f tr a0
  (Hp : proc_wf p0) (Hslots : Forall (λ st, is_u64 (Slot st)) (records (slotCache p0)))
  (Hr : repo p0 = Some a0) (Hrun : run (p0, FIdle) tr (p, f))
  (Hstats : Forall (row_fits slot_message_stats_columns) (stats_table a0))
  (Hgen : Forall (row_fits general_message_histories_columns) (general_table a0)) :
  ∃ a, repo p = Some a ∧
    Forall (row_fits slot_message_stats_columns) (stats_table a) ∧
    Forall (row_fits general_message_histories_columns) (general_table a).
Proof.
  destruct (repo_run _ _ _ _ Hrun Hr I) as [Ha _]. exists (repo_after a0 tr). split; [done|].
  destruct (run_saved_fit p0 p f tr Hp Hslots Hrun) as [Hs Hg].
  destruct (extends_along _ _ _ _ a0 tr extends_stats) as (ws & -> & _ & Hoff).
  destruct (extends_along _ _ _ _ a0 tr extends_general) as (gs & -> & _ & Hgoff).
  rewrite <-saved_general_offered in Hgoff.
  rewrite !Forall_app, !Forall_fmap. split_and!; [done| |done|].
  - exact (Forall_sublist _ _ _ Hoff Hs).
  - exact (Forall_sublist _ _ _ Hgoff Hg).
Qed.
End Claims.

(** ** Witnesses: two blocks of a slot whose save is cut off, and a slashing whose save
    is stored but not acknowledged *)

Section Witnesses.
#[local] Existing Instance mem_driver.
#[local] Existing Instance mem_driver_laws.
#[local] Existing Instance mem_driver_exec.
#[local] Existing Instance fixed_peers.
#[local] Existing Instance prysm_p2p.
#[local] Existing Instance sample_encoder.

Definition sample_encoder_slots : EncoderSlots.
Proof.
  split. intros data t m k slot. simpl. case_bool_decide; [done|]. intros [= <-].
  destruct t; simpl; intros [= <- <-]; unfold is_u64; lia.
Qed.
#[local] Existing Instance sample_encoder_slots.

Definition mem_proc : BeaconMessageProcessor adapter Z :=
  MkProcessor (Some (Adapter _ ∅)) (Some 42) mainnet mainnet_genesis "test-node" "test-region"
    NewSlotCacheStore NewSeenCounter newSlotExtractorRegistry 0 [].
Definition mem_block : BeaconMessageProcessor adapter Z :=
  (Process mem_proc (after_genesis 1201) sample_message T_SignedBeaconBlockElectra).1.
Definition message_with (id : string) : Message :=
  {| ReceivedFrom := "peer"; msg_Topic := msg_Topic sample_message; msg_ID := id;
     msg_Data := msg_Data sample_message |}.
Definition mem_blocks : BeaconMessageProcessor adapter Z :=
  (Process mem_block (after_genesis 1202) (message_with "lost") T_SignedBeaconBlockElectra).1.
Definition mem_slashing : BeaconMessageProcessor adapter Z :=
  (Process mem_blocks (after_genesis 1202) (message_with "late") T_ProposerSlashing).1.
Definition mem_saved : BeaconMessageProcessor adapter Z := (run_spawned mem_slashing).1.
Definition mem_flushed : BeaconMessageProcessor adapter Z :=
  (flushCompletedSlots rev_order (λ _, id_order) mem_saved (after_genesis 1300)).1.

Lemma mem_spawned : spawned mem_slashing = [] ++ default
    {| gm_ArrivalTime := after_genesis 0; gm_ForkVersion := ""; gm_Topic := "";
       gm_NodeRegion := ""; gm_NodeAlias := ""; gm_NodePeerCount := 0; gm_MessageID := "";
       gm_SizeBytes := 0 |} (head (spawned mem_slashing)) :: [].
Proof. vm_compute. reflexivity. Qed.

Lemma mem_run : ∃ tr, run (mem_proc, FIdle) tr (mem_flushed, FIdle).
Proof.
  destruct (run_flush rev_order (λ _, id_order) mem_saved (after_genesis 1300) mem_flushed)
    as [tr Hrun]; [vm_compute; reflexivity|].
  eexists. eapply run_app; [|eapply run_app; [|eapply run_app; [|eapply run_app; [|exact Hrun]]]].
  - apply run_one, step_env. apply (env_process mem_proc (after_genesis 1201) sample_message
      T_SignedBeaconBlockElectra). vm_compute. reflexivity.
  - apply run_one, step_env. apply (env_process mem_block (after_genesis 1202) (message_with "lost")
      T_SignedBeaconBlockElectra). vm_compute. reflexivity.
  - apply run_one, step_env. apply (env_process mem_blocks (after_genesis 1202) (message_with "late")
      T_ProposerSlashing). vm_compute. reflexivity.
  - apply run_one, step_env.
    refine (env_save mem_slashing (Adapter _ ∅) [] _ [] mem_spawned _). vm_compute. reflexivity.
Qed.

Lemma tables_after_run_witness : ∃ tr a ws, repo mem_flushed = Some a ∧
  stats_table a = stat_row <$> ws ∧ ws `sublist_of` saved tr.
Proof.
  destruct mem_run as [tr Hrun]. exists tr.
  destruct (tables_after_run mem_proc mem_flushed FIdle tr (Adapter _ ∅) eq_refl Hrun)
    as (a & ws & gs & Ha & Ht & _ & _ & Hs & _). exists a, ws. split_and!; [exact Ha|exact Ht|exact Hs].
Defined.

Lemma tables_well_typed_witness : ∃ a, repo mem_flushed = Some a ∧
  Forall (row_fits slot_message_stats_columns) (stats_table a).
Proof.
  destruct mem_run as [tr Hrun].
  destruct (tables_well_typed mem_proc mem_flushed FIdle tr (Adapter _ ∅)) as (a & Ha & Ht & _).
  - split; simpl; [apply store_wf_empty|done|lia|apply map_Forall_empty|constructor..].
  - constructor.
  - reflexivity.
  - exact Hrun.
  - constructor.
  - constructor.
  - exists a. split; [exact Ha|exact Ht].
Defined.

(** The tables of that run, evaluated: one of the two records, and the slashing. *)
Example mem_tables :
  match repo mem_flushed with
  | Some a => (length (stats_table a), length (general_table a)) = (1%nat, 1%nat)
  | None => False
  end.
Proof. vm_compute. reflexivity. Qed.
End Witnesses.
