(* ===== verification/Views.v ===== *)
(** * migrations/002_define_mv.sql: the hourly rollup

    The view is refreshed every hour over the rows of slot_message_stats, here
    the records the processor saves. DateTime is a number of seconds since the
    Unix epoch; the hours of the server are whole hours of it. sum of UInt32 is
    UInt64 and wraps, a product of UInt32 is UInt64, avg divides as Float64.
    ClickHouse computes quantile approximately: it is a parameter. *)

From S2P Require Import Prelude GoStrings GoTime GoFloat Externals Repository SlotCache SlotExtractor.
From S2P Require Import Processor ProcessorFacts Samples ProcessorClaims.
Local Open Scope Z_scope.

Definition hour_secs : Z := 3600.

Definition toStartOfHour (t : Z) : Z := t / hour_secs * hour_secs.

(** [toStartOfHour(now() + INTERVAL 1 MINUTE)] *)
Definition current_hour (now : Z) : Z := toStartOfHour (now + 60).

(** slot_start_time as the driver sends it: the seconds of the time. *)
Definition slot_start (st : SlotMessageStats) : Z := Time_Unix (SlotStartTime st).

(** [slot_start_time >= current_hour - 2h AND slot_start_time < current_hour - 1h] *)
Definition in_window (now : Z) (st : SlotMessageStats) : bool :=
  (current_hour now - 2 * hour_secs <=? slot_start st) &&
  (slot_start st <? current_hour now - hour_secs).

(** [count(DISTINCT slot_start_time)] of an hour and alias within the window *)
Definition slot_count (now : Z) (rows : list SlotMessageStats) (alias : string) (hour : Z) : nat :=
  length (remove_dups (slot_start <$>
    filter (λ st, in_window now st = true ∧ NodeAlias st = alias ∧
                  toStartOfHour (slot_start st) = hour) rows)).

(** The subquery: the aliases and hours with [slot_count = 300]. *)
Definition complete_hours (now : Z) (rows : list SlotMessageStats) : list (string * Z) :=
  filter (λ k, slot_count now rows k.1 k.2 = 300%nat)
    (remove_dups ((λ st, (NodeAlias st, toStartOfHour (slot_start st))) <$>
       filter (λ st, in_window now st = true) rows)).

(** The WHERE clause. *)
Definition selected (now : Z) (rows : list SlotMessageStats) : list SlotMessageStats :=
  filter (λ st, in_window now st = true ∧
                (NodeAlias st, toStartOfHour (slot_start st)) ∈ complete_hours now rows ∧
                LatencyMS st < 768000) rows.

(** The GROUP BY key: hour, region, alias, topic group, topic. *)
Definition rollup_key : Type := Z * string * string * string * string.
Definition key_of (st : SlotMessageStats) : rollup_key :=
  (toStartOfHour (slot_start st), NodeRegion st, NodeAlias st, TopicGroup st, Topic st).

Definition group_by {A K} `{EqDecision K} (key : A → K) (l : list A) : list (K * list A) :=
  (λ k, (k, filter (λ x, key x = k) l)) <$> remove_dups (key <$> l).

Record slot_message_hourly_rollup := {
  ru_key : rollup_key;
  sum_seen_count : float64;
  sum_total_bytes : float64;
  avg_latency : float64;
  p50_latency : float64;
  p90_latency : float64;
  p95_latency : float64;
  avg_duplication : float64;
  p50_duplication : float64;
  p90_duplication : float64;
  p95_duplication : float64;
}.

Definition sum (l : list Z) : Z := foldr Z.add 0 l.
Definition avg (l : list Z) : float64 :=
  fdiv (float_of_Z (u64 (sum l))) (float_of_Z (Z.of_nat (length l))).

Section View.
(** quantile(level), the level in percent *)
Context (quantile : Z → list Z → float64).

Definition rollup_row (g : rollup_key * list SlotMessageStats) : slot_message_hourly_rollup :=
  let latency := LatencyMS <$> g.2 in
  let seen := SeenCount <$> g.2 in
  let less_one x := fsub x (float_of_Z 1) in {|
    ru_key := g.1;
    sum_seen_count := float_of_Z (u64 (sum seen));
    sum_total_bytes := float_of_Z (u64 (sum ((λ st, SeenCount st * SizeBytes st) <$> g.2)));
    avg_latency := avg latency;
    p50_latency := quantile 50 latency;
    p90_latency := quantile 90 latency;
    p95_latency := quantile 95 latency;
    avg_duplication := less_one (avg seen);
    p50_duplication := less_one (quantile 50 seen);
    p90_duplication := less_one (quantile 90 seen);
    p95_duplication := less_one (quantile 95 seen) |}.

(** What a refresh at [now] appends. *)
Definition slot_message_hourly_mv (now : Z) (rows : list SlotMessageStats)
    : list slot_message_hourly_rollup :=
  rollup_row <$> group_by key_of (selected now rows).
End View.

(** ** Hours *)

(** The start of the hour is the only multiple of 3600 within the last hour. *)
Lemma toStartOfHour_spec t h :
  toStartOfHour t = h * hour_secs ↔ h * hour_secs <= t < (h + 1) * hour_secs.
Proof.
  unfold toStartOfHour, hour_secs. split.
  - intros Heq. assert (t / 3600 = h) as <- by lia.
    pose proof (Z.div_mod t 3600). pose proof (Z.mod_pos_bound t 3600). lia.
  - intros Ht. f_equal. symmetry. apply (Z.div_unique_pos t 3600 h (t - h * 3600)); lia.
Qed.

(** A refresh takes the rows of the hour that started two hours before its own. *)
Lemma in_window_hour now st :
  in_window now st = true ↔ toStartOfHour (slot_start st) = current_hour now - 2 * hour_secs.
Proof.
  assert (current_hour now - 2 * hour_secs = ((now + 60) / hour_secs - 2) * hour_secs) as Hc
    by (unfold current_hour, toStartOfHour; lia).
  rewrite Hc, toStartOfHour_spec. unfold in_window. rewrite andb_true_iff, Z.leb_le, Z.ltb_lt.
  unfold current_hour, toStartOfHour, hour_secs. lia.
Qed.

(** ** Grouping *)

Section Group.
Context {A K : Type} `{EqDecision K} (key : A → K).
Implicit Types (l : list A) (ks : list K).

Lemma bind_filter_perm l ks :
  NoDup ks → (∀ x, x ∈ l → key x ∈ ks) → (ks ≫= λ k, filter (λ x, key x = k) l) ≡ₚ l.
Proof.
  intros Hnd. induction l as [|x l IH]; intros Hin.
  { clear. by induction ks. }
  assert (key x ∈ ks) as Hx by (apply Hin; set_solver).
  transitivity (x :: (ks ≫= λ k, filter (λ x, key x = k) l));
    [|by rewrite IH by (intros y ?; apply Hin; set_solver)]. clear IH Hin.
  apply elem_of_Permutation in Hx as [ks' Hks]. rewrite Hks in Hnd |- *.
  apply NoDup_cons in Hnd as [Hni _]. cbn [mbind list_bind].
  rewrite filter_cons_True by done. simpl. do 2 f_equiv.
  apply Permutation_refl'. clear Hks. induction ks' as [|k ks' IH]; [done|]. simpl.
  rewrite filter_cons_False by set_solver. f_equal. apply IH. set_solver.
Qed.

Lemma group_by_concat l : concat (group_by key l).*2 ≡ₚ l.
Proof.
  unfold group_by. rewrite <-list_fmap_compose.
  transitivity (remove_dups (key <$> l) ≫= λ k, filter (λ x, key x = k) l).
  - apply Permutation_refl'. generalize (remove_dups (key <$> l)) as ks.
    induction ks as [|k ks IH]; [done|]. simpl. f_equal. exact IH.
  - apply bind_filter_perm; [apply NoDup_remove_dups|].
    intros x Hx. apply elem_of_remove_dups, list_elem_of_fmap. eauto.
Qed.

Lemma group_by_keys l : (group_by key l).*1 = remove_dups (key <$> l).
Proof. unfold group_by. rewrite <-list_fmap_compose. apply list_fmap_id. Qed.

Lemma elem_of_group_by l k g :
  (k, g) ∈ group_by key l ↔ k ∈ key <$> l ∧ g = filter (λ x, key x = k) l.
Proof.
  unfold group_by. rewrite list_elem_of_fmap. setoid_rewrite elem_of_remove_dups. naive_solver.
Qed.
End Group.

(** ** Slots of an hour *)

(** The start times, 12 seconds apart, within an hour: 300 of them. *)
Definition hour_starts (g h : Z) : list Z := (λ i, g + 12 * (i - (g - h) / 12)) <$> seqZ 0 300.

Lemma elem_of_hour_starts g h t :
  t ∈ hour_starts g h ↔ h <= t < h + hour_secs ∧ ∃ k, t = g + 12 * k.
Proof.
  unfold hour_starts, hour_secs. rewrite list_elem_of_fmap. setoid_rewrite elem_of_seqZ.
  pose proof (Z.div_mod (g - h) 12). pose proof (Z.mod_pos_bound (g - h) 12).
  set (q := (g - h) / 12) in *. split.
  - intros (i & -> & Hi). split; [lia|eauto].
  - intros (Ht & k & ->). exists (k + q). lia.
Qed.

Lemma NoDup_hour_starts g h : NoDup (hour_starts g h).
Proof. apply NoDup_fmap; [intros i j; lia|apply NoDup_seqZ]. Qed.
Lemma length_hour_starts g h : length (hour_starts g h) = 300%nat.
Proof. unfold hour_starts. by rewrite length_fmap, length_seqZ. Qed.

(** The distinct start times counted for an alias. *)
Definition counted_starts (now : Z) (rows : list SlotMessageStats) (alias : string) (hour : Z)
    : list Z :=
  remove_dups (slot_start <$> filter (λ st, in_window now st = true ∧ NodeAlias st = alias ∧
    toStartOfHour (slot_start st) = hour) rows).

Lemma elem_of_counted_starts now rows alias t :
  t ∈ counted_starts now rows alias (current_hour now - 2 * hour_secs) ↔
  ∃ st, st ∈ rows ∧ NodeAlias st = alias ∧ slot_start st = t ∧
    toStartOfHour t = current_hour now - 2 * hour_secs.
Proof.
  unfold counted_starts. rewrite elem_of_remove_dups, list_elem_of_fmap.
  setoid_rewrite list_elem_of_filter. setoid_rewrite in_window_hour. naive_solver.
Qed.

Lemma hour_bounds now t :
  toStartOfHour t = current_hour now - 2 * hour_secs ↔
  current_hour now - 2 * hour_secs <= t < current_hour now - 2 * hour_secs + hour_secs.
Proof.
  assert (current_hour now - 2 * hour_secs = ((now + 60) / hour_secs - 2) * hour_secs) as ->
    by (unfold current_hour, toStartOfHour; lia).
  rewrite toStartOfHour_spec. lia.
Qed.

(** On the grid of slot starts, 300 distinct times are all of them. *)
Lemma hour_complete_grid (now g : Z) (rows : list SlotMessageStats) (alias : string)
  (Hgrid : ∀ st, st ∈ rows → slot_start st = g + 12 * Slot st) :
  let hour := current_hour now - 2 * hour_secs in
  slot_count now rows alias hour = 300%nat ↔
  ∀ k, hour <= g + 12 * k < hour + hour_secs →
    ∃ st, st ∈ rows ∧ NodeAlias st = alias ∧ Slot st = k.
Proof.
  intros hour. change (slot_count now rows alias hour)
    with (length (counted_starts now rows alias hour)).
  assert (counted_starts now rows alias hour ⊆ hour_starts g hour) as Hsub.
  { intros t (st & Hst & _ & <- & Ht)%elem_of_counted_starts. apply elem_of_hour_starts.
    split; [by apply hour_bounds|]. exists (Slot st). by apply Hgrid. }
  assert (NoDup (counted_starts now rows alias hour)) as Hnd by apply NoDup_remove_dups.
  split.
  - intros Hlen k Hk. assert (g + 12 * k ∈ counted_starts now rows alias hour) as Hin.
    { assert (counted_starts now rows alias hour ≡ₚ hour_starts g hour) as ->.
      { apply submseteq_length_Permutation; [by apply NoDup_submseteq|].
        by rewrite Hlen, length_hour_starts. }
      apply elem_of_hour_starts. eauto. }
    apply elem_of_counted_starts in Hin as (st & Hst & Ha & Ht & _). exists st.
    split_and!; [done|done|]. rewrite Hgrid in Ht by done. lia.
  - intros Hall. rewrite <-(length_hour_starts g hour). apply Permutation_length.
    apply NoDup_Permutation; [done|apply NoDup_hour_starts|]. intros t. split; [apply Hsub|].
    intros (Ht & k & ->)%elem_of_hour_starts. destruct (Hall k Ht) as (st & Hst & Ha & <-).
    apply elem_of_counted_starts. exists st. rewrite Hgrid by done.
    split_and!; [done..|by apply hour_bounds].
Qed.

Lemma elem_of_selected now rows st :
  st ∈ selected now rows ↔ st ∈ rows ∧
    current_hour now = toStartOfHour (slot_start st) + 2 * hour_secs ∧
    slot_count now rows (NodeAlias st) (toStartOfHour (slot_start st)) = 300%nat ∧
    LatencyMS st < 768000.
Proof.
  unfold selected, complete_hours. rewrite list_elem_of_filter, in_window_hour.
  rewrite list_elem_of_filter, elem_of_remove_dups, list_elem_of_fmap. simpl. split.
  - intros ((Hh & (Hc & _) & Hl) & Hst). split_and!; [done|lia|done..].
  - intros (Hst & Hh & Hc & Hl). split_and!; [lia|done| |done|done].
    exists st. rewrite list_elem_of_filter, in_window_hour. split_and!; [done|lia|done].
Qed.

(** ** The rows of the processor *)

(** A recorded slot start is on the grid the count relies on. *)
Lemma slot_record_grid {R PC : Type} `{PeerCounter PC} `{P2P} `{Encoder}
    (p : BeaconMessageProcessor R PC) now msg slot st :
  genesis_ok p → slot_ok p slot → SecondsPerSlot (beaconConfig p) = 12 →
  slot_record p (newSlotMetadata p now msg slot) = Ret st →
  slot_start st = Time_Unix (genesisTime p) + 12 * Slot st.
Proof.
  intros Hg Hs H12 Hst. apply slot_record_fields in Hst as (Hslot & _ & _ & _ & _ & Hstart & _).
  destruct (slot_start_exact p slot Hg Hs) as [Hok Hns]. unfold slot_start. rewrite Hstart, Hslot.
  cbn [s_Slot newSlotMetadata]. set (t := Time_Add (genesisTime p) (slot_offset p slot)) in *.
  destruct Hg as [Hgs Hgn], Hs as (Hs0 & _ & Hs63), Hok as [Hts Htn].
  unfold slot_start_ns, time_ns in Hns. rewrite H12 in *.
  assert (t_sec t = t_sec (genesisTime p) + 12 * slot) as Hsec by (unfold Second in *; lia).
  unfold Time_Unix. rewrite Hsec. unfold unixToInternal, Second in *.
  rewrite !i64_small by (unfold is_i64; lia). lia.
Qed.

(** A row written by some watcher of the network with this genesis: a record of
    its processor, with some count. *)
Definition written_by_watcher {R PC : Type} `{PeerCounter PC} `{P2P} `{Encoder} (genesis : Time)
    (st : SlotMessageStats) : Prop :=
  ∃ (p : BeaconMessageProcessor R PC) at_ msg slot st' n,
    genesisTime p = genesis ∧ genesis_ok p ∧ SecondsPerSlot (beaconConfig p) = 12 ∧
    slot_ok p slot ∧ slot_record p (newSlotMetadata p at_ msg slot) = Ret st' ∧
    st = set_SeenCount st' n.

(** ** Properties *)

(** C14. The hours the rollup takes for complete are the complete ones. For rows
    that watchers of one network with slots of 12 seconds recorded, an alias
    has 300 distinct slot start times in the hour of a refresh exactly if it
    recorded a message of every slot that starts in that hour, whatever the
    offset of genesis from the hour. *)
Theorem hour_complete_iff {R PC : Type} `{PeerCounter PC} `{P2P} `{Encoder} (now : Z) (genesis : Time)
  (rows : list SlotMessageStats) (alias : string)
  (Hrows : Forall (written_by_watcher (R := R) genesis) rows) :
  let hour := current_hour now - 2 * hour_secs in
  slot_count now rows alias hour = 300%nat ↔
  ∀ k, hour <= Time_Unix genesis + 12 * k < hour + hour_secs →
    ∃ st, st ∈ rows ∧ NodeAlias st = alias ∧ Slot st = k.
Proof.
  apply hour_complete_grid. intros st Hst. rewrite Forall_forall in Hrows.
  destruct (Hrows st Hst) as (p & t & msg & slot & st' & n & <- & Hg & H12 & Hs & Hrec & ->).
  exact (slot_record_grid p t msg slot st' Hg Hs H12 Hrec).
Qed.

(** A refresh appends one row per region, alias, topic group and topic of the
    rows it selects, each computed from exactly the selected rows of that key,
    and the groups partition the selected rows. It selects the rows of the
    hour that began two hours before its own, if the alias has that hour
    complete and the latency is below the bound; so the refreshes of one hour
    only ever take a given row. *)
Theorem rollup_exact (quantile : Z → list Z → float64) (now : Z) (rows : list SlotMessageStats) :
  let sel := selected now rows in
  let mv := slot_message_hourly_mv quantile now rows in
  NoDup (ru_key <$> mv) ∧ concat (group_by key_of sel).*2 ≡ₚ sel ∧
  (∀ r, r ∈ mv ↔ ∃ st, st ∈ sel ∧
     r = rollup_row quantile (key_of st, filter (λ x, key_of x = key_of st) sel)) ∧
  (∀ st, st ∈ sel ↔ st ∈ rows ∧
     current_hour now = toStartOfHour (slot_start st) + 2 * hour_secs ∧
     slot_count now rows (NodeAlias st) (toStartOfHour (slot_start st)) = 300%nat ∧
     LatencyMS st < 768000).
Proof.
  intros sel mv. split_and!; [|apply group_by_concat| |intros st; apply elem_of_selected].
  - assert (ru_key <$> mv = (group_by key_of sel).*1) as ->.
    { unfold mv, slot_message_hourly_mv. by rewrite <-list_fmap_compose. }
    rewrite group_by_keys. apply NoDup_remove_dups.
  - intros r. unfold mv, slot_message_hourly_mv. fold sel. rewrite list_elem_of_fmap. split.
    + intros ([k grp] & -> & [Hk ->]%elem_of_group_by).
      apply list_elem_of_fmap in Hk as (st & -> & Hst). eauto.
    + intros (st & Hst & ->). eexists. split; [done|]. apply elem_of_group_by.
      split; [|done]. apply list_elem_of_fmap. eauto.
Qed.

(** ** Witness: the first full hour after genesis *)

Section Witness.
#[local] Existing Instance fixed_peers.
#[local] Existing Instance prysm_p2p.
#[local] Existing Instance sample_encoder.

Definition hour_row (slot : Z) : SlotMessageStats :=
  match slot_record sample_proc
          (newSlotMetadata sample_proc (after_genesis (12 * slot)) sample_message slot) with
  | Ret st => set_SeenCount st 1
  | _ => sample_stat slot ""
  end.
Definition hour_rows : list SlotMessageStats := hour_row <$> seqZ 299 300.

Lemma hour_rows_written :
  Forall (written_by_watcher (R := log_repo) (PC := Z) mainnet_genesis) hour_rows.
Proof.
  unfold hour_rows. rewrite Forall_fmap, Forall_forall. intros slot Hslot%elem_of_seqZ.
  destruct (slot_record_total sample_proc
    (newSlotMetadata sample_proc (after_genesis (12 * slot)) sample_message slot)
    "6a95a1a9" "beacon_block" 42 42) as [st Hst]; [reflexivity..|].
  exists sample_proc, (after_genesis (12 * slot)), sample_message, slot, st, 1.
  split_and!; [done|apply sample_genesis_ok|done|apply sample_slot_ok; lia|done|].
  simpl. unfold hour_row. by rewrite Hst.
Qed.

(** 1606827600 is the hour; the refresh two hours later finds it complete. *)
Lemma hour_complete_iff_witness :
  ∃ st, st ∈ hour_rows ∧ NodeAlias st = "test-node" ∧ Slot st = 400.
Proof.
  apply (proj1 (hour_complete_iff (R := log_repo) (PC := Z) 1606834830 mainnet_genesis hour_rows
    "test-node" hour_rows_written)); vm_compute; [reflexivity|split; congruence].
Defined.
End Witness.
