(* ===== verification/Host.v ===== *)
(** * host: the libp2p host and its peer counts

    [host.go]. libp2p is outside the repository: the class [Libp2p] has the
    calls the source makes. A host is a value that the calls return changed;
    [Network()] being nil is a case of its own. The callbacks of notify.go only
    log. *)

From S2P Require Import Prelude GoStrings GoNet Processor.
From stdpp Require Import pretty.
Local Open Scope Z_scope.

Inductive Direction := DirUnknown | DirInbound | DirOutbound.

#[export] Instance Direction_eq_dec : EqDecision Direction.
Proof. solve_decision. Defined.

(** network.Conn, the parts the source reads. *)
Record NetConn := MkConn {
  RemotePeer : string;
  Stat_Direction : Direction;
}.

(** peer.AddrInfo, with its multiaddrs. *)
Record AddrInfo (M : Type) := MkAddrInfo {
  ai_ID : string;
  ai_Addrs : list M;
}.
Arguments MkAddrInfo {M}.
Arguments ai_ID {M}.
Arguments ai_Addrs {M}.

(** The values of the libp2p packages. *)
Class Libp2pTypes := {
  LibHost : Type;
  PrivKey : Type;
  ResourceManager : Type;
  ConnManager : Type;
  Multiaddr : Type;
}.

(** What [libp2p.New] is given; transport, security and muxers by name. *)
Record libp2p_config `{Libp2pTypes} := {
  ListenAddrs : list Multiaddr;
  Identity : PrivKey;
  cfg_UserAgent : string;
  Transport : string;
  Security : string;
  Muxers : list string;
  NATPortMap : bool;
  cfg_ResourceManager : ResourceManager;
  cfg_ConnManager : ConnManager;
}.

Class Libp2p `{Libp2pTypes} := {
  NullConnMgr : ConnManager;
  (** The results of [crypto.GenerateSecp256k1Key] and
      [rcmgr.NewResourceManager] in this run. *)
  GenerateSecp256k1Key : error + PrivKey;
  NewResourceManager : error + ResourceManager;
  NewMultiaddr : string → error + Multiaddr;
  libp2p_New : libp2p_config → error + LibHost;
  host_ID : LibHost → string;
  (** [Network().Conns()]; [None] when [Network()] is nil *)
  Network_Conns : LibHost → ptr (list NetConn);
  Network_ClosePeer : LibHost → string → LibHost * option error;
  Network_Notify : LibHost → LibHost;
  Network_StopNotify : LibHost → LibHost;
  Network_Listen : LibHost → LibHost * option error;
  host_Connect : LibHost → AddrInfo Multiaddr → LibHost * option error;
}.

(** Closing a peer closes its connections and no other. *)
Class Libp2pLaws `{Libp2p} := {
  ClosePeer_conns h pid conns : Network_Conns h = Some conns →
    Network_Conns (Network_ClosePeer h pid).1 =
      Some (filter (λ c, RemotePeer c ≠ pid) conns);
}.

(** ** Options *)

Record HostOption `{Libp2pTypes} := {
  listenIP : string;
  port : Z;
  privateKey : ptr PrivKey;
  userAgent : string;
  targetPeers : Z;
  rcMgr : ptr ResourceManager;
  connMgr : ConnManager;
}.

Section Host.
Context `{Libp2p}.

Definition WithListenIP (v : string) (o : HostOption) : HostOption :=
  {| listenIP := v; port := port o; privateKey := privateKey o; userAgent := userAgent o;
     targetPeers := targetPeers o; rcMgr := rcMgr o; connMgr := connMgr o |}.
Definition WithPort (v : Z) (o : HostOption) : HostOption :=
  {| listenIP := listenIP o; port := v; privateKey := privateKey o; userAgent := userAgent o;
     targetPeers := targetPeers o; rcMgr := rcMgr o; connMgr := connMgr o |}.
Definition WithPrivateKey (v : PrivKey) (o : HostOption) : HostOption :=
  {| listenIP := listenIP o; port := port o; privateKey := Some v; userAgent := userAgent o;
     targetPeers := targetPeers o; rcMgr := rcMgr o; connMgr := connMgr o |}.
Definition WithUserAgent (v : string) (o : HostOption) : HostOption :=
  {| listenIP := listenIP o; port := port o; privateKey := privateKey o; userAgent := v;
     targetPeers := targetPeers o; rcMgr := rcMgr o; connMgr := connMgr o |}.
Definition WithTargetPeers (v : Z) (o : HostOption) : HostOption :=
  {| listenIP := listenIP o; port := port o; privateKey := privateKey o;
     userAgent := userAgent o; targetPeers := v; rcMgr := rcMgr o; connMgr := connMgr o |}.
Definition WithResourceManager (v : ResourceManager) (o : HostOption) : HostOption :=
  {| listenIP := listenIP o; port := port o; privateKey := privateKey o;
     userAgent := userAgent o; targetPeers := targetPeers o; rcMgr := Some v;
     connMgr := connMgr o |}.
Definition WithConnMgr (v : ConnManager) (o : HostOption) : HostOption :=
  {| listenIP := listenIP o; port := port o; privateKey := privateKey o;
     userAgent := userAgent o; targetPeers := targetPeers o; rcMgr := rcMgr o; connMgr := v |}.

(** ** The host *)

Record Host := MkHost {
  host_Host : LibHost;
  host_targetPeers : Z;
}.

Definition set_host (h : Host) (l : LibHost) : Host := MkHost l (host_targetPeers h).

Definition host_defaults : HostOption :=
  {| listenIP := "127.0.0.1"; port := 9090; privateKey := None;
     userAgent := "libp2p-host"; targetPeers := 80; rcMgr := None; connMgr := NullConnMgr |}.

Definition NewHost (opts : list (HostOption → HostOption)) : outcome Host :=
  let o := apply_opts opts host_defaults in
  privateKey ← match privateKey o with
               | Some k => Ret k
               | None => wrap "failed to generate secp256k1 private key"
                           (of_sum GenerateSecp256k1Key)
               end;
  rcMgr ← match rcMgr o with
          | Some r => Ret r
          | None => wrap "failed to create libp2p resource manager" (of_sum NewResourceManager)
          end;
  parsed ← ok_or (ParseIP (listenIP o)) "failed to parse ip address";
  _ ← ok_or (To4 parsed) "ip address should be ipv4";
  multiaddr ← wrap "failed to parse tcp multiaddr"
    (of_sum (NewMultiaddr (Sprintf "/ip4/%s/tcp/%d" [FString (listenIP o); FInt (port o)])));
  libp2pHost ← wrap "failed to create libp2p host" (of_sum (libp2p_New {|
      ListenAddrs := [multiaddr]; Identity := privateKey; cfg_UserAgent := userAgent o;
      Transport := "tcp"; Security := "noise"; Muxers := ["mplex"; "yamux"];
      NATPortMap := true; cfg_ResourceManager := rcMgr; cfg_ConnManager := connMgr o |}));
  Ret (MkHost libp2pHost (targetPeers o)).

(** [Serve] up to its wait for the context: it registers the notifiee and listens.
    The deferred [StopNotify] runs on every return. *)
Definition listen (h : Host) : Host * outcome unit :=
  match Network_Conns (host_Host h) with
  | None => (h, Panicked panic_nil)
  | Some _ =>
      match Network_Listen (Network_Notify (host_Host h)) with
      | (l, Some e) =>
          (set_host h (Network_StopNotify l),
           Fail (errors_Wrap e "failed to start libp2p network"))
      | (l, None) => (set_host h l, Ret ())
      end
  end.

(** The return of [Serve] when the context ends. *)
Definition stop_listening (h : Host) : Host := set_host h (Network_StopNotify (host_Host h)).

(** [Serve]; [env] is what the network does during the wait. *)
Definition Serve (h : Host) (env : LibHost → LibHost) (ctxErr : error) : Host * outcome unit :=
  match listen h with
  | (h, Ret _) => (stop_listening (set_host h (env (host_Host h))), Fail ctxErr)
  | r => r
  end.

Definition TargetPeerCount (h : Host) : Z := host_targetPeers h.

(** [for _, conn := range conns { if keep { peers[conn.RemotePeer()] = {} } }] *)
Definition peer_set (keep : NetConn → bool) (conns : list NetConn) : gset string :=
  foldl (λ peers conn, if keep conn then {[RemotePeer conn]} ∪ peers else peers) ∅ conns.

Definition count_peers (keep : NetConn → bool) (h : Host) : outcome Z :=
  conns ← deref (Network_Conns (host_Host h));
  Ret (Z.of_nat (size (peer_set keep conns))).

Definition host_TotalPeerCount (h : Host) : outcome Z := count_peers (λ _, true) h.
Definition InboundPeerCount (h : Host) : outcome Z :=
  count_peers (λ c, bool_decide (Stat_Direction c = DirInbound)) h.
Definition OutboundPeerCount (h : Host) : outcome Z :=
  count_peers (λ c, bool_decide (Stat_Direction c = DirOutbound)) h.

(** The host is the PeerCounter of the message processor. *)
#[export] Instance host_PeerCounter : PeerCounter Host := host_TotalPeerCount.

(** ** Lemmas *)

Lemma elem_of_peer_set keep conns pid :
  pid ∈ peer_set keep conns ↔ ∃ c, c ∈ conns ∧ keep c = true ∧ RemotePeer c = pid.
Proof.
  unfold peer_set. transitivity (pid ∈ (∅ : gset string) ∨
    ∃ c, c ∈ conns ∧ keep c = true ∧ RemotePeer c = pid);
    [|rewrite elem_of_empty; tauto].
  generalize (∅ : gset string). induction conns as [|c conns IH]; intros acc; simpl.
  { setoid_rewrite elem_of_nil. naive_solver. }
  rewrite IH. setoid_rewrite elem_of_cons.
  destruct (keep c) eqn:Hk; rewrite ?elem_of_union, ?elem_of_singleton; split.
  - intros [[->|?]|(c' & ? & ? & ?)]; eauto 10.
  - intros [?|(c' & [->|?] & ? & ?)]; eauto 10.
  - intros [?|(c' & ? & ? & ?)]; eauto 10.
  - intros [?|(c' & [->|?] & ? & ?)]; [by auto|congruence|eauto 10].
Qed.

Lemma peer_set_mono keep keep' conns :
  (∀ c, keep c = true → keep' c = true) → peer_set keep conns ⊆ peer_set keep' conns.
Proof. intros Hk pid. rewrite !elem_of_peer_set. naive_solver. Qed.

Lemma size_union_le (X Y : gset string) : (size (X ∪ Y) <= size X + size Y)%nat.
Proof.
  rewrite size_union_alt. apply Nat.add_le_mono_l, subseteq_size. set_solver.
Qed.

Lemma peer_set_size keep conns : (size (peer_set keep conns) <= length conns)%nat.
Proof.
  transitivity (size (list_to_set (RemotePeer <$> conns) : gset string)).
  - apply subseteq_size. intros pid. rewrite elem_of_peer_set, elem_of_list_to_set, list_elem_of_fmap.
    intros (c & Hc & _ & <-). eauto.
  - generalize (RemotePeer <$> conns), (length_fmap RemotePeer conns). intros l <-.
    induction l as [|x l IH]; [done|]. simpl. etransitivity; [apply size_union_le|].
    rewrite size_singleton. lia.
Qed.

(** A count is the length of any duplicate-free list of the peers it is about. *)
Definition counts_peers (keep : NetConn → bool) (conns : list NetConn) (n : Z) : Prop :=
  ∀ l, NoDup l →
    (∀ pid, pid ∈ l ↔ ∃ c, c ∈ conns ∧ keep c = true ∧ RemotePeer c = pid) →
    n = Z.of_nat (length l).

Lemma peer_set_counts keep conns :
  counts_peers keep conns (Z.of_nat (size (peer_set keep conns))).
Proof.
  intros l Hl Hmem. f_equal. rewrite <-(size_list_to_set (C := gset string) l) by done.
  f_equal. apply set_eq. intros pid. by rewrite elem_of_peer_set, elem_of_list_to_set, Hmem.
Qed.
End Host.

(** ** A host made of its connections, for the witnesses *)

Definition list_types : Libp2pTypes := {|
  LibHost := list NetConn; PrivKey := string; ResourceManager := unit; ConnManager := unit;
  Multiaddr := string |}.

(** A multiaddr is its own text, and port 1 is in use. *)
Definition list_libp2p : @Libp2p list_types := {|
  NullConnMgr := () : @ConnManager list_types; GenerateSecp256k1Key := inr "key";
  NewResourceManager := inr ();
  NewMultiaddr s := inr s;
  libp2p_New c := if bool_decide (head (ListenAddrs c) = Some "/ip4/0.0.0.0/tcp/1")
                  then inl (error_ext "port in use") else inr [];
  host_ID _ := "self";
  Network_Conns h := Some h;
  Network_ClosePeer h pid := (filter (λ c, RemotePeer c ≠ pid) h, None);
  Network_Notify h := h; Network_StopNotify h := h; Network_Listen h := (h, None);
  host_Connect h ai := (MkConn (ai_ID ai) DirOutbound :: h, None);
|}.

Definition list_libp2p_laws : @Libp2pLaws _ list_libp2p.
Proof. split. by intros h pid conns [= ->]. Defined.

Definition list_host (conns : list NetConn) (target : Z) : @Host list_types :=
  @MkHost list_types conns target.

(** ** Properties *)

Section Claims.
Context `{Libp2p}.

(** C38. The peer counts count distinct remote peers, however many connections
    each has: the total is the number of peers with a connection, the inbound
    and outbound counts those with one of that direction; neither exceeds the
    total, the two together cover it when every connection has a direction,
    and the total is what the message processor sees as peer count. A nil
    network panics. *)
Theorem peer_counts_distinct (h : Host) :
  (∀ conns, Network_Conns (host_Host h) = Some conns →
    ∃ t i o, TotalPeerCount h = Ret t ∧ InboundPeerCount h = Ret i ∧
      OutboundPeerCount h = Ret o ∧
      counts_peers (λ _, true) conns t ∧
      counts_peers (λ c, bool_decide (Stat_Direction c = DirInbound)) conns i ∧
      counts_peers (λ c, bool_decide (Stat_Direction c = DirOutbound)) conns o ∧
      0 <= i <= t ∧ 0 <= o <= t ∧
      (Forall (λ c, Stat_Direction c ≠ DirUnknown) conns → t <= i + o)) ∧
  (Network_Conns (host_Host h) = None → TotalPeerCount h = Panicked panic_nil).
Proof.
  unfold TotalPeerCount, host_PeerCounter, host_TotalPeerCount, InboundPeerCount,
    OutboundPeerCount, count_peers.
  split; [|by intros ->]. intros conns Hc. rewrite Hc. simpl.
  do 3 eexists. do 3 (split; [reflexivity|]).
  do 3 (split; [apply peer_set_counts|]).
  split; [split; [lia|apply inj_le, subseteq_size, peer_set_mono; done]|].
  split; [split; [lia|apply inj_le, subseteq_size, peer_set_mono; done]|].
  intros Hdir. rewrite <-Nat2Z.inj_add. apply inj_le.
  etransitivity; [|apply size_union_le]. apply subseteq_size. intros pid.
  rewrite elem_of_union, !elem_of_peer_set. intros (c & Hin & _ & <-).
  rewrite Forall_forall in Hdir. specialize (Hdir c Hin).
  destruct (Stat_Direction c) eqn:Hd; [done|left|right];
    (exists c; split_and!; [done| |done]; by apply bool_decide_eq_true).
Qed.

(** A host is created only for an address that parses as IPv4: success means
    libp2p was started on /ip4/<listenIP>/tcp/<port> with the given key (a
    generated one if none was given), user agent, resource and connection
    manager, and the host keeps the target peer count; an address that does
    not parse or is not IPv4 is an error. *)
Lemma new_host_ipv4 (opts : list (HostOption → HostOption)) (h : Host) :
  let o := apply_opts opts host_defaults in
  NewHost opts = Ret h →
  ∃ ip maddr key rm,
    ParseIP (listenIP o) = Some ip ∧ is_Some (To4 ip) ∧
    NewMultiaddr ("/ip4/" +:+ listenIP o +:+ "/tcp/" +:+ pretty (port o)) = inr maddr ∧
    (privateKey o = Some key ∨ privateKey o = None ∧ GenerateSecp256k1Key = inr key) ∧
    (rcMgr o = Some rm ∨ rcMgr o = None ∧ NewResourceManager = inr rm) ∧
    libp2p_New {| ListenAddrs := [maddr]; Identity := key; cfg_UserAgent := userAgent o;
      Transport := "tcp"; Security := "noise"; Muxers := ["mplex"; "yamux"];
      NATPortMap := true; cfg_ResourceManager := rm; cfg_ConnManager := connMgr o |}
      = inr (host_Host h) ∧
    TargetPeerCount h = targetPeers o.
Proof.
  intros o. unfold NewHost. fold o. intros Hh.
  apply bind_Ret_inv in Hh as (key & Hkey & Hh).
  apply bind_Ret_inv in Hh as (rm & Hrm & Hh).
  apply bind_Ret_inv in Hh as (ip & Hip%ok_or_Ret_inv & Hh).
  apply bind_Ret_inv in Hh as (ip4 & H4%ok_or_Ret_inv & Hh).
  apply bind_Ret_inv in Hh as (maddr & Hma%wrap_Ret_inv%of_sum_Ret_inv & Hh).
  apply bind_Ret_inv in Hh as (lh & Hlh%wrap_Ret_inv%of_sum_Ret_inv & [= <-]).
  exists ip, maddr, key, rm. cbn in Hma. rewrite app_nil_s in Hma.
  split_and!; [done|done|done| | |done|done].
  - destruct (privateKey o); [left; by simplify_eq|right].
    by apply wrap_Ret_inv, of_sum_Ret_inv in Hkey.
  - destruct (rcMgr o); [left; by simplify_eq|right].
    by apply wrap_Ret_inv, of_sum_Ret_inv in Hrm.
Qed.
End Claims.

Section Witnesses.
#[local] Existing Instance list_types.
#[local] Existing Instance list_libp2p.

Lemma peer_counts_distinct_witness :
  TotalPeerCount (list_host [MkConn "a" DirInbound; MkConn "a" DirOutbound;
    MkConn "b" DirInbound] 80) = Ret 2.
Proof.
  destruct (peer_counts_distinct (list_host [MkConn "a" DirInbound; MkConn "a" DirOutbound;
    MkConn "b" DirInbound] 80)) as [Hc _].
  destruct (Hc _ eq_refl) as (t & i & o & Ht & _ & _ & Hcount & _).
  rewrite Ht. f_equal. apply (Hcount ["a"; "b"]).
  - apply (bool_decide_unpack _). reflexivity.
  - intros pid. rewrite !elem_of_cons, elem_of_nil. split.
    + intros [->|[->|[]]]; [exists (MkConn "a" DirInbound)|exists (MkConn "b" DirInbound)];
        (split; [set_solver|done]).
    + intros (c & Hin & _ & <-). cbn in Hin. rewrite !elem_of_cons, elem_of_nil in Hin.
      destruct Hin as [->|[->|[->|[]]]]; auto.
Defined.

End Witnesses.
