(* ===== verification/Topics.v ===== *)
(** * Gossip topics: names, formats and the three dispatches over them

    NewGossipSub builds the topics with fmt.Sprintf from Prysm's formats; the
    handler table, the peer score table and the topic group of a record then
    recognise a topic by [strings.Contains] on Prysm's message names, in two
    different orders, and the processor splits the topic back into fork digest
    and name. This file states what Prysm documents of the names and formats,
    and proves that building and recognising agree. *)

From S2P Require Import Prelude GoStrings Externals Eth Processor.
From stdpp Require Import pretty.
From Stdlib Require Import Ascii.
Local Open Scope string_scope.

(** The ten kinds of topic, in the order NewGossipSub lists them. *)
Inductive kind :=
  | KBlock | KBlob | KAggregate | KAttestation | KContribution | KSync
  | KProposerSlashing | KAttesterSlashing | KBls | KExit.

#[export] Instance kind_eq_dec : EqDecision kind.
Proof. solve_decision. Defined.

Definition kinds : list kind :=
  [KBlock; KBlob; KAggregate; KAttestation; KContribution; KSync;
   KProposerSlashing; KAttesterSlashing; KBls; KExit].

Lemma elem_of_kinds k : k ∈ kinds.
Proof. destruct k; unfold kinds; set_solver. Qed.

Lemma forallb_kinds (f : kind → bool) k : forallb f kinds = true → f k = true.
Proof. rewrite forallb_forall. intros Hf. apply Hf, list_elem_of_In, elem_of_kinds. Qed.

(** The kinds whose topics have subnets. *)
Definition subnetted (k : kind) : bool :=
  match k with KBlob | KAttestation | KSync => true | _ => false end.

Section Names.
Context `{P2P}.

Definition msg_name (k : kind) : string :=
  match k with
  | KBlock => GossipBlockMessage
  | KBlob => GossipBlobSidecarMessage
  | KAggregate => GossipAggregateAndProofMessage
  | KAttestation => GossipAttestationMessage
  | KContribution => GossipContributionAndProofMessage
  | KSync => GossipSyncCommitteeMessage
  | KProposerSlashing => GossipProposerSlashingMessage
  | KAttesterSlashing => GossipAttesterSlashingMessage
  | KBls => GossipBlsToExecutionChangeMessage
  | KExit => GossipExitMessage
  end.

Definition topic_format (k : kind) : string :=
  match k with
  | KBlock => BlockSubnetTopicFormat
  | KBlob => BlobSubnetTopicFormat
  | KAggregate => AggregateAndProofSubnetTopicFormat
  | KAttestation => AttestationSubnetTopicFormat
  | KContribution => SyncContributionAndProofSubnetTopicFormat
  | KSync => SyncCommitteeSubnetTopicFormat
  | KProposerSlashing => ProposerSlashingSubnetTopicFormat
  | KAttesterSlashing => AttesterSlashingSubnetTopicFormat
  | KBls => BlsToExecutionChangeSubnetTopicFormat
  | KExit => ExitSubnetTopicFormat
  end.

(** [k'] may be found in a topic of kind [k]: only its own name, and the sync
    committee name in the contribution name. *)
Definition may_contain (k k' : kind) : bool :=
  bool_decide (k = k') || bool_decide (k = KContribution ∧ k' = KSync).

(** A name: no slash, percent sign or digit, some letter that is not a hex
    digit, and not part of the fixed segments of a topic. *)
Definition name_ok (n : string) : bool :=
  no_char slash n && no_char "%"%char n && all_chars (λ a, negb (is_digit a)) n &&
  negb (all_chars is_hex_digit n) && negb (Contains "eth2" n) &&
  negb (Contains ProtocolSuffixSSZSnappy n).

(** What Prysm documents of its topic names and formats. *)
Definition p2p_ok : bool :=
  forallb (λ k,
    name_ok (msg_name k) &&
    bool_decide (topic_format k = "/eth2/%x/" +:+ msg_name k +:+
                   (if subnetted k then "_%d" else "")) &&
    forallb (λ k', may_contain k k' || negb (Contains (msg_name k +:+ "_") (msg_name k'))) kinds)
  kinds &&
  Contains (msg_name KContribution) (msg_name KSync) &&
  no_char slash ProtocolSuffixSSZSnappy.

(** ** Building a topic *)

(** The last segment but one of a topic of a kind. *)
Definition topic_name (k : kind) (i : N) : string :=
  msg_name k +:+ (if subnetted k then "_" +:+ pretty i else "").

(** [fmt.Sprintf(format, digest, i) + "/" + suffix], or without [i]. *)
Definition build_topic (digest : string) (k : kind) (i : N) : string :=
  Sprintf (topic_format k) (FBytes digest :: if subnetted k then [FUint i] else [])
    +:+ "/" +:+ ProtocolSuffixSSZSnappy.

(** The switch of handler.go and peer_score.go. *)
Definition switch_kind (topic : string) : option kind :=
  if Contains topic GossipBlockMessage then Some KBlock
  else if Contains topic GossipBlobSidecarMessage then Some KBlob
  else if Contains topic GossipAggregateAndProofMessage then Some KAggregate
  else if Contains topic GossipAttestationMessage then Some KAttestation
  else if Contains topic GossipContributionAndProofMessage then Some KContribution
  else if Contains topic GossipSyncCommitteeMessage then Some KSync
  else if Contains topic GossipProposerSlashingMessage then Some KProposerSlashing
  else if Contains topic GossipAttesterSlashingMessage then Some KAttesterSlashing
  else if Contains topic GossipBlsToExecutionChangeMessage then Some KBls
  else if Contains topic GossipExitMessage then Some KExit
  else None.

(** Read the name constants as [msg_name]s. *)
Ltac fold_names :=
  change GossipBlockMessage with (msg_name KBlock);
  change GossipBlobSidecarMessage with (msg_name KBlob);
  change GossipAggregateAndProofMessage with (msg_name KAggregate);
  change GossipAttestationMessage with (msg_name KAttestation);
  change GossipContributionAndProofMessage with (msg_name KContribution);
  change GossipSyncCommitteeMessage with (msg_name KSync);
  change GossipProposerSlashingMessage with (msg_name KProposerSlashing);
  change GossipAttesterSlashingMessage with (msg_name KAttesterSlashing);
  change GossipBlsToExecutionChangeMessage with (msg_name KBls);
  change GossipExitMessage with (msg_name KExit).

Section Laws.
Context (Hok : p2p_ok = true).

Lemma p2p_ok_kind k :
  name_ok (msg_name k) = true ∧
  topic_format k = "/eth2/%x/" +:+ msg_name k +:+ (if subnetted k then "_%d" else "") ∧
  ∀ k', may_contain k k' = false → Contains (msg_name k +:+ "_") (msg_name k') = false.
Proof.
  unfold p2p_ok in Hok. apply andb_prop in Hok as [[Hk _]%andb_prop _].
  apply (forallb_kinds _ k) in Hk. cbv beta in Hk.
  apply andb_prop in Hk as [[Hn Hf]%andb_prop Hc].
  apply bool_decide_eq_true in Hf. split; [done|]. split; [done|].
  intros k' Hm. apply (forallb_kinds _ k') in Hc. cbv beta in Hc. rewrite Hm in Hc. by apply negb_true_iff.
Qed.

Record name_facts (n : string) : Prop := {
  nf_slash : no_char slash n = true;
  nf_percent : no_char "%"%char n = true;
  nf_digit : all_chars (λ a, negb (is_digit a)) n = true;
  nf_hex : all_chars is_hex_digit n = false;
  nf_eth2 : Contains "eth2" n = false;
  nf_suffix : Contains ProtocolSuffixSSZSnappy n = false;
}.

Lemma msg_name_facts k : name_facts (msg_name k).
Proof.
  destruct (p2p_ok_kind k) as [Hn _]. unfold name_ok in Hn.
  rewrite !andb_true_iff, !negb_true_iff in Hn. destruct_and!. by split.
Qed.

Lemma name_ne n : name_facts n → n ≠ "".
Proof. intros Hn ->. by pose proof (nf_hex _ Hn). Qed.

Lemma suffix_no_slash : no_char slash ProtocolSuffixSSZSnappy = true.
Proof. unfold p2p_ok in Hok. by apply andb_prop in Hok as [_ ?]. Qed.

(** A built topic, as its segments. *)
Lemma build_topic_eq digest k i :
  build_topic digest k i =
    "" +:+ String slash ("eth2" +:+ String slash (EncodeToString digest +:+
      String slash (topic_name k i +:+ String slash ProtocolSuffixSSZSnappy))).
Proof.
  destruct (p2p_ok_kind k) as (_ & Hf & _). pose proof (nf_percent _ (msg_name_facts k)) as Hp.
  unfold build_topic, topic_name. rewrite Hf. set (t := if subnetted k then "_%d" else "").
  change ("/eth2/%x/" +:+ msg_name k +:+ t)
    with ("/eth2/" +:+ String "%" (String "x" ("/" +:+ msg_name k +:+ t))).
  rewrite Sprintf_plain by done. rewrite Sprintf_verb by done.
  rewrite Sprintf_plain by done. rewrite Sprintf_plain by done. subst t.
  assert (Sprintf (if subnetted k then "_%d" else "") (if subnetted k then [FUint i] else [])
    = if subnetted k then "_" +:+ pretty i else "") as ->.
  { destruct (subnetted k); [|done]. change "_%d" with ("_" +:+ "%d").
    rewrite Sprintf_plain by done. f_equal. cbn. apply app_nil_s. }
  rewrite !app_assoc_s. reflexivity.
Qed.

(** A name found in a topic is found in its name segment. *)
Lemma build_topic_Contains digest k i k' :
  Contains (build_topic digest k i) (msg_name k') = Contains (topic_name k i) (msg_name k').
Proof.
  pose proof (msg_name_facts k') as Hn. pose proof (name_ne _ Hn) as Hne.
  rewrite build_topic_eq. rewrite !Contains_sep by (done || apply Hn).
  rewrite (nf_eth2 _ Hn), (nf_suffix _ Hn).
  rewrite (Contains_all_chars is_hex_digit (EncodeToString digest))
    by (apply EncodeToString_hex || apply Hn).
  replace (Contains "" (msg_name k')) with false by (destruct (msg_name k'); done).
  simpl. apply orb_false_r.
Qed.

Lemma topic_name_Contains k i k' :
  Contains (topic_name k i) (msg_name k') = may_contain k k'.
Proof.
  destruct (p2p_ok_kind k) as (_ & _ & Hc). pose proof (msg_name_facts k') as Hn.
  destruct (may_contain k k') eqn:Hm; [|specialize (Hc k' Hm)]; unfold topic_name.
  - unfold may_contain in Hm. apply orb_prop in Hm as [Hm|Hm]; apply bool_decide_eq_true in Hm.
    + subst k'. apply (Contains_self "").
    + destruct Hm as [-> ->]. simpl. rewrite app_nil_s.
      unfold p2p_ok in Hok. by apply andb_prop in Hok as [[_ ?]%andb_prop _].
  - destruct (subnetted k).
    + rewrite <-app_assoc_s.
      rewrite (Contains_tail is_digit) by (apply name_ne, Hn || apply pretty_N_digits || apply Hn).
      done.
    + rewrite app_nil_s. rewrite Contains_false in Hc |- *. intros (l & r & Hlr). apply Hc.
      exists l, (r +:+ "_"). by rewrite Hlr, !app_assoc_s.
Qed.

Lemma build_topic_may digest k i k' :
  Contains (build_topic digest k i) (msg_name k') = may_contain k k'.
Proof. rewrite build_topic_Contains. apply topic_name_Contains. Qed.

(** Both dispatches find the kind a topic was built for. *)
Lemma switch_kind_build digest k i : switch_kind (build_topic digest k i) = Some k.
Proof.
  pose proof (build_topic_may digest k i) as Hb. unfold switch_kind.
  fold_names. rewrite !Hb. by destruct k.
Qed.

Lemma TopicToTopicGroup_build digest k i :
  TopicToTopicGroup (build_topic digest k i) = msg_name k.
Proof.
  pose proof (build_topic_may digest k i) as Hb. unfold TopicToTopicGroup.
  fold_names. rewrite !Hb. by destruct k.
Qed.

Lemma topic_name_no_slash k i : no_char slash (topic_name k i) = true.
Proof.
  unfold topic_name, no_char. rewrite all_chars_app.
  rewrite (nf_slash _ (msg_name_facts k) : all_chars _ _ = true). simpl.
  destruct (subnetted k); [|done]. cbn.
  apply (digits_no_slash _ (pretty_N_digits i)).
Qed.

Lemma Split_build digest k i :
  Split slash (build_topic digest k i) =
    [""; "eth2"; EncodeToString digest; topic_name k i; ProtocolSuffixSSZSnappy].
Proof.
  rewrite build_topic_eq. rewrite Split_cons by done. rewrite Split_cons by done.
  rewrite Split_cons by apply hex_no_slash, EncodeToString_hex.
  rewrite Split_cons by apply topic_name_no_slash.
  by rewrite Split_no_char by apply suffix_no_slash.
Qed.

(** Splitting a built topic gives back its digest and name. *)
Lemma parse_build digest k i :
  parseEth2Topic (build_topic digest k i) = Ret (EncodeToString digest, topic_name k i).
Proof. unfold parseEth2Topic. by rewrite Split_build. Qed.

(** Two topics are equal only for the same digest, kind and subnet. *)
Lemma build_topic_inj d d' k k' i i' :
  build_topic d k i = build_topic d' k' i' →
  d = d' ∧ k = k' ∧ (subnetted k = true → i = i').
Proof.
  intros Heq. pose proof (parse_build d k i) as Hp. rewrite Heq, parse_build in Hp.
  pose proof (switch_kind_build d k i) as Hs. rewrite Heq, switch_kind_build in Hs.
  simplify_eq. split; [by apply (inj EncodeToString)|]. split; [done|].
  unfold topic_name in *. intros Hk. rewrite Hk in *.
  match goal with H : msg_name k +:+ _ = _ |- _ =>
    apply (inj (String.append (msg_name k))) in H; by simplify_eq end.
Qed.
End Laws.
End Names.

#[export] Hint Rewrite @switch_kind_build @TopicToTopicGroup_build @parse_build
  using assumption : peekd.
