(* ===== verification/PeerScore.v ===== *)
(** * gossip/peer_score.go: the peer score parameters

    Arithmetic is on float64 and on wrapping integers, with the divisions and
    panics where the code has them. [math.Pow] is a parameter: its documentation
    fixes x**y and the special cases, not the rounding of the last bit.
    [defaultSyncSubnetTopicParams] changes the peerScore it is called on, so the
    topic loop threads it. *)

From S2P Require Import Prelude GoStrings GoTime GoFloat Externals Eth.
Local Open Scope Z_scope.

(** ** math.Pow *)

Class Math := { Pow : float64 → float64 → float64 }.

Definition fone : float64 := float_of_Z 1.
Definition decayToZero : float64 := flit 1 100.

(** What the code relies on: 0.01 raised to 1/n, for n between 1 and 2^31, is a
    number strictly between 0 and 1 (1 - 2^-28 at the upper end). *)
Definition in_unit (x : float64) : bool := flt fzero x && flt x fone.
Class MathLaws `{Math} := {
  Pow_decay n : 1 <= n < 2 ^ 31 →
    in_unit (Pow decayToZero (fdiv fone (float_of_Z n))) = true;
}.

(** ** Constants *)

Definition blockWeight : float64 := flit 8 10.
Definition aggregateWeight : float64 := flit 5 10.
Definition syncContributionWeight : float64 := flit 2 10.
Definition attestationTotalWeight : float64 := float_of_Z 1.
Definition syncCommitteesTotalWeight : float64 := flit 4 10.
Definition attesterSlashingWeight : float64 := flit 5 100.
Definition proposerSlashingWeight : float64 := flit 5 100.
Definition voluntaryExitWeight : float64 := flit 5 100.
Definition blsToExecutionChangeWeight : float64 := flit 5 100.
Definition maxInMeshScore : Z := 10.
Definition maxFirstDeliveryScore : Z := 40.
Definition dampeningFactor : Z := 90.
Definition gossipSubD : Z := 6.

(** An exact constant expression, in hundredths: the summands are the weights of
    blocks, aggregates, sync contributions, attestations, sync contributions
    again, and the four operations. *)
Definition maxScore : float64 :=
  flit ((maxInMeshScore + maxFirstDeliveryScore) *
        (80 + 50 + 20 + 100 + 20 + 5 + 5 + 5 + 5)) 100.

(** ** pubsub.TopicScoreParams, PeerScoreParams and PeerScoreThresholds *)

Record TopicScoreParams := {
  TopicWeight : float64;
  TimeInMeshWeight : float64;
  TimeInMeshQuantum : Duration;
  TimeInMeshCap : float64;
  FirstMessageDeliveriesWeight : float64;
  FirstMessageDeliveriesDecay : float64;
  FirstMessageDeliveriesCap : float64;
  MeshMessageDeliveriesWeight : float64;
  MeshMessageDeliveriesDecay : float64;
  MeshMessageDeliveriesCap : float64;
  MeshMessageDeliveriesThreshold : float64;
  MeshMessageDeliveriesWindow : Duration;
  MeshMessageDeliveriesActivation : Duration;
  MeshFailurePenaltyWeight : float64;
  MeshFailurePenaltyDecay : float64;
  InvalidMessageDeliveriesWeight : float64;
  InvalidMessageDeliveriesDecay : float64;
}.

(** [&pubsub.TopicScoreParams{}] *)
Definition zero_params : TopicScoreParams := {|
  TopicWeight := fzero; TimeInMeshWeight := fzero; TimeInMeshQuantum := 0;
  TimeInMeshCap := fzero; FirstMessageDeliveriesWeight := fzero;
  FirstMessageDeliveriesDecay := fzero; FirstMessageDeliveriesCap := fzero;
  MeshMessageDeliveriesWeight := fzero; MeshMessageDeliveriesDecay := fzero;
  MeshMessageDeliveriesCap := fzero; MeshMessageDeliveriesThreshold := fzero;
  MeshMessageDeliveriesWindow := 0; MeshMessageDeliveriesActivation := 0;
  MeshFailurePenaltyWeight := fzero; MeshFailurePenaltyDecay := fzero;
  InvalidMessageDeliveriesWeight := fzero; InvalidMessageDeliveriesDecay := fzero |}.

Record PeerScoreParams := {
  score_Topics : gmap string TopicScoreParams;
  TopicScoreCap : float64;
  AppSpecificScore : string → float64;
  AppSpecificWeight : float64;
  IPColocationFactorWeight : float64;
  IPColocationFactorThreshold : Z;
  IPColocationFactorWhitelist : list string;
  BehaviourPenaltyWeight : float64;
  BehaviourPenaltyThreshold : float64;
  BehaviourPenaltyDecay : float64;
  DecayInterval : Duration;
  score_DecayToZero : float64;
  RetainScore : Duration;
}.

Record PeerScoreThresholds := {
  GossipThreshold : float64;
  PublishThreshold : float64;
  GraylistThreshold : float64;
  AcceptPXThreshold : float64;
  OpportunisticGraftThreshold : float64;
}.

(** ** The state: estimate, topics, and the last snapshots by peer id *)

Record peerScore := MkPeerScore {
  estimateActiveValidators : Z;
  ps_topics : list string;
  inspectPeriod : Duration;
  snapshots : gmap string (ptr float64);
}.

Definition newPeerScore (est : Z) (topics : list string) (period : Duration) : peerScore :=
  MkPeerScore est topics period ∅.

Definition inspect (ps : peerScore) (scores : gmap string (ptr float64)) : peerScore :=
  MkPeerScore (estimateActiveValidators ps) (ps_topics ps) (inspectPeriod ps) scores.

Definition set_estimate (ps : peerScore) (est : Z) : peerScore :=
  MkPeerScore est (ps_topics ps) (inspectPeriod ps) (snapshots ps).

Definition get (ps : peerScore) (pid : string) : outcome float64 :=
  match snapshots ps !! pid with
  | Some snapshot => deref snapshot
  | None => Ret fzero
  end.

Section PeerScore.
Context `{Params, P2P, Slots, Hexutil, Bitfield, Math}.
Context (net : string).

Definition inMeshUnitTime : outcome Duration := GetSlotDuration net.

Definition inMeshCapTime : outcome float64 :=
  unit ← inMeshUnitTime; n ← sdiv Hour unit; Ret (float_of_Z n).

Definition epochs (n : Z) : outcome Duration :=
  d ← GetEpochDuration net; Ret (dmul n d).

Definition invalidDecayPeriod : outcome Duration := epochs 50.

Definition scoreDecay (totalDecay : Duration) : outcome float64 :=
  slot ← GetSlotDuration net;
  cnt ← sdiv totalDecay slot;
  Ret (Pow decayToZero (fdiv fone (float_of_Z cnt))).

(** [ps.scoreDecay(n * eth.GetEpochDuration())] *)
Definition epochDecay (n : Z) : outcome float64 := d ← epochs n; scoreDecay d.

Definition decayLimit (decayRate rate : float64) : outcome float64 :=
  if fge decayRate fone
  then Panicked (panic_error (errors_New ("got an invalid decayLimit rate: " +:+ fmt_f decayRate)))
  else Ret (fdiv rate (fsub fone decayRate)).

Definition decayThreshold (decayRate rate : float64) : outcome float64 :=
  l ← decayLimit decayRate rate; Ret (fmul l decayRate).

Definition scoreByWeight (weight threshold : float64) : float64 :=
  fdiv maxScore (fmul (fmul weight threshold) threshold).

Definition defaultTopicParams : outcome TopicScoreParams :=
  let decayEpoch := 5 in
  twentyEpochDuration ← epochs 20;
  c ← GetBeaconChainConfig net;
  let blocksPerEpoch := u64 (SlotsPerEpoch c) in
  let meshWeight := fopp (flit 717 1000) in
  cap ← inMeshCapTime;
  quantum ← inMeshUnitTime;
  firstDecay ← scoreDecay twentyEpochDuration;
  meshDecay ← epochDecay decayEpoch;
  activation ← epochs 4;
  invalidPeriod ← invalidDecayPeriod;
  invalidDecay ← scoreDecay invalidPeriod;
  Ret {| TopicWeight := blockWeight;
         TimeInMeshWeight := fdiv (float_of_Z maxInMeshScore) cap;
         TimeInMeshQuantum := quantum;
         TimeInMeshCap := cap;
         FirstMessageDeliveriesWeight := float_of_Z 1;
         FirstMessageDeliveriesDecay := firstDecay;
         FirstMessageDeliveriesCap := float_of_Z 23;
         MeshMessageDeliveriesWeight := meshWeight;
         MeshMessageDeliveriesDecay := meshDecay;
         MeshMessageDeliveriesCap := float_of_Z (u64 (blocksPerEpoch * decayEpoch));
         MeshMessageDeliveriesThreshold :=
           fdiv (float_of_Z (u64 (blocksPerEpoch * decayEpoch))) (float_of_Z 10);
         MeshMessageDeliveriesWindow := 2 * Second;
         MeshMessageDeliveriesActivation := activation;
         MeshFailurePenaltyWeight := meshWeight;
         MeshFailurePenaltyDecay := meshDecay;
         InvalidMessageDeliveriesWeight := fopp (flit 1404475 10000);
         InvalidMessageDeliveriesDecay := invalidDecay |}.

(** The parameters of the four topics with mesh penalties. *)
Definition mesh_params (topicWeight firstMsgWeight firstMsgCap meshWeight meshCap
    meshThreshold : float64) (firstDecay meshDecay : Z) : outcome TopicScoreParams :=
  cap ← inMeshCapTime;
  quantum ← inMeshUnitTime;
  first ← epochDecay firstDecay;
  mesh ← epochDecay meshDecay;
  activation ← epochs 1;
  invalidPeriod ← invalidDecayPeriod;
  invalidDecay ← scoreDecay invalidPeriod;
  Ret {| TopicWeight := topicWeight;
         TimeInMeshWeight := fdiv (float_of_Z maxInMeshScore) cap;
         TimeInMeshQuantum := quantum;
         TimeInMeshCap := cap;
         FirstMessageDeliveriesWeight := firstMsgWeight;
         FirstMessageDeliveriesDecay := first;
         FirstMessageDeliveriesCap := firstMsgCap;
         MeshMessageDeliveriesWeight := meshWeight;
         MeshMessageDeliveriesDecay := mesh;
         MeshMessageDeliveriesCap := meshCap;
         MeshMessageDeliveriesThreshold := meshThreshold;
         MeshMessageDeliveriesWindow := 2 * Second;
         MeshMessageDeliveriesActivation := activation;
         MeshFailurePenaltyWeight := meshWeight;
         MeshFailurePenaltyDecay := mesh;
         InvalidMessageDeliveriesWeight := fdiv (fopp maxScore) topicWeight;
         InvalidMessageDeliveriesDecay := invalidDecay |}.

(** The mesh computation they share: the caps and weights from the rates of
    first deliveries and of mesh deliveries. *)
Definition mesh_topic (topicWeight firstRate meshRate : float64) (firstDecay meshDecay : Z)
    : outcome TopicScoreParams :=
  first ← epochDecay firstDecay;
  firstMsgCap ← decayLimit first firstRate;
  let firstMsgWeight := fdiv (float_of_Z maxFirstDeliveryScore) firstMsgCap in
  mesh ← epochDecay meshDecay;
  meshThreshold ← decayThreshold mesh meshRate;
  let meshWeight := fopp (scoreByWeight topicWeight meshThreshold) in
  let meshCap := fmul (float_of_Z 4) meshThreshold in
  mesh_params topicWeight firstMsgWeight firstMsgCap meshWeight meshCap meshThreshold
    firstDecay meshDecay.

(** [comms]: the estimate split over slots and committees, then the switch. *)
Definition committees (ps : peerScore) : outcome Z :=
  c ← GetBeaconChainConfig net;
  a ← udiv (estimateActiveValidators ps) (u64 (SlotsPerEpoch c));
  comms ← udiv a (TargetCommitteeSize c);
  Ret (if MaxCommitteesPerSlot c <? comms then MaxCommitteesPerSlot c else 1).

Definition defaultAggregateTopicParams (ps : peerScore) : outcome TopicScoreParams :=
  comms ← committees ps;
  c ← GetBeaconChainConfig net;
  let aggPerSlot := u64 (comms * TargetAggregatorsPerCommittee c) in
  mesh_topic aggregateWeight (float_of_Z (u64 (aggPerSlot * 2) / gossipSubD))
    (fdiv (float_of_Z aggPerSlot) (float_of_Z dampeningFactor)) 1 1.

Definition panic_new {A} (msg : string) : outcome A := Panicked (panic_error (errors_New msg)).

Definition defaultAttestationTopicParams (ps : peerScore) : outcome TopicScoreParams :=
  c ← GetBeaconChainConfig net;
  let subnetCnt := AttestationSubnetCount c in
  let topicWeight := fdiv attestationTotalWeight (float_of_Z subnetCnt) in
  subnetWeight ← udiv (estimateActiveValidators ps) subnetCnt;
  if subnetWeight =? 0 then panic_new "subnet weight cannot be 0" else
  valsPerSlot ← udiv subnetWeight (u64 (SlotsPerEpoch c));
  if valsPerSlot =? 0 then panic_new "number of validators cannot be 0" else
  comms ← committees ps;
  perSlot ← udiv (u64 (2 * subnetCnt)) (u64 (SlotsPerEpoch c));
  let '(firstDecay, meshDecay) := if perSlot <=? comms then (4, 16) else (1, 4) in
  let rate := u64 (valsPerSlot * 2) / gossipSubD in
  if rate =? 0 then panic_new "rate cannot be 0" else
  mesh_topic topicWeight (float_of_Z rate) (float_of_Z (valsPerSlot / dampeningFactor))
    firstDecay meshDecay.

Definition defaultSyncContributionTopicParams : outcome TopicScoreParams :=
  c ← GetBeaconChainConfig net;
  let aggPerSlot := u64 (SyncCommitteeSubnetCount c * TargetAggregatorsPerSyncSubcommittee c) in
  mesh_topic syncContributionWeight (float_of_Z (u64 (aggPerSlot * 2) / gossipSubD))
    (fdiv (float_of_Z aggPerSlot) (float_of_Z dampeningFactor)) 1 1.

Definition sync_subnet_params (c : BeaconChainConfig) (ps : peerScore)
    : outcome TopicScoreParams :=
  let subnetCnt := SyncCommitteeSubnetCount c in
  let topicWeight := fdiv syncCommitteesTotalWeight (float_of_Z subnetCnt) in
  subnetWeight ← udiv (estimateActiveValidators ps) subnetCnt;
  if subnetWeight =? 0 then panic_new "subnet weight cannot be 0" else
  let rate := u64 (subnetWeight * 2) / gossipSubD in
  if rate =? 0 then panic_new "rate cannot be 0" else
  mesh_topic topicWeight (float_of_Z rate) (float_of_Z (subnetWeight / dampeningFactor)) 1 4.

Definition defaultSyncSubnetTopicParams (ps : peerScore)
    : peerScore * outcome TopicScoreParams :=
  match GetBeaconChainConfig net with
  | Ret c =>
      let ps := if SyncCommitteeSize c <? estimateActiveValidators ps
                then set_estimate ps (SyncCommitteeSize c) else ps in
      (ps, sync_subnet_params c ps)
  | Fail e => (ps, Fail e)
  | Panicked v => (ps, Panicked v)
  end.

(** The four operation topics: no mesh penalties. *)
Definition operation_params (weight : float64) (firstWeight firstCap : Z)
    : outcome TopicScoreParams :=
  cap ← inMeshCapTime;
  quantum ← inMeshUnitTime;
  first ← epochDecay 100;
  invalidPeriod ← invalidDecayPeriod;
  invalidDecay ← scoreDecay invalidPeriod;
  Ret {| TopicWeight := weight;
         TimeInMeshWeight := fdiv (float_of_Z maxInMeshScore) cap;
         TimeInMeshQuantum := quantum;
         TimeInMeshCap := cap;
         FirstMessageDeliveriesWeight := float_of_Z firstWeight;
         FirstMessageDeliveriesDecay := first;
         FirstMessageDeliveriesCap := float_of_Z firstCap;
         MeshMessageDeliveriesWeight := fzero;
         MeshMessageDeliveriesDecay := fzero;
         MeshMessageDeliveriesCap := fzero;
         MeshMessageDeliveriesThreshold := fzero;
         MeshMessageDeliveriesWindow := 0;
         MeshMessageDeliveriesActivation := 0;
         MeshFailurePenaltyWeight := fzero;
         MeshFailurePenaltyDecay := fzero;
         InvalidMessageDeliveriesWeight := fopp (float_of_Z 2000);
         InvalidMessageDeliveriesDecay := invalidDecay |}.

Definition defaultProposerSlashingTopicParams : outcome TopicScoreParams :=
  operation_params proposerSlashingWeight 36 1.
Definition defaultAttesterSlashingTopicParams : outcome TopicScoreParams :=
  operation_params attesterSlashingWeight 36 1.
Definition defaultBlsToExecutionChangeTopicParams : outcome TopicScoreParams :=
  operation_params blsToExecutionChangeWeight 2 5.
Definition defaultVoluntaryExitTopicParams : outcome TopicScoreParams :=
  operation_params voluntaryExitWeight 2 5.

(** The switch over the topic's name. *)
Definition topic_params (ps : peerScore) (topic : string) : peerScore * outcome TopicScoreParams :=
  if Contains topic GossipBlockMessage then (ps, defaultTopicParams)
  else if Contains topic GossipBlobSidecarMessage then (ps, defaultTopicParams)
  else if Contains topic GossipAggregateAndProofMessage then (ps, defaultAggregateTopicParams ps)
  else if Contains topic GossipAttestationMessage then (ps, defaultAttestationTopicParams ps)
  else if Contains topic GossipContributionAndProofMessage
    then (ps, defaultSyncContributionTopicParams)
  else if Contains topic GossipSyncCommitteeMessage then defaultSyncSubnetTopicParams ps
  else if Contains topic GossipProposerSlashingMessage
    then (ps, defaultProposerSlashingTopicParams)
  else if Contains topic GossipAttesterSlashingMessage
    then (ps, defaultAttesterSlashingTopicParams)
  else if Contains topic GossipBlsToExecutionChangeMessage
    then (ps, defaultBlsToExecutionChangeTopicParams)
  else if Contains topic GossipExitMessage then (ps, defaultVoluntaryExitTopicParams)
  else (ps, Ret zero_params).

(** [for _, topic := range ps.topics] *)
Fixpoint topics_params (ps : peerScore) (topics : list string)
    (acc : gmap string TopicScoreParams) : peerScore * outcome (gmap string TopicScoreParams) :=
  match topics with
  | [] => (ps, Ret acc)
  | topic :: topics =>
      match topic_params ps topic with
      | (ps, Ret tp) => topics_params ps topics (<[topic := tp]> acc)
      | (ps, Fail e) => (ps, Fail e)
      | (ps, Panicked v) => (ps, Panicked v)
      end
  end.

Definition score_params (topicParams : gmap string TopicScoreParams) : outcome PeerScoreParams :=
  behaviourDecay ← epochDecay 10;
  interval ← GetEpochDuration net;
  retain ← epochs 100;
  Ret {| score_Topics := topicParams;
         TopicScoreCap := flit 3272 100;
         AppSpecificScore := λ _, fzero;
         AppSpecificWeight := float_of_Z 1;
         IPColocationFactorWeight := fopp (flit 3511 100);
         IPColocationFactorThreshold := 10;
         IPColocationFactorWhitelist := [];
         BehaviourPenaltyWeight := fopp (flit 1592 100);
         BehaviourPenaltyThreshold := float_of_Z 6;
         BehaviourPenaltyDecay := behaviourDecay;
         DecayInterval := interval;
         score_DecayToZero := decayToZero;
         RetainScore := retain |}.

Definition score_thresholds : PeerScoreThresholds := {|
  GossipThreshold := fopp (float_of_Z 4000);
  PublishThreshold := fopp (float_of_Z 8000);
  GraylistThreshold := fopp (float_of_Z 16000);
  AcceptPXThreshold := float_of_Z 100;
  OpportunisticGraftThreshold := float_of_Z 5 |}.

Definition params (ps : peerScore)
    : peerScore * outcome (PeerScoreParams * PeerScoreThresholds) :=
  let '(ps, r) := topics_params ps (ps_topics ps) ∅ in
  (ps, topicParams ← r; sp ← score_params topicParams; Ret (sp, score_thresholds)).
End PeerScore.
