(* ===== verification/PeerScoreClaims.v ===== *)
(** * Properties of the peer score parameters *)

From S2P Require Import Prelude GoStrings GoTime GoFloat Externals Eth Processor Topics PeerScore.
Local Open Scope Z_scope.
#[local] Arguments Z.mul : simpl never.
#[local] Arguments Z.eqb : simpl never.
#[local] Arguments Z.leb : simpl never.

(** ** When the parameters are defined *)

(** Validators of one attestation subnet in one slot. *)
Definition vals_per_slot (c : BeaconChainConfig) (est : Z) : Z :=
  est / AttestationSubnetCount c / SlotsPerEpoch c.

(** The counts the divisions need. *)
Definition score_config_ok (c : BeaconChainConfig) : bool :=
  (0 <? AttestationSubnetCount c) && (0 <? SyncCommitteeSubnetCount c) &&
  (0 <? TargetCommitteeSize c).

(** Three validators per subnet and slot make a rate that is not 0. *)
Definition att_ok (c : BeaconChainConfig) (est : Z) : bool := 3 <=? vals_per_slot c est.
Definition sync_ok (c : BeaconChainConfig) (est : Z) : bool :=
  3 <=? Z.min est (SyncCommitteeSize c) / SyncCommitteeSubnetCount c.

(** The estimate left behind by a sync committee topic. *)
Definition capped (c : BeaconChainConfig) (ps : peerScore) : peerScore :=
  if SyncCommitteeSize c <? estimateActiveValidators ps
  then set_estimate ps (SyncCommitteeSize c) else ps.

Lemma div_le_self a b : 0 <= a → 0 < b → 0 <= a / b <= a.
Proof. intros. split; [apply Z.div_pos; lia|]. apply Z.div_le_upper_bound; nia. Qed.

Section Lemmas.
Context `{Params, P2P, Slots, Hexutil, Bitfield, MathLaws}.
Context (net : string) (Hs : supported net = true).
Abbreviation c := (chain_config net).
Context (Hc : config_ok c = true) (Hcs : score_config_ok c = true).

Lemma config_bounds :
  0 < SecondsPerSlot c < 2 ^ 16 ∧ 0 < SlotsPerEpoch c < 2 ^ 10 ∧
  0 < AttestationSubnetCount c < 2 ^ 16 ∧ 0 < SyncCommitteeSubnetCount c < 2 ^ 16 ∧
  0 < TargetCommitteeSize c.
Proof.
  unfold config_ok in Hc. unfold score_config_ok in Hcs.
  rewrite !andb_true_iff, ?Z.ltb_lt, ?Z.leb_le in Hc, Hcs. lia.
Qed.

Lemma slot_duration : GetSlotDuration net = Ret (SecondsPerSlot c * Second).
Proof. apply GetSlotDuration_supported; [done|]. pose proof config_bounds; lia. Qed.

Lemma epochs_exact n :
  0 <= n <= 100 → epochs net n = Ret (n * (SecondsPerSlot c * SlotsPerEpoch c * Second)).
Proof.
  intros Hn. pose proof config_bounds as (Hsps & Hspe & _). unfold epochs.
  rewrite GetEpochDuration_supported by (done || lia). simpl. f_equal. unfold dmul, Second.
  apply i64_small. unfold is_i64.
  assert (0 <= SecondsPerSlot c * SlotsPerEpoch c <= 67108864) as Hp by nia. nia.
Qed.

(** The decay over a whole number of epochs. *)
Definition decay (n : Z) : float64 :=
  Pow decayToZero (fdiv fone (float_of_Z (n * SlotsPerEpoch c))).

Lemma epochDecay_exact n : 0 <= n <= 100 → epochDecay net n = Ret (decay n).
Proof.
  intros Hn. pose proof config_bounds as (Hsps & Hspe & _). unfold epochDecay, scoreDecay.
  rewrite epochs_exact by done. simpl. rewrite slot_duration. simpl.
  rewrite sdiv_Ret by (unfold Second; lia). simpl. unfold decay. do 4 f_equal.
  replace (n * (SecondsPerSlot c * SlotsPerEpoch c * Second))
    with (n * SlotsPerEpoch c * (SecondsPerSlot c * Second)) by lia.
  rewrite Z.quot_mul by (unfold Second; lia). apply i64_small. unfold is_i64. nia.
Qed.

Lemma decay_unit n : 1 <= n <= 100 → in_unit (decay n) = true.
Proof. intros Hn. pose proof config_bounds. apply Pow_decay. nia. Qed.

Lemma decayLimit_Ret n r :
  1 <= n <= 100 → decayLimit (decay n) r = Ret (fdiv r (fsub fone (decay n))).
Proof.
  intros Hn. pose proof (decay_unit n Hn) as Hu. unfold in_unit in Hu.
  apply andb_prop in Hu as [_ Hu]. unfold decayLimit. by rewrite flt_not_fge.
Qed.

Lemma inMeshCapTime_Ret : ∃ x, inMeshCapTime net = Ret x.
Proof.
  pose proof config_bounds as (Hsps & _). unfold inMeshCapTime, inMeshUnitTime.
  rewrite slot_duration. simpl. rewrite sdiv_Ret by (unfold Second; lia). simpl. eauto.
Qed.

Lemma invalidDecay_Ret :
  ∃ d, invalidDecayPeriod net = Ret d ∧ ∃ x, scoreDecay net d = Ret x.
Proof.
  pose proof (epochDecay_exact 50) as Hd. unfold epochDecay in Hd. unfold invalidDecayPeriod.
  rewrite epochs_exact in Hd |- * by lia. eexists. split; [done|]. simpl in Hd. eauto with lia.
Qed.

(** Evaluate the parts of a parameter block that depend on the network alone. *)
Ltac block_parts :=
  let cap := fresh "cap" in let Hcap := fresh in
  let d := fresh "d" in let Hd := fresh in let x := fresh "x" in let Hx := fresh in
  destruct inMeshCapTime_Ret as [cap Hcap];
  destruct invalidDecay_Ret as (d & Hd & x & Hx);
  rewrite Hcap; simpl; unfold inMeshUnitTime; rewrite slot_duration; simpl;
  rewrite ?epochDecay_exact by lia; simpl; rewrite ?epochDecay_exact by lia; simpl;
  rewrite ?epochs_exact by lia; simpl; rewrite Hd; simpl; rewrite Hx; simpl.

Lemma mesh_topic_Ret w r1 r2 fd md :
  1 <= fd <= 100 → 1 <= md <= 100 →
  ∃ tp, mesh_topic net w r1 r2 fd md = Ret tp ∧
    TopicWeight tp = w ∧
    MeshMessageDeliveriesThreshold tp = fmul (fdiv r2 (fsub fone (decay md))) (decay md) ∧
    MeshMessageDeliveriesWeight tp =
      fopp (scoreByWeight w (MeshMessageDeliveriesThreshold tp)).
Proof.
  intros Hf Hm. unfold mesh_topic, decayThreshold.
  rewrite epochDecay_exact by lia. simpl. rewrite decayLimit_Ret by done. simpl.
  rewrite epochDecay_exact by lia. simpl. rewrite decayLimit_Ret by done. simpl.
  unfold mesh_params. block_parts. eauto 10.
Qed.

Lemma defaultTopicParams_Ret : ∃ tp, defaultTopicParams net = Ret tp.
Proof.
  pose proof (epochDecay_exact 20) as Hd. unfold epochDecay in Hd.
  unfold defaultTopicParams. rewrite (epochs_exact 20) in Hd |- * by lia. simpl in *.
  rewrite GetBeaconChainConfig_supported by done. simpl.
  destruct inMeshCapTime_Ret as [cap Hcap]. destruct invalidDecay_Ret as (d & Hi & x & Hx).
  rewrite Hcap. simpl. unfold inMeshUnitTime. rewrite slot_duration. simpl.
  rewrite Hd by lia. simpl. rewrite epochDecay_exact by lia. simpl.
  rewrite epochs_exact by lia. simpl. rewrite Hi. simpl. rewrite Hx. simpl. eauto.
Qed.

Lemma operation_params_Ret w a b : ∃ tp, operation_params net w a b = Ret tp.
Proof. unfold operation_params. block_parts. eauto. Qed.

Lemma committees_Ret ps :
  ∃ n, committees net ps = Ret n ∧ (n = 1 ∨ n = MaxCommitteesPerSlot c).
Proof.
  pose proof config_bounds as (_ & Hspe & _ & _ & Htc). unfold committees.
  rewrite GetBeaconChainConfig_supported by done. simpl.
  rewrite (u64_small (SlotsPerEpoch c)) by (unfold is_u64; lia).
  rewrite !udiv_Ret by lia. simpl. rewrite !udiv_Ret by lia. simpl.
  eexists. split; [done|]. case_match; auto.
Qed.

Lemma aggregate_Ret ps : ∃ tp, defaultAggregateTopicParams net ps = Ret tp.
Proof.
  unfold defaultAggregateTopicParams. destruct (committees_Ret ps) as (n & Hn & _). rewrite Hn.
  simpl. rewrite GetBeaconChainConfig_supported by done. simpl.
  edestruct mesh_topic_Ret as (tp & Htp & _); [..|eauto]; lia.
Qed.

Lemma contribution_Ret : ∃ tp, defaultSyncContributionTopicParams net = Ret tp.
Proof.
  unfold defaultSyncContributionTopicParams.
  rewrite GetBeaconChainConfig_supported by done. simpl.
  edestruct mesh_topic_Ret as (tp & Htp & _); [..|eauto]; lia.
Qed.

(** The attestation parameters, given a rate that is not 0. *)
Lemma attestation_Ret ps :
  0 <= estimateActiveValidators ps < 2 ^ 63 → att_ok c (estimateActiveValidators ps) = true →
  ∃ md tp, 1 <= md <= 100 ∧ defaultAttestationTopicParams net ps = Ret tp ∧
    MeshMessageDeliveriesThreshold tp = fmul (fdiv (float_of_Z
      (vals_per_slot c (estimateActiveValidators ps) / dampeningFactor))
      (fsub fone (decay md))) (decay md) ∧
    MeshMessageDeliveriesWeight tp =
      fopp (scoreByWeight (TopicWeight tp) (MeshMessageDeliveriesThreshold tp)).
Proof.
  set (est := estimateActiveValidators ps). intros Hest Hatt.
  pose proof config_bounds as (_ & Hspe & Hcnt & _). unfold att_ok, vals_per_slot in Hatt.
  apply Z.leb_le in Hatt. fold est in Hatt.
  assert (est / AttestationSubnetCount c <> 0) as Hsub.
  { intros Hz. rewrite Hz, Z.div_0_l in Hatt; lia. }
  assert (est / AttestationSubnetCount c / SlotsPerEpoch c <= est) as Hle.
  { destruct (div_le_self est (AttestationSubnetCount c)); [lia..|].
    destruct (div_le_self (est / AttestationSubnetCount c) (SlotsPerEpoch c)); lia. }
  unfold defaultAttestationTopicParams. fold est.
  rewrite GetBeaconChainConfig_supported by done. simpl.
  rewrite (u64_small (SlotsPerEpoch c)) by (unfold is_u64; lia).
  rewrite (udiv_Ret (u64 _)) by lia. simpl.
  rewrite (udiv_Ret est) by lia. simpl. rewrite (proj2 (Z.eqb_neq _ 0)) by done.
  rewrite udiv_Ret by lia. simpl. rewrite (proj2 (Z.eqb_neq _ 0)) by lia.
  destruct (committees_Ret ps) as (n & Hn & _). rewrite Hn. simpl.
  set (vals := est / AttestationSubnetCount c / SlotsPerEpoch c) in *.
  set (mp := if u64 (2 * AttestationSubnetCount c) / SlotsPerEpoch c <=? n
             then (4, 16) else (1, 4)).
  assert (∃ fd md, mp = (fd, md) ∧ 1 <= fd <= 100 ∧ 1 <= md <= 100)
    as (fd & md & -> & Hfd & Hmd).
  { unfold mp. case_match; do 2 eexists; (split; [done|]); lia. }
  rewrite (proj2 (Z.eqb_neq _ 0)).
  2: { rewrite u64_small by (unfold is_u64; lia). unfold gossipSubD.
       assert (1 <= vals * 2 / 6) by (apply Z.div_le_lower_bound; lia). lia. }
  match goal with |- context [mesh_topic net ?w ?r1 ?r2 fd md] =>
    destruct (mesh_topic_Ret w r1 r2 fd md Hfd Hmd) as (tp & Htp & Hw & Hth & Hmw) end.
  exists md, tp. rewrite Htp, Hmw, Hw, Hth. done.
Qed.

Lemma capped_estimate ps :
  estimateActiveValidators (capped c ps) =
    Z.min (estimateActiveValidators ps) (SyncCommitteeSize c).
Proof. unfold capped. destruct (Z.ltb_spec (SyncCommitteeSize c) (estimateActiveValidators ps)); simpl; lia. Qed.

Lemma capped_capped ps : capped c (capped c ps) = capped c ps.
Proof.
  unfold capped at 1. rewrite capped_estimate. by rewrite (proj2 (Z.ltb_ge _ _)) by lia.
Qed.

Lemma sync_Ret ps :
  0 <= estimateActiveValidators ps < 2 ^ 63 → sync_ok c (estimateActiveValidators ps) = true →
  ∃ tp, defaultSyncSubnetTopicParams net ps = (capped c ps, Ret tp).
Proof.
  intros Hest Hsy. pose proof config_bounds as (_ & _ & _ & Hcnt & _).
  unfold sync_ok in Hsy. apply Z.leb_le in Hsy.
  unfold defaultSyncSubnetTopicParams. rewrite GetBeaconChainConfig_supported by done.
  fold (capped c ps). unfold sync_subnet_params. rewrite capped_estimate.
  set (m := Z.min _ _) in *. rewrite udiv_Ret by lia. simpl.
  rewrite (proj2 (Z.eqb_neq _ 0)) by lia.
  assert (m / SyncCommitteeSubnetCount c <= Z.max m 0).
  { apply Z.div_le_upper_bound; nia. }
  rewrite (proj2 (Z.eqb_neq _ 0)).
  2: { rewrite u64_small by (unfold is_u64; lia). unfold gossipSubD.
       assert (1 <= m / SyncCommitteeSubnetCount c * 2 / 6)
         by (apply Z.div_le_lower_bound; lia). lia. }
  edestruct mesh_topic_Ret as (tp & Htp & _); [| |rewrite Htp; eauto]; lia.
Qed.

(** ** The loop over the topics *)

(** The parameters of a kind of topic. *)
Definition score_of (ps : peerScore) (k : kind) : peerScore * outcome TopicScoreParams :=
  match k with
  | KBlock | KBlob => (ps, defaultTopicParams net)
  | KAggregate => (ps, defaultAggregateTopicParams net ps)
  | KAttestation => (ps, defaultAttestationTopicParams net ps)
  | KContribution => (ps, defaultSyncContributionTopicParams net)
  | KSync => defaultSyncSubnetTopicParams net ps
  | KProposerSlashing => (ps, defaultProposerSlashingTopicParams net)
  | KAttesterSlashing => (ps, defaultAttesterSlashingTopicParams net)
  | KBls => (ps, defaultBlsToExecutionChangeTopicParams net)
  | KExit => (ps, defaultVoluntaryExitTopicParams net)
  end.

Lemma topic_params_switch ps topic :
  topic_params net ps topic =
    from_option (score_of ps) (ps, Ret zero_params) (switch_kind topic).
Proof. unfold topic_params, switch_kind. by repeat case_match. Qed.

(** The state after a topic. *)
Definition after (ps : peerScore) (topic : string) : peerScore :=
  if bool_decide (switch_kind topic = Some KSync) then capped c ps else ps.

Lemma topic_params_Ret ps topic :
  0 <= estimateActiveValidators ps < 2 ^ 63 → sync_ok c (estimateActiveValidators ps) = true →
  (switch_kind topic = Some KAttestation → att_ok c (estimateActiveValidators ps) = true) →
  ∃ tp, topic_params net ps topic = (after ps topic, Ret tp).
Proof.
  intros Hest Hsy Hatt. rewrite topic_params_switch. unfold after.
  destruct (switch_kind topic) as [[]|]; simpl.
  - destruct defaultTopicParams_Ret as [tp ->]. eauto.
  - destruct defaultTopicParams_Ret as [tp ->]. eauto.
  - destruct (aggregate_Ret ps) as [tp ->]. eauto.
  - destruct (attestation_Ret ps Hest) as (md & tp & _ & -> & _); eauto.
  - destruct contribution_Ret as [tp ->]. eauto.
  - destruct (sync_Ret ps Hest Hsy) as [tp ->]. eauto.
  - destruct (operation_params_Ret proposerSlashingWeight 36 1) as [tp Htp]. exists tp. by rewrite <-Htp.
  - destruct (operation_params_Ret attesterSlashingWeight 36 1) as [tp Htp]. exists tp. by rewrite <-Htp.
  - destruct (operation_params_Ret blsToExecutionChangeWeight 2 5) as [tp Htp]. exists tp. by rewrite <-Htp.
  - destruct (operation_params_Ret voluntaryExitWeight 2 5) as [tp Htp]. exists tp. by rewrite <-Htp.
  - eauto.
Qed.

(** The state after a list of topics, and that it is the capped one as soon as
    one of them is a sync committee topic. *)
Definition after_all (ps : peerScore) (topics : list string) : peerScore := foldl after ps topics.

Lemma after_all_capped ps topics :
  after_all ps topics =
    if bool_decide (Exists (λ t, switch_kind t = Some KSync) topics) then capped c ps else ps.
Proof.
  revert ps. induction topics as [|t topics IH]; intros ps; [done|].
  unfold after_all. cbn [foldl]. fold (after_all (after ps t) topics). rewrite IH. unfold after.
  rewrite (bool_decide_ext _ _ (Exists_cons _ t topics)).
  destruct (decide (switch_kind t = Some KSync)) as [Ht|Ht].
  - rewrite (bool_decide_true (_ = _)), (bool_decide_true (_ ∨ _)) by auto.
    rewrite capped_capped. by case_bool_decide.
  - rewrite (bool_decide_false (_ = _)) by done. apply bool_decide_ext_if. tauto.
Qed.

(** No attestation topic comes after a sync committee topic. *)
Fixpoint sync_last (topics : list string) : bool :=
  match topics with
  | [] => true
  | t :: topics =>
      (if bool_decide (switch_kind t = Some KSync)
       then forallb (λ t', bool_decide (switch_kind t' ≠ Some KAttestation)) topics else true) &&
      sync_last topics
  end.

Lemma sync_last_app l1 l2 :
  Forall (λ t, switch_kind t ≠ Some KSync) l1 →
  Forall (λ t, switch_kind t ≠ Some KAttestation) l2 → sync_last (l1 ++ l2) = true.
Proof.
  intros H1' H2'. induction H1' as [|t l1 Ht _ IH]; simpl.
  - induction H2' as [|t l2 _ Hall IH]; [done|]. simpl. rewrite IH, andb_true_r.
    case_bool_decide; [|done]. apply forallb_forall. intros x Hx%list_elem_of_In.
    rewrite Forall_forall in Hall. by apply bool_decide_eq_true, Hall.
  - by rewrite bool_decide_false.
Qed.

Lemma sync_ok_capped ps :
  sync_ok c (estimateActiveValidators (capped c ps)) =
  sync_ok c (estimateActiveValidators ps).
Proof. unfold sync_ok. rewrite capped_estimate. by rewrite <-Z.min_assoc, Z.min_id. Qed.

Lemma topics_params_Ret topics ps acc :
  0 <= SyncCommitteeSize c →
  0 <= estimateActiveValidators ps < 2 ^ 63 → sync_ok c (estimateActiveValidators ps) = true →
  (Exists (λ t, switch_kind t = Some KAttestation) topics →
    att_ok c (estimateActiveValidators ps) = true) →
  sync_last topics = true →
  ∃ m, topics_params net ps topics acc = (after_all ps topics, Ret m) ∧
    dom m = list_to_set topics ∪ dom acc.
Proof.
  intros Hsize. revert ps acc. induction topics as [|t topics IH]; intros ps acc Hest Hsy Hatt Hlast.
  { exists acc. split; [done|]. set_solver. }
  simpl in Hlast. apply andb_prop in Hlast as [Ht Hlast].
  destruct (topic_params_Ret ps t Hest Hsy) as [tp Htp].
  { intros Hk. apply Hatt. by left. }
  cbn [topics_params]. rewrite Htp.
  destruct (IH (after ps t) (<[t := tp]> acc)) as (m & Hm & Hdom).
  - unfold after. case_bool_decide; [|done]. rewrite capped_estimate. lia.
  - unfold after. case_bool_decide; [|done]. by rewrite sync_ok_capped.
  - intros Hex. unfold after. case_bool_decide as Hk; [|apply Hatt; by right].
    exfalso. apply Exists_exists in Hex as (t' & Hin & Ht').
    rewrite forallb_forall in Ht. specialize (Ht t').
    rewrite bool_decide_eq_true in Ht. apply Ht; [by apply list_elem_of_In|done].
  - done.
  - exists m. split; [done|]. rewrite Hdom, dom_insert_L. set_solver.
Qed.

Lemma topics_params_app l1 l2 ps acc ps' m :
  topics_params net ps l1 acc = (ps', Ret m) →
  topics_params net ps (l1 ++ l2) acc = topics_params net ps' l2 m.
Proof.
  revert ps acc. induction l1 as [|t l1 IH]; intros ps acc; cbn [topics_params app].
  { by intros [= -> ->]. }
  destruct (topic_params net ps t) as [ps1 [tp|e|v]]; [|done..]. apply IH.
Qed.

Lemma score_params_Ret m : ∃ sp, score_params net m = Ret sp ∧ score_Topics sp = m.
Proof.
  pose proof config_bounds as (Hsps & Hspe & _). unfold score_params.
  rewrite epochDecay_exact by lia. simpl. rewrite GetEpochDuration_supported by (done || lia).
  simpl. rewrite epochs_exact by lia. simpl. eauto.
Qed.

(** An estimate too small for one validator per subnet and slot. *)
Lemma attestation_no_validators ps :
  estimateActiveValidators ps / AttestationSubnetCount c ≠ 0 →
  vals_per_slot c (estimateActiveValidators ps) = 0 →
  defaultAttestationTopicParams net ps = panic_new "number of validators cannot be 0".
Proof.
  intros Hsub Hv. pose proof config_bounds as (_ & Hspe & Hcnt & _).
  unfold defaultAttestationTopicParams, vals_per_slot in *.
  rewrite GetBeaconChainConfig_supported by done. simpl.
  rewrite (u64_small (SlotsPerEpoch c)) by (unfold is_u64; lia).
  rewrite (udiv_Ret (estimateActiveValidators ps)) by lia. simpl.
  rewrite (proj2 (Z.eqb_neq _ 0)) by done.
  rewrite (udiv_Ret (_ / _)) by lia. simpl. by rewrite Hv.
Qed.

Lemma first_attestation topics :
  Exists (λ t, switch_kind t = Some KAttestation) topics →
  ∃ l1 t l2, topics = l1 ++ t :: l2 ∧ switch_kind t = Some KAttestation ∧
    ¬ Exists (λ t, switch_kind t = Some KAttestation) l1 ∧ sync_last l1 = true.
Proof.
  induction topics as [|t topics IH]; intros Hex; [by inversion Hex|].
  destruct (decide (switch_kind t = Some KAttestation)) as [Ht|Ht].
  { exists [], t, topics. split_and!; [done|done| |done]. by inversion 1. }
  apply Exists_cons in Hex as [?|Hex]; [done|].
  destruct (IH Hex) as (l1 & t' & l2 & -> & Ht' & Hno & Hsl).
  exists (t :: l1), t', l2. split_and!; [done|done| |].
  - rewrite Exists_cons. tauto.
  - simpl. rewrite Hsl, andb_true_r. case_bool_decide; [|done].
    apply forallb_forall. intros x Hx%list_elem_of_In. apply bool_decide_eq_true.
    intros Hk. apply Hno, Exists_exists. eauto.
Qed.
End Lemmas.

(** ** Properties *)

Section Claims.
Context `{Params, P2P, Slots, Hexutil, Bitfield, MathLaws}.
Context (net : string).
Abbreviation c := (chain_config net).

(** On a usable configuration, with at least three validators per
    attestation subnet and slot and per sync committee subnet and no
    attestation topic after a sync committee topic, computing the score
    parameters never panics and gives an entry for each topic and no other.
    The call leaves the estimate capped by the sync committee size if a sync
    committee topic is among them. *)
Lemma params_complete (ps : peerScore)
  (Hs : supported net = true) (Hc : config_ok c = true) (Hcs : score_config_ok c = true)
  (Hsize : 0 <= SyncCommitteeSize c)
  (Hest : 0 <= estimateActiveValidators ps < 2 ^ 63)
  (Hatt : att_ok c (estimateActiveValidators ps) = true)
  (Hsync : sync_ok c (estimateActiveValidators ps) = true)
  (Hlast : sync_last (ps_topics ps) = true) :
  ∃ ps' sp, PeerScore.params net ps = (ps', Ret (sp, score_thresholds)) ∧
    dom (score_Topics sp) = list_to_set (ps_topics ps) ∧
    ps' = if bool_decide (Exists (λ t, switch_kind t = Some KSync) (ps_topics ps))
          then capped c ps else ps.
Proof.
  destruct (topics_params_Ret net Hs Hc Hcs (ps_topics ps) ps ∅) as (m & Hm & Hdom); [done..|].
  destruct (score_params_Ret net Hs Hc Hcs m) as (sp & Hsp & Htop).
  unfold PeerScore.params. rewrite Hm. simpl. rewrite Hsp. simpl.
  do 2 eexists. split; [done|]. rewrite Htop, Hdom. split; [set_solver|].
  by apply after_all_capped.
Qed.

(** C33. Computing the parameters a second time on the same state, as a restarted
    service does, panics once the sync committee has fewer members than
    attestation subnets times slots per epoch (512 against 2048 on mainnet):
    the first call replaced the estimate by the sync committee size, and the
    attestation topics then find no validator. *)
Theorem score_params_second_call (ps : peerScore)
  (Hs : supported net = true) (Hc : config_ok c = true) (Hcs : score_config_ok c = true)
  (Hest : SyncCommitteeSize c <= estimateActiveValidators ps < 2 ^ 63)
  (Hatt : att_ok c (estimateActiveValidators ps) = true)
  (Hsync : sync_ok c (SyncCommitteeSize c) = true)
  (Hsub : 0 < SyncCommitteeSize c / AttestationSubnetCount c)
  (Hsmall : vals_per_slot c (SyncCommitteeSize c) = 0)
  (Hlast : sync_last (ps_topics ps) = true)
  (Hsy : Exists (λ t, switch_kind t = Some KSync) (ps_topics ps))
  (Hat : Exists (λ t, switch_kind t = Some KAttestation) (ps_topics ps)) :
  is_ret (PeerScore.params net ps).2 = true ∧
  (PeerScore.params net (PeerScore.params net ps).1).2 =
    panic_new "number of validators cannot be 0".
Proof.
  assert (0 <= SyncCommitteeSize c) as Hsize.
  { destruct (Z.le_gt_cases 0 (SyncCommitteeSize c)); [done|exfalso].
    pose proof (config_bounds net Hc Hcs) as (_ & _ & Hcnt & _).
    assert (SyncCommitteeSize c / AttestationSubnetCount c < 0)
      by (apply Z.div_lt_upper_bound; lia). lia. }
  assert (sync_ok c (estimateActiveValidators ps) = true) as Hsync'.
  { unfold sync_ok in *. rewrite Z.min_id in Hsync. by rewrite Z.min_r by lia. }
  destruct (topics_params_Ret net Hs Hc Hcs (ps_topics ps) ps ∅) as (m & Hm & _);
    [done|lia|done..|].
  destruct (score_params_Ret net Hs Hc Hcs m) as (sp & Hsp & _).
  unfold PeerScore.params. rewrite Hm. simpl. rewrite Hsp. split; [done|].
  rewrite after_all_capped by done. rewrite bool_decide_true by done.
  set (ps1 := capped c ps).
  assert (ps_topics ps1 = ps_topics ps) as Htop by (unfold ps1, capped; by case_match).
  assert (estimateActiveValidators ps1 = SyncCommitteeSize c) as He
    by (unfold ps1; rewrite capped_estimate; lia).
  rewrite Htop. destruct (first_attestation _ Hat) as (l1 & t & l2 & Heq & Ht & Hno & Hsl).
  rewrite Heq.
  destruct (topics_params_Ret net Hs Hc Hcs l1 ps1 ∅) as (m1 & Hm1 & _);
    [done|lia|by rewrite He|done|done|].
  rewrite (topics_params_app net _ _ _ _ _ _ Hm1). cbn [topics_params].
  rewrite topic_params_switch, Ht. cbn [from_option score_of].
  rewrite after_all_capped by done.
  assert (capped c ps1 = ps1) as Hcc by apply capped_capped. rewrite Hcc.
  replace (if bool_decide _ then ps1 else ps1) with ps1 by (by case_match).
  rewrite attestation_no_validators; rewrite ?He; done || lia.
Qed.

(** The estimate has no effect on the aggregate topic: any two estimates of
    at most the maximal number of committees per slot give the same
    parameters, those of a single committee. *)
Theorem aggregate_ignores_estimate (ps : peerScore) (n : Z)
  (Hs : supported net = true) (Hc : config_ok c = true) (Hcs : score_config_ok c = true)
  (Hps : estimateActiveValidators ps / SlotsPerEpoch c / TargetCommitteeSize c
           <= MaxCommitteesPerSlot c)
  (Hn : n / SlotsPerEpoch c / TargetCommitteeSize c <= MaxCommitteesPerSlot c) :
  defaultAggregateTopicParams net ps = defaultAggregateTopicParams net (set_estimate ps n) ∧
  committees net ps = Ret 1.
Proof.
  pose proof (config_bounds net Hc Hcs) as (_ & Hspe & _ & _ & Htc).
  assert (∀ ps, estimateActiveValidators ps / SlotsPerEpoch c / TargetCommitteeSize c
    <= MaxCommitteesPerSlot c → committees net ps = Ret 1) as Hone.
  { intros ps' Hle. unfold committees. rewrite GetBeaconChainConfig_supported by done. simpl.
    rewrite (u64_small (SlotsPerEpoch c)) by (unfold is_u64; lia).
    rewrite udiv_Ret by lia. simpl. rewrite udiv_Ret by lia. simpl.
    by rewrite (proj2 (Z.ltb_ge _ _)). }
  unfold defaultAggregateTopicParams. by rewrite !Hone.
Qed.

(** With fewer than 90 validators per attestation subnet and slot the mesh
    rate, an integer quotient, is 0: the attestation topic then gets a mesh
    delivery threshold that is not positive and a mesh weight that is not a
    finite number. *)
Theorem attestation_mesh_degenerate (ps : peerScore)
  (Hs : supported net = true) (Hc : config_ok c = true) (Hcs : score_config_ok c = true)
  (Hest : 0 <= estimateActiveValidators ps < 2 ^ 63)
  (Hatt : att_ok c (estimateActiveValidators ps) = true)
  (Hfew : vals_per_slot c (estimateActiveValidators ps) < 90) :
  ∃ tp, defaultAttestationTopicParams net ps = Ret tp ∧
    flt fzero (MeshMessageDeliveriesThreshold tp) = false ∧
    is_finite (MeshMessageDeliveriesWeight tp) = false.
Proof.
  destruct (attestation_Ret net Hs Hc Hcs ps Hest Hatt) as (md & tp & _ & Htp & Hth & Hw).
  exists tp. split; [done|].
  assert (null (MeshMessageDeliveriesThreshold tp) = true) as Hnull.
  { rewrite Hth. apply null_fmul_l. unfold att_ok in Hatt. apply Z.leb_le in Hatt.
    replace (vals_per_slot c (estimateActiveValidators ps) / dampeningFactor) with 0
      by (unfold dampeningFactor; rewrite Z.div_small; lia).
    apply null_fdiv. }
  split; [by apply null_not_pos|].
  rewrite Hw, is_finite_fopp. apply fdiv_null; [|reflexivity].
  by apply null_fmul_r.
Qed.
End Claims.

(** ** Witnesses, on mainnet *)

(** A power function that is one half everywhere. *)
Definition half_math : Math := {| Pow := λ _ _, flit 1 2 |}.
Definition half_math_laws : @MathLaws half_math.
Proof. split. intros n _. vm_compute. reflexivity. Defined.

Definition mainnet_scores (est : Z) : peerScore :=
  newPeerScore est ["/eth2/6a95a1a9/beacon_block/ssz_snappy";
    "/eth2/6a95a1a9/beacon_attestation_0/ssz_snappy";
    "/eth2/6a95a1a9/sync_committee_0/ssz_snappy"] (12 * Second).

Section Witnesses.
#[local] Existing Instance prysm_params.
#[local] Existing Instance prysm_p2p.
#[local] Existing Instance clock_slots.
#[local] Existing Instance hex_hexutil.
#[local] Existing Instance set_bitfield.
#[local] Existing Instance half_math.
#[local] Existing Instance half_math_laws.

Lemma score_params_second_call_witness :
  (PeerScore.params "mainnet" (PeerScore.params "mainnet" (mainnet_scores 1000000)).1).2 =
    panic_new "number of validators cannot be 0".
Proof.
  apply (score_params_second_call "mainnet" (mainnet_scores 1000000));
    try (vm_compute; reflexivity).
  - vm_compute. split; congruence.
  - right. right. left. vm_compute. reflexivity.
  - right. left. vm_compute. reflexivity.
Defined.
End Witnesses.
