(* ===== verification/GossipHandler.v ===== *)
(** * gossip/handler.go: one handler per topic kind

    A handler picks the message type of the current fork and hands the message
    to the processor. The processor is shared by pointer: it is a field that a
    handler returns updated. *)

From S2P Require Import Prelude GoStrings GoTime Externals Eth Repository SlotExtractor.
From S2P Require Import Processor ProcessorFacts Host Topics PeerScore.
Local Open Scope Z_scope.

(** suture.Supervisor, by the name it was made with: which supervisor a service
    adds to. What is added to it is returned by the operation that adds. *)
Record Supervisor := suture_NewSimple { sup_Name : string }.

Record GossipSub `{Libp2pTypes} (R PC : Type) := MkGossipSub {
  gs_supervisor : Supervisor;
  gs_host : Host;
  gs_peerScore : peerScore;
  gs_topics : list string;
  gs_forkVersion : string;
  gs_beaconConfig : BeaconChainConfig;
  gs_messageProcessor : ptr (BeaconMessageProcessor R PC);
}.
Arguments MkGossipSub {_ R PC}.
Arguments gs_supervisor {_ R PC}.
Arguments gs_host {_ R PC}.
Arguments gs_peerScore {_ R PC}.
Arguments gs_topics {_ R PC}.
Arguments gs_forkVersion {_ R PC}.
Arguments gs_beaconConfig {_ R PC}.
Arguments gs_messageProcessor {_ R PC}.

(** ** Specification: the type each kind of topic carries at each fork *)

Inductive fork := Genesis | Altair | Bellatrix | Capella | Deneb | Electra.

#[export] Instance fork_eq_dec : EqDecision fork.
Proof. solve_decision. Defined.

Definition version_of (c : BeaconChainConfig) (f : fork) : string :=
  match f with
  | Genesis => GenesisForkVersion c
  | Altair => AltairForkVersion c
  | Bellatrix => BellatrixForkVersion c
  | Capella => CapellaForkVersion c
  | Deneb => DenebForkVersion c
  | Electra => ElectraForkVersion c
  end.

(** The type of the messages of a kind at a fork, by the consensus specification;
    [None] where the topic does not exist. *)
Definition carried_type (k : kind) (f : fork) : option MsgType :=
  match k, f with
  | KBlock, Genesis => Some T_SignedBeaconBlock
  | KBlock, Altair => Some T_SignedBeaconBlockAltair
  | KBlock, Bellatrix => Some T_SignedBeaconBlockBellatrix
  | KBlock, Capella => Some T_SignedBeaconBlockCapella
  | KBlock, Deneb => Some T_SignedBeaconBlockDeneb
  | KBlock, Electra => Some T_SignedBeaconBlockElectra
  | KBlob, (Deneb | Electra) => Some T_BlobSidecar
  | KBlob, _ => None
  | KAggregate, Electra => Some T_SignedAggregateAttestationAndProofElectra
  | KAggregate, _ => Some T_SignedAggregateAttestationAndProof
  | KAttestation, Electra => Some T_SingleAttestation
  | KAttestation, _ => Some T_Attestation
  | KContribution, _ => Some T_SignedContributionAndProof
  | KSync, _ => Some T_SyncCommitteeMessage
  | KProposerSlashing, _ => Some T_ProposerSlashing
  | KAttesterSlashing, Electra => Some T_AttesterSlashingElectra
  | KAttesterSlashing, _ => Some T_AttesterSlashing
  | KBls, _ => Some T_BLSToExecutionChange
  | KExit, _ => Some T_VoluntaryExit
  end.

(** The type the handlers decode as: for an attester slashing the type before
    Electra at every fork. *)
Definition decoded_type (k : kind) (f : fork) : option MsgType :=
  match k with
  | KAttesterSlashing => Some T_AttesterSlashing
  | _ => carried_type k f
  end.

Section Handlers.
Context `{Libp2pTypes} {R PC : Type} `{Repository R} `{PeerCounter PC} `{P2P} `{Encoder}.
Abbreviation gossip := (GossipSub R PC).
Implicit Types (gs : gossip) (now : Time) (msg : Message).

Definition TopicHandler := gossip → Time → Message → gossip * outcome unit.

Definition set_processor gs (p : BeaconMessageProcessor R PC) : gossip :=
  MkGossipSub (gs_supervisor gs) (gs_host gs) (gs_peerScore gs) (gs_topics gs)
    (gs_forkVersion gs) (gs_beaconConfig gs) (Some p).

(** [bytes.Equal(gs.forkVersion[:], gs.beaconConfig.X)] *)
Definition at_fork gs (version : BeaconChainConfig → string) : bool :=
  bool_decide (gs_forkVersion gs = version (gs_beaconConfig gs)).

(** [gs.messageProcessor.Process(ctx, msg, dst)], its error wrapped. *)
Definition process_as gs now msg (dst : MsgType) (failure : string) : gossip * outcome unit :=
  match gs_messageProcessor gs with
  | None => (gs, Panicked panic_nil)
  | Some p =>
      let '(p, r) := Process p now msg dst in (set_processor gs p, wrap failure r)
  end.

Definition noopHandler : TopicHandler := λ gs now msg, (gs, Ret ()).

Definition beaconBlockHandler : TopicHandler := λ gs now msg,
  let process dst := process_as gs now msg dst "failed to process block message" in
  if at_fork gs GenesisForkVersion then process T_SignedBeaconBlock
  else if at_fork gs AltairForkVersion then process T_SignedBeaconBlockAltair
  else if at_fork gs BellatrixForkVersion then process T_SignedBeaconBlockBellatrix
  else if at_fork gs CapellaForkVersion then process T_SignedBeaconBlockCapella
  else if at_fork gs DenebForkVersion then process T_SignedBeaconBlockDeneb
  else if at_fork gs ElectraForkVersion then process T_SignedBeaconBlockElectra
  else (gs, Fail (errors_New "unknown fork version for handling block")).

Definition blobSidecarHandler : TopicHandler := λ gs now msg,
  if at_fork gs DenebForkVersion || at_fork gs ElectraForkVersion
  then process_as gs now msg T_BlobSidecar "failed to process blob message"
  else (gs, Fail (errors_New "unknown fork version for handling blob")).

(** The five forks before Electra, as the cases list them. *)
Definition before_electra gs : bool :=
  at_fork gs GenesisForkVersion || at_fork gs AltairForkVersion ||
  at_fork gs BellatrixForkVersion || at_fork gs CapellaForkVersion ||
  at_fork gs DenebForkVersion.

Definition beaconAggregateAndProofHandler : TopicHandler := λ gs now msg,
  let process dst := process_as gs now msg dst "failed to process aggregate proof message" in
  if before_electra gs then process T_SignedAggregateAttestationAndProof
  else if at_fork gs ElectraForkVersion then process T_SignedAggregateAttestationAndProofElectra
  else (gs, Fail (errors_New "unknown fork version for handling aggregate proof")).

Definition beaconAttestationHandler : TopicHandler := λ gs now msg,
  let process dst := process_as gs now msg dst "failed to process attestation message" in
  if before_electra gs then process T_Attestation
  else if at_fork gs ElectraForkVersion then process T_SingleAttestation
  else (gs, Fail (errors_New "unknown fork version for handling attestation")).

Definition syncCommitteeContributionAndProofHandler : TopicHandler := λ gs now msg,
  if before_electra gs || at_fork gs ElectraForkVersion
  then process_as gs now msg T_SignedContributionAndProof
         "failed to process contribution proof message"
  else (gs, Fail (errors_New "unknown fork version for handling contribution proof")).

Definition syncCommitteeHandler : TopicHandler := λ gs now msg,
  if before_electra gs || at_fork gs ElectraForkVersion
  then process_as gs now msg T_SyncCommitteeMessage "failed to process sync committee message"
  else (gs, Fail (errors_New "unknown fork version for handling sync committee")).

Definition proposerSlashingHandler : TopicHandler := λ gs now msg,
  if before_electra gs || at_fork gs ElectraForkVersion
  then process_as gs now msg T_ProposerSlashing "failed to process proposer slashing message"
  else (gs, Fail (errors_New "unknown fork version for handling proposer slashing")).

(** The first case lists Electra too; the second one is the source's. *)
Definition attesterSlashingHandler : TopicHandler := λ gs now msg,
  let process dst := process_as gs now msg dst "failed to process attester slashing message" in
  if before_electra gs || at_fork gs ElectraForkVersion then process T_AttesterSlashing
  else if at_fork gs ElectraForkVersion then process T_AttesterSlashingElectra
  else (gs, Fail (errors_New "unknown fork version for handling attester slashing")).

Definition blsToExecutionChangeHandler : TopicHandler := λ gs now msg,
  if before_electra gs || at_fork gs ElectraForkVersion
  then process_as gs now msg T_BLSToExecutionChange
         "failed to process bls execution change message"
  else (gs, Fail (errors_New "unknown fork version for handling bls execution change")).

Definition voluntaryExitHandler : TopicHandler := λ gs now msg,
  if before_electra gs || at_fork gs ElectraForkVersion
  then process_as gs now msg T_VoluntaryExit "failed to process voluntary exit message"
  else (gs, Fail (errors_New "unknown fork version for handling voluntary exit")).

Definition mappingTopicToHandler (topic : string) : TopicHandler :=
  if Contains topic GossipBlockMessage then beaconBlockHandler
  else if Contains topic GossipBlobSidecarMessage then blobSidecarHandler
  else if Contains topic GossipAggregateAndProofMessage then beaconAggregateAndProofHandler
  else if Contains topic GossipAttestationMessage then beaconAttestationHandler
  else if Contains topic GossipContributionAndProofMessage
    then syncCommitteeContributionAndProofHandler
  else if Contains topic GossipSyncCommitteeMessage then syncCommitteeHandler
  else if Contains topic GossipProposerSlashingMessage then proposerSlashingHandler
  else if Contains topic GossipAttesterSlashingMessage then attesterSlashingHandler
  else if Contains topic GossipBlsToExecutionChangeMessage then blsToExecutionChangeHandler
  else if Contains topic GossipExitMessage then voluntaryExitHandler
  else noopHandler.

Definition process_failure (k : kind) : string :=
  match k with
  | KBlock => "failed to process block message"
  | KBlob => "failed to process blob message"
  | KAggregate => "failed to process aggregate proof message"
  | KAttestation => "failed to process attestation message"
  | KContribution => "failed to process contribution proof message"
  | KSync => "failed to process sync committee message"
  | KProposerSlashing => "failed to process proposer slashing message"
  | KAttesterSlashing => "failed to process attester slashing message"
  | KBls => "failed to process bls execution change message"
  | KExit => "failed to process voluntary exit message"
  end.

Definition handler_of (k : kind) : TopicHandler :=
  match k with
  | KBlock => beaconBlockHandler
  | KBlob => blobSidecarHandler
  | KAggregate => beaconAggregateAndProofHandler
  | KAttestation => beaconAttestationHandler
  | KContribution => syncCommitteeContributionAndProofHandler
  | KSync => syncCommitteeHandler
  | KProposerSlashing => proposerSlashingHandler
  | KAttesterSlashing => attesterSlashingHandler
  | KBls => blsToExecutionChangeHandler
  | KExit => voluntaryExitHandler
  end.

Lemma mapping_switch topic :
  mappingTopicToHandler topic =
    from_option handler_of noopHandler (switch_kind topic).
Proof. unfold mappingTopicToHandler, switch_kind. by repeat case_match. Qed.

(** At the fork [f], with distinct versions, the conditions single out [f]. *)
Lemma at_fork_iff gs f f' :
  forks_ok (gs_beaconConfig gs) = true →
  gs_forkVersion gs = version_of (gs_beaconConfig gs) f →
  at_fork gs (λ c, version_of c f') = bool_decide (f = f').
Proof.
  intros Hok Hf. apply forks_ok_spec in Hok as (_ & Hd & _).
  unfold at_fork. rewrite Hf. apply bool_decide_ext. split; [|by intros ->].
  unfold forks in Hd. simpl in Hd. rewrite !NoDup_cons in Hd. intros Heq.
  destruct f, f'; try done; simpl in Heq; exfalso; rewrite Heq in Hd; set_solver.
Qed.

(** Decide every fork test of a handler. *)
Ltac decide_forks Hok Hf :=
  unfold before_electra;
  change (at_fork ?gs GenesisForkVersion) with (at_fork gs (λ c, version_of c Genesis));
  change (at_fork ?gs AltairForkVersion) with (at_fork gs (λ c, version_of c Altair));
  change (at_fork ?gs BellatrixForkVersion) with (at_fork gs (λ c, version_of c Bellatrix));
  change (at_fork ?gs CapellaForkVersion) with (at_fork gs (λ c, version_of c Capella));
  change (at_fork ?gs DenebForkVersion) with (at_fork gs (λ c, version_of c Deneb));
  change (at_fork ?gs ElectraForkVersion) with (at_fork gs (λ c, version_of c Electra));
  rewrite ?(at_fork_iff _ _ _ Hok Hf).

Lemma handler_at_fork gs now msg k f :
  forks_ok (gs_beaconConfig gs) = true →
  gs_forkVersion gs = version_of (gs_beaconConfig gs) f →
  handler_of k gs now msg =
    match decoded_type k f with
    | Some t => process_as gs now msg t (process_failure k)
    | None => (gs, Fail (errors_New "unknown fork version for handling blob"))
    end.
Proof.
  intros Hok Hf. destruct k; simpl handler_of.
  - unfold beaconBlockHandler. decide_forks Hok Hf. by destruct f.
  - unfold blobSidecarHandler. decide_forks Hok Hf. by destruct f.
  - unfold beaconAggregateAndProofHandler. decide_forks Hok Hf. by destruct f.
  - unfold beaconAttestationHandler. decide_forks Hok Hf. by destruct f.
  - unfold syncCommitteeContributionAndProofHandler. decide_forks Hok Hf. by destruct f.
  - unfold syncCommitteeHandler. decide_forks Hok Hf. by destruct f.
  - unfold proposerSlashingHandler. decide_forks Hok Hf. by destruct f.
  - unfold attesterSlashingHandler. decide_forks Hok Hf. by destruct f.
  - unfold blsToExecutionChangeHandler. decide_forks Hok Hf. by destruct f.
  - unfold voluntaryExitHandler. decide_forks Hok Hf. by destruct f.
Qed.

(** A version of no fork fails every condition. *)
Lemma at_no_fork gs f :
  gs_forkVersion gs ∉ (forks (gs_beaconConfig gs)).*2 →
  at_fork gs (λ c, version_of c f) = false.
Proof.
  intros Hno. apply bool_decide_eq_false. intros Heq. apply Hno. rewrite Heq.
  unfold forks. simpl. destruct f; set_solver.
Qed.

Lemma handler_no_fork gs now msg k :
  gs_forkVersion gs ∉ (forks (gs_beaconConfig gs)).*2 →
  ∃ e, handler_of k gs now msg = (gs, Fail e).
Proof.
  intros Hno. pose proof (at_no_fork gs) as Hf.
  pose proof (Hf Genesis Hno : at_fork gs GenesisForkVersion = false) as Hg.
  pose proof (Hf Altair Hno : at_fork gs AltairForkVersion = false) as Ha.
  pose proof (Hf Bellatrix Hno : at_fork gs BellatrixForkVersion = false) as Hb.
  pose proof (Hf Capella Hno : at_fork gs CapellaForkVersion = false) as Hc.
  pose proof (Hf Deneb Hno : at_fork gs DenebForkVersion = false) as Hd.
  pose proof (Hf Electra Hno : at_fork gs ElectraForkVersion = false) as He.
  destruct k; simpl handler_of;
    unfold beaconBlockHandler, blobSidecarHandler, beaconAggregateAndProofHandler,
      beaconAttestationHandler, syncCommitteeContributionAndProofHandler, syncCommitteeHandler,
      proposerSlashingHandler, attesterSlashingHandler, blsToExecutionChangeHandler,
      voluntaryExitHandler, before_electra;
    rewrite ?Hg, ?Ha, ?Hb, ?Hc, ?Hd, ?He; simpl; eauto.
Qed.

(** ** Properties *)

(** C18. With a fork schedule of distinct versions, the handler of every kind of
    topic but one decodes a message as the type its fork carries, passes it to
    the processor once and wraps its error; blobs before Deneb are refused. The
    exception is an attester slashing at Electra, which is decoded as the type
    before Electra although the fork carries another. At a version that is no
    scheduled fork every handler returns an error and changes nothing. *)
Theorem handlers_by_fork gs now msg k
  (Hok : forks_ok (gs_beaconConfig gs) = true) :
  (∀ f, gs_forkVersion gs = version_of (gs_beaconConfig gs) f →
    (k, f) ≠ (KAttesterSlashing, Electra) →
    handler_of k gs now msg =
      match carried_type k f with
      | Some t => process_as gs now msg t (process_failure k)
      | None => (gs, Fail (errors_New "unknown fork version for handling blob"))
      end) ∧
  (gs_forkVersion gs = version_of (gs_beaconConfig gs) Electra →
    carried_type KAttesterSlashing Electra = Some T_AttesterSlashingElectra ∧
    handler_of KAttesterSlashing gs now msg =
      process_as gs now msg T_AttesterSlashing (process_failure KAttesterSlashing)) ∧
  (gs_forkVersion gs ∉ (forks (gs_beaconConfig gs)).*2 →
    ∃ e, handler_of k gs now msg = (gs, Fail e)).
Proof.
  split_and!; [| |apply handler_no_fork].
  - intros f Hf Hne. rewrite (handler_at_fork _ _ _ _ f) by done. by destruct k, f.
  - intros Hf. split; [done|]. by rewrite (handler_at_fork _ _ _ _ Electra).
Qed.
End Handlers.
