(* ===== verification/Subscription.v ===== *)
(** * gossip/subscription.go: the service of one topic

    [Serve] reads messages until its context ends or [Next] fails. The state the
    handler works on is abstract. An event is what one turn of the loop meets. *)

From S2P Require Import Prelude GoStrings GoTime GoFloat Externals Eth Repository SlotExtractor.
From S2P Require Import Processor.

(** The pubsub subscription is known by its topic; what it yields is in the
    events of [Serve], and its [Cancel] is recorded by a flag. *)
Record Subscription (S : Type) := newSubscription {
  hostID : string;
  subscription : string;
  handler : S → Time → Message → S * outcome unit;
}.
Arguments newSubscription {S}.
Arguments hostID {S}.
Arguments subscription {S}.
Arguments handler {S}.

(** One turn: the context is done, or [Next] returns an error, or a message at
    some time. *)
Inductive sub_event :=
  | SubDone
  | SubError (e : error)
  | SubMsg (now : Time) (msg : Message).

Record sub_result (S : Type) := SubResult {
  sub_state : S;
  cancelled : bool;
  sub_return : option (outcome unit);
}.
Arguments SubResult {S}.
Arguments sub_state {S}.
Arguments cancelled {S}.
Arguments sub_return {S}.

Section Subscription.
Context {S : Type} (s : Subscription S).
Implicit Types (st : S) (evs : list sub_event).

(** Return through the deferred [Cancel]. *)
Definition return_with st (r : outcome unit) : sub_result S := SubResult st true (Some r).

Fixpoint Serve st evs : sub_result S :=
  match evs with
  | [] => SubResult st false None
  | SubDone :: _ => return_with st (Ret ())
  | SubError e :: _ =>
      return_with st (Fail (errors_Wrap e "failed to get next gossip subscription message"))
  | SubMsg now msg :: evs =>
      if bool_decide (ReceivedFrom msg = hostID s) then Serve st evs
      else match handler s st now msg with
           | (st, Panicked v) => return_with st (Panicked v)
           | (st, _) => Serve st evs
           end
  end.

(** ** Specification: fold the handler over the messages of other peers *)

Definition foreign (m : Time * Message) : Prop := ReceivedFrom m.2 ≠ hostID s.
#[export] Instance foreign_dec m : Decision (foreign m).
Proof. unfold foreign. apply _. Defined.

Definition handle_all st (msgs : list (Time * Message)) : S :=
  foldl (λ st m, (handler s st m.1 m.2).1) st (filter foreign msgs).

Definition sub_msgs (msgs : list (Time * Message)) : list sub_event :=
  (λ m, SubMsg m.1 m.2) <$> msgs.

(** The handler panics on none of the messages, each on the state that the ones
    before it left. *)
Definition quiet st (msgs : list (Time * Message)) : Prop :=
  ∀ pre m post v, msgs = pre ++ m :: post → foreign m →
    (handler s (handle_all st pre) m.1 m.2).2 ≠ Panicked v.

Lemma handle_all_cons st m msgs :
  handle_all st (m :: msgs) =
    handle_all (if bool_decide (foreign m) then (handler s st m.1 m.2).1 else st) msgs.
Proof.
  unfold handle_all. case_bool_decide; [by rewrite filter_cons_True|by rewrite filter_cons_False].
Qed.

Lemma quiet_cons st m msgs :
  quiet st (m :: msgs) →
  (foreign m → ∀ v, (handler s st m.1 m.2).2 ≠ Panicked v) ∧
  quiet (if bool_decide (foreign m) then (handler s st m.1 m.2).1 else st) msgs.
Proof.
  intros Hq. split.
  - intros Hm v. by apply (Hq [] m msgs).
  - intros pre m' post v -> Hm'. rewrite <-handle_all_cons. by apply (Hq (m :: pre) m' post).
Qed.

Lemma Serve_msgs st msgs evs :
  quiet st msgs → Serve st (sub_msgs msgs ++ evs) = Serve (handle_all st msgs) evs.
Proof.
  revert st. induction msgs as [|[now msg] msgs IH]; intros st Hq; [done|].
  apply quiet_cons in Hq as [Hp Hq]. rewrite handle_all_cons. cbn [sub_msgs fmap list_fmap app Serve fst snd].
  destruct (decide (foreign (now, msg))) as [Hf|Hf].
  - rewrite (bool_decide_true _ Hf) in Hq |- *. rewrite bool_decide_false by exact Hf.
    specialize (Hp Hf). simpl in Hp, Hq |- *.
    destruct (handler s st now msg) as [st' [u|e|v]]; simpl in *; [by apply IH..|by destruct (Hp v)].
  - rewrite (bool_decide_false _ Hf) in Hq |- *. rewrite bool_decide_true; [by apply IH|].
    by apply dec_stable.
Qed.

(** ** Properties *)

(** C31. A subscription hands every message of another peer to its handler, once
    and in order, and none of the node's own; an error of the handler does not
    stop it, a panic does, at that message. It ends otherwise when the context
    does, with no error, or when [Next] fails, with the wrapped error, and
    cancels the subscription exactly when it ends. *)
Theorem subscription_serves st (msgs : list (Time * Message)) (Hq : quiet st msgs) :
  let final := handle_all st msgs in
  Serve st (sub_msgs msgs) = SubResult final false None ∧
  (∀ rest, Serve st (sub_msgs msgs ++ SubDone :: rest) = SubResult final true (Some (Ret ()))) ∧
  (∀ e rest, Serve st (sub_msgs msgs ++ SubError e :: rest) =
     SubResult final true
       (Some (Fail (errors_Wrap e "failed to get next gossip subscription message")))) ∧
  (∀ m st' v rest, foreign m → handler s final m.1 m.2 = (st', Panicked v) →
     Serve st (sub_msgs msgs ++ SubMsg m.1 m.2 :: rest) = SubResult st' true (Some (Panicked v))).
Proof.
  intros final. split_and!.
  - by rewrite <-(app_nil_r (sub_msgs msgs)), Serve_msgs.
  - intros rest. by rewrite Serve_msgs.
  - intros e rest. by rewrite Serve_msgs.
  - intros m st' v rest Hm Hh. rewrite Serve_msgs by done. simpl.
    rewrite bool_decide_false by done. fold final. by rewrite Hh.
Qed.
End Subscription.

(** [quiet], decided along the list. *)
Fixpoint quietb {S} (s : Subscription S) (st : S) (msgs : list (Time * Message)) : bool :=
  match msgs with
  | [] => true
  | m :: msgs =>
      if bool_decide (foreign s m) then
        match handler s st m.1 m.2 with
        | (_, Panicked _) => false
        | (st, _) => quietb s st msgs
        end
      else quietb s st msgs
  end.
Lemma quietb_quiet {S} (s : Subscription S) st msgs : quietb s st msgs = true → quiet s st msgs.
Proof.
  revert st. induction msgs as [|m msgs IH]; intros st Hq [|m0 pre] m' post v Heq Hm'; try done.
  - injection Heq as <- ->. change (handle_all s st []) with st. simpl in Hq. rewrite bool_decide_true in Hq by done.
    by destruct (handler s st m.1 m.2) as [st' []].
  - injection Heq as <- Heq. rewrite handle_all_cons. simpl in Hq.
    case_bool_decide; [|by apply (IH st Hq pre m' post)].
    destruct (handler s st m.1 m.2) as [st' []]; [by apply (IH st' Hq pre m' post)..|done].
Qed.
