(* ===== verification/GossipSub.v ===== *)
(** * gossip/gossipsub.go: the gossip service

    Construction of the topics, the pubsub configuration, joining and
    subscribing, the message id callback that counts deliveries, and pruning.
    go-libp2p-pubsub is the class [PubSub]. *)

From S2P Require Import Prelude GoStrings GoTime GoFloat Externals Eth Repository SlotExtractor.
From S2P Require Import Processor Host Topics PeerScore GossipHandler Subscription.
Local Open Scope Z_scope.

(** ** Constants *)

Definition gossipThreshold : float64 := fopp (float_of_Z 100).
Definition gossipSubDlo : Z := 5.
Definition gossipSubDhi : Z := 9.
Definition gossipSubMCacheLen : Z := 6.
Definition gossipSubMCacheGossip : Z := 3.
Definition gossipSubHeartbeatInterval : Duration := 700 * Millisecond.

(** ** pubsub *)

(** pubsub.GossipSubParams: the fields the source sets, and the others. *)
Record GossipSubParams (O : Type) := {
  gp_D : Z;
  gp_Dlo : Z;
  gp_Dhi : Z;
  gp_HistoryLength : Z;
  gp_HistoryGossip : Z;
  gp_HeartbeatInterval : Duration;
  gp_other : O;
}.
Arguments gp_D {O}.
Arguments gp_Dlo {O}.
Arguments gp_Dhi {O}.
Arguments gp_HistoryLength {O}.
Arguments gp_HistoryGossip {O}.
Arguments gp_HeartbeatInterval {O}.
Arguments gp_other {O}.

(** The options of [pubsub.NewGossipSub]; the message id function and the score
    inspector are methods of the service. *)
Record pubsub_config (O : Type) := {
  pc_params : GossipSubParams O;
  pc_StrictNoSign : bool;
  pc_NoAuthor : bool;
  pc_MaxMessageSize : Z;
  pc_PeerScore : PeerScoreParams * PeerScoreThresholds;
  pc_InspectPeriod : Duration;
}.

Class PubSub := {
  OtherParams : Type;
  DefaultGossipSubParams : GossipSubParams OtherParams;
  PubSubHandle : Type;
  pubsub_New : pubsub_config OtherParams → error + PubSubHandle;
  pubsub_Join : PubSubHandle → string → error + PubSubHandle;
  topic_Subscribe : PubSubHandle → string → error + PubSubHandle;
  (** p2p.MsgID: the id of a message under a validators root *)
  MsgID : string → string → string → string;
  (** encoder.MaxCompressedLen on uint64, and the larger of two integers *)
  MaxCompressedLen : Z → Z;
  ethmath_Max : Z → Z → Z;
}.

(** ** Options *)

Record GossipSubOption `{Libp2pTypes} (R PC : Type) := {
  opt_supervisor : Supervisor;
  opt_host : ptr Host;
  opt_topics : list string;
  opt_estimateActiveValidators : Z;
  opt_peerScoreInspectPeriod : Duration;
  opt_messageProcessor : ptr (BeaconMessageProcessor R PC);
}.
Arguments opt_supervisor {_ R PC}.
Arguments opt_host {_ R PC}.
Arguments opt_topics {_ R PC}.
Arguments opt_estimateActiveValidators {_ R PC}.
Arguments opt_peerScoreInspectPeriod {_ R PC}.
Arguments opt_messageProcessor {_ R PC}.

Section GossipSub.
Context `{Libp2p} {R PC : Type} `{Repository R} `{PeerCounter PC}.
Context `{Params, P2P, Slots, Hexutil, Bitfield, Math, Forks, PubSub} `{Encoder}.
Abbreviation gossip := (GossipSub R PC).
Abbreviation opt := (GossipSubOption R PC).

Definition WithEstimateActiveValidators (v : Z) (o : opt) : opt :=
  {| opt_supervisor := opt_supervisor o; opt_host := opt_host o; opt_topics := opt_topics o; opt_estimateActiveValidators := v;
     opt_peerScoreInspectPeriod := opt_peerScoreInspectPeriod o;
     opt_messageProcessor := opt_messageProcessor o |}.
Definition WithTopics (v : list string) (o : opt) : opt :=
  {| opt_supervisor := opt_supervisor o; opt_host := opt_host o; opt_topics := v;
     opt_estimateActiveValidators := opt_estimateActiveValidators o;
     opt_peerScoreInspectPeriod := opt_peerScoreInspectPeriod o;
     opt_messageProcessor := opt_messageProcessor o |}.
Definition WithPeerScoreInspectPeriod (v : Duration) (o : opt) : opt :=
  {| opt_supervisor := opt_supervisor o; opt_host := opt_host o; opt_topics := opt_topics o;
     opt_estimateActiveValidators := opt_estimateActiveValidators o;
     opt_peerScoreInspectPeriod := v; opt_messageProcessor := opt_messageProcessor o |}.
Definition WithSupervisor (v : Supervisor) (o : opt) : opt :=
  {| opt_supervisor := v; opt_host := opt_host o; opt_topics := opt_topics o;
     opt_estimateActiveValidators := opt_estimateActiveValidators o;
     opt_peerScoreInspectPeriod := opt_peerScoreInspectPeriod o;
     opt_messageProcessor := opt_messageProcessor o |}.
Definition WithHost (v : ptr Host) (o : opt) : opt :=
  {| opt_supervisor := opt_supervisor o; opt_host := v; opt_topics := opt_topics o;
     opt_estimateActiveValidators := opt_estimateActiveValidators o;
     opt_peerScoreInspectPeriod := opt_peerScoreInspectPeriod o;
     opt_messageProcessor := opt_messageProcessor o |}.
Definition WithMessageProcessor (v : ptr (BeaconMessageProcessor R PC)) (o : opt) : opt :=
  {| opt_supervisor := opt_supervisor o; opt_host := opt_host o; opt_topics := opt_topics o;
     opt_estimateActiveValidators := opt_estimateActiveValidators o;
     opt_peerScoreInspectPeriod := opt_peerScoreInspectPeriod o;
     opt_messageProcessor := v |}.

Definition gossip_defaults : opt :=
  {| opt_supervisor := suture_NewSimple "gossipSub"; opt_host := None; opt_topics := [];
     opt_estimateActiveValidators := 0;
     opt_peerScoreInspectPeriod := 12 * Second; opt_messageProcessor := None |}.

(** ** NewGossipSub *)

Definition rawAllTopics : list string :=
  [BlockSubnetTopicFormat; BlobSubnetTopicFormat; AggregateAndProofSubnetTopicFormat;
   AttestationSubnetTopicFormat; SyncContributionAndProofSubnetTopicFormat;
   SyncCommitteeSubnetTopicFormat; ProposerSlashingSubnetTopicFormat;
   AttesterSlashingSubnetTopicFormat; BlsToExecutionChangeSubnetTopicFormat;
   ExitSubnetTopicFormat].

(** The topics of one raw format. *)
Definition raw_topics (net forkDigest rawTopic : string) : outcome (list string) :=
  '(subnetCnt, hasSubnet) ← HasSubnets net rawTopic;
  Ret (if hasSubnet : bool then
         (λ i, Sprintf rawTopic [FBytes forkDigest; FUint (Z.to_N i)] +:+ "/" +:+
                 ProtocolSuffixSSZSnappy) <$> seqZ 0 subnetCnt
       else [Sprintf rawTopic [FBytes forkDigest] +:+ "/" +:+ ProtocolSuffixSSZSnappy]).

Definition all_topics (net forkDigest : string) : outcome (list string) :=
  ls ← mapM (raw_topics net forkDigest) rawAllTopics; Ret (concat ls).

Definition default_topics (net : string) : outcome (list string) :=
  genesisConfig ← GetGenesisConfig net;
  forkDigest ← wrap "failed to create fork digest"
    (of_sum (CreateForkDigest (GenesisTime genesisConfig) (GenesisValidatorRoot genesisConfig)));
  all_topics net forkDigest.

Definition NewGossipSub (net : string) (now : Time) (opts : list (opt → opt)) : outcome gossip :=
  let o := apply_opts opts gossip_defaults in
  h ← ok_or (opt_host o) "host must be configured when creating gossipSub";
  if opt_estimateActiveValidators o =? 0
  then Fail (errors_New
    "number of estimate active validators must be more than 0 when creating gossipSub") else
  topics ← match opt_topics o with
           | [] => default_topics net
           | topics => Ret topics
           end;
  forkVersion ← GetCurrentForkVersion net now;
  config ← GetBeaconChainConfig net;
  Ret (MkGossipSub (opt_supervisor o) h (newPeerScore (opt_estimateActiveValidators o) topics
         (opt_peerScoreInspectPeriod o)) topics forkVersion config (opt_messageProcessor o)).

(** ** The pubsub configuration *)

Definition gossipSubParams : GossipSubParams OtherParams :=
  {| gp_D := gossipSubD; gp_Dlo := gossipSubDlo; gp_Dhi := gossipSubDhi;
     gp_HistoryLength := gossipSubMCacheLen; gp_HistoryGossip := gossipSubMCacheGossip;
     gp_HeartbeatInterval := gossipSubHeartbeatInterval;
     gp_other := gp_other DefaultGossipSubParams |}.

Definition maxMessageSize (net : string) : outcome Z :=
  c ← GetBeaconChainConfig net;
  let maxCompressedLen := MaxCompressedLen (MaxPayloadSize c) in
  Ret (i64 (ethmath_Max (u64 (maxCompressedLen + 1024)) (1024 * 1024))).

Definition set_score (gs : gossip) (ps : peerScore) : gossip :=
  MkGossipSub (gs_supervisor gs) (gs_host gs) ps (gs_topics gs) (gs_forkVersion gs)
    (gs_beaconConfig gs) (gs_messageProcessor gs).
Definition set_gs_host (gs : gossip) (h : Host) : gossip :=
  MkGossipSub (gs_supervisor gs) h (gs_peerScore gs) (gs_topics gs) (gs_forkVersion gs)
    (gs_beaconConfig gs) (gs_messageProcessor gs).

(** The message id callback: every delivery of a message, duplicates included,
    counts as seen. *)
Definition messageIdFn (gs : gossip) (topic data : string) : gossip * outcome string :=
  let msgID := MsgID (GenesisValidatorsRoot (gs_beaconConfig gs)) topic data in
  match gs_messageProcessor gs with
  | None => (gs, Panicked panic_nil)
  | Some p => (set_processor gs (IncreaseSeenCountByRawID p msgID), Ret msgID)
  end.

(** The score inspector. *)
Definition inspect_scores (gs : gossip) (scores : gmap string (ptr float64)) : gossip :=
  set_score gs (inspect (gs_peerScore gs) scores).

(** ** Joining *)

(** The subscriptions added to [gs_supervisor]. *)
Definition added := list (Subscription gossip).

Fixpoint join_topics (gs : gossip) (ps : PubSubHandle) (topics : list string) (subs : added)
    : added * outcome unit :=
  match topics with
  | [] => (subs, Ret ())
  | topicName :: topics =>
      match pubsub_Join ps topicName with
      | inl e => (subs, Fail (errors_Wrap e ("failed to join topic " +:+ topicName)))
      | inr ps =>
          match topic_Subscribe ps topicName with
          | inl e => (subs, Fail (errors_Wrap e ("failed to subscribe topic " +:+ topicName)))
          | inr ps =>
              join_topics gs ps topics
                (subs ++ [newSubscription (host_ID (host_Host (gs_host gs))) topicName
                            (mappingTopicToHandler topicName)])
          end
      end
  end.

(** [Serve] up to its wait for the context: the state, the subscriptions added,
    and the early return, if any. *)
Definition start (net : string) (gs : gossip) : gossip * added * outcome unit :=
  match maxMessageSize net with
  | Fail e => (gs, [], Fail e)
  | Panicked v => (gs, [], Panicked v)
  | Ret size =>
      let '(ps, r) := PeerScore.params net (gs_peerScore gs) in
      let gs := set_score gs ps in
      match r with
      | Fail e => (gs, [], Fail e)
      | Panicked v => (gs, [], Panicked v)
      | Ret score =>
          match pubsub_New {| pc_params := gossipSubParams; pc_StrictNoSign := true;
                  pc_NoAuthor := true; pc_MaxMessageSize := size; pc_PeerScore := score;
                  pc_InspectPeriod := inspectPeriod (gs_peerScore gs) |} with
          | inl e => (gs, [], Fail (errors_Wrap e "failed to create gossipSub"))
          | inr handle =>
              let '(subs, r) := join_topics gs handle (gs_topics gs) [] in (gs, subs, r)
          end
      end
  end.

(** ** Pruning *)

Definition isBadPeer (gs : gossip) (pid : string) : outcome bool :=
  score ← get (gs_peerScore gs) pid; Ret (flt score gossipThreshold).

(** [if prev, ok := peerScores[pid]; !ok || score < prev { peerScores[pid] = score }] *)
Definition add_score (gs : gossip) (m : gmap string float64) (conn : NetConn)
    : outcome (gmap string float64) :=
  let pid := RemotePeer conn in
  score ← get (gs_peerScore gs) pid;
  Ret (match m !! pid with
       | Some prev => if flt score prev then <[pid := score]> m else m
       | None => <[pid := score]> m
       end).
Fixpoint peer_scores (gs : gossip) (m : gmap string float64) (conns : list NetConn)
    : outcome (gmap string float64) :=
  match conns with
  | [] => Ret m
  | conn :: conns => m ← add_score gs m conn; peer_scores gs m conns
  end.

(** The loop over the sorted pairs; an error of ClosePeer is dropped. *)
Fixpoint prune_loop (gs : gossip) (i excess : Z) (pairs : list (string * float64))
    : gossip * outcome Z :=
  match pairs with
  | [] => (gs, Ret i)
  | p :: pairs =>
      match (if i <? excess then Ret true else isBadPeer gs p.1) with
      | Ret true =>
          let h := (Network_ClosePeer (host_Host (gs_host gs)) p.1).1 in
          prune_loop (set_gs_host gs (set_host (gs_host gs) h)) (i + 1) excess pairs
      | Ret false => (gs, Ret i)
      | Fail e => (gs, Fail e)
      | Panicked v => (gs, Panicked v)
      end
  end.

Definition score_less (a b : string * float64) : bool := flt a.2 b.2.

(** The number of peers pruned is returned for the log. *)
Definition prune (o : order (string * float64)) (sort : sorter (string * float64)) (gs : gossip)
    : gossip * outcome Z :=
  match Network_Conns (host_Host (gs_host gs)) with
  | None => (gs, Ret 0)
  | Some conns =>
      match peer_scores gs ∅ conns with
      | Ret peerScores =>
          let pairs := sort score_less (o (map_to_list peerScores)) in
          match host_TotalPeerCount (gs_host gs) with
          | Ret total =>
              prune_loop gs 0 (i64 (total - TargetPeerCount (gs_host gs))) pairs
          | Fail e => (gs, Fail e)
          | Panicked v => (gs, Panicked v)
          end
      | Fail e => (gs, Fail e)
      | Panicked v => (gs, Panicked v)
      end
  end.

(** ** The service: ticks prune, the context ends it *)

Inductive gossip_event :=
  | GsTick (o : order (string * float64)) (sort : sorter (string * float64))
  | GsInspect (scores : gmap string (ptr float64))
  | GsMessageId (topic data : string)
  | GsDone (ctxErr : error).

Fixpoint gossip_loop (gs : gossip) (evs : list gossip_event) : gossip * option (outcome unit) :=
  match evs with
  | [] => (gs, None)
  | GsDone e :: _ => (gs, Some (Fail e))
  | GsInspect scores :: evs => gossip_loop (inspect_scores gs scores) evs
  | GsMessageId topic data :: evs =>
      match messageIdFn gs topic data with
      | (gs, Ret _) => gossip_loop gs evs
      | (gs, Fail e) => (gs, Some (Fail e))
      | (gs, Panicked v) => (gs, Some (Panicked v))
      end
  | GsTick o sort :: evs =>
      match prune o sort gs with
      | (gs, Ret _) => gossip_loop gs evs
      | (gs, Fail e) => (gs, Some (Fail e))
      | (gs, Panicked v) => (gs, Some (Panicked v))
      end
  end.

Definition Serve (net : string) (gs : gossip) (evs : list gossip_event)
    : gossip * added * option (outcome unit) :=
  let '(gs, subs, r) := start net gs in
  match r with
  | Ret _ =>
      match GetSlotDuration net with
      | Ret d =>
          if d <=? 0
          then (gs, subs, Some (Panicked (panic_msg "non-positive interval for NewTicker")))
          else let '(gs, r) := gossip_loop gs evs in (gs, subs, r)
      | Fail e => (gs, subs, Some (Fail e))
      | Panicked v => (gs, subs, Some (Panicked v))
      end
  | Fail e => (gs, subs, Some (Fail e))
  | Panicked v => (gs, subs, Some (Panicked v))
  end.

(** ** Lemmas *)

Lemma NewGossipSub_inv net now opts gs :
  NewGossipSub net now opts = Ret gs →
  let o := apply_opts opts gossip_defaults in
  opt_host o = Some (gs_host gs) ∧ opt_estimateActiveValidators o ≠ 0 ∧
  gs_messageProcessor gs = opt_messageProcessor o ∧ gs_supervisor gs = opt_supervisor o ∧
  GetBeaconChainConfig net = Ret (gs_beaconConfig gs) ∧
  GetCurrentForkVersion net now = Ret (gs_forkVersion gs) ∧
  (opt_topics o = gs_topics gs ∨ opt_topics o = [] ∧ default_topics net = Ret (gs_topics gs)) ∧
  gs_peerScore gs = newPeerScore (opt_estimateActiveValidators o) (gs_topics gs)
    (opt_peerScoreInspectPeriod o).
Proof.
  unfold NewGossipSub. set (o := apply_opts opts gossip_defaults). intros Hgs.
  apply bind_Ret_inv in Hgs as (h & Hh%ok_or_Ret_inv & Hgs).
  destruct (Z.eqb_spec (opt_estimateActiveValidators o) 0) as [|Hest]; [done|].
  apply bind_Ret_inv in Hgs as (topics & Ht & Hgs).
  apply bind_Ret_inv in Hgs as (fv & Hfv & Hgs).
  apply bind_Ret_inv in Hgs as (config & Hconf & [= <-]). simpl.
  split_and!; try done.
  destruct (opt_topics o) as [|t ts]; [by right|left]. by injection Ht.
Qed.
End GossipSub.
