(* ===== verification/GossipClaims.v ===== *)
(** * Properties of the gossip service

    The topics built and how they are recognised, construction, subscriptions,
    the path of a message from its topic to the cache, and pruning. *)

From S2P Require Import Prelude GoStrings GoTime GoFloat Externals Eth Repository SeenCounter.
From S2P Require Import SlotCache SlotExtractor Processor ProcessorFacts Samples Host Topics.
From S2P Require Import PeerScore PeerScoreClaims GossipHandler Subscription GossipSub.
From Stdlib Require Import Ascii.
Local Open Scope Z_scope.

(** ** The topics *)

(** The subnets of a kind under a configuration. *)
Definition subnet_count (c : BeaconChainConfig) (k : kind) : Z :=
  match k with
  | KBlob => BlobsidecarSubnetCount c
  | KAttestation => AttestationSubnetCount c
  | KSync => SyncCommitteeSubnetCount c
  | _ => 1
  end.

(** The (kind, subnet) pairs subscribed to, in order. *)
Definition topic_indices (c : BeaconChainConfig) : list (kind * N) :=
  kinds ≫= λ k, (λ i, (k, Z.to_N i)) <$> seqZ 0 (subnet_count c k).

Section Topics.
Context `{Params, P2P, Slots, Hexutil, Bitfield}.
Context (net : string) (Hs : supported net = true) (Hp : p2p_ok = true).
Abbreviation c := (chain_config net).

(** The formats of different kinds differ. *)
Lemma format_inj k k' : topic_format k = topic_format k' → k = k'.
Proof.
  intros Heq. destruct (p2p_ok_kind Hp k) as (_ & Hf & _), (p2p_ok_kind Hp k') as (_ & Hf' & _).
  assert (subnetted k = subnetted k') as Hsub.
  { rewrite Hf, Hf' in Heq. apply (inj (String.append "/eth2/%x/")) in Heq.
    pose proof (nf_percent _ (msg_name_facts Hp k)) as Hpk.
    pose proof (nf_percent _ (msg_name_facts Hp k')) as Hpk'. unfold no_char in *.
    apply (f_equal (all_chars (λ a, negb (bool_decide (a = "%"%char))))) in Heq.
    rewrite !all_chars_app, Hpk, Hpk' in Heq. by destruct (subnetted k), (subnetted k'). }
  assert (build_topic "" k 0 = build_topic "" k' 0) as Hb.
  { unfold build_topic. by rewrite Heq, Hsub. }
  pose proof (switch_kind_build Hp "" k 0) as Hk.
  rewrite Hb, switch_kind_build in Hk by done. by simplify_eq.
Qed.

Lemma HasSubnets_format k :
  HasSubnets net (topic_format k) =
    Ret (if subnetted k then (subnet_count c k, true) else (0, false)).
Proof.
  unfold HasSubnets. rewrite GetBeaconChainConfig_supported by done. simpl. f_equal.
  change BlobSubnetTopicFormat with (topic_format KBlob).
  change AttestationSubnetTopicFormat with (topic_format KAttestation).
  change SyncCommitteeSubnetTopicFormat with (topic_format KSync).
  assert (∀ k', bool_decide (topic_format k = topic_format k') = bool_decide (k = k')) as Hk.
  { intros k'. apply bool_decide_ext. split; [apply format_inj|by intros ->]. }
  rewrite !Hk. by destruct k.
Qed.

Lemma raw_topics_format d k :
  raw_topics net d (topic_format k) =
    Ret ((λ i, build_topic d k (Z.to_N i)) <$> seqZ 0 (subnet_count c k)).
Proof.
  unfold raw_topics. rewrite HasSubnets_format. simpl.
  destruct (subnetted k) eqn:Hk; simpl; f_equal; unfold build_topic; rewrite Hk; [done|].
  by destruct k.
Qed.

Lemma all_topics_eq d :
  all_topics net d = Ret ((λ ki, build_topic d ki.1 ki.2) <$> topic_indices c).
Proof.
  unfold all_topics, rawAllTopics.
  change [_; _; _; _; _; _; _; _; _; _] with (topic_format <$> kinds).
  assert (∀ ks, mapM (raw_topics net d) (topic_format <$> ks) =
    Ret ((λ k, (λ i, build_topic d k (Z.to_N i)) <$> seqZ 0 (subnet_count c k)) <$> ks)) as Hm.
  { intros ks. induction ks as [|k ks IH]; [done|]. rewrite fmap_cons. cbn [mapM].
    rewrite raw_topics_format. simpl. by rewrite IH. }
  rewrite Hm. cbn [mbind outcome_bind]. f_equal. unfold topic_indices. generalize kinds.
  intros ks. induction ks as [|k ks IH]; [done|].
  rewrite bind_cons, fmap_app, <-IH, <-list_fmap_compose. done.
Qed.

Lemma elem_of_topic_indices k i :
  (k, i) ∈ topic_indices c ↔ (Z.of_N i < subnet_count c k).
Proof.
  unfold topic_indices. rewrite list_elem_of_bind. split.
  - intros (k' & Hin & _). apply list_elem_of_fmap in Hin as (j & [= -> ->] & Hj).
    apply elem_of_seqZ in Hj. lia.
  - intros Hi. exists k. split; [|apply elem_of_kinds].
    apply list_elem_of_fmap. exists (Z.of_N i). rewrite N2Z.id. split; [done|].
    apply elem_of_seqZ. lia.
Qed.

Lemma NoDup_topic_indices : NoDup (topic_indices c).
Proof.
  unfold topic_indices. apply NoDup_bind.
  - intros k k' [k1 i1] _ _ (j & [= -> _] & _)%list_elem_of_fmap (j' & [= -> _] & _)%list_elem_of_fmap.
    done.
  - intros k _. apply NoDup_fmap_2_strong; [|apply NoDup_seqZ].
    intros i j [Hi _]%elem_of_seqZ [Hj _]%elem_of_seqZ [= Hij]. lia.
  - apply (bool_decide_unpack _). reflexivity.
Qed.

Lemma NoDup_topics d : NoDup ((λ ki, build_topic d ki.1 ki.2) <$> topic_indices c).
Proof.
  apply NoDup_fmap_2_strong; [|apply NoDup_topic_indices].
  intros [k i] [k' i'] Hi Hi' Heq. simpl in *.
  apply (build_topic_inj Hp) in Heq as (_ & <- & Hs').
  apply elem_of_topic_indices in Hi, Hi'.
  destruct (subnetted k) eqn:Hk; [by rewrite Hs'|].
  f_equal. destruct k; simpl in *; done || lia.
Qed.

(** The sync committee topics come after the attestation topics. *)
Lemma default_sync_last d :
  sync_last ((λ ki, build_topic d ki.1 ki.2) <$> topic_indices c) = true.
Proof.
  set (part := λ ks, (λ ki, build_topic d ki.1 ki.2) <$>
    (ks ≫= λ k, (λ i, (k, Z.to_N i)) <$> seqZ 0 (subnet_count c k))).
  assert (∀ ks t, t ∈ part ks → ∃ k, k ∈ ks ∧ switch_kind t = Some k) as Hpart.
  { intros ks t ([k i] & -> & Hin)%list_elem_of_fmap. apply list_elem_of_bind in Hin
      as (k' & (j & [= -> ->] & _)%list_elem_of_fmap & Hk). exists k'. split; [done|].
    by apply switch_kind_build. }
  change (sync_last (part (take 4 kinds ++ drop 4 kinds)) = true).
  unfold part. rewrite bind_app, fmap_app. apply sync_last_app.
  - apply Forall_forall. intros t (k & Hk & ->)%Hpart [= ->]. by vm_compute in Hk; set_solver.
  - apply Forall_forall. intros t (k & Hk & ->)%Hpart [= ->]. by vm_compute in Hk; set_solver.
Qed.
End Topics.

(** ** Pruning *)

Section Prune.
Context `{Libp2p} {R PC : Type} `{Repository R} `{PeerCounter PC}.
Context `{Params, P2P, Slots, Hexutil, Bitfield, Math, Forks, PubSub} `{Encoder}.
Implicit Types (gs : GossipSub R PC) (pairs : list (string * float64)).

(** Every entry is the current score of its peer. *)
Definition scores_current gs (m : gmap string float64) : Prop :=
  ∀ pid s, m !! pid = Some s → get (gs_peerScore gs) pid = Ret s.

Lemma peer_scores_Ret gs conns m :
  (∀ c, c ∈ conns → ∃ s, get (gs_peerScore gs) (RemotePeer c) = Ret s) →
  scores_current gs m →
  ∃ m', peer_scores gs m conns = Ret m' ∧ scores_current gs m' ∧
    ∀ pid, is_Some (m' !! pid) ↔ is_Some (m !! pid) ∨ ∃ c, c ∈ conns ∧ RemotePeer c = pid.
Proof.
  revert m. induction conns as [|c conns IH]; intros m Hget Hm.
  { exists m. split_and!; [done|done|]. set_solver. }
  destruct (Hget c) as [s Hs]; [set_solver|].
  cbn [peer_scores]. unfold add_score. rewrite Hs. cbn [mbind outcome_bind].
  assert (scores_current gs (<[RemotePeer c := s]> m)) as Hins.
  { intros pid s'. rewrite lookup_insert_Some. intros [[<- <-]|[_ ?]]; auto. }
  set (m1 := match m !! RemotePeer c with
    | Some prev => if flt s prev then <[RemotePeer c := s]> m else m
    | None => <[RemotePeer c := s]> m end).
  assert (scores_current gs m1 ∧ ∀ pid, is_Some (m1 !! pid) ↔ is_Some (m !! pid) ∨ RemotePeer c = pid)
    as [Hm1 Hd1].
  { unfold m1. destruct (m !! RemotePeer c) as [prev|] eqn:Hprev; [destruct (flt s prev)|].
    - split; [done|]. intros pid. rewrite lookup_insert_is_Some'. tauto.
    - split; [done|]. intros pid. split; [tauto|]. intros [?|<-]; eauto.
    - split; [done|]. intros pid. rewrite lookup_insert_is_Some'. tauto. }
  destruct (IH m1) as (m' & Hm' & Hc' & Hd'); [intros; apply Hget; set_solver|done|].
  exists m'. split_and!; [done|done|]. intros pid. rewrite Hd', Hd1.
  setoid_rewrite elem_of_cons. naive_solver.
Qed.

(** Close a list of peers one after the other. *)
Definition close_all (h : LibHost) (pids : list string) : LibHost :=
  foldl (λ h pid, (Network_ClosePeer h pid).1) h pids.

Definition bad (p : string * float64) : bool := flt p.2 gossipThreshold.

Definition pruned gs (pids : list string) : GossipSub R PC :=
  set_gs_host gs (set_host (gs_host gs) (close_all (host_Host (gs_host gs)) pids)).

(** The loop closes the longest prefix whose members are within the excess or
    bad. *)
Lemma prune_loop_spec gs i excess pairs :
  (∀ p, p ∈ pairs → get (gs_peerScore gs) p.1 = Ret p.2) →
  ∃ closed kept, pairs = closed ++ kept ∧
    prune_loop gs i excess pairs = (pruned gs closed.*1, Ret (i + Z.of_nat (length closed))) ∧
    (∀ j p, closed !! j = Some p → i + Z.of_nat j < excess ∨ bad p = true) ∧
    (∀ p, head kept = Some p → excess <= i + Z.of_nat (length closed) ∧ bad p = false).
Proof.
  revert gs i. induction pairs as [|p pairs IH]; intros gs i Hget.
  { exists [], []. split_and!; [done| |done|done]. unfold pruned. simpl.
    destruct gs as [? []]. simpl. f_equal. f_equal. lia. }
  cbn [prune_loop]. unfold isBadPeer. rewrite (Hget p) by set_solver. cbn [mbind outcome_bind].
  destruct ((i <? excess) || bad p) eqn:Hclose.
  - assert ((if i <? excess then Ret true else Ret (flt p.2 gossipThreshold)) = Ret true) as ->.
    { destruct (i <? excess); [done|]. by rewrite <-Hclose. }
    set (gs1 := set_gs_host gs _).
    destruct (IH gs1 (i + 1)) as (closed & kept & -> & Hl & Hc & Hk).
    { intros q Hq. apply (Hget q). set_solver. }
    exists (p :: closed), kept. split_and!; [done| | |].
    + rewrite Hl. unfold pruned, gs1. simpl. f_equal. f_equal. lia.
    + intros [|j] q Hq; simpl in Hq.
      * simplify_eq. apply orb_prop in Hclose as [Hi|Hb]; [left|by right].
        apply Z.ltb_lt in Hi. lia.
      * destruct (Hc j q Hq); [left; lia|by right].
    + intros q Hq. destruct (Hk q Hq). split; [|done]. simpl length. lia.
  - apply orb_false_iff in Hclose as [Hi Hb]. rewrite Hi.
    fold (bad p). rewrite Hb. exists [], (p :: pairs). split_and!; [done| |done|].
    + unfold pruned. simpl. destruct gs as [? []]. simpl. f_equal. f_equal. lia.
    + intros q [= <-]. apply Z.ltb_ge in Hi. split; [simpl; lia|done].
Qed.

Lemma filter_all {A} (P : A → Prop) `{∀ x, Decision (P x)} l : Forall P l → filter P l = l.
Proof. induction 1 as [|x l Hx Hl IH]; [done|]. rewrite filter_cons_True by done. by rewrite IH. Qed.

Lemma close_all_conns `{!Libp2pLaws} h pids conns :
  Network_Conns h = Some conns →
  Network_Conns (close_all h pids) = Some (filter (λ c, RemotePeer c ∉ pids) conns).
Proof.
  revert h conns. induction pids as [|pid pids IH]; intros h conns Hc; simpl.
  { rewrite Hc. f_equal. symmetry. apply filter_all, Forall_forall. set_solver. }
  rewrite (IH _ _ (ClosePeer_conns h pid conns Hc)). f_equal.
  rewrite list_filter_filter. apply list_filter_iff. intros c. set_solver.
Qed.
End Prune.

Section PruneFacts.
Context `{Libp2p} {R PC : Type}.
Implicit Types (gs : GossipSub R PC).

Lemma strict_weak_scores (l l' : list (string * float64)) :
  (∀ p, p ∈ l ↔ p ∈ l') → (∀ p, p ∈ l → is_nan p.2 = false) → strict_weak score_less l'.
Proof.
  intros Hl Hn. unfold score_less. split.
  - intros a _. apply flt_irrefl.
  - intros a b c Ha%Hl Hb%Hl Hc%Hl. apply flt_trans; auto.
  - intros a b c Ha%Hl Hb%Hl Hc%Hl. apply flt_neg_trans; auto.
Qed.

(** The total of the host is the number of entries of the score map. *)
Lemma total_peer_count gs conns (m : gmap string float64) :
  Network_Conns (host_Host (gs_host gs)) = Some conns →
  (∀ pid, is_Some (m !! pid) ↔ ∃ c, c ∈ conns ∧ RemotePeer c = pid) →
  host_TotalPeerCount (gs_host gs) = Ret (Z.of_nat (length (map_to_list m))) ∧
  (length (map_to_list m) <= length conns)%nat.
Proof.
  intros Hc Hdom. split.
  - unfold host_TotalPeerCount, count_peers. rewrite Hc. simpl. f_equal.
    rewrite (peer_set_counts (λ _, true) conns (map_to_list m).*1).
    + by rewrite length_fmap.
    + apply NoDup_fst_map_to_list.
    + intros pid. transitivity (is_Some (m !! pid)).
      * rewrite list_elem_of_fmap. split.
        -- intros ([? s] & -> & Hs%elem_of_map_to_list). by exists s.
        -- intros [s Hs]. exists (pid, s). split; [done|]. by apply elem_of_map_to_list.
      * rewrite Hdom. naive_solver.
  - rewrite <-(length_fmap fst), <-(length_fmap RemotePeer conns).
    apply submseteq_length, NoDup_submseteq; [apply NoDup_fst_map_to_list|].
    intros pid ([pid' s] & -> & Hs%elem_of_map_to_list)%list_elem_of_fmap.
    destruct (proj1 (Hdom pid')) as (c & Hin & Hp); [by eauto|].
    apply list_elem_of_fmap. by exists c.
Qed.
End PruneFacts.

(** ** Joining *)

Section Join.
Context `{Libp2p} {R PC : Type} `{Repository R} `{PeerCounter PC}.
Context `{Params, P2P, Slots, Hexutil, Bitfield, Math, Forks, PubSub} `{Encoder}.
Implicit Types (gs : GossipSub R PC).

(** The service of a topic. *)
Definition topic_service gs (topic : string) : Subscription (GossipSub R PC) :=
  newSubscription (host_ID (host_Host (gs_host gs))) topic (mappingTopicToHandler topic).

(** The pubsub handle after a list of topics was joined and subscribed. *)
Fixpoint joins (h : PubSubHandle) (topics : list string) : option PubSubHandle :=
  match topics with
  | [] => Some h
  | t :: topics =>
      match pubsub_Join h t with
      | inl _ => None
      | inr h =>
          match topic_Subscribe h t with
          | inl _ => None
          | inr h => joins h topics
          end
      end
  end.

(** Joined topics add their services, in order. *)
Lemma join_topics_prefix gs h h' pre rest subs :
  joins h pre = Some h' →
  join_topics gs h (pre ++ rest) subs = join_topics gs h' rest (subs ++ (topic_service gs <$> pre)).
Proof.
  revert h subs. induction pre as [|t pre IH]; intros h subs; simpl.
  { intros [= ->]. by rewrite app_nil_r. }
  destruct (pubsub_Join h t) as [e|h1]; [done|]. destruct (topic_Subscribe h1 t) as [e|h2]; [done|].
  intros Hj. rewrite (IH _ _ Hj). by rewrite <-(assoc_L (++)).
Qed.

(** The configuration [Serve] creates pubsub with. *)
Definition start_config gs (size : Z) (score : PeerScoreParams * PeerScoreThresholds)
    : pubsub_config OtherParams :=
  {| pc_params := gossipSubParams; pc_StrictNoSign := true; pc_NoAuthor := true;
     pc_MaxMessageSize := size; pc_PeerScore := score;
     pc_InspectPeriod := inspectPeriod (gs_peerScore gs) |}.
End Join.

(** ** Properties *)

Section Claims.
Context `{Libp2p} {R PC : Type} `{Repository R} `{PeerCounter PC}.
Context `{Params, P2P, Slots, Hexutil, Bitfield, Math, Forks, PubSub} `{Encoder}.
Implicit Types (gs : GossipSub R PC).

(** C11. The default topics are exactly the topics of every kind and configured
    subnet, each once; and every place that takes a topic apart recognises
    what it was built from: the handler table and the peer score table select
    the kind, the topic group of a record is the kind's message name, and
    splitting gives back the fork digest in hex and the name with its subnet. *)
Theorem topics_recognised (net d : string) (ps : peerScore)
  (Hs : supported net = true) (Hp : p2p_ok = true) :
  (∃ topics, all_topics net d = Ret topics ∧ NoDup topics ∧
     ∀ t, t ∈ topics ↔ ∃ k i, t = build_topic d k i ∧
       Z.of_N i < subnet_count (chain_config net) k) ∧
  ∀ k i, let t := build_topic d k i in
    mappingTopicToHandler (R := R) (PC := PC) t = handler_of k ∧
    topic_params net ps t = score_of net ps k ∧
    TopicToTopicGroup t = msg_name k ∧
    parseEth2Topic t = Ret (EncodeToString d, topic_name k i).
Proof.
  split.
  - eexists. split; [by apply all_topics_eq|]. split; [by apply NoDup_topics|].
    intros t. rewrite list_elem_of_fmap. split.
    + intros ([k i] & -> & Hki). exists k, i. split; [done|].
      by apply elem_of_topic_indices in Hki.
    + intros (k & i & -> & Hi). exists (k, i). split; [done|]. by apply elem_of_topic_indices.
  - intros k i. simpl.
    rewrite mapping_switch, topic_params_switch, switch_kind_build by done.
    split_and!; [done|done|by apply TopicToTopicGroup_build|by apply parse_build].
Qed.

(** A service is created only with a host and a positive estimate of
    validators. It then has the given topics or, for none, the default ones of
    the current fork digest, and runs at the version of a scheduled fork, so
    that its handlers know their message types. *)
Theorem new_gossip_sub (net : string) (now : Time)
  (opts : list (GossipSubOption R PC → GossipSubOption R PC)) (gs : GossipSub R PC)
  (Hs : supported net = true) (Hf : forks_ok (chain_config net) = true)
  (He : ∀ g, 0 <= slots_ToEpoch (slots_Since g now)) :
  let o := apply_opts opts gossip_defaults in
  NewGossipSub net now opts = Ret gs →
  opt_host o = Some (gs_host gs) ∧ opt_estimateActiveValidators o ≠ 0 ∧
  (opt_topics o = gs_topics gs ∨
   opt_topics o = [] ∧ default_topics net = Ret (gs_topics gs)) ∧
  gs_beaconConfig gs = chain_config net ∧
  (∃ f, gs_forkVersion gs = version_of (gs_beaconConfig gs) f) ∧
  gs_peerScore gs = newPeerScore (opt_estimateActiveValidators o) (gs_topics gs)
    (opt_peerScoreInspectPeriod o).
Proof.
  intros o Hgs. apply NewGossipSub_inv in Hgs as (Hh & Hest & _ & _ & Hconf & Hfv & Ht & Hps).
  rewrite GetBeaconChainConfig_supported in Hconf by done. injection Hconf as Hconf.
  split_and!; [done|done|done|done| |done]. rewrite <-Hconf.
  unfold GetCurrentForkVersion in Hfv. apply bind_Ret_inv in Hfv as (g & _ & Hfv).
  unfold GetForkVersion in Hfv. rewrite GetBeaconChainConfig_supported in Hfv by done.
  simpl in Hfv. rewrite fork_version_active in Hfv by done.
  destruct (active_fork_latest _ _ Hf (He (GenesisTime g))) as ([e v] & Ha & Hin & _).
  rewrite Ha in Hfv. injection Hfv as <-. unfold forks in Hin. simpl.
  rewrite !elem_of_cons, elem_of_nil in Hin.
  destruct Hin as [[= _ ->]|[[= _ ->]|[[= _ ->]|[[= _ ->]|[[= _ ->]|[[= _ ->]|[]]]]]]];
    [by exists Genesis|by exists Altair|by exists Bellatrix|by exists Capella
    |by exists Deneb|by exists Electra].
Qed.

(** C32. On a usable configuration, with at least three validators per attestation
    subnet and slot and per sync committee subnet, a service created with its
    default topics computes its score parameters without panic, with an entry
    for each of its topics and no other. The call leaves the estimate capped by
    the sync committee size if a sync committee topic is among them; the
    default topics have them after the attestation topics, so that the
    attestation parameters are computed from the estimate given. *)
Theorem score_params_complete `{!MathLaws} (net : string) (now : Time)
  (opts : list (GossipSubOption R PC → GossipSubOption R PC)) (gs : GossipSub R PC)
  (Hs : supported net = true) (Hp : p2p_ok = true) (Hc : config_ok (chain_config net) = true)
  (Hcs : score_config_ok (chain_config net) = true) (Hsize : 0 <= SyncCommitteeSize (chain_config net))
  (Hdefault : opt_topics (apply_opts opts gossip_defaults) = [])
  (Hgs : NewGossipSub net now opts = Ret gs) :
  let est := opt_estimateActiveValidators (apply_opts opts gossip_defaults) in
  0 <= est < 2 ^ 63 → att_ok (chain_config net) est = true → sync_ok (chain_config net) est = true →
  ∃ ps' sp, PeerScore.params net (gs_peerScore gs) = (ps', Ret (sp, score_thresholds)) ∧
    dom (score_Topics sp) = list_to_set (gs_topics gs) ∧
    ps' = if bool_decide (Exists (λ t, switch_kind t = Some KSync) (gs_topics gs))
          then capped (chain_config net) (gs_peerScore gs) else gs_peerScore gs.
Proof.
  intros est Hest Hatt Hsync.
  apply NewGossipSub_inv in Hgs as (_ & _ & _ & _ & _ & _ & Ht & Hps).
  assert (sync_last (gs_topics gs) = true) as Hlast.
  { destruct Ht as [Ht|[_ Ht]]; [by rewrite <-Ht, Hdefault|].
    unfold default_topics in Ht. apply bind_Ret_inv in Ht as (g & _ & Ht).
    apply bind_Ret_inv in Ht as (d & _ & Ht). rewrite all_topics_eq in Ht by done.
    injection Ht as <-. by apply default_sync_last. }
  rewrite Hps. by apply (params_complete net (newPeerScore est (gs_topics gs) _)).
Qed.

(** C36. Starting the service adds one subscription per topic, in order, each with
    the node's own id and the handler of its topic, if every topic can be joined
    and subscribed. Otherwise it fails with the error that names the first topic
    that cannot, and the subscriptions of exactly the topics before it stay
    added. If the score parameters panic, or pubsub cannot be created, it panics
    likewise or returns that error, and no subscription is added. *)
Theorem start_subscribes (net : string) (gs : GossipSub R PC) (size : Z) (ps : peerScore)
  (Hsize : maxMessageSize net = Ret size) :
  let gs' := set_score gs ps in
  (∀ v, PeerScore.params net (gs_peerScore gs) = (ps, Panicked v) →
     start net gs = (gs', [], Panicked v)) ∧
  ∀ score, PeerScore.params net (gs_peerScore gs) = (ps, Ret score) →
    match pubsub_New (start_config gs' size score) with
    | inl e => start net gs = (gs', [], Fail (errors_Wrap e "failed to create gossipSub"))
    | inr h =>
        (is_Some (joins h (gs_topics gs)) →
           start net gs = (gs', topic_service gs <$> gs_topics gs, Ret ())) ∧
        ∀ pre t post h1, gs_topics gs = pre ++ t :: post → joins h pre = Some h1 →
          (∀ e, pubsub_Join h1 t = inl e →
             start net gs = (gs', topic_service gs <$> pre,
               Fail (errors_Wrap e ("failed to join topic " +:+ t)))) ∧
          (∀ e h2, pubsub_Join h1 t = inr h2 → topic_Subscribe h2 t = inl e →
             start net gs = (gs', topic_service gs <$> pre,
               Fail (errors_Wrap e ("failed to subscribe topic " +:+ t))))
    end.
Proof.
  intros gs'. split; [intros v Hps|intros score Hps].
  { unfold start. by rewrite Hsize, Hps. }
  assert (start net gs = match pubsub_New (start_config gs' size score) with
    | inl e => (gs', [], Fail (errors_Wrap e "failed to create gossipSub"))
    | inr h => let '(subs, r) := join_topics gs' h (gs_topics gs) [] in (gs', subs, r)
    end) as -> by (unfold start; by rewrite Hsize, Hps).
  destruct (pubsub_New _) as [e|h]; [done|]. split.
  - intros [h' Hj]. pose proof (join_topics_prefix gs' h h' (gs_topics gs) [] [] Hj) as Hp.
    rewrite app_nil_r in Hp. by rewrite Hp.
  - intros pre t post h1 -> Hj. rewrite (join_topics_prefix gs' h h1) by done. simpl.
    split; [by intros e ->|]. by intros e h2 -> ->.
Qed.

(** C10. From the topic to the record: a message of a slot-bearing kind arriving on
    a built topic of that kind is handled without error by the topic's handler
    and leaves in the cache, under its slot and id, a record (the first to
    arrive) whose topic group is the kind's name and whose fork version and
    topic are those the topic was built from. *)
Theorem gossip_message_recorded gs p (d : string) (k : kind) (i : N) (f : fork) now msg ty m slot pc n
  (Hp2p : p2p_ok = true) (Hforks : forks_ok (gs_beaconConfig gs) = true)
  (Hf : gs_forkVersion gs = version_of (gs_beaconConfig gs) f)
  (Hproc : gs_messageProcessor gs = Some p)
  (Hext : extractors p = newSlotExtractorRegistry)
  (Hpc : peerCounter p = Some pc) (Hn : TotalPeerCount pc = Ret n)
  (Htopic : msg_Topic msg = build_topic d k i)
  (Hty : decoded_type k f = Some ty)
  (Hdec : DecodeGossip (msg_Data msg) ty = inr m)
  (Hslot : slot_of m = Ret (slotMessage, slot))
  (Hnew : cached (slotCache p) slot (EncodeToString (msg_ID msg)) = None) :
  ∃ p' st, mappingTopicToHandler (msg_Topic msg) gs now msg = (set_processor gs p', Ret ()) ∧
    cached (slotCache p') slot (EncodeToString (msg_ID msg)) = Some st ∧
    TopicGroup st = msg_name k ∧ ForkVersion st = EncodeToString d ∧ Topic st = topic_name k i ∧
    Slot st = slot ∧ FirstArrivalTime st = now ∧ NodePeerCount st = u32 n.
Proof.
  rewrite mapping_switch, Htopic, switch_kind_build by done. cbn [from_option].
  rewrite (handler_at_fork _ _ _ _ f) by done. rewrite Hty. unfold process_as. rewrite Hproc.
  pose proof (parse_build Hp2p d k i) as Hparse. rewrite <-Htopic in Hparse.
  destruct (Process_slot p now msg ty m slot _ _ pc n Hdec Hslot Hparse Hpc Hn Hext)
    as (p' & st & Hpr & _ & Hst & Hc & _).
  rewrite Hpr. exists p', st. split; [done|].
  rewrite Hc, bool_decide_true, Hnew by done.
  apply slot_record_fields in Hst as (H1' & _ & H3' & H4' & _ & _ & H7' & _ & _ & _ & pc' & n' & Hpc' & Hn' & H11').
  simpl in *. rewrite Hparse in H4'. simplify_eq.
  rewrite Htopic, TopicToTopicGroup_build in H3' by done.
  split_and!; congruence.
Qed.

(** The sorted pairs a prune works on: the connected peers with their scores. *)
Lemma prune_pairs (o : order (string * float64)) (sort : sorter (string * float64)) gs conns :
  (∀ c, c ∈ conns → ∃ s, get (gs_peerScore gs) (RemotePeer c) = Ret s ∧ is_nan s = false) →
  ∃ m, peer_scores gs ∅ conns = Ret m ∧
    (∀ pid, is_Some (m !! pid) ↔ ∃ c, c ∈ conns ∧ RemotePeer c = pid) ∧
    let pairs := sort score_less (o (map_to_list m)) in
    pairs ≡ₚ map_to_list m ∧
    (∀ p, p ∈ pairs → get (gs_peerScore gs) p.1 = Ret p.2 ∧ is_nan p.2 = false) ∧
    StronglySorted (λ a b, score_less b a = false) pairs.
Proof.
  intros Hscore. destruct (peer_scores_Ret gs conns ∅) as (m & Hm & Hcur & Hdom).
  { intros c Hc. destruct (Hscore c Hc) as (s & ? & _). eauto. }
  { intros pid s. by rewrite lookup_empty. }
  assert (∀ pid, is_Some (m !! pid) ↔ ∃ c, c ∈ conns ∧ RemotePeer c = pid) as Hdom'.
  { intros pid. rewrite Hdom, lookup_empty. split; [intros [[? [=]]|?]; done|by right]. }
  exists m. split_and!; [done..|]. set (pairs := sort score_less (o (map_to_list m))).
  assert (pairs ≡ₚ map_to_list m) as Hperm by (unfold pairs; by rewrite sort_perm, ord_perm).
  assert (∀ p, p ∈ pairs → get (gs_peerScore gs) p.1 = Ret p.2 ∧ is_nan p.2 = false) as Hget.
  { intros [pid s]. rewrite Hperm, elem_of_map_to_list. intros Hl. simpl.
    destruct (proj1 (Hdom' pid)) as (c & Hc & Hpid); [by exists s|].
    destruct (Hscore c Hc) as (s' & Hs & Hsn). rewrite Hpid in Hs.
    pose proof (Hcur _ _ Hl) as Hg. rewrite Hs in Hg. injection Hg as ->. done. }
  split_and!; [done..|]. apply sort_sorted, (strict_weak_scores pairs).
  - intros p. unfold pairs. by rewrite sort_perm.
  - intros p Hp. by apply Hget.
Qed.

(** Past the first peer of the sorted list that is not bad, none is. *)
Lemma kept_not_bad closed kept p :
  StronglySorted (λ a b, score_less b a = false) (closed ++ kept) →
  (∀ q, q ∈ closed ++ kept → is_nan q.2 = false) →
  (∀ q, head kept = Some q → bad q = false) → p ∈ kept → bad p = false.
Proof.
  intros Hsorted Hnan Hkept Hp. destruct kept as [|q kept]; [by apply not_elem_of_nil in Hp|].
  assert (score_less p q = false) as Hpq.
  { apply StronglySorted_app_1_r, StronglySorted_cons in Hsorted as [Hall _].
    apply elem_of_cons in Hp as [->|Hp]; [apply flt_irrefl|].
    rewrite Forall_forall in Hall. by apply Hall. }
  apply (flt_neg_trans p.2 q.2); [apply Hnan; set_solver|apply Hnan; set_solver|done|done|].
  by apply Hkept.
Qed.

(** C17. Pruning disconnects the worst peers and no more than needed. With a
    comparable score for every connected peer, whatever the map order and the
    sort: the closed peers come first by score, one is closed only while the
    node is over its target or its own score is below -100; afterwards no peer
    below -100 is left, at most the target number of peers remains, exactly
    the connections of the closed peers are gone, and the count returned is
    theirs. *)
Theorem prune_exact `{!Libp2pLaws} (o : order (string * float64))
  (sort : sorter (string * float64)) gs conns
  (Hconns : Network_Conns (host_Host (gs_host gs)) = Some conns)
  (Hscore : ∀ c, c ∈ conns →
     ∃ s, get (gs_peerScore gs) (RemotePeer c) = Ret s ∧ is_nan s = false)
  (Hrange : 0 <= TargetPeerCount (gs_host gs) < 2 ^ 62 ∧ Z.of_nat (length conns) < 2 ^ 62) :
  ∃ closed kept, prune o sort gs = (pruned gs closed.*1, Ret (Z.of_nat (length closed))) ∧
    NoDup (closed.*1 ++ kept.*1) ∧
    (∀ pid, pid ∈ closed.*1 ++ kept.*1 ↔ ∃ c, c ∈ conns ∧ RemotePeer c = pid) ∧
    (∀ p, p ∈ closed ++ kept → get (gs_peerScore gs) p.1 = Ret p.2) ∧
    (∀ a b, a ∈ closed → b ∈ kept → flt b.2 a.2 = false) ∧
    (∀ j p, closed !! j = Some p →
       TargetPeerCount (gs_host gs) < Z.of_nat (length (closed ++ kept)) - Z.of_nat j ∨
       bad p = true) ∧
    (∀ p, p ∈ kept → bad p = false) ∧
    Z.of_nat (length kept) <= TargetPeerCount (gs_host gs) ∧
    Network_Conns (host_Host (gs_host (pruned gs closed.*1))) =
      Some (filter (λ c, RemotePeer c ∉ closed.*1) conns).
Proof.
  destruct (prune_pairs o sort gs conns Hscore) as (m & Hm & Hdom & Hpairs).
  set (pairs := sort score_less (o (map_to_list m))) in Hpairs.
  destruct Hpairs as (Hperm & Hget & Hsorted).
  destruct (total_peer_count gs conns m Hconns Hdom) as [Htotal Hlen].
  destruct (prune_loop_spec gs 0 (i64 (Z.of_nat (length pairs) - TargetPeerCount (gs_host gs)))
    pairs) as (closed & kept & Heq & Hloop & Hclosed & Hkept).
  { intros p Hp. by apply Hget. }
  exists closed, kept. assert (length pairs = length (map_to_list m)) as Hlp by by rewrite Hperm.
  rewrite i64_small in Hloop, Hclosed, Hkept by (unfold is_i64; lia).
  rewrite <-fmap_app, <-Heq. split_and!.
  - unfold prune. rewrite Hconns, Hm, Htotal. fold pairs. rewrite <-Hlp.
    rewrite i64_small by (unfold is_i64; lia). by rewrite Hloop.
  - rewrite Hperm. apply NoDup_fst_map_to_list.
  - intros pid. rewrite <-Hdom, Hperm, list_elem_of_fmap. split.
    + intros ([pid' s] & -> & Hp%elem_of_map_to_list). by exists s.
    + intros [s Hs]. exists (pid, s). split; [done|]. by apply elem_of_map_to_list.
  - intros p Hp. by apply Hget.
  - intros a b Ha Hb. rewrite Heq in Hsorted.
    exact (StronglySorted_app_1_elem_of _ _ _ _ _ Hsorted Ha Hb).
  - intros j p Hj. destruct (Hclosed j p Hj); [left; lia|by right].
  - rewrite Heq in Hsorted, Hget. intros p. apply (kept_not_bad closed); [done|..].
    + intros q Hq. by apply Hget.
    + intros q Hq. by apply Hkept.
  - destruct kept as [|q kept]; [simpl; lia|].
    destruct (Hkept q eq_refl) as [Hex _]. rewrite Heq, length_app in Hex. lia.
  - simpl. by apply close_all_conns.
Qed.
End Claims.

(** ** Witnesses *)

(** A pubsub that accepts every topic but one named "full". *)
Definition open_pubsub : PubSub := {|
  OtherParams := unit;
  DefaultGossipSubParams := {| gp_D := 6; gp_Dlo := 5; gp_Dhi := 12; gp_HistoryLength := 5;
    gp_HistoryGossip := 3; gp_HeartbeatInterval := Second; gp_other := () |};
  PubSubHandle := list string;
  pubsub_New := λ _, inr [];
  pubsub_Join := λ h t, if bool_decide (t = "full") then inl (error_ext "full") else inr (t :: h);
  topic_Subscribe := λ h _, inr h;
  MsgID := λ root topic data, root +:+ topic +:+ data;
  MaxCompressedLen := λ n, 32 + n + n / 6;
  ethmath_Max := Z.max;
|}.

Section Witnesses.
#[local] Existing Instance list_types.
#[local] Existing Instance list_libp2p.
#[local] Existing Instance list_libp2p_laws.
#[local] Existing Instance log_repository.
#[local] Existing Instance fixed_peers.
#[local] Existing Instance prysm_params.
#[local] Existing Instance prysm_p2p.
#[local] Existing Instance clock_slots.
#[local] Existing Instance hex_hexutil.
#[local] Existing Instance set_bitfield.
#[local] Existing Instance half_math.
#[local] Existing Instance half_math_laws.
#[local] Existing Instance fixed_forks.
#[local] Existing Instance open_pubsub.
#[local] Existing Instance sample_encoder.

(** Electra on mainnet, with three peers of scores -200, 1 and 0. *)
Definition sample_gossip : GossipSub log_repo Z :=
  MkGossipSub (suture_NewSimple "gossipSub") (list_host [MkConn "a" DirInbound; MkConn "bad" DirInbound;
      MkConn "a" DirOutbound; MkConn "b" DirOutbound] 1)
    (inspect (newPeerScore 1000000 [] (12 * Second))
       {["a" := Some (float_of_Z 1); "bad" := Some (float_of_Z (-200))]})
    [] (version 5) mainnet (Some sample_proc).

Lemma topics_recognised_witness :
  mappingTopicToHandler (R := log_repo) (PC := Z)
    (build_topic "jjjj" KContribution 0) = syncCommitteeContributionAndProofHandler.
Proof.
  destruct (topics_recognised (R := log_repo) (PC := Z) "mainnet" "jjjj"
    (newPeerScore 0 [] 0)) as [_ Hk]; [vm_compute; reflexivity..|].
  destruct (Hk KContribution 0%N) as [Hm _]. exact Hm.
Defined.

Lemma handlers_by_fork_witness :
  beaconAttestationHandler sample_gossip (after_genesis 5) sample_message =
  process_as sample_gossip (after_genesis 5) sample_message T_SingleAttestation
    "failed to process attestation message" ∧
  attesterSlashingHandler sample_gossip (after_genesis 5) sample_message =
  process_as sample_gossip (after_genesis 5) sample_message T_AttesterSlashing
    "failed to process attester slashing message".
Proof.
  destruct (handlers_by_fork sample_gossip (after_genesis 5) sample_message KAttestation)
    as (Hf & Hs & _); [vm_compute; reflexivity|]. split.
  - apply (Hf Electra); [vm_compute; reflexivity|discriminate].
  - apply Hs. vm_compute. reflexivity.
Defined.

(** The subscription of the block topic takes two blocks of other peers, one of them
    undecodable, and one of its own. *)
Lemma subscription_serves_witness :
  let topic := build_topic "jjjj" KBlock 0 in
  let msg from data := (after_genesis 1201,
    {| ReceivedFrom := from; msg_Topic := topic; msg_ID := "id"; msg_Data := data |}) in
  let msgs := [msg "a" "block"; msg "self" "block"; msg "b" ""] in
  let sub := topic_service sample_gossip topic in
  Subscription.Serve sub sample_gossip (sub_msgs msgs ++ [SubDone]) =
    SubResult (handle_all sub sample_gossip msgs) true (Some (Ret ())) ∧
  gs_messageProcessor (handle_all sub sample_gossip msgs) ≠ gs_messageProcessor sample_gossip.
Proof.
  intros topic msg msgs sub.
  destruct (subscription_serves sub sample_gossip msgs) as (_ & Hd & _).
  - apply quietb_quiet. vm_compute. reflexivity.
  - split; [exact (Hd [])|]. intros Heq.
    apply (f_equal (λ op, length (records (default NewSlotCacheStore (slotCache <$> op))))) in Heq.
    vm_compute in Heq. discriminate Heq.
Defined.

(** A service on mainnet with a million validators. *)
Lemma score_params_complete_witness :
  ∃ gs, NewGossipSub (R := log_repo) (PC := Z) "mainnet" (after_genesis 5)
    [GossipSub.WithHost (Some (list_host [] 50)); WithEstimateActiveValidators 1000000] = Ret gs ∧
  is_ret (PeerScore.params "mainnet" (gs_peerScore gs)).2 = true.
Proof.
  destruct (NewGossipSub (R := log_repo) (PC := Z) "mainnet" (after_genesis 5)
    [GossipSub.WithHost (Some (list_host [] 50)); WithEstimateActiveValidators 1000000])
    as [gs|e|v] eqn:Hgs; [|vm_compute in Hgs; discriminate..].
  exists gs. split; [reflexivity|].
  destruct (score_params_complete (R := log_repo) (PC := Z) "mainnet" (after_genesis 5)
    [GossipSub.WithHost (Some (list_host [] 50)); WithEstimateActiveValidators 1000000] gs)
    as (ps & sp & Hp & _).
  - vm_compute. reflexivity.
  - vm_compute. reflexivity.
  - vm_compute. reflexivity.
  - vm_compute. reflexivity.
  - vm_compute. congruence.
  - reflexivity.
  - exact Hgs.
  - vm_compute. split; congruence.
  - vm_compute. reflexivity.
  - vm_compute. reflexivity.
  - rewrite Hp. reflexivity.
Defined.

(** Without a topic the score parameters need no estimate. *)
Lemma sample_params : ∃ ps score,
  PeerScore.params "mainnet" (newPeerScore 1000000 [] (12 * Second)) = (ps, Ret score).
Proof.
  destruct (PeerScore.params "mainnet" (newPeerScore 1000000 [] (12 * Second)))
    as [ps [score|e|v]] eqn:Hps; [by eexists _, _|vm_compute in Hps; discriminate..].
Qed.

Definition two_topics : list string := [build_topic "jjjj" KBlock 0; build_topic "jjjj" KExit 0].
Definition starting : GossipSub log_repo Z :=
  MkGossipSub (suture_NewSimple "gossipSub") (list_host [] 1) (newPeerScore 1000000 [] (12 * Second))
    two_topics (version 5) mainnet (Some sample_proc).

(** With every topic open, the two subscriptions are added. *)
Lemma start_subscribes_witness :
  (start "mainnet" starting).1.2 = topic_service starting <$> two_topics.
Proof.
  destruct sample_params as (ps & score & Hps).
  assert (∃ size, maxMessageSize "mainnet" = Ret size) as [size Hsize] by (by eexists).
  destruct (start_subscribes "mainnet" starting size ps Hsize) as [_ Hok].
  specialize (Hok score Hps). destruct Hok as [Hall _].
  rewrite Hall; [reflexivity|]. eexists. vm_compute. reflexivity.
Defined.

Definition sync_message : Message := {|
  ReceivedFrom := "peer"; msg_Topic := build_topic "jjjj" KSync 3;
  msg_ID := "id"; msg_Data := "sync" |}.

Lemma gossip_message_recorded_witness :
  ∃ p', mappingTopicToHandler (msg_Topic sync_message) sample_gossip (after_genesis 1201)
    sync_message = (set_processor sample_gossip p', Ret ()).
Proof.
  destruct (gossip_message_recorded sample_gossip sample_proc "jjjj" KSync 3 Electra
    (after_genesis 1201) sync_message T_SyncCommitteeMessage (SyncCommitteeMessage 100) 100 42 42)
    as (p' & st & Hp & _); [vm_compute; reflexivity..|].
  exists p'. exact Hp.
Defined.

Lemma prune_exact_witness :
  ∃ closed kept : list (string * float64), prune id_order insertion_sorter sample_gossip =
    (pruned sample_gossip closed.*1, Ret (Z.of_nat (length closed))) ∧
    Z.of_nat (length kept) <= 1 ∧ ∀ p, p ∈ kept → bad p = false.
Proof.
  destruct (prune_exact id_order insertion_sorter sample_gossip [MkConn "a" DirInbound;
    MkConn "bad" DirInbound; MkConn "a" DirOutbound; MkConn "b" DirOutbound])
    as (closed & kept & Hp & _ & _ & _ & _ & _ & Hk & Hl & _); [reflexivity| | |].
  - intros c Hc. rewrite !elem_of_cons, elem_of_nil in Hc.
    destruct Hc as [->|[->|[->|[->|[]]]]]; eexists; split; vm_compute; reflexivity.
  - vm_compute. split; [split|]; congruence.
  - exists closed, kept. split; [exact Hp|]. split; [exact Hl|exact Hk].
Defined.
End Witnesses.
