(* ===== verification/Dialer.v ===== *)
(** * peering/dialer.go: dialing discovered peers

    Between two turns of the loop the network changes: an event carries the host
    as the turn sees it. A turn's effect is an action; the dial itself runs in a
    goroutine with a timeout. *)

From S2P Require Import Prelude GoStrings GoTime GoFloat GoNet Processor Host.
Local Open Scope Z_scope.

Definition ConnTimeout : Duration := 2 * Second.

(** A receive-only channel, by identity. *)
Definition chan := positive.

Section Dialer.
Context `{Libp2p}.

Record Dialer := MkDialer {
  d_host : Host;
  d_discovers : chan;
}.

Definition NewDialer (host : ptr Host) (discovers : ptr chan) : outcome Dialer :=
  h ← ok_or host "host should be configured when creating dialer";
  c ← ok_or discovers "discovers channel should be configured when creating dialer";
  Ret (MkDialer h c).

Inductive dial_action :=
  | Skip
  | Sleep (d : Duration)
  | Dial (timeout : Duration) (ai : AddrInfo Multiaddr).

(** The body of a turn that received [ai]; [&&] reads the total only if needed. *)
Definition dial_step (h : Host) (ai : AddrInfo Multiaddr) : outcome dial_action :=
  if bool_decide (ai_ID ai = host_ID (host_Host h)) then Ret Skip else
  out ← OutboundPeerCount h;
  full ← (if fge (float_of_Z out) (fmul (float_of_Z (TargetPeerCount h)) (flit 2 10))
          then total ← host_TotalPeerCount h; Ret (TargetPeerCount h <=? total)
          else Ret false);
  Ret (if full : bool then Sleep Second else Dial ConnTimeout ai).

(** The goroutine of a dial: its error is dropped. *)
Definition run_dial (h : Host) (ai : AddrInfo Multiaddr) : Host :=
  set_host h (host_Connect (host_Host h) ai).1.

Inductive dial_event :=
  | DlDone (ctxErr : error)
  | DlClosed
  | DlFound (h : Host) (ai : AddrInfo Multiaddr).

(** The actions, and how [Serve] returned, if it did. *)
Fixpoint Serve (evs : list dial_event) : list dial_action * option (outcome unit) :=
  match evs with
  | [] => ([], None)
  | DlDone e :: _ => ([], Some (Fail e))
  | DlClosed :: _ => ([], Some (Ret ()))
  | DlFound h ai :: evs =>
      match dial_step h ai with
      | Ret a => let '(l, r) := Serve evs in (a :: l, r)
      | Fail e => ([], Some (Fail e))
      | Panicked v => ([], Some (Panicked v))
      end
  end.

(** ** Lemmas *)

(** The smallest number of outbound peers that is a fifth of the target. *)
Definition fifth (target : Z) : Z := (target + 4) / 5.

(** Checked for every target below 10000. *)
Lemma fifth_exact target :
  0 <= target < 10000 →
  fle (fmul (float_of_Z target) (flit 2 10)) (float_of_Z (fifth target)) = true ∧
  (0 < target → flt (float_of_Z (fifth target - 1)) (fmul (float_of_Z target) (flit 2 10)) = true).
Proof.
  intros Ht.
  set (check := λ t : Z, fle (fmul (float_of_Z t) (flit 2 10)) (float_of_Z (fifth t)) &&
    ((t =? 0) || flt (float_of_Z (fifth t - 1)) (fmul (float_of_Z t) (flit 2 10)))).
  assert (forallb check (seqZ 0 10000) = true) as Hall by (vm_compute; reflexivity).
  rewrite forallb_forall in Hall. specialize (Hall target).
  unfold check in Hall. apply andb_prop in Hall as [Hle Hlt];
    [|apply list_elem_of_In, elem_of_seqZ; lia].
  split; [done|]. intros Hpos. apply orb_prop in Hlt as [Hz|Hlt]; [lia|done].
Qed.

(** The float comparison is the comparison of integers. *)
Lemma outbound_enough out target :
  0 <= out < 2 ^ 53 → 0 <= target < 10000 →
  fge (float_of_Z out) (fmul (float_of_Z target) (flit 2 10)) = (target <=? 5 * out).
Proof.
  intros Hout Ht. destruct (fifth_exact target Ht) as [Hle Hlt].
  set (x := fmul (float_of_Z target) (flit 2 10)) in *.
  assert (0 <= fifth target < 2 ^ 53 ∧ target <= 5 * fifth target ∧ 5 * fifth target < target + 5)
    as (Hf & Hf1 & Hf2).
  { unfold fifth. pose proof (Z.div_mod (target + 4) 5). pose proof (Z.mod_pos_bound (target + 4) 5).
    lia. }
  pose proof (fle_not_nan _ _ Hle) as [Hx Hfn].
  pose proof (float_of_Z_not_nan out Hout) as Hon.
  unfold fge. rewrite fle_flt by done. destruct (Z.leb_spec target (5 * out)) as [Henough|Hfew].
  - apply negb_true_iff. apply (flt_neg_trans _ (float_of_Z (fifth target))); try done.
    + rewrite flt_of_Z by done. apply Z.ltb_ge. lia.
    + rewrite fle_flt in Hle by done. by apply negb_true_iff.
  - apply negb_false_iff. assert (out <= fifth target - 1) as Hle1 by lia.
    specialize (Hlt ltac:(lia)). destruct (decide (out = fifth target - 1)) as [->|Hne]; [done|].
    apply (flt_trans _ (float_of_Z (fifth target - 1))); try done.
    + apply float_of_Z_not_nan. lia.
    + rewrite flt_of_Z by lia. apply Z.ltb_lt. lia.
Qed.

(** ** Properties *)

(** C22. For a target below 10000 the dialer decides in exact arithmetic: it never
    dials itself; it pauses for a second when at least a fifth of the target
    is connected outbound and the target is reached; it dials in every other
    case, with the connection timeout. The service takes the discovered peers
    in order, ends without error when the channel is closed and with the
    context's error when the context ends. *)
Theorem dialer_decides (found : list (Host * AddrInfo Multiaddr)) (last : dial_event)
  (Hfound : Forall (λ f, is_Some (Network_Conns (host_Host f.1)) ∧
     0 <= TargetPeerCount f.1 < 10000 ∧
     (∀ conns, Network_Conns (host_Host f.1) = Some conns → Z.of_nat (length conns) < 2 ^ 53)) found) :
  let decide_one (f : Host * AddrInfo Multiaddr) :=
    if bool_decide (ai_ID f.2 = host_ID (host_Host f.1)) then Skip
    else match OutboundPeerCount f.1, host_TotalPeerCount f.1 with
         | Ret out, Ret total =>
             if bool_decide (TargetPeerCount f.1 <= 5 * out ∧ TargetPeerCount f.1 <= total)
             then Sleep Second else Dial ConnTimeout f.2
         | _, _ => Skip
         end in
  (∀ e, last = DlDone e → Serve (((λ f, DlFound f.1 f.2) <$> found) ++ [last]) =
     (decide_one <$> found, Some (Fail e))) ∧
  (last = DlClosed → Serve (((λ f, DlFound f.1 f.2) <$> found) ++ [last]) =
     (decide_one <$> found, Some (Ret ()))).
Proof.
  intros decide_one.
  assert (∀ evs, Serve (((λ f, DlFound f.1 f.2) <$> found) ++ evs) =
    ((decide_one <$> found) ++ (Serve evs).1, (Serve evs).2)) as Hserve.
  2: { split; [intros e ->|intros ->]; by rewrite Hserve, app_nil_r. }
  intros evs. induction Hfound as [|[h ai] found (Hconns & Ht & Hlen) _ IH].
  { simpl. by destruct (Serve evs). }
  rewrite !fmap_cons. cbn [app Serve fst snd] in *. assert (dial_step h ai = Ret (decide_one (h, ai))) as Hstep.
  2: { rewrite Hstep. rewrite IH. done. }
  unfold dial_step, decide_one. cbn [fst snd]. case_bool_decide as Hself; [done|].
  destruct Hconns as [conns Hconns]. specialize (Hlen conns Hconns).
  unfold OutboundPeerCount, host_TotalPeerCount, count_peers. rewrite Hconns.
  cbn [deref mbind outcome_bind].
  set (out := Z.of_nat (size (peer_set _ conns))). set (total := Z.of_nat (size (peer_set _ conns))).
  assert (0 <= out <= Z.of_nat (length conns)) as Hout
    by (split; [lia|apply inj_le, peer_set_size]).
  rewrite outbound_enough by lia.
  destruct (Z.leb_spec (TargetPeerCount h) (5 * out)); cbn [mbind outcome_bind].
  - destruct (Z.leb_spec (TargetPeerCount h) total);
      [by rewrite bool_decide_true|by rewrite bool_decide_false by lia].
  - by rewrite bool_decide_false by lia.
Qed.
End Dialer.

Section Witness.
#[local] Existing Instance list_types.
#[local] Existing Instance list_libp2p.

Definition peer_info (id : string) : AddrInfo (@Multiaddr list_types) := MkAddrInfo id [].

Lemma dialer_decides_witness :
  Serve [DlFound (list_host [MkConn "a" DirInbound] 1) (peer_info "p");
         DlFound (list_host [MkConn "a" DirOutbound] 1) (peer_info "q");
         DlFound (list_host [] 1) (peer_info "self"); DlClosed] =
  ([Dial ConnTimeout (peer_info "p"); Sleep Second; Skip], Some (Ret ())).
Proof.
  destruct (dialer_decides [(list_host [MkConn "a" DirInbound] 1, peer_info "p");
    (list_host [MkConn "a" DirOutbound] 1, peer_info "q");
    (list_host [] 1, peer_info "self")] DlClosed) as [_ Hc].
  - repeat apply Forall_cons_2; [..|apply Forall_nil_2]; (split; [by eexists|]);
      (split; [vm_compute; split; congruence|]); intros conns [= <-]; vm_compute; reflexivity.
  - exact (Hc eq_refl).
Defined.
End Witness.
