(* ===== verification/Discovery.v ===== *)
(** * peering/discovery.go: the discv5 service

    Construction of the local node record, the service loop that turns nodes
    into peer addresses, and the address extraction. go-ethereum's enode, enr
    and discover packages, the key conversions of libp2p and the SSZ encoding of
    the fork id are the class [Enode]. The channel of discovered peers is
    unbuffered and closed when the service returns. *)

From stdpp Require Import pretty.
From Stdlib Require Import Ascii.
From S2P Require Import Prelude GoStrings GoTime GoNet Externals Eth Processor Samples Host Dialer.
Local Open Scope Z_scope.

(** enr entries the source sets. *)
Inductive Entry :=
  | EIPv4 (ip : IP)
  | EUDP (port : Z)
  | ETCP (port : Z)
  | EWith (key value : string).

#[export] Instance Entry_eq_dec : EqDecision Entry.
Proof. solve_decision. Defined.

Class EnodeTypes := {
  EcdsaKey : Type;
  EnodeDB : Type;
  LocalNode : Type;
  Node : Type;
  PubKey : Type;
  UDPConn : Type;
}.

Class Enode `{EnodeTypes} `{Bitfield} := {
  (** the result of [ecdsa.GenerateKey] and of [enode.OpenDB("")] in this run *)
  GenerateKey : error + EcdsaKey;
  OpenDB : error + EnodeDB;
  MarshalForkID : string → string → Z → error + string;
  Bytes64 : Bitvector64 → string;
  Bytes4 : Bitvector4 → string;
  NewLocalNode : EnodeDB → EcdsaKey → LocalNode;
  LocalNode_Set : LocalNode → Entry → outcome LocalNode;
  LocalNode_Node : LocalNode → Node;
  enode_Parse : string → error + Node;
  Node_IP : Node → IP;
  Node_UDP : Node → Z;
  Node_TCP : Node → Z;
  Node_PubkeyBytes : Node → string;
  UnmarshalSecp256k1PublicKey : string → error + PubKey;
  IDFromPublicKey : PubKey → error + string;
  ListenUDP : string → IP → Z → error + UDPConn;
  ListenV5 : UDPConn → LocalNode → EcdsaKey → list Node → option error;
}.

(** ** Options *)

Record DiscoveryOption `{EnodeTypes} := {
  do_privateKey : ptr EcdsaKey;
  do_listenIP : string;
  do_portUDP : Z;
  do_portTCP : Z;
}.

Section Discovery.
Context `{Libp2p} `{Params, P2P, Slots, Hexutil, Bitfield, Forks} `{!EnodeTypes} `{!Enode}.

Definition WithPrivateKey (v : ptr EcdsaKey) (o : DiscoveryOption) : DiscoveryOption :=
  {| do_privateKey := v; do_listenIP := do_listenIP o; do_portUDP := do_portUDP o;
     do_portTCP := do_portTCP o |}.
Definition WithListenIP (v : string) (o : DiscoveryOption) : DiscoveryOption :=
  {| do_privateKey := do_privateKey o; do_listenIP := v; do_portUDP := do_portUDP o;
     do_portTCP := do_portTCP o |}.
Definition WithPortUDP (v : Z) (o : DiscoveryOption) : DiscoveryOption :=
  {| do_privateKey := do_privateKey o; do_listenIP := do_listenIP o; do_portUDP := v;
     do_portTCP := do_portTCP o |}.
Definition WithPortTCP (v : Z) (o : DiscoveryOption) : DiscoveryOption :=
  {| do_privateKey := do_privateKey o; do_listenIP := do_listenIP o;
     do_portUDP := do_portUDP o; do_portTCP := v |}.

Definition discovery_defaults : DiscoveryOption :=
  {| do_privateKey := None; do_listenIP := "127.0.0.1"; do_portUDP := 9090; do_portTCP := 9090 |}.

(** The discovered peers go through channel [d_chan]; [d_closed] once closed. *)
Record Discovery := MkDiscovery {
  d_privateKey : EcdsaKey;
  d_node : LocalNode;
  d_chan : chan;
  d_closed : bool;
  d_bootstrapNodes : list Node;
  d_forkDigest : string;
}.

(** ** NewDiscovery *)

(** [localNode.Set] of the entries, in order. *)
Fixpoint set_entries (n : LocalNode) (es : list Entry) : outcome LocalNode :=
  match es with
  | [] => Ret n
  | e :: es => n ← LocalNode_Set n e; set_entries n es
  end.

Fixpoint parse_bootstrap (enrs : list string) : outcome (list Node) :=
  match enrs with
  | [] => Ret []
  | enrStr :: enrs =>
      n ← wrap ("failed to parse bootstrap node enr " +:+ enrStr) (of_sum (enode_Parse enrStr));
      ns ← parse_bootstrap enrs; Ret (n :: ns)
  end.

(** The entries of the local record. *)
Definition local_entries (o : DiscoveryOption) (netcfg : NetworkConfig) (attest : Bitvector64)
    (sync : Bitvector4) (forkIDBytes : string) : list Entry :=
  [EIPv4 (default [] (ParseIP (do_listenIP o)));
   EUDP (u16 (do_portUDP o));
   ETCP (u16 (do_portTCP o));
   EWith (AttSubnetKey netcfg) (Bytes64 attest);
   EWith (SyncCommsSubnetKey netcfg) (Bytes4 sync);
   EWith (ETH2Key netcfg) forkIDBytes].

(** From the network configuration on. *)
Definition build_discovery (o : DiscoveryOption) (now : Time) (key : EcdsaKey) (db : EnodeDB)
    (attest : Bitvector64) (sync : Bitvector4) (g : GenesisConfig) (netcfg : NetworkConfig)
    (c : chan) : outcome Discovery :=
  forkDigest ← wrap "failed to create fork digest"
    (of_sum (CreateForkDigest (GenesisTime g) (GenesisValidatorRoot g)));
  '(nextForkVersion, nextForkEpoch) ← wrap "failed to get next fork data"
    (of_sum (NextForkData (slots_ToEpoch (slots_Since (GenesisTime g) now))));
  forkIDBytes ← match MarshalForkID forkDigest nextForkVersion nextForkEpoch with
                | inr b => Ret b
                | inl e => Panicked (panic_error e)
                end;
  localNode ← set_entries (NewLocalNode db key) (local_entries o netcfg attest sync forkIDBytes);
  bootstrapNodes ← parse_bootstrap (BootstrapNodes netcfg);
  Ret (MkDiscovery key localNode c false bootstrapNodes forkDigest).

(** [c] is the channel [make] returns; the eth package state may change. *)
Definition NewDiscovery (s : eth_state) (now : Time) (c : chan)
    (opts : list (DiscoveryOption → DiscoveryOption)) : eth_state * outcome Discovery :=
  let o := apply_opts opts discovery_defaults in
  let first :=
    key ← match do_privateKey o with
          | Some k => Ret k
          | None => wrap "failed to generate ecdsa private key" (of_sum GenerateKey)
          end;
    db ← wrap "failed to open peer's database" (of_sum OpenDB);
    attest ← GetAttestationAllSubnetBitvector (network s);
    sync ← GetSyncCommitteeAllSubnetBitvector (network s);
    g ← GetGenesisConfig (network s);
    Ret (key, db, attest, sync, g) in
  match first with
  | Ret (key, db, attest, sync, g) =>
      let '(s, r) := GetBeaconNetworkConfig s in
      (s, netcfg ← r; build_discovery o now key db attest sync g netcfg c)
  | Fail e => (s, Fail e)
  | Panicked v => (s, Panicked v)
  end.

Definition Discovers (d : Discovery) : chan := d_chan d.

(** ** extractPeerAddrInfo *)

(** The multiaddr of one transport, unless its port is 0. *)
Definition transport_addr (ipScheme proto : string) (ip : IP) (port : Z)
    : outcome (list Multiaddr) :=
  if port =? 0 then Ret []
  else maddr ← wrap ("failed to parse " +:+ proto +:+ " multiaddr")
         (of_sum (NewMultiaddr (Sprintf ("/%s/%s/" +:+ proto +:+ "/%d")
            [FString ipScheme; FString (IP_String ip); FInt port])));
       Ret [maddr].

Definition extractPeerAddrInfo (node : Node) : outcome (AddrInfo Multiaddr) :=
  pub ← wrap "failed to unmarshal secp256k1 public key from node's ecdsa public key"
    (of_sum (UnmarshalSecp256k1PublicKey (Node_PubkeyBytes node)));
  pid ← wrap "failed to extract peer ID from node's secp256k1 public key"
    (of_sum (IDFromPublicKey pub));
  let ip := Node_IP node in
  ipScheme ← (if bool_decide (length (default [] (To4 ip)) = 4%nat) then Ret "ip4"
              else if bool_decide (length (default [] (To16 ip)) = 16%nat) then Ret "ip6"
              else Fail (errors_New ("invalid ip scheme from node's ip " +:+ IP_String ip)));
  udp ← transport_addr ipScheme "udp" ip (Node_UDP node);
  tcp ← transport_addr ipScheme "tcp" ip (Node_TCP node);
  Ret (MkAddrInfo pid (udp ++ tcp)).

(** ** Serve *)

(** One turn of the loop: the context is done, the iterator ends, or it yields a
    node; then either the node is received or the context ends first. *)
Inductive disc_event :=
  | DsDone
  | DsEnd
  | DsNode (node : Node) (received : bool).

(** The peers sent, and how the loop returned; a send on a closed channel panics. *)
Fixpoint disc_loop (closed : bool) (evs : list disc_event)
    : list (AddrInfo Multiaddr) * option (outcome unit) :=
  match evs with
  | [] => ([], None)
  | DsDone :: _ => ([], Some (Ret ()))
  | DsEnd :: _ => ([], Some (Ret ()))
  | DsNode node received :: evs =>
      if IsPrivate (Node_IP node) then disc_loop closed evs
      else match extractPeerAddrInfo node with
           | Ret ai =>
               if received then
                 if closed then ([], Some (Panicked (panic_msg "send on closed channel")))
                 else let '(l, r) := disc_loop closed evs in (ai :: l, r)
               else ([], Some (Ret ()))
           | Fail _ => disc_loop closed evs
           | Panicked v => ([], Some (Panicked v))
           end
  end.

Definition close_chan (d : Discovery) : Discovery :=
  MkDiscovery (d_privateKey d) (d_node d) (d_chan d) true (d_bootstrapNodes d) (d_forkDigest d).

(** net.IPv4zero, in the sixteen byte form of [net.IPv4]. *)
Definition IPv4zero : IP := v4InV6Prefix ++ [0%N; 0%N; 0%N; 0%N].

(** The deferred [close] runs when the loop has returned; closing twice panics. *)
Definition Serve (d : Discovery) (evs : list disc_event)
    : Discovery * list (AddrInfo Multiaddr) * option (outcome unit) :=
  let ip := Node_IP (LocalNode_Node (d_node d)) in
  let port := Node_UDP (LocalNode_Node (d_node d)) in
  match To4 ip with
  | None => (d, [], Some (Fail (errors_New ("invalid IP address: " +:+ IP_String ip))))
  | Some _ =>
      match ListenUDP "udp4" IPv4zero port with
      | inl e => (d, [], Some (Fail (errors_Wrap e
          (Sprintf "failed to listen on %s:%d" [FString (IP_String IPv4zero); FInt port]))))
      | inr conn =>
          match ListenV5 conn (d_node d) (d_privateKey d) (d_bootstrapNodes d) with
          | Some e => (d, [], Some (Fail (errors_Wrap e "failed to start discv5 listener")))
          | None =>
              let '(sent, r) := disc_loop (d_closed d) evs in
              match r with
              | None => (d, sent, None)
              | Some r =>
                  (close_chan d, sent,
                   Some (if d_closed d then Panicked (panic_msg "close of closed channel") else r))
              end
          end
      end
  end.

(** ** Lemmas *)

(** The peers of the received nodes that are public and have an address. *)
Definition public_peers (nodes : list Node) : list (AddrInfo Multiaddr) :=
  omap (λ node, if IsPrivate (Node_IP node) then None
                else match extractPeerAddrInfo node with Ret ai => Some ai | _ => None end) nodes.

Lemma transport_addr_no_panic sc pr ip port v : transport_addr sc pr ip port ≠ Panicked v.
Proof. unfold transport_addr. case_match; [done|]. by destruct (NewMultiaddr _). Qed.

Lemma extract_no_panic node v : extractPeerAddrInfo node ≠ Panicked v.
Proof.
  unfold extractPeerAddrInfo. destruct (UnmarshalSecp256k1PublicKey _) as [|pub]; [done|]. simpl.
  destruct (IDFromPublicKey pub) as [|pid]; [done|]. simpl.
  assert (∀ sc, (udp ← transport_addr sc "udp" (Node_IP node) (Node_UDP node);
    tcp ← transport_addr sc "tcp" (Node_IP node) (Node_TCP node);
    Ret (MkAddrInfo pid (udp ++ tcp))) ≠ Panicked v) as Hsc.
  { intros sc. pose proof (transport_addr_no_panic sc "udp" (Node_IP node) (Node_UDP node)).
    pose proof (transport_addr_no_panic sc "tcp" (Node_IP node) (Node_TCP node)).
    destruct (transport_addr sc "udp" _ _); [|done|done || naive_solver]. simpl.
    destruct (transport_addr sc "tcp" _ _); naive_solver. }
  repeat case_bool_decide; simpl; [apply Hsc..|done].
Qed.

Lemma disc_loop_nodes nodes evs :
  disc_loop false (((λ n, DsNode n true) <$> nodes) ++ evs) =
  (public_peers nodes ++ (disc_loop false evs).1, (disc_loop false evs).2).
Proof.
  induction nodes as [|n nodes IH]; [simpl; by destruct (disc_loop false evs)|].
  assert (public_peers (n :: nodes) = (if IsPrivate (Node_IP n) then []
    else match extractPeerAddrInfo n with Ret ai => [ai] | _ => [] end) ++ public_peers nodes) as ->.
  { unfold public_peers. simpl. destruct (IsPrivate _); [done|]. by destruct (extractPeerAddrInfo n). }
  rewrite fmap_cons. cbn [app disc_loop]. destruct (IsPrivate (Node_IP n)); [apply IH|].
  pose proof (extract_no_panic n) as Hnp.
  destruct (extractPeerAddrInfo n) as [ai|e|v]; [|apply IH|by destruct (Hnp v)].
  by rewrite IH.
Qed.

Lemma disc_loop_returns closed nodes last :
  last = DsDone ∨ last = DsEnd →
  ∃ r, (disc_loop closed (((λ n, DsNode n true) <$> nodes) ++ [last])).2 = Some r.
Proof.
  intros Hlast. induction nodes as [|n nodes IH].
  { destruct Hlast as [-> | ->]; simpl; eauto. }
  rewrite fmap_cons. cbn [app disc_loop]. destruct (IsPrivate (Node_IP n)); [done|].
  destruct (extractPeerAddrInfo n) as [ai|e|v]; [|done|simpl; eauto].
  destruct closed; [simpl; eauto|]. by destruct (disc_loop false _).
Qed.

(** The text of a multiaddr, and those of a node: none for a port of 0. *)
Definition addr_text (scheme proto : string) (ip : IP) (port : Z) : string :=
  "/" +:+ scheme +:+ "/" +:+ IP_String ip +:+ "/" +:+ proto +:+ "/" +:+ pretty port.
Definition addr_texts (scheme : string) (node : Node) : list string :=
  (if Node_UDP node =? 0 then []
   else [addr_text scheme "udp" (Node_IP node) (Node_UDP node)]) ++
  (if Node_TCP node =? 0 then []
   else [addr_text scheme "tcp" (Node_IP node) (Node_TCP node)]).

Lemma transport_text scheme proto ip port :
  no_char "%"%char proto = true →
  Sprintf ("/%s/%s/" +:+ proto +:+ "/%d") [FString scheme; FString (IP_String ip); FInt port] =
  addr_text scheme proto ip port.
Proof.
  intros Hp. unfold addr_text.
  change ("/%s/%s/" +:+ proto +:+ "/%d") with ("/" +:+ String "%" (String "s" ("/" +:+
    String "%" (String "s" ("/" +:+ proto +:+ "/" +:+ String "%" (String "d" "")))))).
  rewrite Sprintf_plain by done. rewrite Sprintf_verb by done. rewrite Sprintf_plain by done.
  rewrite Sprintf_verb by done. rewrite !Sprintf_plain by done. rewrite Sprintf_verb by done.
  cbn [Sprintf fmt_end]. by rewrite app_nil_s.
Qed.

Lemma network_unchanged s : network (GetBeaconNetworkConfig s).1 = network s.
Proof. unfold GetBeaconNetworkConfig. by destruct (by_network _ _ _) as [[]| |]. Qed.

Lemma parse_bootstrap_Ret enrs ns :
  parse_bootstrap enrs = Ret ns → Forall2 (λ e n, enode_Parse e = inr n) enrs ns.
Proof.
  revert ns. induction enrs as [|e enrs IH]; intros ns; simpl; [intros [= <-]; constructor|].
  intros (n & Hn%wrap_Ret_inv%of_sum_Ret_inv & Hns)%bind_Ret_inv.
  apply bind_Ret_inv in Hns as (ns' & Hns' & [= <-]). constructor; [done|]. by apply IH.
Qed.

(** What a created discovery is made of. *)
Lemma NewDiscovery_inv (s s' : eth_state) (now : Time) (c : chan)
  (opts : list (DiscoveryOption → DiscoveryOption)) (d : Discovery) :
  let o := apply_opts opts discovery_defaults in
  NewDiscovery s now c opts = (s', Ret d) →
  network s' = network s ∧ Discovers d = c ∧ d_closed d = false ∧
  (do_privateKey o = Some (d_privateKey d) ∨
   do_privateKey o = None ∧ GenerateKey = inr (d_privateKey d)) ∧
  ∃ db attest sync g netcfg nv ne fid,
    GetAttestationAllSubnetBitvector (network s) = Ret attest ∧
    GetSyncCommitteeAllSubnetBitvector (network s) = Ret sync ∧
    GetGenesisConfig (network s) = Ret g ∧
    (GetBeaconNetworkConfig s).2 = Ret netcfg ∧
    CreateForkDigest (GenesisTime g) (GenesisValidatorRoot g) = inr (d_forkDigest d) ∧
    NextForkData (slots_ToEpoch (slots_Since (GenesisTime g) now)) = inr (nv, ne) ∧
    MarshalForkID (d_forkDigest d) nv ne = inr fid ∧
    set_entries (NewLocalNode db (d_privateKey d)) (local_entries o netcfg attest sync fid)
      = Ret (d_node d) ∧
    Forall2 (λ e n, enode_Parse e = inr n) (BootstrapNodes netcfg) (d_bootstrapNodes d).
Proof.
  intros o. unfold NewDiscovery. fold o. intros Hd.
  destruct (_ ≫= _) as [[[[[key db] attest] sync] g]|e|v] eqn:Hfirst; [|done..].
  apply bind_Ret_inv in Hfirst as (key' & Hkey & Hf).
  apply bind_Ret_inv in Hf as (db' & _ & Hf).
  apply bind_Ret_inv in Hf as (attest' & Hatt & Hf).
  apply bind_Ret_inv in Hf as (sync' & Hsync & Hf).
  apply bind_Ret_inv in Hf as (g' & Hg & Hf). simplify_eq.
  pose proof (network_unchanged s) as Hnet.
  destruct (GetBeaconNetworkConfig s) as [s1 r]. injection Hd as -> Hd. simpl in Hnet.
  apply bind_Ret_inv in Hd as (netcfg & -> & Hd). unfold build_discovery in Hd.
  apply bind_Ret_inv in Hd as (dig & Hdig%wrap_Ret_inv%of_sum_Ret_inv & Hd).
  apply bind_Ret_inv in Hd as ([nv ne] & Hnext%wrap_Ret_inv%of_sum_Ret_inv & Hd).
  apply bind_Ret_inv in Hd as (fid & Hfid & Hd).
  apply bind_Ret_inv in Hd as (node & Hnode & Hd).
  apply bind_Ret_inv in Hd as (boot & Hboot%parse_bootstrap_Ret & [= <-]). simpl.
  split_and!; [done|done|done| |].
  { destruct (do_privateKey o); [left; by injection Hkey as ->|right]. split; [done|].
    by apply wrap_Ret_inv, of_sum_Ret_inv in Hkey. }
  exists db, attest, sync, g, netcfg, nv, ne, fid. split_and!; try done.
  by destruct (MarshalForkID dig nv ne); simplify_eq.
Qed.
(** ** Properties *)

(** C23. A node's address information has the peer id of its key and, for each of
    UDP and TCP whose port is not 0, in this order, the multiaddr of its IP and
    port. The scheme is ip4 exactly when the address has an IPv4 form, and the
    IP text after it then reads back as that address; it is ip6 for the other
    addresses of sixteen bytes, and any other address is an error. *)
Theorem extract_addresses (node : Node) (pub : PubKey) (pid : string) (mk : string → Multiaddr)
  (Hpub : UnmarshalSecp256k1PublicKey (Node_PubkeyBytes node) = inr pub)
  (Hpid : IDFromPublicKey pub = inr pid)
  (Hbytes : Forall (λ b, b < 256)%N (Node_IP node)) :
  (∀ scheme, scheme ∈ ["ip4"; "ip6"] →
     (∀ t, t ∈ addr_texts scheme node → NewMultiaddr t = inr (mk t)) →
     (scheme = "ip4" ↔ is_Some (To4 (Node_IP node))) →
     is_Some (To16 (Node_IP node)) →
     extractPeerAddrInfo node = Ret (MkAddrInfo pid (mk <$> addr_texts scheme node))) ∧
  (∀ p4, To4 (Node_IP node) = Some p4 →
     ParseIP (IP_String (Node_IP node)) = Some (v4InV6Prefix ++ p4)) ∧
  (To16 (Node_IP node) = None →
     extractPeerAddrInfo node =
       Fail (errors_New ("invalid ip scheme from node's ip " +:+ IP_String (Node_IP node)))).
Proof.
  set (ip := Node_IP node) in *. unfold extractPeerAddrInfo. rewrite Hpub. simpl. rewrite Hpid.
  simpl. fold ip. split_and!.
  - intros scheme Hin Hmk Hscheme H16.
    assert ((if bool_decide (length (default [] (To4 ip)) = 4%nat) then Ret "ip4"
       else if bool_decide (length (default [] (To16 ip)) = 16%nat) then Ret "ip6"
       else Fail (errors_New ("invalid ip scheme from node's ip " +:+ IP_String ip)))
       = Ret scheme) as ->.
    { rewrite !elem_of_cons, elem_of_nil in Hin. destruct Hin as [->|[->|[]]].
      - destruct (proj1 Hscheme eq_refl) as [p4 Hp4]. rewrite Hp4. simpl.
        pose proof (To4_length _ _ Hp4). by rewrite bool_decide_true.
      - destruct (To4 ip) as [p4|] eqn:Hp4; [by apply proj2 in Hscheme; discriminate Hscheme; eauto|].
        destruct H16 as [p16 H16]. rewrite H16. simpl.
        pose proof (To16_length _ _ H16). by rewrite bool_decide_true. }
    simpl. unfold addr_texts, transport_addr in *. fold ip in Hmk |- *.
    rewrite !transport_text by done.
    destruct (Node_UDP node =? 0), (Node_TCP node =? 0); simpl.
    + done.
    + rewrite Hmk by (rewrite elem_of_app, !elem_of_cons; auto). done.
    + rewrite Hmk by (rewrite elem_of_app, !elem_of_cons; auto). done.
    + rewrite !Hmk by (rewrite elem_of_app, !elem_of_cons; auto). done.
  - intros p4 Hp4. by apply ParseIP_String.
  - intros H16. assert (To4 ip = None) as ->.
    { revert H16. unfold To4, To16. repeat case_bool_decide; naive_solver. }
    rewrite H16. done.
Qed.

(** C35. The service hands out exactly the addresses of the public nodes it meets,
    in order, skipping private ones and those without a usable address, and
    never panics on a node; when the iterator or the context ends it returns
    without error and has closed the channel. Served again after that, it
    panics: the channel is closed twice. *)
Theorem discovery_serves (d : Discovery) (nodes : list Node) (last : disc_event) (conn : UDPConn)
  (Hip : is_Some (To4 (Node_IP (LocalNode_Node (d_node d)))))
  (Hudp : ListenUDP "udp4" IPv4zero (Node_UDP (LocalNode_Node (d_node d))) = inr conn)
  (Hv5 : ListenV5 conn (d_node d) (d_privateKey d) (d_bootstrapNodes d) = None)
  (Hopen : d_closed d = false) (Hlast : last = DsDone ∨ last = DsEnd) :
  let evs := ((λ n, DsNode n true) <$> nodes) ++ [last] in
  Serve d evs = (close_chan d, public_peers nodes, Some (Ret ())) ∧
  (Serve (close_chan d) evs).2 = Some (Panicked (panic_msg "close of closed channel")).
Proof.
  intros evs. destruct Hip as [p4 Hp4]. unfold Serve.
  change (d_node (close_chan d)) with (d_node d).
  change (d_privateKey (close_chan d)) with (d_privateKey d).
  change (d_bootstrapNodes (close_chan d)) with (d_bootstrapNodes d).
  change (d_closed (close_chan d)) with true. rewrite Hp4, Hudp, Hv5, Hopen. split.
  - unfold evs. rewrite disc_loop_nodes.
    destruct Hlast as [-> | ->]; simpl; by rewrite app_nil_r.
  - destruct (disc_loop_returns true nodes last Hlast) as [r Hr]. fold evs in Hr.
    destruct (disc_loop true evs) as [l r']. simpl in Hr. by subst r'.
Qed.

(** A discovery that is created announces, on the selected network, the
    listening address and ports (modulo 2^16), all the subnets of the
    configuration, and the encoded id of the current and next fork; it knows
    every bootstrap node of the network configuration, signs with the given
    key or a generated one, and its channel is open. Creating it leaves the
    selected network as it was. *)
Theorem new_discovery_record (s s' : eth_state) (now : Time) (c : chan)
  (opts : list (DiscoveryOption → DiscoveryOption)) (d : Discovery) :
  let o := apply_opts opts discovery_defaults in
  NewDiscovery s now c opts = (s', Ret d) →
  network s' = network s ∧ Discovers d = c ∧ d_closed d = false ∧
  (do_privateKey o = Some (d_privateKey d) ∨
   do_privateKey o = None ∧ GenerateKey = inr (d_privateKey d)) ∧
  ∃ db attest sync g netcfg nv ne fid,
    GetAttestationAllSubnetBitvector (network s) = Ret attest ∧
    GetSyncCommitteeAllSubnetBitvector (network s) = Ret sync ∧
    GetGenesisConfig (network s) = Ret g ∧
    (GetBeaconNetworkConfig s).2 = Ret netcfg ∧
    CreateForkDigest (GenesisTime g) (GenesisValidatorRoot g) = inr (d_forkDigest d) ∧
    NextForkData (slots_ToEpoch (slots_Since (GenesisTime g) now)) = inr (nv, ne) ∧
    MarshalForkID (d_forkDigest d) nv ne = inr fid ∧
    set_entries (NewLocalNode db (d_privateKey d)) (local_entries o netcfg attest sync fid)
      = Ret (d_node d) ∧
    Forall2 (λ e n, enode_Parse e = inr n) (BootstrapNodes netcfg) (d_bootstrapNodes d).
Proof. exact (NewDiscovery_inv s s' now c opts d). Qed.
End Discovery.

(** ** A concrete record store, for the witnesses *)

Definition list_enode_types : EnodeTypes := {|
  EcdsaKey := string; EnodeDB := unit; LocalNode := list Entry;
  Node := IP * Z * Z * string; PubKey := string; UDPConn := unit |}.

(** A node is its address, its ports and its key; an IPv4 entry needs an IPv4
    address. *)
Definition list_enode `{Bitfield} : @Enode list_enode_types _ := {|
  GenerateKey := inr "k" : error + @EcdsaKey list_enode_types;
  OpenDB := inr ();
  MarshalForkID d v e := inr (d +:+ v);
  Bytes64 _ := "att"; Bytes4 _ := "sync";
  NewLocalNode _ _ := [];
  LocalNode_Set n e :=
    match e with
    | EIPv4 ip => if To4 ip is Some _ then Ret (n ++ [e]) else Panicked (panic_msg "enr: can't encode")
    | _ => Ret (n ++ [e])
    end;
  LocalNode_Node n :=
    (foldl (λ ip e, if e is EIPv4 ip' then ip' else ip) [] n,
     foldl (λ p e, if e is EUDP p' then p' else p) 0 n,
     foldl (λ p e, if e is ETCP p' then p' else p) 0 n, "k");
  enode_Parse s := if bool_decide (s = "") then inl (error_ext "empty enr") else inr ([], 0, 0, s);
  Node_IP n := n.1.1.1; Node_UDP n := n.1.1.2; Node_TCP n := n.1.2; Node_PubkeyBytes n := n.2;
  UnmarshalSecp256k1PublicKey s :=
    if bool_decide (s = "") then inl (error_ext "empty key") else inr s;
  IDFromPublicKey s := inr ("id-" +:+ s);
  ListenUDP _ _ _ := inr ();
  ListenV5 _ _ _ _ := None;
|}.

Section Witnesses.
#[local] Existing Instance list_types.
#[local] Existing Instance list_libp2p.
#[local] Existing Instance prysm_params.
#[local] Existing Instance prysm_p2p.
#[local] Existing Instance clock_slots.
#[local] Existing Instance hex_hexutil.
#[local] Existing Instance set_bitfield.
#[local] Existing Instance fixed_forks.
#[local] Existing Instance list_enode_types.
#[local] Existing Instance list_enode.

Definition sample_node (a : N) (udp tcp : Z) : Node :=
  (([a; 2%N; 3%N; 4%N], udp, tcp, "key") : @Node list_enode_types).

Definition sample_discovery : Discovery :=
  MkDiscovery ("k" : @EcdsaKey list_enode_types)
    ([EIPv4 [1%N; 2%N; 3%N; 4%N]; EUDP 9090] : @LocalNode list_enode_types) 1%positive false [] "".

Lemma extract_addresses_witness :
  extractPeerAddrInfo (sample_node 8 9000 0) =
  Ret (MkAddrInfo "id-key" ["/ip4/8.2.3.4/udp/9000" : @Multiaddr list_types]).
Proof.
  destruct (extract_addresses (sample_node 8 9000 0) "key" "id-key"
    (λ s, s : @Multiaddr list_types)) as [He _];
    [reflexivity..| |].
  - repeat constructor.
  - rewrite (He "ip4"); [reflexivity|constructor|reflexivity| |by eexists].
    split; [by eexists|reflexivity].
Defined.

Lemma discovery_serves_witness :
  (Serve sample_discovery [DsNode (sample_node 10 1 1) true; DsNode (sample_node 8 9000 0) true;
     DsEnd]).1.2 = public_peers [sample_node 10 1 1; sample_node 8 9000 0].
Proof.
  destruct (discovery_serves sample_discovery [sample_node 10 1 1; sample_node 8 9000 0] DsEnd ())
    as [Hs _]; [by eexists|reflexivity..|by right|].
  exact (f_equal (λ x, x.1.2) Hs).
Defined.
End Witnesses.
