(* ===== verification/ReqResp.v ===== *)
(** * reqresp: the request/response protocols

    [handler.go] and [reqresp.go]. A stream handler changes the stream and may
    fail: it is a function in a small state and error monad over the stream. The
    stream of libp2p and Prysm's SSZ encoder on it are the class [Stream]. *)

From S2P Require Import Prelude GoStrings GoTime GoNet Externals Eth Processor Host.
Local Open Scope Z_scope.

Definition readTimeout : Duration := 5 * Second.
Definition writeTimeout : Duration := 10 * Second.

(** ** The monad *)

Definition SM (St A : Type) : Type := St → St * outcome A.
#[export] Instance SM_ret St : MRet (SM St) := λ A a st, (st, Ret a).
#[export] Instance SM_bind St : MBind (SM St) := λ A B k m st,
  match m st with
  | (st, Ret a) => k a st
  | (st, Fail e) => (st, Fail e)
  | (st, Panicked v) => (st, Panicked v)
  end.

(** [if err := op; err != nil { return errors.Wrap(err, msg) }] *)
Definition try_op {St} (msg : string) (op : St → St * option error) : SM St unit := λ st,
  let '(st, e) := op st in (st, wrap msg (check_err e)).
(** the same with [errors.New(msg)] *)
Definition try_new {St} (msg : string) (op : St → St * option error) : SM St unit := λ st,
  let '(st, e) := op st in
  (st, match e with Some _ => Fail (errors_New msg) | None => Ret () end).
(** a call with a result *)
Definition try_val {St A} (msg : string) (op : St → St * (error + A)) : SM St A := λ st,
  let '(st, r) := op st in (st, wrap msg (of_sum r)).

Definition fail_SM {St A} (e : error) : SM St A := λ st, (st, Fail e).

(** [errors.Wrap] of a whole call *)
Definition wrap_SM {St A} (msg : string) (m : SM St A) : SM St A := λ st,
  let '(st, r) := m st in (st, wrap msg r).

(** ** Payloads *)

(** primitives.SSZUint64, ethtypes.Status (kept as its SSZ bytes) and MetaDataV1,
    wrapped or not; [rpc_ok] says which values their types hold. *)
Inductive rpc_value `{Bitfield} :=
  | RUint64 (n : Z)
  | RStatus (bytes : string)
  | RMetaData (SeqNumber : Z) (Attnets : Bitvector64) (Syncnets : Bitvector4).

(** Two roots of 32 bytes, a digest of 4, an epoch and a slot of 8. *)
Definition status_size : nat := 84.
Definition rpc_ok `{Bitfield} (v : rpc_value) : Prop :=
  match v with
  | RUint64 n | RMetaData n _ _ => is_u64 n
  | RStatus bytes => String.length bytes = status_size
  end.
Inductive rpc_type := TUint64 | TStatus | TMetaData.

Definition value_rpc_type `{Bitfield} (v : rpc_value) : rpc_type :=
  match v with RUint64 _ => TUint64 | RStatus _ => TStatus | RMetaData _ _ _ => TMetaData end.

Class Stream `{Bitfield} (St : Type) := {
  SetReadDeadline : Duration → St → St * option error;
  SetWriteDeadline : Duration → St → St * option error;
  stream_Write : string → St → St * option error;
  (** io.ReadFull of one byte, io.ReadAll *)
  ReadByte : St → St * (error + Ascii.ascii);
  ReadAll : St → St * (error + string);
  EncodeWithMaxLength : rpc_value → St → St * option error;
  DecodeWithMaxLength : rpc_type → St → St * (error + rpc_value);
  CloseRead : St → St * option error;
  CloseWrite : St → St * option error;
  stream_Close : St → St * option error;
}.

(** types.GoodbyeCodeMessages *)
Class Goodbye := { GoodbyeCodeMessages : gmap Z string }.

Section Handlers.
Context {St : Type} `{Bitfield} `{!Stream St} `{Goodbye} `{Params, P2P, Slots, Hexutil}.
Implicit Types (st : St).

Definition readRequest (t : rpc_type) : SM St rpc_value :=
  _ ← try_new "failed to set read deadline on stream" (SetReadDeadline readTimeout);
  v ← try_val "failed to decode data on stream" (DecodeWithMaxLength t);
  _ ← try_op "failed to close read request stream" CloseRead;
  mret v.

Definition byte_N (b : Ascii.ascii) : N := Ascii.N_of_ascii b.

Definition readResponse (t : rpc_type) : SM St rpc_value :=
  _ ← try_op "failed to set read deadline on stream" (SetReadDeadline readTimeout);
  respCode ← try_val "failed to read response code on stream" ReadByte;
  if (byte_N respCode =? 0)%N then
    v ← try_val "failed to decode data on stream" (DecodeWithMaxLength t);
    _ ← try_op "failed to close read response stream" CloseRead;
    mret v
  else
    errData ← try_val "failed to read response error data on stream" ReadAll;
    fail_SM (errors_Wrap (errors_New errData)
      (Sprintf "received error code %d response on stream" [FInt (Z.of_N (byte_N respCode))])).

Definition writeRequest (v : rpc_value) : SM St unit :=
  _ ← try_op "failed to set write deadline on stream" (SetWriteDeadline writeTimeout);
  _ ← try_op "failed to encode data on stream" (EncodeWithMaxLength v);
  try_op "failed to close write request stream" CloseWrite.

Definition successCode : string := String Ascii.zero EmptyString.

Definition writeResponse (v : rpc_value) : SM St unit :=
  _ ← try_op "failed to set write deadline on stream" (SetWriteDeadline writeTimeout);
  _ ← try_op "failed to write success response code on stream" (stream_Write successCode);
  _ ← try_op "failed to encode data on stream" (EncodeWithMaxLength v);
  try_op "failed to close write response stream" CloseWrite.

(** [defer stream.Close()] around a body *)
Definition deferClose {A} (body : SM St A) : SM St A := λ st,
  let '(st, r) := body st in ((stream_Close st).1, r).

(** An inbound handler logs its errors and returns nothing. *)
Definition StreamHandler := St → St * outcome unit.
Definition logged {A} (body : SM St A) : StreamHandler := λ st,
  match deferClose body st with
  | (st, Panicked v) => (st, Panicked v)
  | (st, _) => (st, Ret ())
  end.

Definition noopHandler : StreamHandler := λ st, (st, Ret ()).

Definition InboundPingHandler : StreamHandler := logged (
  _ ← readRequest TUint64;
  writeResponse (RUint64 0)).

(** The code is looked up for the log only. *)
Definition InboundGoodbyeHandler : StreamHandler := logged (
  req ← readRequest TUint64;
  match req with
  | RUint64 code =>
      match GoodbyeCodeMessages !! code with
      | Some _ => mret ()
      | None => mret ()
      end
  | _ => mret ()
  end).

(** The metadata is built when the handler is, with sequence number 0. *)
Definition InboundMetadataHandler (net : string) : outcome StreamHandler :=
  attnets ← GetAttestationAllSubnetBitvector net;
  syncnets ← GetSyncCommitteeAllSubnetBitvector net;
  Ret (logged (writeResponse (RMetaData 0 attnets syncnets))).

Definition InboundStatusHandler : StreamHandler := logged (
  status ← readRequest TStatus;
  writeResponse status).

Definition OutboundPingHandler : SM St unit := deferClose (
  _ ← wrap_SM "failed to write ping request on stream" (writeRequest (RUint64 0));
  _ ← wrap_SM "failed to read ping response on stream" (readResponse TUint64);
  mret ()).

Definition OutboundMetadataHandler : SM St unit := deferClose (
  _ ← wrap_SM "failed to read metadata response" (readResponse TMetaData);
  mret ()).

(** ** The service *)

Definition mappingTopicToHandler (net topic : string) : outcome StreamHandler :=
  if bool_decide (topic = RPCPingTopicV1) then Ret InboundPingHandler
  else if bool_decide (topic = RPCGoodByeTopicV1) then Ret InboundGoodbyeHandler
  else if bool_decide (topic = RPCMetaDataTopicV1) || bool_decide (topic = RPCMetaDataTopicV2)
    then InboundMetadataHandler net
  else if bool_decide (topic = RPCStatusTopicV1) then Ret InboundStatusHandler
  else Ret noopHandler.

Definition protocolID (topic : string) : string := topic +:+ "/" +:+ ProtocolSuffixSSZSnappy.

Definition rpc_topics : list string :=
  [RPCPingTopicV1; RPCGoodByeTopicV1; RPCStatusTopicV1; RPCMetaDataTopicV1; RPCMetaDataTopicV2].

(** The handlers set on the host, in order, and the panic that stopped it, if any. *)
Fixpoint set_handlers (net : string) (topics : list string)
    : list (string * StreamHandler) * outcome unit :=
  match topics with
  | [] => ([], Ret ())
  | topic :: topics =>
      match mappingTopicToHandler net topic with
      | Ret h => let '(l, r) := set_handlers net topics in ((protocolID topic, h) :: l, r)
      | Fail e => ([], Fail e)
      | Panicked v => ([], Panicked v)
      end
  end.

(** [Serve] sets the handlers and waits for the context. *)
Definition Serve (net : string) (ctxErr : error) : list (string * StreamHandler) * outcome unit :=
  match set_handlers net rpc_topics with
  | (l, Ret _) => (l, Fail ctxErr)
  | r => r
  end.
End Handlers.

Record ReqRespOption `{Libp2pTypes} := { rr_opt_host : ptr Host }.
Record ReqResp `{Libp2pTypes} := MkReqResp { rr_host : Host }.
Arguments MkReqResp {_}.

Section New.
Context `{Libp2pTypes}.
Definition WithHost (h : ptr Host) (o : ReqRespOption) : ReqRespOption := {| rr_opt_host := h |}.

Definition NewReqResp (opts : list (ReqRespOption → ReqRespOption)) : outcome ReqResp :=
  let o := apply_opts opts {| rr_opt_host := None |} in
  h ← ok_or (rr_opt_host o) "host must be configured when creating reqresp";
  Ret (MkReqResp h).
End New.
