(* ===== verification/ReqRespClaims.v ===== *)
(** * Properties of the request/response protocols *)

From S2P Require Import Prelude GoStrings GoTime GoNet Externals Eth Processor Host ReqResp.
Local Open Scope Z_scope.

(** A byte stream with its two directions: what is waiting to be read, what was
    written, and whether each direction works. On a working direction the calls
    succeed; deadlines and half-closes move no bytes; the encoder writes the
    [wire] form of a value of its type and the decoder reads it back. *)
Class StreamLaws {St : Type} `{Bitfield} `{!Stream St} := {
  incoming : St → string;
  sent : St → string;
  can_read : St → Prop;
  can_write : St → Prop;
  is_closed : St → bool;
  wire : rpc_value → string;
  SetReadDeadline_ok d st : let '(st', e) := SetReadDeadline d st in
    (can_read st → e = None ∧ can_read st') ∧ (can_write st → can_write st') ∧
    incoming st' = incoming st ∧ sent st' = sent st;
  SetWriteDeadline_ok d st : let '(st', e) := SetWriteDeadline d st in
    (can_write st → e = None ∧ can_write st') ∧ (can_read st → can_read st') ∧
    incoming st' = incoming st ∧ sent st' = sent st;
  CloseRead_ok st : let '(st', e) := CloseRead st in
    (can_read st → e = None) ∧ (can_write st → can_write st') ∧ sent st' = sent st;
  CloseWrite_ok st : let '(st', e) := CloseWrite st in
    (can_write st → e = None) ∧ (can_read st → can_read st') ∧
    incoming st' = incoming st ∧ sent st' = sent st;
  Write_ok b st : can_write st → let '(st', e) := stream_Write b st in
    e = None ∧ can_write st' ∧ (can_read st → can_read st') ∧
    incoming st' = incoming st ∧ sent st' = sent st +:+ b;
  Encode_ok v st : rpc_ok v → can_write st → let '(st', e) := EncodeWithMaxLength v st in
    e = None ∧ can_write st' ∧ (can_read st → can_read st') ∧
    incoming st' = incoming st ∧ sent st' = sent st +:+ wire v;
  ReadByte_ok c r st : can_read st → incoming st = String c r →
    let '(st', x) := ReadByte st in
    x = inr c ∧ can_read st' ∧ (can_write st → can_write st') ∧
    incoming st' = r ∧ sent st' = sent st;
  ReadAll_ok st : can_read st → let '(st', x) := ReadAll st in
    x = inr (incoming st) ∧ sent st' = sent st;
  Decode_ok v r st : rpc_ok v → can_read st → incoming st = wire v +:+ r →
    let '(st', x) := DecodeWithMaxLength (value_rpc_type v) st in
    x = inr v ∧ can_read st' ∧ (can_write st → can_write st') ∧
    incoming st' = r ∧ sent st' = sent st;
  Close_ok st : let '(st', _) := stream_Close st in
    is_closed st' = true ∧ sent st' = sent st;
}.

Section Monad.
Context {St A B : Type}.

Lemma SM_bind_Ret (m : SM St A) (k : A → SM St B) st st' a :
  m st = (st', Ret a) → (m ≫= k) st = k a st'.
Proof. unfold mbind, SM_bind. by intros ->. Qed.
Lemma try_op_Ret msg op (st st' : St) : op st = (st', None) → try_op msg op st = (st', Ret ()).
Proof. unfold try_op. by intros ->. Qed.
Lemma try_new_Ret msg op (st st' : St) : op st = (st', None) → try_new msg op st = (st', Ret ()).
Proof. unfold try_new. by intros ->. Qed.
Lemma try_val_Ret msg op (st st' : St) (a : A) :
  op st = (st', inr a) → try_val msg op st = (st', Ret a).
Proof. unfold try_val. by intros ->. Qed.
End Monad.

Section Lemmas.
Context {St : Type} `{Bitfield} `{!Stream St} `{!StreamLaws (St := St)}.
Implicit Types (st : St) (v : rpc_value).

Lemma readRequest_ok v r st :
  rpc_ok v → can_read st → incoming st = wire v +:+ r →
  ∃ st', readRequest (value_rpc_type v) st = (st', Ret v) ∧
    (can_write st → can_write st') ∧ sent st' = sent st.
Proof.
  intros Hv Hr Hin. unfold readRequest, try_new, try_val, try_op, mbind, SM_bind.
  pose proof (SetReadDeadline_ok readTimeout st) as H1.
  destruct (SetReadDeadline readTimeout st) as [st1 e1].
  destruct H1 as (He1 & Hw1 & Hin1 & Hs1). destruct (He1 Hr) as [-> Hr1].
  pose proof (Decode_ok v r st1 Hv Hr1) as H2. rewrite Hin1 in H2. specialize (H2 Hin).
  destruct (DecodeWithMaxLength _ st1) as [st2 x]. destruct H2 as (-> & Hr2 & Hw2 & _ & Hs2). simpl.
  pose proof (CloseRead_ok st2) as H3. destruct (CloseRead st2) as [st3 e3].
  destruct H3 as (He3 & Hw3 & Hs3). rewrite (He3 Hr2). simpl.
  exists st3. split; [done|]. split; [tauto|congruence].
Qed.

Lemma writeRequest_ok v st :
  rpc_ok v → can_write st →
  ∃ st', writeRequest v st = (st', Ret ()) ∧
    (can_read st → can_read st') ∧ incoming st' = incoming st ∧ sent st' = sent st +:+ wire v.
Proof.
  intros Hv Hw. unfold writeRequest, try_op, mbind, SM_bind.
  pose proof (SetWriteDeadline_ok writeTimeout st) as H1.
  destruct (SetWriteDeadline writeTimeout st) as [st1 e1].
  destruct H1 as (He1 & Hr1 & Hin1 & Hs1). destruct (He1 Hw) as [-> Hw1]. simpl.
  pose proof (Encode_ok v st1 Hv Hw1) as H2. destruct (EncodeWithMaxLength v st1) as [st2 e2].
  destruct H2 as (-> & Hw2 & Hr2 & Hin2 & Hs2). simpl.
  pose proof (CloseWrite_ok st2) as H3. destruct (CloseWrite st2) as [st3 e3].
  destruct H3 as (He3 & Hr3 & Hin3 & Hs3). rewrite (He3 Hw2). simpl.
  exists st3. split; [done|]. split; [tauto|]. split; congruence.
Qed.

Lemma writeResponse_ok v st :
  rpc_ok v → can_write st →
  ∃ st', writeResponse v st = (st', Ret ()) ∧ sent st' = sent st +:+ successCode +:+ wire v.
Proof.
  intros Hv Hw. unfold writeResponse, try_op, mbind, SM_bind.
  pose proof (SetWriteDeadline_ok writeTimeout st) as H1.
  destruct (SetWriteDeadline writeTimeout st) as [st1 e1].
  destruct H1 as (He1 & _ & _ & Hs1). destruct (He1 Hw) as [-> Hw1]. simpl.
  pose proof (Write_ok successCode st1 Hw1) as H2. destruct (stream_Write successCode st1) as [st2 e2].
  destruct H2 as (-> & Hw2 & _ & _ & Hs2). simpl.
  pose proof (Encode_ok v st2 Hv Hw2) as H3. destruct (EncodeWithMaxLength v st2) as [st3 e3].
  destruct H3 as (-> & Hw3 & _ & _ & Hs3). simpl.
  pose proof (CloseWrite_ok st3) as H4. destruct (CloseWrite st3) as [st4 e4].
  destruct H4 as (He4 & _ & _ & Hs4). rewrite (He4 Hw3). simpl.
  exists st4. split; [done|]. rewrite Hs4, Hs3, Hs2, Hs1. apply app_assoc_s.
Qed.

Lemma readResponse_code c r st :
  can_read st → incoming st = String c r →
  ∃ st2, can_read st2 ∧ incoming st2 = r ∧ sent st2 = sent st ∧ ∀ t,
    readResponse t st =
      (if (byte_N c =? 0)%N then
         v ← try_val "failed to decode data on stream" (DecodeWithMaxLength t);
         _ ← try_op "failed to close read response stream" CloseRead;
         mret v
       else
         errData ← try_val "failed to read response error data on stream" ReadAll;
         fail_SM (errors_Wrap (errors_New errData)
           (Sprintf "received error code %d response on stream" [FInt (Z.of_N (byte_N c))]))) st2.
Proof.
  intros Hr Hin. pose proof (SetReadDeadline_ok readTimeout st) as H1.
  destruct (SetReadDeadline readTimeout st) as [st1 e1] eqn:E1.
  destruct H1 as (He1 & _ & Hin1 & Hs1). destruct (He1 Hr) as [-> Hr1].
  pose proof (ReadByte_ok c r st1 Hr1) as H2. rewrite Hin1 in H2. specialize (H2 Hin).
  destruct (ReadByte st1) as [st2 x] eqn:E2. destruct H2 as (-> & Hr2 & _ & Hin2 & Hs2).
  exists st2. split_and!; [done|done|congruence|]. intros t.
  unfold readResponse. rewrite (SM_bind_Ret _ _ _ _ _ (try_op_Ret _ _ _ _ E1)).
  by rewrite (SM_bind_Ret _ _ _ _ _ (try_val_Ret _ _ _ _ _ E2)).
Qed.

Lemma readResponse_ok v r st :
  rpc_ok v → can_read st → incoming st = successCode +:+ wire v +:+ r →
  ∃ st', readResponse (value_rpc_type v) st = (st', Ret v) ∧ sent st' = sent st.
Proof.
  intros Hv Hr Hin. destruct (readResponse_code Ascii.zero (wire v +:+ r) st Hr Hin)
    as (st2 & Hr2 & Hin2 & Hs2 & ->). simpl.
  unfold try_val, try_op, mbind, SM_bind.
  pose proof (Decode_ok v r st2 Hv Hr2 Hin2) as H2.
  destruct (DecodeWithMaxLength _ st2) as [st3 x]. destruct H2 as (-> & Hr3 & _ & _ & Hs3). simpl.
  pose proof (CloseRead_ok st3) as H3. destruct (CloseRead st3) as [st4 e4].
  destruct H3 as (He4 & _ & Hs4). rewrite (He4 Hr3). simpl. exists st4. split; [done|congruence].
Qed.

(** A deferred close changes neither the result nor what was sent. *)
Lemma deferClose_ok {A} (body : SM St A) st st1 r :
  body st = (st1, r) → ∃ st', deferClose body st = (st', r) ∧ sent st' = sent st1.
Proof.
  intros Hb. unfold deferClose. rewrite Hb. pose proof (Close_ok st1) as Hc.
  destruct (stream_Close st1) as [st2 e2]. destruct Hc as [_ Hs]. by exists st2.
Qed.

(** The two requests the node makes, on a stream that carries the answer. *)
Lemma OutboundPing_ok n r st :
  is_u64 n → can_read st → can_write st → incoming st = successCode +:+ wire (RUint64 n) +:+ r →
  ∃ st', OutboundPingHandler st = (st', Ret ()) ∧ sent st' = sent st +:+ wire (RUint64 0).
Proof.
  intros Hn Hr Hw Hin. assert (rpc_ok (RUint64 0)) as Hz by (simpl; unfold is_u64; lia).
  destruct (writeRequest_ok (RUint64 0) st Hz Hw) as (st1 & Hwr & Hr1 & Hin1 & Hs1).
  rewrite <-Hin1 in Hin. destruct (readResponse_ok (RUint64 n) r st1 Hn (Hr1 Hr) Hin)
    as (st2 & Hrd & Hs2). simpl in Hrd.
  destruct (deferClose_ok (
    _ ← wrap_SM "failed to write ping request on stream" (writeRequest (RUint64 0));
    _ ← wrap_SM "failed to read ping response on stream" (readResponse TUint64);
    mret ()) st st2 (Ret ())) as (st3 & Hd & Hs3).
  { unfold wrap_SM, mbind, SM_bind. rewrite Hwr. simpl. by rewrite Hrd. }
  exists st3. split; [exact Hd|congruence].
Qed.
Lemma OutboundMetadata_ok n a s r st :
  is_u64 n → can_read st → incoming st = successCode +:+ wire (RMetaData n a s) +:+ r →
  ∃ st', OutboundMetadataHandler st = (st', Ret ()) ∧ sent st' = sent st.
Proof.
  intros Hn Hr Hin. destruct (readResponse_ok (RMetaData n a s) r st Hn Hr Hin) as (st2 & Hrd & Hs2).
  simpl in Hrd. destruct (deferClose_ok (
    _ ← wrap_SM "failed to read metadata response" (readResponse TMetaData); mret ()) st st2 (Ret ()))
    as (st3 & Hd & Hs3).
  { unfold wrap_SM, mbind, SM_bind. by rewrite Hrd. }
  exists st3. split; [exact Hd|congruence].
Qed.

(** Every handler with a deferred close closes the stream and returns. *)
Lemma logged_closes {A} (body : SM St A) st :
  (∀ st p, (body st).2 ≠ Panicked p) →
  ∃ st', logged body st = (st', Ret ()) ∧ is_closed st' = true ∧ sent st' = sent (body st).1.
Proof.
  intros Hb. unfold logged, deferClose. specialize (Hb st).
  destruct (body st) as [st1 r]. pose proof (Close_ok st1) as Hc.
  destruct (stream_Close st1) as [st2 e2]. destruct Hc as [Hc Hs]. simpl.
  exists st2. simpl in Hb. by destruct r as [a|e|v]; [..|destruct (Hb v)].
Qed.
End Lemmas.

(** ** No call panics *)

Section NoPanic.
Context {St : Type} `{Bitfield} `{!Stream St} `{Goodbye}.

Definition no_panic {A} (m : SM St A) : Prop := ∀ st v, (m st).2 ≠ Panicked v.

Lemma no_panic_bind {A B} (m : SM St A) (k : A → SM St B) :
  no_panic m → (∀ a, no_panic (k a)) → no_panic (m ≫= k).
Proof.
  intros Hm Hk st v. unfold mbind, SM_bind. specialize (Hm st v).
  destruct (m st) as [st1 [a|e|w]]; [apply Hk|done|]. intros [= ->]. by apply Hm.
Qed.
Lemma no_panic_ret {A} (a : A) : no_panic (mret a).
Proof. done. Qed.
Lemma no_panic_op msg op : no_panic (try_op msg op).
Proof. intros st v. unfold try_op. by destruct (op st) as [st1 [e|]]. Qed.
Lemma no_panic_new msg op : no_panic (try_new msg op).
Proof. intros st v. unfold try_new. by destruct (op st) as [st1 [e|]]. Qed.
Lemma no_panic_val {A} msg (op : St → St * (error + A)) : no_panic (try_val msg op).
Proof. intros st v. unfold try_val. by destruct (op st) as [st1 [e|a]]. Qed.

Lemma no_panic_readRequest t : no_panic (readRequest t).
Proof.
  repeat first [apply no_panic_bind; intros | apply no_panic_ret | apply no_panic_op
               | apply no_panic_new | apply no_panic_val].
Qed.
Lemma no_panic_writeResponse v : no_panic (writeResponse v).
Proof.
  repeat first [apply no_panic_bind; intros | apply no_panic_ret | apply no_panic_op
               | apply no_panic_new | apply no_panic_val].
Qed.
End NoPanic.

Section Closes.
Context {St : Type} `{Bitfield} `{!Stream St} `{!StreamLaws (St := St)} `{Goodbye}.
Implicit Types (st : St).

(** Each inbound handler closes the stream after what its body sent. *)
Lemma ping_closes st : ∃ st', InboundPingHandler st = (st', Ret ()) ∧ is_closed st' = true ∧
  sent st' = sent ((_ ← readRequest TUint64; writeResponse (RUint64 0)) st).1.
Proof.
  apply logged_closes, no_panic_bind; [apply no_panic_readRequest|].
  intros _. apply no_panic_writeResponse.
Qed.
Lemma status_closes st : ∃ st', InboundStatusHandler st = (st', Ret ()) ∧ is_closed st' = true ∧
  sent st' = sent ((status ← readRequest TStatus; writeResponse status) st).1.
Proof.
  apply logged_closes, no_panic_bind; [apply no_panic_readRequest|].
  apply no_panic_writeResponse.
Qed.
Lemma goodbye_closes st : ∃ st', InboundGoodbyeHandler st = (st', Ret ()) ∧ is_closed st' = true ∧
  sent st' = sent ((req ← readRequest TUint64;
    match req with
    | RUint64 code =>
        match GoodbyeCodeMessages !! code with Some _ => mret () | None => mret () end
    | _ => mret ()
    end) st).1.
Proof.
  apply logged_closes. apply no_panic_bind; [apply no_panic_readRequest|].
  intros []; repeat case_match; apply no_panic_ret.
Qed.
End Closes.

(** ** Properties *)

Section Claims.
Context {St : Type} `{Bitfield} `{!Stream St} `{!StreamLaws (St := St)} `{Goodbye}.
Context `{Externals.Params, P2P, Slots, Hexutil}.
Implicit Types (st : St).

(** What the inbound handlers send on a stream that carries a request. *)
Lemma ping_sends n rest st :
  is_u64 n → can_read st → can_write st → incoming st = wire (RUint64 n) +:+ rest →
  sent (InboundPingHandler st).1 = sent st +:+ successCode +:+ wire (RUint64 0).
Proof.
  intros Hn Hr Hw Hin.
  destruct (readRequest_ok (RUint64 n) rest st Hn Hr Hin) as (st1 & Hrd & Hw1 & Hs1).
  destruct (writeResponse_ok (RUint64 0) st1) as (st2 & Hwr & Hs2);
    [simpl; unfold is_u64; lia|by apply Hw1|].
  destruct (ping_closes st) as (st' & Hh & _ & Hs). rewrite Hh. simpl. rewrite Hs.
  rewrite (SM_bind_Ret _ _ _ _ _ Hrd), Hwr. simpl. congruence.
Qed.

Lemma metadata_sends net :
  supported net = true → ∃ a s h, InboundMetadataHandler net = Ret h ∧
    GetAttestationAllSubnetBitvector net = Ret a ∧ GetSyncCommitteeAllSubnetBitvector net = Ret s ∧
    (∀ st, can_write st → sent (h st).1 = sent st +:+ successCode +:+ wire (RMetaData 0 a s)) ∧
    ∀ st, (h st).2 = Ret () ∧ is_closed (h st).1 = true.
Proof.
  intros Hs. unfold InboundMetadataHandler, GetAttestationAllSubnetBitvector,
    GetSyncCommitteeAllSubnetBitvector. rewrite GetBeaconChainConfig_supported by done.
  cbn [mbind outcome_bind]. do 3 eexists. split; [done|]. split; [done|]. split; [done|].
  match goal with |- context [logged (writeResponse ?m)] => set (md := m) end.
  assert (∀ st', ∃ st2, logged (writeResponse md) st' = (st2, Ret ()) ∧
    is_closed st2 = true ∧ sent st2 = sent (writeResponse md st').1) as Hc.
  { intros st'. apply logged_closes, no_panic_writeResponse. }
  split.
  - intros st Hw. destruct (Hc st) as (st2 & Hh & _ & Hs2). rewrite Hh. simpl. rewrite Hs2.
    destruct (writeResponse_ok md st) as (st3 & Hwm & Hs3); [simpl; unfold is_u64; lia|done|].
    by rewrite Hwm.
  - intros st. destruct (Hc st) as (st2 & Hh & Hcl & _). by rewrite Hh.
Qed.

(** C21. Exchanges between two nodes that run this code succeed. On working streams
    whose incoming bytes are what the other side sends: a response that
    [writeResponse] writes is read back by [readResponse], for every value of
    the payload types; the request of [OutboundPingHandler] is answered by
    [InboundPingHandler] so that the ping returns without error; the answer of
    the metadata handler is accepted by [OutboundMetadataHandler]. A response
    with another code than 0 is instead an error that carries the rest of the
    stream as its message and names the code. *)
Theorem response_roundtrip (net : string) (v : rpc_value) (c s : St) (rest rest' : string)
  (Hcr : can_read c) (Hcw : can_write c) (Hsr : can_read s) (Hsw : can_write s) :
  (rpc_ok v → ∃ s', writeResponse v s = (s', Ret ()) ∧ sent s' = sent s +:+ successCode +:+ wire v ∧
     (incoming c = successCode +:+ wire v +:+ rest →
        ∃ c', readResponse (value_rpc_type v) c = (c', Ret v))) ∧
  (let request := wire (RUint64 0) in
   let response := successCode +:+ wire (RUint64 0) in
   incoming s = request +:+ rest → incoming c = response +:+ rest' →
     sent (OutboundPingHandler c).1 = sent c +:+ request ∧
     sent (InboundPingHandler s).1 = sent s +:+ response ∧
     (OutboundPingHandler c).2 = Ret ()) ∧
  (supported net = true → ∃ h a b, InboundMetadataHandler net = Ret h ∧
     let response := successCode +:+ wire (RMetaData 0 a b) in
     sent (h s).1 = sent s +:+ response ∧
     (incoming c = response +:+ rest' → (OutboundMetadataHandler c).2 = Ret ())) ∧
  (∀ code msg t, code ≠ Ascii.zero → incoming c = String code msg →
     ∃ c', readResponse t c = (c', Fail (errors_Wrap (errors_New msg)
       (Sprintf "received error code %d response on stream" [FInt (Z.of_N (byte_N code))])))).
Proof.
  assert (is_u64 0) as Hz by (unfold is_u64; lia). split_and!.
  - intros Hv. destruct (writeResponse_ok v s Hv Hsw) as (s' & Hww & Hs).
    exists s'. split_and!; [done|done|]. intros Hin.
    destruct (readResponse_ok v rest c Hv Hcr Hin) as (c' & Hrd & _). eauto.
  - intros request response Hins Hinc. unfold response in Hinc. rewrite app_assoc_s in Hinc.
    destruct (OutboundPing_ok 0 rest' c Hz Hcr Hcw Hinc) as (c' & -> & Hs).
    split_and!; [done|by apply (ping_sends 0 rest)|done].
  - intros Hnet. destruct (metadata_sends net Hnet) as (a & b & h & Hh & _ & _ & Hsend & _).
    exists h, a, b. split; [done|]. split; [by apply Hsend|].
    intros Hin. rewrite app_assoc_s in Hin.
    by destruct (OutboundMetadata_ok 0 a b rest' c Hz Hcr Hin) as (c' & -> & _).
  - intros code msg t Hc Hin.
    destruct (readResponse_code code msg c Hcr Hin) as (r2 & Hr2 & Hin2 & _ & ->).
    assert ((byte_N code =? 0)%N = false) as ->.
    { apply N.eqb_neq. intros Hn. apply Hc. unfold byte_N in Hn.
      rewrite <-(Ascii.ascii_N_embedding code), Hn. done. }
    unfold try_val, mbind, SM_bind, fail_SM.
    pose proof (ReadAll_ok r2 Hr2) as Ha. destruct (ReadAll r2) as [r3 x].
    destruct Ha as [-> _]. simpl. rewrite Hin2. eauto.
Qed.

(** C34. What the inbound handlers do on a working stream: a ping is answered with
    sequence number 0, a status with a copy of the requester's own status, a
    metadata request, of either version, with MetaDataV1 with sequence number 0
    and all the subnets of the network, a goodbye with nothing. On any stream
    whatever, each of them returns and leaves the stream closed. *)
Theorem inbound_answers (net : string) (st : St) (n : Z) (status rest : string)
  (Hr : can_read st) (Hw : can_write st) (Hn : is_u64 n) (Hstatus : String.length status = status_size) :
  (incoming st = wire (RUint64 n) +:+ rest →
     sent (InboundPingHandler st).1 = sent st +:+ successCode +:+ wire (RUint64 0) ∧
     sent (InboundGoodbyeHandler st).1 = sent st) ∧
  (incoming st = wire (RStatus status) +:+ rest →
     sent (InboundStatusHandler st).1 = sent st +:+ successCode +:+ wire (RStatus status)) ∧
  (supported net = true → ∃ a s h,
     (∀ topic, topic ∈ [RPCMetaDataTopicV1; RPCMetaDataTopicV2] →
        topic ∉ [RPCPingTopicV1; RPCGoodByeTopicV1] → mappingTopicToHandler net topic = Ret h) ∧
     GetAttestationAllSubnetBitvector net = Ret a ∧
     GetSyncCommitteeAllSubnetBitvector net = Ret s ∧
     sent (h st).1 = sent st +:+ successCode +:+ wire (RMetaData 0 a s) ∧
     ∀ st', (h st').2 = Ret () ∧ is_closed (h st').1 = true) ∧
  (∀ st' h, h ∈ [InboundPingHandler; InboundGoodbyeHandler; InboundStatusHandler] →
     (h st').2 = Ret () ∧ is_closed (h st').1 = true).
Proof.
  split_and!.
  - intros Hin. split; [by apply (ping_sends n rest)|].
    destruct (readRequest_ok (RUint64 n) rest st Hn Hr Hin) as (st1 & Hrd & Hw1 & Hs1).
    destruct (goodbye_closes st) as (st' & Hh & _ & Hs). rewrite Hh. simpl. rewrite Hs.
    rewrite (SM_bind_Ret _ _ _ _ _ Hrd). simpl. by case_match.
  - intros Hin. destruct (readRequest_ok (RStatus status) rest st Hstatus Hr Hin) as (st1 & Hrd & Hw1 & Hs1).
    destruct (writeResponse_ok (RStatus status) st1 Hstatus (Hw1 Hw)) as (st2 & Hwr & Hs2).
    destruct (status_closes st) as (st' & Hh & _ & Hs). rewrite Hh. simpl. rewrite Hs.
    rewrite (SM_bind_Ret _ _ _ _ _ Hrd), Hwr. simpl. congruence.
  - intros Hs. destruct (metadata_sends net Hs) as (a & b & h & Hh & Ha & Hb & Hsend & Hcl).
    exists a, b, h. split_and!; [|done|done|by apply Hsend|done].
    intros topic Ht Hnot. rewrite !not_elem_of_cons in Hnot. destruct Hnot as (Hp & Hg & _).
    unfold mappingTopicToHandler. rewrite !(bool_decide_false (topic = _)) by done.
    rewrite !elem_of_cons, elem_of_nil in Ht.
    destruct Ht as [->|[->|[]]].
    + by rewrite (bool_decide_true (RPCMetaDataTopicV1 = RPCMetaDataTopicV1)) by done.
    + by rewrite (bool_decide_true (RPCMetaDataTopicV2 = RPCMetaDataTopicV2)), orb_true_r by done.
  - intros st' h Hh. rewrite !elem_of_cons, elem_of_nil in Hh.
    destruct Hh as [->|[->|[->|[]]]].
    + destruct (ping_closes st') as (st2 & Hh & Hcl & _). by rewrite Hh.
    + destruct (goodbye_closes st') as (st2 & Hh & Hcl & _). by rewrite Hh.
    + destruct (status_closes st') as (st2 & Hh & Hcl & _). by rewrite Hh.
Qed.

(** The service answers exactly the five protocols, in the order of the list,
    each under its topic followed by /ssz_snappy, with the handler of its
    message: ping, goodbye, status, and the same metadata for both versions. *)
Lemma serve_registers (net : string) (ctxErr : error) (metadata : StreamHandler (St := St))
  (Hd : NoDup rpc_topics) (Hm : InboundMetadataHandler net = Ret metadata) :
  Serve net ctxErr =
    ([(RPCPingTopicV1 +:+ "/" +:+ ProtocolSuffixSSZSnappy, InboundPingHandler);
      (RPCGoodByeTopicV1 +:+ "/" +:+ ProtocolSuffixSSZSnappy, InboundGoodbyeHandler);
      (RPCStatusTopicV1 +:+ "/" +:+ ProtocolSuffixSSZSnappy, InboundStatusHandler);
      (RPCMetaDataTopicV1 +:+ "/" +:+ ProtocolSuffixSSZSnappy, metadata);
      (RPCMetaDataTopicV2 +:+ "/" +:+ ProtocolSuffixSSZSnappy, metadata)], Fail ctxErr).
Proof.
  unfold rpc_topics in Hd. rewrite !NoDup_cons, !not_elem_of_cons in Hd. destruct_and!.
  unfold Serve, rpc_topics. cbn [set_handlers]. unfold mappingTopicToHandler.
  repeat first [rewrite (bool_decide_true (?a = ?a)) by done
               | rewrite bool_decide_false by congruence | rewrite bool_decide_true by done].
  simpl. rewrite Hm. reflexivity.
Qed.
End Claims.

(** ** A pipe, for the witnesses *)

(** Bit vectors as their bytes. *)
Definition set_bit (c : Ascii.ascii) (i : Z) (v : bool) : Ascii.ascii :=
  Ascii.ascii_of_N (Z.to_N (let n := Z.of_N (Ascii.N_of_ascii c) in
    if v then Z.setbit n i else Z.clearbit n i)).
Definition get_bit (c : Ascii.ascii) (i : Z) : bool := Z.testbit (Z.of_N (Ascii.N_of_ascii c)) i.
Record bytes8 := Bytes8 { b0 : Ascii.ascii; b1 : Ascii.ascii; b2 : Ascii.ascii; b3 : Ascii.ascii;
  b4 : Ascii.ascii; b5 : Ascii.ascii; b6 : Ascii.ascii; b7 : Ascii.ascii }.
Definition byte_at (b : bytes8) (k : Z) : Ascii.ascii :=
  nth (Z.to_nat k) [b0 b; b1 b; b2 b; b3 b; b4 b; b5 b; b6 b; b7 b] Ascii.zero.
Definition byte_bitfield : Bitfield := {|
  Bitvector64 := bytes8; Bitvector4 := Ascii.ascii;
  NewBitvector64 := Bytes8 Ascii.zero Ascii.zero Ascii.zero Ascii.zero
    Ascii.zero Ascii.zero Ascii.zero Ascii.zero;
  MakeBitvector4 z := Ascii.ascii_of_N (Z.to_N z);
  SetBitAt64 b i v :=
    let upd k := if bool_decide (i / 8 = k) then set_bit (byte_at b k) (i mod 8) v else byte_at b k in
    Bytes8 (upd 0) (upd 1) (upd 2) (upd 3) (upd 4) (upd 5) (upd 6) (upd 7);
  SetBitAt4 c i v := if bool_decide (i < 4) then set_bit c i v else c;
  BitAt64 b i := get_bit (byte_at b (i / 8)) (i mod 8);
  BitAt4 c i := get_bit c i |}.

(** Little-endian integers, as SSZ has them. *)
Fixpoint le_bytes (k : nat) (z : Z) : string :=
  match k with
  | O => ""
  | S k => String (Ascii.ascii_of_N (Z.to_N (z mod 256))) (le_bytes k (z / 256))
  end.
Fixpoint of_le (s : string) : Z :=
  match s with
  | EmptyString => 0
  | String c s => Z.of_N (Ascii.N_of_ascii c) + 256 * of_le s
  end.

Lemma of_le_bytes k z : 0 <= z < 256 ^ Z.of_nat k → of_le (le_bytes k z) = z.
Proof.
  revert z. induction k as [|k IH]; intros z Hz; [simpl in *; lia|].
  cbn [le_bytes of_le]. rewrite Nat2Z.inj_succ, Z.pow_succ_r in Hz by lia.
  pose proof (Z.mod_pos_bound z 256). pose proof (Z.div_mod z 256).
  rewrite Ascii.N_ascii_embedding, Z2N.id by lia.
  rewrite IH; [lia|]. split; [apply Z.div_pos; lia|apply Z.div_lt_upper_bound; lia].
Qed.
Lemma le_bytes_length k z : String.length (le_bytes k z) = k.
Proof. revert z. induction k as [|k IH]; intros z; simpl; [done|by rewrite IH]. Qed.

(** The first [n] bytes and the rest, if there are as many. *)
Fixpoint split_bytes (n : nat) (s : string) : option (string * string) :=
  match n, s with
  | O, _ => Some ("", s)
  | S n, String c s => '(a, r) ← split_bytes n s; Some (String c a, r)
  | S _, EmptyString => None
  end.
Lemma split_bytes_app a r : split_bytes (String.length a) (a +:+ r) = Some (a, r).
Proof.
  induction a as [|c a IH]; [done|]. rewrite app_cons_s. cbn [String.length split_bytes].
  by rewrite IH.
Qed.

#[local] Existing Instance byte_bitfield.

(** The SSZ bytes of a value, and the value of bytes of its size. *)
Definition ssz (v : rpc_value) : string :=
  match v with
  | RUint64 n => le_bytes 8 n
  | RStatus bytes => bytes
  | RMetaData n a s =>
      le_bytes 8 n +:+ String (b0 a) (String (b1 a) (String (b2 a) (String (b3 a) (String (b4 a)
        (String (b5 a) (String (b6 a) (String (b7 a) (String s ""))))))))
  end.
Definition unssz (t : rpc_type) (s : string) : option rpc_value :=
  match t with
  | TUint64 => if bool_decide (String.length s = 8%nat) then Some (RUint64 (of_le s)) else None
  | TStatus => if bool_decide (String.length s = status_size) then Some (RStatus s) else None
  | TMetaData =>
      '(n, r) ← split_bytes 8 s;
      match r with
      | String c0 (String c1 (String c2 (String c3 (String c4 (String c5 (String c6 (String c7
          (String c8 EmptyString)))))))) =>
          Some (RMetaData (of_le n) (Bytes8 c0 c1 c2 c3 c4 c5 c6 c7) c8)
      | _ => None
      end
  end.
Lemma unssz_ssz v : rpc_ok v → unssz (value_rpc_type v) (ssz v) = Some v.
Proof.
  destruct v as [n|b|n a s]; unfold rpc_ok, is_u64; intros Hv; cbn [value_rpc_type unssz ssz].
  - rewrite bool_decide_true by apply le_bytes_length. rewrite of_le_bytes by (simpl; lia). done.
  - by rewrite bool_decide_true.
  - pose proof (split_bytes_app (le_bytes 8 n)) as Hsplit. rewrite le_bytes_length in Hsplit.
    rewrite Hsplit. cbn [mbind option_bind]. rewrite of_le_bytes by (simpl; lia). by destruct a.
Qed.

(** The length of the value in one byte, then its SSZ bytes; the snappy framing of
    the encoder is left out. *)
Definition pipe_wire (v : rpc_value) : string :=
  String (Ascii.ascii_of_nat (String.length (ssz v))) (ssz v).
Definition pipe_unwire (t : rpc_type) (s : string) : option (rpc_value * string) :=
  match s with
  | String c s =>
      '(a, r) ← split_bytes (Ascii.nat_of_ascii c) s; v ← unssz t a; Some (v, r)
  | EmptyString => None
  end.

Lemma ssz_length v : rpc_ok v → (String.length (ssz v) < 256)%nat.
Proof.
  destruct v as [n|b|n a s]; intros Hv; cbn [ssz].
  - rewrite le_bytes_length. lia.
  - rewrite Hv. unfold status_size. lia.
  - simpl. lia.
Qed.
Lemma pipe_unwire_wire v r :
  rpc_ok v → pipe_unwire (value_rpc_type v) (pipe_wire v +:+ r) = Some (v, r).
Proof.
  intros Hv. unfold pipe_wire. rewrite app_cons_s. cbn [pipe_unwire].
  rewrite Ascii.nat_ascii_embedding by by apply ssz_length.
  rewrite split_bytes_app. simpl. by rewrite unssz_ssz.
Qed.

Record pipe := Pipe { pipe_in : string; pipe_out : string; pipe_closed : bool }.

Definition pipe_stream : Stream pipe := {|
  SetReadDeadline _ p := (p, None); SetWriteDeadline _ p := (p, None);
  stream_Write b p := (Pipe (pipe_in p) (pipe_out p +:+ b) (pipe_closed p), None);
  ReadByte p := match pipe_in p with
                | EmptyString => (p, inl (error_ext "EOF"))
                | String c s => (Pipe s (pipe_out p) (pipe_closed p), inr c)
                end;
  ReadAll p := (Pipe "" (pipe_out p) (pipe_closed p), inr (pipe_in p));
  EncodeWithMaxLength v p := (Pipe (pipe_in p) (pipe_out p +:+ pipe_wire v) (pipe_closed p), None);
  DecodeWithMaxLength t p := match pipe_unwire t (pipe_in p) with
                             | None => (p, inl (error_ext "EOF"))
                             | Some (v, s) => (Pipe s (pipe_out p) (pipe_closed p), inr v)
                             end;
  CloseRead p := (p, None); CloseWrite p := (p, None);
  stream_Close p := (Pipe (pipe_in p) (pipe_out p) true, None) |}.
#[local] Existing Instance pipe_stream.

Definition pipe_laws : StreamLaws (St := pipe).
Proof.
  refine {| incoming := pipe_in; sent := pipe_out; can_read := λ _, True; can_write := λ _, True;
            is_closed := pipe_closed; wire := pipe_wire |}; try done; simpl.
  - intros c r st _ ->. done.
  - intros v r st Hv _ ->. by rewrite pipe_unwire_wire.
Defined.
#[local] Existing Instance pipe_laws.

Definition no_goodbyes : Goodbye := {| GoodbyeCodeMessages := ∅ |}.

Section Witnesses.
#[local] Existing Instance no_goodbyes.
#[local] Existing Instance prysm_params.
#[local] Existing Instance prysm_p2p.
#[local] Existing Instance clock_slots.
#[local] Existing Instance hex_hexutil.

(** A ping between two pipes. *)
Lemma response_roundtrip_witness :
  let request := pipe_wire (RUint64 0) in
  let response := successCode +:+ pipe_wire (RUint64 0) in
  (OutboundPingHandler (Pipe response "" false)).2 = Ret () ∧
  pipe_out (InboundPingHandler (Pipe request "" false)).1 = response.
Proof.
  intros request response.
  destruct (response_roundtrip "mainnet" (RUint64 7) (Pipe response "" false) (Pipe request "" false)
    "" "") as (_ & Hping & _); [exact I..|].
  destruct Hping as (_ & Hs & Hret); [reflexivity|reflexivity|].
  split; [exact Hret|exact Hs].
Defined.

Definition sample_status : string := le_bytes 84 7.

Lemma inbound_answers_witness :
  pipe_out (InboundStatusHandler (Pipe (pipe_wire (RStatus sample_status)) "" false)).1 =
    successCode +:+ pipe_wire (RStatus sample_status).
Proof.
  destruct (inbound_answers "mainnet" (Pipe (pipe_wire (RStatus sample_status)) "" false) 0
    sample_status "") as (_ & Hs & _); [exact I|exact I|unfold is_u64; lia|reflexivity|].
  apply Hs. reflexivity.
Defined.

End Witnesses.
