(* ===== verification/Watcher.v ===== *)
(** * watcher/watcher.go: putting the services together

    The options, the keys, the construction of every component in order, and the
    list of services handed to the supervisor. The connection manager, the key
    conversions and the supervisor's run are parameters. *)

From S2P Require Import Prelude GoStrings GoTime GoFloat GoNet Externals Eth Repository.
From S2P Require Import SlotExtractor Processor Host Dialer Discovery PeerScore.
From S2P Require Import GossipHandler GossipSub ReqResp.
Local Open Scope Z_scope.

Definition UserAgent : string := "peekd".

Record WatcherOption := {
  ecdsaPrivateKeyHex : string;
  wo_listenIP : string;
  wo_portUDP : Z;
  wo_portTCP : Z;
  wo_targetPeers : Z;
  ethNetwork : string;
  wo_estimateActiveValidators : Z;
  wo_dbType : string;
  wo_dbName : string;
  wo_dbHost : string;
  wo_dbPort : Z;
  wo_dbUser : string;
  wo_dbPassword : string;
  wo_dbSecure : bool;
  wo_nodeAlias : string;
  wo_nodeRegion : string;
}.

Definition WithECDSAPrivateKeyHex (v : string) (o : WatcherOption) : WatcherOption :=
  Build_WatcherOption
    v (wo_listenIP o) (wo_portUDP o) (wo_portTCP o) (wo_targetPeers o) (ethNetwork o)
    (wo_estimateActiveValidators o) (wo_dbType o) (wo_dbName o) (wo_dbHost o) (wo_dbPort
    o) (wo_dbUser o) (wo_dbPassword o) (wo_dbSecure o) (wo_nodeAlias o) (wo_nodeRegion o).
Definition WithListenIP (v : string) (o : WatcherOption) : WatcherOption :=
  Build_WatcherOption
    (ecdsaPrivateKeyHex o) v (wo_portUDP o) (wo_portTCP o) (wo_targetPeers o) (ethNetwork
    o) (wo_estimateActiveValidators o) (wo_dbType o) (wo_dbName o) (wo_dbHost o)
    (wo_dbPort o) (wo_dbUser o) (wo_dbPassword o) (wo_dbSecure o) (wo_nodeAlias o)
    (wo_nodeRegion o).
Definition WithPortUDP (v : Z) (o : WatcherOption) : WatcherOption :=
  Build_WatcherOption
    (ecdsaPrivateKeyHex o) (wo_listenIP o) v (wo_portTCP o) (wo_targetPeers o) (ethNetwork
    o) (wo_estimateActiveValidators o) (wo_dbType o) (wo_dbName o) (wo_dbHost o)
    (wo_dbPort o) (wo_dbUser o) (wo_dbPassword o) (wo_dbSecure o) (wo_nodeAlias o)
    (wo_nodeRegion o).
Definition WithPortTCP (v : Z) (o : WatcherOption) : WatcherOption :=
  Build_WatcherOption
    (ecdsaPrivateKeyHex o) (wo_listenIP o) (wo_portUDP o) v (wo_targetPeers o) (ethNetwork
    o) (wo_estimateActiveValidators o) (wo_dbType o) (wo_dbName o) (wo_dbHost o)
    (wo_dbPort o) (wo_dbUser o) (wo_dbPassword o) (wo_dbSecure o) (wo_nodeAlias o)
    (wo_nodeRegion o).
Definition WithTargetPeers (v : Z) (o : WatcherOption) : WatcherOption :=
  Build_WatcherOption
    (ecdsaPrivateKeyHex o) (wo_listenIP o) (wo_portUDP o) (wo_portTCP o) v (ethNetwork o)
    (wo_estimateActiveValidators o) (wo_dbType o) (wo_dbName o) (wo_dbHost o) (wo_dbPort
    o) (wo_dbUser o) (wo_dbPassword o) (wo_dbSecure o) (wo_nodeAlias o) (wo_nodeRegion o).
Definition WithEthNetwork (v : string) (o : WatcherOption) : WatcherOption :=
  Build_WatcherOption
    (ecdsaPrivateKeyHex o) (wo_listenIP o) (wo_portUDP o) (wo_portTCP o) (wo_targetPeers
    o) v (wo_estimateActiveValidators o) (wo_dbType o) (wo_dbName o) (wo_dbHost o)
    (wo_dbPort o) (wo_dbUser o) (wo_dbPassword o) (wo_dbSecure o) (wo_nodeAlias o)
    (wo_nodeRegion o).
Definition WithEstimateActiveValidators (v : Z) (o : WatcherOption) : WatcherOption :=
  Build_WatcherOption
    (ecdsaPrivateKeyHex o) (wo_listenIP o) (wo_portUDP o) (wo_portTCP o) (wo_targetPeers
    o) (ethNetwork o) v (wo_dbType o) (wo_dbName o) (wo_dbHost o) (wo_dbPort o) (wo_dbUser
    o) (wo_dbPassword o) (wo_dbSecure o) (wo_nodeAlias o) (wo_nodeRegion o).
Definition WithDBType (v : string) (o : WatcherOption) : WatcherOption :=
  Build_WatcherOption
    (ecdsaPrivateKeyHex o) (wo_listenIP o) (wo_portUDP o) (wo_portTCP o) (wo_targetPeers
    o) (ethNetwork o) (wo_estimateActiveValidators o) v (wo_dbName o) (wo_dbHost o)
    (wo_dbPort o) (wo_dbUser o) (wo_dbPassword o) (wo_dbSecure o) (wo_nodeAlias o)
    (wo_nodeRegion o).
Definition WithDBName (v : string) (o : WatcherOption) : WatcherOption :=
  Build_WatcherOption
    (ecdsaPrivateKeyHex o) (wo_listenIP o) (wo_portUDP o) (wo_portTCP o) (wo_targetPeers
    o) (ethNetwork o) (wo_estimateActiveValidators o) (wo_dbType o) v (wo_dbHost o)
    (wo_dbPort o) (wo_dbUser o) (wo_dbPassword o) (wo_dbSecure o) (wo_nodeAlias o)
    (wo_nodeRegion o).
Definition WithDBHost (v : string) (o : WatcherOption) : WatcherOption :=
  Build_WatcherOption
    (ecdsaPrivateKeyHex o) (wo_listenIP o) (wo_portUDP o) (wo_portTCP o) (wo_targetPeers
    o) (ethNetwork o) (wo_estimateActiveValidators o) (wo_dbType o) (wo_dbName o) v
    (wo_dbPort o) (wo_dbUser o) (wo_dbPassword o) (wo_dbSecure o) (wo_nodeAlias o)
    (wo_nodeRegion o).
Definition WithDBPort (v : Z) (o : WatcherOption) : WatcherOption :=
  Build_WatcherOption
    (ecdsaPrivateKeyHex o) (wo_listenIP o) (wo_portUDP o) (wo_portTCP o) (wo_targetPeers
    o) (ethNetwork o) (wo_estimateActiveValidators o) (wo_dbType o) (wo_dbName o)
    (wo_dbHost o) v (wo_dbUser o) (wo_dbPassword o) (wo_dbSecure o) (wo_nodeAlias o)
    (wo_nodeRegion o).
Definition WithDBUser (v : string) (o : WatcherOption) : WatcherOption :=
  Build_WatcherOption
    (ecdsaPrivateKeyHex o) (wo_listenIP o) (wo_portUDP o) (wo_portTCP o) (wo_targetPeers
    o) (ethNetwork o) (wo_estimateActiveValidators o) (wo_dbType o) (wo_dbName o)
    (wo_dbHost o) (wo_dbPort o) v (wo_dbPassword o) (wo_dbSecure o) (wo_nodeAlias o)
    (wo_nodeRegion o).
Definition WithDBPassword (v : string) (o : WatcherOption) : WatcherOption :=
  Build_WatcherOption
    (ecdsaPrivateKeyHex o) (wo_listenIP o) (wo_portUDP o) (wo_portTCP o) (wo_targetPeers
    o) (ethNetwork o) (wo_estimateActiveValidators o) (wo_dbType o) (wo_dbName o)
    (wo_dbHost o) (wo_dbPort o) (wo_dbUser o) v (wo_dbSecure o) (wo_nodeAlias o)
    (wo_nodeRegion o).
Definition WithDBSecure (v : bool) (o : WatcherOption) : WatcherOption :=
  Build_WatcherOption
    (ecdsaPrivateKeyHex o) (wo_listenIP o) (wo_portUDP o) (wo_portTCP o) (wo_targetPeers
    o) (ethNetwork o) (wo_estimateActiveValidators o) (wo_dbType o) (wo_dbName o)
    (wo_dbHost o) (wo_dbPort o) (wo_dbUser o) (wo_dbPassword o) v (wo_nodeAlias o)
    (wo_nodeRegion o).
Definition WithNodeAlias (v : string) (o : WatcherOption) : WatcherOption :=
  Build_WatcherOption
    (ecdsaPrivateKeyHex o) (wo_listenIP o) (wo_portUDP o) (wo_portTCP o) (wo_targetPeers
    o) (ethNetwork o) (wo_estimateActiveValidators o) (wo_dbType o) (wo_dbName o)
    (wo_dbHost o) (wo_dbPort o) (wo_dbUser o) (wo_dbPassword o) (wo_dbSecure o) v
    (wo_nodeRegion o).
Definition WithNodeRegion (v : string) (o : WatcherOption) : WatcherOption :=
  Build_WatcherOption
    (ecdsaPrivateKeyHex o) (wo_listenIP o) (wo_portUDP o) (wo_portTCP o) (wo_targetPeers
    o) (ethNetwork o) (wo_estimateActiveValidators o) (wo_dbType o) (wo_dbName o)
    (wo_dbHost o) (wo_dbPort o) (wo_dbUser o) (wo_dbPassword o) (wo_dbSecure o)
    (wo_nodeAlias o) v.

Class Keys `{Libp2pTypes} `{EnodeTypes} := {
  HexToECDSA : string → error + EcdsaKey;
  FromECDSA : EcdsaKey → string;
  UnmarshalSecp256k1PrivateKey : string → error + PrivKey;
  (** cm.NewConnManager(low, high) *)
  NewConnManager : Z → Z → error + ConnManager;
}.

Definition PrivKeyBytesLen : nat := 32.

Section Watcher.
Context `{Libp2p} `{Params, P2P, Slots, Hexutil, Bitfield, Forks, Math, PubSub}.
Context `{!EnodeTypes} `{!Enode} `{!Keys} `{Driver}.

Definition watcher_defaults : WatcherOption := {|
  ecdsaPrivateKeyHex := ""; wo_listenIP := "127.0.0.1"; wo_portUDP := 9090;
  wo_portTCP := 9090; wo_targetPeers := 80; ethNetwork := MainnetName;
  wo_estimateActiveValidators := 0; wo_dbType := ""; wo_dbName := ""; wo_dbHost := "";
  wo_dbPort := 0; wo_dbUser := ""; wo_dbPassword := ""; wo_dbSecure := false;
  wo_nodeAlias := ""; wo_nodeRegion := "" |}.

Definition retrievePrivateKeys (ecdsaKeyHex : string) : outcome (EcdsaKey * PrivKey) :=
  ecdsaKey ← (if negb (bool_decide (ecdsaKeyHex = ""))
              then wrap "failed to parse ecdsa private key" (of_sum (HexToECDSA ecdsaKeyHex))
              else wrap "failed to generate ecdsa private key" (of_sum GenerateKey));
  let ecdsaBytes := FromECDSA ecdsaKey in
  if negb (bool_decide (String.length ecdsaBytes = PrivKeyBytesLen))
  then Fail (errors_New (Sprintf "expected secp256k1 data size to be %d, but actual %d"
    [FInt (Z.of_nat PrivKeyBytesLen); FInt (Z.of_nat (String.length ecdsaBytes))])) else
  secpKey ← wrap "failed to unmarshal secp256k1 private key"
    (of_sum (UnmarshalSecp256k1PrivateKey ecdsaBytes));
  Ret (ecdsaKey, secpKey).

(** What the watcher adds to its supervisor. *)
Inductive service :=
  | SHost (h : Host)
  | SDiscovery (d : Discovery)
  | SDialer (d : Dialer)
  | SGossipSub (gs : GossipSub adapter Host)
  | SReqResp (rr : ReqResp)
  | SProcessor (p : BeaconMessageProcessor adapter Host).

Record Watcher := MkWatcher {
  w_supervisor : Supervisor;
  w_added : list service;
  w_repo : adapter;
}.

Definition repository_opts (o : WatcherOption) : list (RepositoryOption → RepositoryOption) :=
  [Repository.WithDBType (wo_dbType o); Repository.WithDBName (wo_dbName o);
   Repository.WithDBHost (wo_dbHost o); Repository.WithDBPort (wo_dbPort o);
   Repository.WithDBUser (wo_dbUser o); Repository.WithDBPassword (wo_dbPassword o);
   Repository.WithDBSecure (wo_dbSecure o)].

(** Up to and including the host. *)
Definition make_host (o : WatcherOption) : outcome (adapter * EcdsaKey * Host) :=
  repo ← wrap "failed to initialize repository" (NewRepository (repository_opts o));
  '(ecdsaKey, secpKey) ← wrap "failed to retrieve private keys"
    (retrievePrivateKeys (ecdsaPrivateKeyHex o));
  high ← sdiv (i64 (wo_targetPeers o * 5)) 4;
  connMgr ← wrap "failed to create connection manager"
    (of_sum (NewConnManager (wo_targetPeers o) high));
  localHost ← wrap "failed to create host" (NewHost
    [Host.WithListenIP (wo_listenIP o); Host.WithPort (wo_portTCP o);
     Host.WithPrivateKey secpKey; Host.WithUserAgent UserAgent;
     Host.WithTargetPeers (wo_targetPeers o); Host.WithConnMgr connMgr]);
  Ret (repo, ecdsaKey, localHost).

(** From the dialer on; [net] is the selected network. *)
Definition make_rest (o : WatcherOption) (net : string) (now : Time) (repo : adapter)
    (localHost : Host) (discovery : Discovery) : outcome Watcher :=
  let supervisor := suture_NewSimple "watcher" in
  dialer ← wrap "failed to create dialer"
    (NewDialer (Some localHost) (Some (Discovers discovery)));
  messageProcessor ← NewBeaconMessageProcessor net
    [WithRepository repo; WithPeerCounter localHost;
     Processor.WithNodeAlias (wo_nodeAlias o); Processor.WithNodeRegion (wo_nodeRegion o)];
  gossipSub ← wrap "failed to create gossipSub" (NewGossipSub net now
    [GossipSub.WithEstimateActiveValidators (wo_estimateActiveValidators o);
     WithSupervisor supervisor;
     GossipSub.WithHost (Some localHost); WithMessageProcessor (Some messageProcessor)]);
  reqResp ← wrap "failed to create reqresp" (NewReqResp [ReqResp.WithHost (Some localHost)]);
  Ret (MkWatcher supervisor [SHost localHost; SDiscovery discovery; SDialer dialer;
         SGossipSub gossipSub; SReqResp reqResp; SProcessor messageProcessor] repo).

(** [c] is the channel discovery makes. *)
Definition NewWatcher (s : eth_state) (now : Time) (c : chan)
    (opts : list (WatcherOption → WatcherOption)) : eth_state * outcome Watcher :=
  let o := apply_opts opts watcher_defaults in
  let '(net, e) := SetNetwork (ethNetwork o) (network s) in
  let s := EthState net (networkConfig s) in
  match e with
  | Some e => (s, Fail (errors_Wrap e "failed to set eth network"))
  | None =>
      match make_host o with
      | Ret (repo, ecdsaKey, localHost) =>
          let '(s, r) := NewDiscovery s now c
            [Discovery.WithPrivateKey (Some ecdsaKey); Discovery.WithListenIP (wo_listenIP o);
             Discovery.WithPortUDP (wo_portUDP o); Discovery.WithPortTCP (wo_portTCP o)] in
          (s, discovery ← wrap "failed to create discovery" r;
              make_rest o (network s) now repo localHost discovery)
      | Fail e => (s, Fail e)
      | Panicked v => (s, Panicked v)
      end
  end.

(** [Serve]: the supervisor runs, then the repository is closed. *)
Definition Serve (w : Watcher) (supervise : list service → outcome unit) : Watcher * outcome unit :=
  let r := supervise (w_added w) in
  (MkWatcher (w_supervisor w) (w_added w) (Close (w_repo w)).1, r).
End Watcher.
