(* ===== verification/WatcherClaims.v ===== *)
(** * Properties of the watcher *)

From S2P Require Import Prelude GoStrings GoTime GoFloat GoNet Externals Eth Repository.
From S2P Require Import RepositoryClaims SeenCounter SlotCache SlotExtractor Processor Samples.
From S2P Require Import Host Dialer Discovery PeerScore PeerScoreClaims GossipHandler GossipSub.
From S2P Require Import GossipClaims ReqResp Watcher.
Local Open Scope Z_scope.

Section Claims.
Context `{Libp2p} `{Externals.Params, P2P, Slots, Hexutil, Bitfield, Forks, Math, PubSub}.
Context `{!EnodeTypes} `{!Enode} `{!Keys} `{Driver}.

Lemma NewHost_target opts h :
  NewHost opts = Ret h → TargetPeerCount h = targetPeers (apply_opts opts host_defaults).
Proof.
  unfold NewHost. intros (k & _ & Hh)%bind_Ret_inv.
  do 5 (apply bind_Ret_inv in Hh as (? & _ & Hh)). by injection Hh as <-.
Qed.

(** A created watcher, taken apart. *)
Lemma make_rest_inv o net now r h d w :
  make_rest o net now r h d = Ret w →
  ∃ gs p, w = MkWatcher (gs_supervisor gs) [SHost h; SDiscovery d; SDialer (MkDialer h (Discovers d));
      SGossipSub gs; SReqResp (MkReqResp h); SProcessor p] r ∧
    gs_host gs = h ∧ gs_messageProcessor gs = Some p ∧ wo_estimateActiveValidators o ≠ 0 ∧
    GetBeaconChainConfig net = Ret (gs_beaconConfig gs) ∧
    NewBeaconMessageProcessor net [WithRepository r; WithPeerCounter h;
      Processor.WithNodeAlias (wo_nodeAlias o); Processor.WithNodeRegion (wo_nodeRegion o)] = Ret p.
Proof.
  unfold make_rest. cbn [NewDialer ok_or mbind outcome_bind wrap].
  intros (p & Hp & Hw)%bind_Ret_inv.
  apply bind_Ret_inv in Hw as (gs & Hgs%wrap_Ret_inv%NewGossipSub_inv & Hw).
  injection Hw as <-. destruct Hgs as (Hh & Hest & Hmp & Hsup & Hc & _). simpl in Hh.
  injection Hh as Hh. exists gs, p. rewrite Hsup. done.
Qed.

(** A created watcher, as a whole. *)
Lemma NewWatcher_inv (s s' : eth_state) (now : Time) (c : chan)
  (opts : list (WatcherOption → WatcherOption)) (w : Watcher) :
  let o := apply_opts opts watcher_defaults in
  NewWatcher s now c opts = (s', Ret w) →
  supported (ethNetwork o) = true ∧ network s' = ethNetwork o ∧
  wo_dbType o = "clickhouse" ∧ wo_estimateActiveValidators o ≠ 0 ∧
  ∃ h d gs p,
    w_supervisor w = gs_supervisor gs ∧
    w_added w = [SHost h; SDiscovery d; SDialer (MkDialer h c); SGossipSub gs;
                      SReqResp (MkReqResp h); SProcessor p] ∧
    Discovers d = c ∧ d_closed d = false ∧
    TargetPeerCount h = wo_targetPeers o ∧
    gs_host gs = h ∧ gs_messageProcessor gs = Some p ∧
    repo p = Some (w_repo w) ∧ peerCounter p = Some h ∧
    beaconConfig p = gs_beaconConfig gs ∧
    nodeAlias p = wo_nodeAlias o ∧ nodeRegion p = wo_nodeRegion o ∧
    slotCache p = NewSlotCacheStore ∧ seenCounter p = NewSeenCounter ∧
    extractors p = newSlotExtractorRegistry ∧ messageNotify p = 0%nat ∧ spawned p = [].
Proof.
  intros o. unfold NewWatcher, SetNetwork. fold o. destruct (supported (ethNetwork o)) eqn:Hs; [|done].
  destruct (make_host o) as [[[r key] h]|e|v] eqn:Hhost; [|done..].
  set (s1 := EthState _ _). destruct (NewDiscovery s1 now c _) as [s2 [d|e|v]] eqn:Hd; [|done..].
  cbn [wrap mbind outcome_bind]. intros [= <- Hw].
  apply NewDiscovery_inv in Hd as (Hnet & Hc & Hclosed & _). simpl in Hnet.
  apply make_rest_inv in Hw as (gs & p & -> & Hgh & Hgp & Hest & Hconf & Hp).
  unfold make_host in Hhost. apply bind_Ret_inv in Hhost as (r' & Hrepo%wrap_Ret_inv & Hhost).
  apply bind_Ret_inv in Hhost as ([k1 k2] & _ & Hhost).
  apply bind_Ret_inv in Hhost as (high & _ & Hhost).
  apply bind_Ret_inv in Hhost as (cm & _ & Hhost).
  apply bind_Ret_inv in Hhost as (h' & Hh%wrap_Ret_inv%NewHost_target & [= -> -> ->]).
  unfold NewBeaconMessageProcessor in Hp. rewrite Hconf in Hp. cbn [mbind outcome_bind] in Hp.
  apply bind_Ret_inv in Hp as (g & _ & [= <-]).
  split_and!; [done|done| |done|].
  - unfold NewRepository, repository_opts in Hrepo. simpl in Hrepo.
    by case_bool_decide.
  - exists h, d. eexists gs, _. simpl. rewrite Hc. by split_and!.
Qed.

(** C37. A watcher is created only for a supported network, database type
    clickhouse and a positive estimate of validators, and its services are
    given the same parts: one host to its own service, the dialer, the gossip and
    the request services; the dialer reads the channel discovery writes; the
    gossip handlers feed the processor that is served, and that processor
    saves to the repository the watcher closes, counts the host's peers and
    starts empty. *)
Theorem new_watcher_wiring (s s' : eth_state) (now : Time) (c : chan)
  (opts : list (WatcherOption → WatcherOption)) (w : Watcher) :
  let o := apply_opts opts watcher_defaults in
  NewWatcher s now c opts = (s', Ret w) →
  supported (ethNetwork o) = true ∧ network s' = ethNetwork o ∧
  wo_dbType o = "clickhouse" ∧ wo_estimateActiveValidators o ≠ 0 ∧
  ∃ h d gs p,
    w_supervisor w = gs_supervisor gs ∧
    w_added w = [SHost h; SDiscovery d; SDialer (MkDialer h c); SGossipSub gs;
                      SReqResp (MkReqResp h); SProcessor p] ∧
    Discovers d = c ∧ d_closed d = false ∧
    TargetPeerCount h = wo_targetPeers o ∧
    gs_host gs = h ∧ gs_messageProcessor gs = Some p ∧
    repo p = Some (w_repo w) ∧ peerCounter p = Some h ∧
    beaconConfig p = gs_beaconConfig gs ∧
    nodeAlias p = wo_nodeAlias o ∧ nodeRegion p = wo_nodeRegion o ∧
    slotCache p = NewSlotCacheStore ∧ seenCounter p = NewSeenCounter ∧
    extractors p = newSlotExtractorRegistry ∧ messageNotify p = 0%nat ∧ spawned p = [].
Proof. exact (NewWatcher_inv s s' now c opts w). Qed.

(** Without the database type clickhouse, which no option at all leaves
    empty, the watcher is not created: on a supported network the error is the
    unsupported type, on another the unsupported network. Without an estimate
    of validators it is not created either. *)
Theorem new_watcher_errors (s : eth_state) (now : Time) (c : chan)
  (opts : list (WatcherOption → WatcherOption)) :
  let o := apply_opts opts watcher_defaults in
  (supported (ethNetwork o) = false → ∃ e,
     NewWatcher s now c opts =
       (s, Fail (errors_Wrap e "failed to set eth network"))) ∧
  (supported (ethNetwork o) = true → wo_dbType o ≠ "clickhouse" →
     (NewWatcher s now c opts).2 =
       Fail (errors_Wrap (errors_New ("unsupported database type: " +:+ wo_dbType o))
               "failed to initialize repository")) ∧
  (wo_estimateActiveValidators o = 0 → is_ret (NewWatcher s now c opts).2 = false) ∧
  wo_dbType (apply_opts [] watcher_defaults) ≠ "clickhouse".
Proof.
  intros o. split_and!; [| | |done].
  - intros Hs. unfold NewWatcher, SetNetwork. fold o. rewrite Hs. destruct s. eauto.
  - intros Hs Hdb. unfold NewWatcher, SetNetwork. fold o. rewrite Hs.
    unfold make_host, NewRepository, repository_opts. simpl.
    by rewrite bool_decide_false.
  - intros Hest. unfold NewWatcher. fold o.
    destruct (SetNetwork _ _) as [net [e|]]; [done|].
    destruct (make_host o) as [[[r key] h]|e|v]; [|done..].
    destruct (NewDiscovery _ _ _ _) as [s2 [d|e|v]]; [|done..].
    cbn [wrap mbind outcome_bind snd].
    destruct (make_rest o (network s2) now r h d) as [w|e|v] eqn:Hw; [|done..].
    apply make_rest_inv in Hw as (gs & p & _ & _ & _ & Hne & _). done.
Qed.
End Claims.

(** ** Witnesses *)

Definition key32 : string := "0123456789abcdef0123456789abcdef".
Definition fixed_keys : @Keys list_types list_enode_types := {|
  HexToECDSA s := inr s : error + @EcdsaKey list_enode_types;
  FromECDSA _ := key32;
  UnmarshalSecp256k1PrivateKey s := inr s : error + @PrivKey list_types;
  NewConnManager lo hi := if lo <=? hi then inr () else inl (error_ext "low above high");
|}.

Section Witnesses.
#[local] Existing Instance list_types.
#[local] Existing Instance list_libp2p.
#[local] Existing Instance prysm_params.
#[local] Existing Instance prysm_p2p.
#[local] Existing Instance clock_slots.
#[local] Existing Instance hex_hexutil.
#[local] Existing Instance set_bitfield.
#[local] Existing Instance fixed_forks.
#[local] Existing Instance half_math.
#[local] Existing Instance open_pubsub.
#[local] Existing Instance list_enode_types.
#[local] Existing Instance list_enode.
#[local] Existing Instance fixed_keys.
#[local] Existing Instance mem_driver.

Definition sample_opts : list (WatcherOption → WatcherOption) :=
  [Watcher.WithDBType "clickhouse"; Watcher.WithDBHost "db"; Watcher.WithEstimateActiveValidators 1000000;
   Watcher.WithTargetPeers 50].

Lemma new_watcher_wiring_witness :
  ∃ w s', NewWatcher (EthState "" hoodi_network) (after_genesis 150000000) 1%positive sample_opts
    = (s', Ret w) ∧ length (w_added w) = 6%nat ∧ network s' = "mainnet".
Proof.
  assert (is_ret (NewWatcher (EthState "" hoodi_network) (after_genesis 150000000) 1%positive
    sample_opts).2 = true) as Hr by (vm_compute; reflexivity).
  destruct (NewWatcher (EthState "" hoodi_network) (after_genesis 150000000) 1%positive sample_opts)
    as [s' [w|e|v]] eqn:Hw; [|discriminate..].
  exists w, s'. split; [reflexivity|].
  destruct (new_watcher_wiring (EthState "" hoodi_network) s' (after_genesis 150000000) 1%positive
    sample_opts w Hw) as (_ & Hn & _ & _ & h & d & gs & p & _ & Hsup & _).
  split; [by rewrite Hsup|exact Hn].
Defined.
End Witnesses.
