(* ===== verification/System.v ===== *)
(** * The running watcher

    The services of a watcher work on one host and one processor, which they
    share by pointer. A world holds that shared state once, inside the gossip
    service, with the subscriptions and stream handlers that were installed, the
    flusher's position and the dials under way; a step is one atomic action of
    one goroutine, given by the operations of the component files, and is
    labelled with what the action was asked to do. The events a label stands for
    are written out by [world_events], so that a run of the world has a trace.

    [gs_host] and the processor's [peerCounter] are the same pointer in the
    source ([NewWatcher] hands one [localHost] to both, which is proved in
    WatcherClaims.v); here each holds the value pointed to, so that a write
    through the pointer changes both ([write_host]). The channel from discovery
    to the dialer is unbuffered: a peer is sent when the dialer receives it, so
    that both turns are one step. The end of the program is not a step: the
    repository is closed when no service runs any more.

    Every run of the world is a run of the processor of ProcSystem.v with the
    same trace, so that what is proved there and in Tables.v holds of the whole
    program. *)

From S2P Require Import Prelude GoStrings GoTime GoFloat GoNet Externals Eth Repository.
From S2P Require Import RepositoryClaims SeenCounter SlotCache SlotExtractor Processor.
From S2P Require Import ProcessorFacts Samples ProcSystem Tables.
From S2P Require Import Host Topics Dialer Discovery PeerScore PeerScoreClaims GossipHandler.
From S2P Require Import Subscription GossipSub GossipClaims ReqResp ReqRespClaims Watcher WatcherClaims.
Local Open Scope Z_scope.

(** ** What the steps of the processor leave alone *)

Section Fixed.
Context {R PC : Type} `{Repository R} `{PeerCounter PC} `{P2P} `{Encoder}.
Implicit Types (p : BeaconMessageProcessor R PC).

(** The fields set at construction. *)
Definition fixed p :=
  (peerCounter p, beaconConfig p, genesisTime p, nodeAlias p, nodeRegion p, extractors p).

Lemma fixed_Process p now msg dst : fixed (Process p now msg dst).1 = fixed p.
Proof.
  unfold Process. destruct (DecodeGossip _ _) as [e|m]; [done|].
  destruct (extract _ m) as [[[] slot]|e|v]; [| |done..]; rewrite drop_err_fst.
  - unfold processSlotMessageMetadata. destruct (slot_record p _); [|done..].
    destruct (Add _ _ _ _) as [cache b]. simpl. unfold notify. by case_match.
  - unfold processGeneralMessageMetadata. by destruct (general_record p _).
Qed.

Lemma fixed_flush_step p f tr p' f' : flush_step (p, f) tr (p', f') → fixed p' = fixed p.
Proof.
  inversion 1; subst; try done. match goal with Hs : drop_err _ = _ |- _ => revert Hs end.
  unfold saveToRepository. destruct done as [|st dn]; [by intros [= <-]|].
  destruct (repo p) as [r|]; [|done].
  destruct (SaveSlotMessageStatsMulti r (st :: dn)) as [r' [e|]]; by intros [= <-].
Qed.

Lemma fixed_save_general p h : fixed (save_general p h).1 = fixed p.
Proof. unfold save_general. by destruct (repo p). Qed.


End Fixed.

(** The id of a libp2p host is that of its key, whatever its connections. *)
Class HostIDLaws `{Libp2p} := {
  ClosePeer_ID h pid : host_ID (Network_ClosePeer h pid).1 = host_ID h;
  Connect_ID h ai : host_ID (host_Connect h ai).1 = host_ID h;
  Notify_ID h : host_ID (Network_Notify h) = host_ID h;
  StopNotify_ID h : host_ID (Network_StopNotify h) = host_ID h;
  Listen_ID h : host_ID (Network_Listen h).1 = host_ID h;
}.

(** ** The world *)

(** What a step was asked to do: a subscription of the host [host] read a message,
    pubsub asked for the id of a message, the flusher took a step, the save of a
    general message ran, and the steps the processor has no part in. *)
Inductive wlabel :=
  | LMessage (host topic : string) (now : Time) (msg : Message)
  | LMessageID (topic data : string)
  | LFlush (tr : trace)
  | LSave (h : GeneralMessageHistory)
  | LNotified
  | LStart | LScores | LPrune
  | LDial | LConnect | LNetwork
  | LListen | LStopListening
  | LHandlers | LRequest.

(** How often a message with this id was asked about, under a validators root. *)
Definition asked_event `{PubSub} (root id : string) (l : wlabel) : Z :=
  match l with
  | LMessageID topic data => if bool_decide (hexEncode (MsgID root topic data) = id) then 1 else 0
  | _ => 0
  end.
Definition asked `{PubSub} (root id : string) (ls : list wlabel) : Z :=
  foldr Z.add 0 (asked_event root id <$> ls).

Section System.
Context `{Libp2p} `{Externals.Params, P2P, Slots, Hexutil, Bitfield, Math, Forks, PubSub} `{Encoder}.
Context `{!EnodeTypes} `{!Enode} `{!Keys} {St : Type} `{!Stream St} `{Goodbye}.
Context `{DriverLaws} `{!ExecLaws}.
Abbreviation gossip := (GossipSub adapter Host).
Abbreviation processor := (BeaconMessageProcessor adapter Host).
Implicit Types (gs : gossip) (p : processor).

(** ** Specification: the type a topic is decoded as at the service's fork *)

Definition fork_of gs : option fork :=
  head (filter (λ f, gs_forkVersion gs = version_of (gs_beaconConfig gs) f)
    [Genesis; Altair; Bellatrix; Capella; Deneb; Electra]).
Definition message_type gs (topic : string) : option MsgType :=
  k ← switch_kind topic; f ← fork_of gs; decoded_type k f.

Record World := MkWorld {
  wd_net : string;
  wd_gossip : gossip;
  wd_subs : list (Subscription gossip);
  wd_streams : list (string * (St → St * outcome unit));
  wd_flusher : flusher;
  wd_dials : list (AddrInfo Multiaddr);
}.
Implicit Types (w : World).

(** A created watcher before any of its services has run. *)
Definition initial (net : string) gs : World := MkWorld net gs [] [] FIdle [].

Definition put_gossip gs w : World :=
  MkWorld (wd_net w) gs (wd_subs w) (wd_streams w) (wd_flusher w) (wd_dials w).
Definition put_subs (subs : list (Subscription gossip)) w : World :=
  MkWorld (wd_net w) (wd_gossip w) subs (wd_streams w) (wd_flusher w) (wd_dials w).
Definition put_streams (streams : list (string * (St → St * outcome unit))) w : World :=
  MkWorld (wd_net w) (wd_gossip w) (wd_subs w) streams (wd_flusher w) (wd_dials w).
Definition put_flusher (f : flusher) w : World :=
  MkWorld (wd_net w) (wd_gossip w) (wd_subs w) (wd_streams w) f (wd_dials w).
Definition put_dials (dials : list (AddrInfo Multiaddr)) w : World :=
  MkWorld (wd_net w) (wd_gossip w) (wd_subs w) (wd_streams w) (wd_flusher w) dials.

(** A write through the pointer to the host. *)
Definition write_host gs (h : Host) : gossip :=
  let gs := set_gs_host gs h in
  match gs_messageProcessor gs with
  | Some p => set_processor gs (set_peerCounter h p)
  | None => gs
  end.
Abbreviation host_of w := (gs_host (wd_gossip w)).
Definition put_host (h : Host) w : World := put_gossip (write_host (wd_gossip w) h) w.
Definition put_processor p w : World := put_gossip (set_processor (wd_gossip w) p) w.

Inductive wstep : World → wlabel → World → Prop :=
  (** The gossip service starts: it joins its topics and adds their services. *)
  | w_start w gs subs r :
      start (wd_net w) (wd_gossip w) = (gs, subs, r) → is_panic r = false →
      wstep w LStart (put_subs (wd_subs w ++ subs) (put_gossip gs w))
  (** A subscription reads a message and handles it. *)
  | w_message w s now msg gs :
      s ∈ wd_subs w →
      Subscription.Serve s (wd_gossip w) [SubMsg now msg] = SubResult gs false None →
      wstep w (LMessage (hostID s) (subscription s) now msg) (put_gossip gs w)
  (** pubsub asks for the id of a message, reports scores, or the ticker prunes. *)
  | w_message_id w topic data gs id :
      messageIdFn (wd_gossip w) topic data = (gs, Ret id) →
      wstep w (LMessageID topic data) (put_gossip gs w)
  | w_inspect w scores :
      wstep w LScores (put_gossip (inspect_scores (wd_gossip w) scores) w)
  | w_prune w o sort gs n :
      prune o sort (wd_gossip w) = (gs, Ret n) →
      wstep w LPrune (put_gossip (write_host gs (gs_host gs)) w)
  (** Discovery sends a peer, the dialer receives it and starts a dial; a dial ends. *)
  | w_dial w node ai timeout :
      disc_loop false [DsNode node true] = ([ai], None) →
      dial_step (host_of w) ai = Ret (Dial timeout ai) →
      wstep w LDial (put_dials (wd_dials w ++ [ai]) w)
  | w_connect w l ai k :
      wd_dials w = l ++ ai :: k →
      wstep w LConnect (put_dials (l ++ k) (put_host (run_dial (host_of w) ai) w))
  (** Connections come and go on their own; the host keeps its identity. *)
  | w_network w lib :
      host_ID lib = host_ID (host_Host (host_of w)) →
      wstep w LNetwork (put_host (set_host (host_of w) lib) w)
  (** The service of the host starts, or fails to, and returns. *)
  | w_listen w h r :
      listen (host_of w) = (h, r) → is_panic r = false → wstep w LListen (put_host h w)
  | w_stop_listening w : wstep w LStopListening (put_host (stop_listening (host_of w)) w)
  (** The request service installs its handlers; one of them answers a stream. *)
  | w_handlers w l :
      set_handlers (wd_net w) rpc_topics = (l, Ret ()) → wstep w LHandlers (put_streams l w)
  | w_request w proto h (st st' : St) :
      (proto, h) ∈ wd_streams w → h st = (st', Ret ()) → wstep w LRequest w
  (** The processor's service loop, and the saves of general messages. *)
  | w_flush w p p' f tr :
      gs_messageProcessor (wd_gossip w) = Some p →
      flush_step (p, wd_flusher w) tr (p', f) →
      wstep w (LFlush tr) (put_flusher f (put_processor p' w))
  | w_notified w p n :
      gs_messageProcessor (wd_gossip w) = Some p → messageNotify p = S n →
      wstep w LNotified (put_processor (set_notify n p) w)
  | w_save w p r l h k :
      gs_messageProcessor (wd_gossip w) = Some p → spawned p = l ++ h :: k → repo p = Some r →
      wstep w (LSave h) (put_processor (save_general (set_spawned (l ++ k) p) h).1 w).

(** The events a label stands for: a message of another peer is processed as the type
    of its topic; each id asked for is a sighting. *)
Definition world_events w (l : wlabel) : trace :=
  match l with
  | LMessage host topic now msg =>
      if bool_decide (ReceivedFrom msg = host) then [] else
      match gs_messageProcessor (wd_gossip w), message_type (wd_gossip w) topic with
      | Some p, Some ty => process_events p now msg ty
      | _, _ => []
      end
  | LMessageID topic data =>
      [ESeen (hexEncode (MsgID (GenesisValidatorsRoot (gs_beaconConfig (wd_gossip w))) topic data))]
  | LFlush tr => tr
  | LSave h => [ESavedGeneral h]
  | _ => []
  end.

(** A run with its labels and its trace. *)
Inductive wrun : World → list wlabel → trace → World → Prop :=
  | wrun_nil w : wrun w [] [] w
  | wrun_snoc w ls tr w1 l w2 :
      wrun w ls tr w1 → wstep w1 l w2 → wrun w (ls ++ [l]) (tr ++ world_events w1 l) w2.

(** The processor reads the host the services share. *)
Definition shares_host gs p : Prop :=
  gs_messageProcessor gs = Some p ∧ peerCounter p = Some (gs_host gs).

(** What no step changes. *)
Definition gossip_constants gs :=
  (gs_supervisor gs, gs_topics gs, gs_forkVersion gs, gs_beaconConfig gs,
   TargetPeerCount (gs_host gs)).
Definition constants w := (wd_net w, gossip_constants (wd_gossip w)).

(** Every subscription is for a topic of the service, with the topic's handler. *)
Definition sub_ok gs (s : Subscription gossip) : Prop :=
  subscription s ∈ gs_topics gs ∧
  handler s = GossipHandler.mappingTopicToHandler (subscription s).

(** The invariant of a run. *)
Record world_ok w p : Prop := {
  ok_shares : shares_host (wd_gossip w) p;
  ok_subs : Forall (sub_ok (wd_gossip w)) (wd_subs w);
  ok_forks : forks_ok (gs_beaconConfig (wd_gossip w)) = true;
}.

(** ** Lemmas *)

(** *** Labels and traces *)

Lemma wrun_one w l w' : wstep w l w' → wrun w [l] (world_events w l) w'.
Proof. intros Hst. exact (wrun_snoc w [] [] w l w' (wrun_nil w) Hst). Qed.
Lemma wrun_app w ls tr w1 ls' tr' w2 :
  wrun w ls tr w1 → wrun w1 ls' tr' w2 → wrun w (ls ++ ls') (tr ++ tr') w2.
Proof.
  intros Ha Hb. revert Ha. induction Hb as [w1|w1 ls1 tr1 w2 l w3 _ IH Hst]; intros Ha.
  - by rewrite !app_nil_r.
  - rewrite !(assoc_L (++)). by eapply wrun_snoc; [apply IH|].
Qed.

Lemma asked_app root id ls ls' : asked root id (ls ++ ls') = asked root id ls + asked root id ls'.
Proof. unfold asked. rewrite fmap_app. induction (asked_event root id <$> ls); simpl; lia. Qed.

(** Sightings come from message ids alone. *)
Lemma wstep_asked w l w' id :
  wstep w l w' →
  total (seen_event id) (world_events w l) =
    asked_event (GenesisValidatorsRoot (gs_beaconConfig (wd_gossip w))) id l.
Proof.
  destruct 1 as [| | | | | | | | | | | |w p p' f tr _ Hfl| |]; simpl; try done.
  - case_bool_decide; [done|]. destruct (gs_messageProcessor _) as [p|]; [|done].
    destruct (message_type _ _) as [ty|]; [|done].
    destruct (process_effect p now msg ty) as (_ & _ & _ & Hev).
    destruct (process_books _ Hev) as (_ & _ & _ & Ht). apply Ht.
  - unfold total. simpl. by rewrite Z.add_0_r.
  - by inversion Hfl; subst.
Qed.

(** *** Messages *)

Lemma fork_of_Some gs f :
  fork_of gs = Some f → gs_forkVersion gs = version_of (gs_beaconConfig gs) f.
Proof. unfold fork_of. intros [Hf _]%head_Some_elem_of%list_elem_of_filter. exact Hf. Qed.
Lemma fork_of_None gs :
  fork_of gs = None → gs_forkVersion gs ∉ (forks (gs_beaconConfig gs)).*2.
Proof.
  unfold fork_of. rewrite head_None. intros Hnil Hin.
  assert (∃ f, gs_forkVersion gs = version_of (gs_beaconConfig gs) f) as [f Hf].
  { unfold forks in Hin. cbn [fmap list_fmap snd] in Hin. rewrite !elem_of_cons, elem_of_nil in Hin.
    destruct Hin as [Hf|[Hf|[Hf|[Hf|[Hf|[Hf|[]]]]]]];
      [by exists Genesis|by exists Altair|by exists Bellatrix|by exists Capella|by exists Deneb|
       by exists Electra]. }
  apply (not_elem_of_nil f). rewrite <-Hnil. apply list_elem_of_filter. split; [exact Hf|].
  destruct f; set_solver.
Qed.

(** A handler has the message processed as its topic's type, or does nothing. *)
Lemma handler_type topic gs now msg :
  forks_ok (gs_beaconConfig gs) = true →
  match message_type gs topic with
  | Some ty => ∃ failure, GossipHandler.mappingTopicToHandler topic gs now msg =
                 process_as gs now msg ty failure
  | None => ∃ r, GossipHandler.mappingTopicToHandler topic gs now msg = (gs, r)
  end.
Proof.
  intros Hok. rewrite mapping_switch. unfold message_type.
  destruct (switch_kind topic) as [k|]; simpl; [|by eexists].
  destruct (fork_of gs) as [f|] eqn:Hf; simpl.
  - apply fork_of_Some in Hf. rewrite (handler_at_fork _ _ _ _ f) by done.
    destruct (decoded_type k f); eauto.
  - apply fork_of_None in Hf. destruct (handler_no_fork gs now msg k Hf); eauto.
Qed.

Lemma set_processor_self gs p : gs_messageProcessor gs = Some p → set_processor gs p = gs.
Proof. destruct gs. simpl. by intros ->. Qed.

(** A turn of a subscription. *)
Lemma message_turn w p s now msg gs' f :
  world_ok w p → s ∈ wd_subs w →
  Subscription.Serve s (wd_gossip w) [SubMsg now msg] = SubResult gs' false None →
  ∃ p', run (p, f) (world_events w (LMessage (hostID s) (subscription s) now msg)) (p', f) ∧
    fixed p' = fixed p ∧ gs' = set_processor (wd_gossip w) p'.
Proof.
  intros [[Hp _] Hsubs Hok] Hin. rewrite Forall_forall in Hsubs. destruct (Hsubs s Hin) as [_ Hh].
  simpl. rewrite Hh, Hp. pose proof (set_processor_self _ _ Hp) as Hself.
  assert (∃ p', run (p, f) [] (p', f) ∧ fixed p' = fixed p ∧ wd_gossip w = set_processor (wd_gossip w) p')
    as Hquiet by (exists p; split_and!; [apply run_nil|done|done]).
  case_bool_decide; [by intros [= <-]|].
  pose proof (handler_type (subscription s) (wd_gossip w) now msg Hok) as Ht.
  destruct (message_type _ _) as [ty|].
  - destruct Ht as [fl ->]. unfold process_as. rewrite Hp.
    destruct (Process p now msg ty) as [p' r] eqn:Hpr. intros Hs. exists p'.
    assert (is_panic r = false ∧ gs' = set_processor (wd_gossip w) p') as [Hr ->]
      by (destruct r; by [injection Hs|]).
    split_and!; [|by rewrite <-(fixed_Process p now msg ty), Hpr|done].
    pose proof (env_process p now msg ty) as Henv. rewrite Hpr in Henv. by apply run_one, step_env, Henv.
  - destruct Ht as [r ->]. intros Hs. assert (gs' = wd_gossip w) as -> by (destruct r; by [injection Hs|]).
    exact Hquiet.
Qed.

(** *** The host *)

(** Pruning closes peers of the host and does nothing else: it keeps what closing
    a peer keeps. *)
Section Prune.
Variable Q : Host → Prop.
Hypothesis close_Q : ∀ h pid, Q h → Q (set_host h (Network_ClosePeer (host_Host h) pid).1).

Lemma prune_loop_host gs i excess pairs :
  Q (gs_host gs) → ∃ h, Q h ∧ (prune_loop gs i excess pairs).1 = set_gs_host gs h.
Proof.
  assert (∀ gs, gs = set_gs_host gs (gs_host gs)) as Hself by by intros [].
  revert gs i. induction pairs as [|q pairs IH]; intros gs i HQ; cbn [prune_loop]; [eauto|].
  destruct (if i <? excess then _ else _) as [[]|e|v]; [|eauto..].
  destruct (IH (set_gs_host gs (set_host (gs_host gs)
    (Network_ClosePeer (host_Host (gs_host gs)) q.1).1)) (i + 1)) as (h & Hh & ->);
    [by apply close_Q|by exists h].
Qed.

Lemma prune_host o sort gs :
  Q (gs_host gs) → ∃ h, Q h ∧ (prune o sort gs).1 = set_gs_host gs h.
Proof.
  intros HQ. assert (gs = set_gs_host gs (gs_host gs)) as Hself by by destruct gs.
  unfold prune. destruct (Network_Conns _) as [conns|]; [|eauto].
  destruct (peer_scores gs ∅ conns) as [m|e|v]; [|eauto..].
  destruct (host_TotalPeerCount _); [by apply prune_loop_host|eauto..].
Qed.
End Prune.

Lemma write_host_host gs h : gs_host (write_host gs h) = h.
Proof. unfold write_host. simpl. by case_match. Qed.
Lemma write_host_constants gs h :
  TargetPeerCount h = TargetPeerCount (gs_host gs) →
  gossip_constants (write_host gs h) = gossip_constants gs.
Proof. intros Ht. unfold write_host, gossip_constants. simpl. case_match; simpl; by rewrite Ht. Qed.
Lemma write_host_shares gs p h :
  gs_messageProcessor gs = Some p → shares_host (write_host gs h) (set_peerCounter h p).
Proof. intros Hp. unfold write_host, shares_host. simpl. by rewrite Hp. Qed.

Lemma listen_target h h' r : listen h = (h', r) → TargetPeerCount h' = TargetPeerCount h.
Proof.
  unfold listen. destruct (Network_Conns _) as [conns|]; [|by intros [= <-]].
  destruct (Network_Listen _) as [l [e|]]; by intros [= <-].
Qed.

(** *** Starting *)

Lemma join_topics_subs gs h topics subs subs' r :
  join_topics gs h topics subs = (subs', r) →
  Forall (sub_ok gs) subs → (∀ t, t ∈ topics → t ∈ gs_topics gs) → Forall (sub_ok gs) subs'.
Proof.
  revert h subs. induction topics as [|t topics IH]; intros h subs; simpl; [by intros [= <-]|].
  destruct (pubsub_Join h t) as [e|h1]; [by intros [= <-]|].
  destruct (topic_Subscribe h1 t) as [e|h2]; [by intros [= <-]|].
  intros Hj Hs Ht. apply (IH _ _ Hj).
  - apply Forall_app_2, Forall_singleton; [done|]. split; [|done]. simpl. apply Ht. set_solver.
  - intros t' ?. apply Ht. set_solver.
Qed.

(** [start] sets the score parameters and adds services of its topics. *)
Lemma start_inv net gs gs' subs r :
  start net gs = (gs', subs, r) → (∃ ps, gs' = set_score gs ps) ∧ Forall (sub_ok gs') subs.
Proof.
  unfold start. assert (∃ ps, gs = set_score gs ps) as Hself by (exists (gs_peerScore gs); by destruct gs).
  destruct (maxMessageSize net) as [size|e|v]; [|by intros [= <- <- _]..].
  destruct (PeerScore.params net (gs_peerScore gs)) as [ps [score|e|v]]; simpl;
    [|by intros [= <- <- _]; eauto..].
  destruct (pubsub_New _) as [e|h]; [by intros [= <- <- _]; eauto|].
  destruct (join_topics _ h _ []) as [subs1 r1] eqn:Hj. intros [= <- <- _]. split; [eauto|].
  by apply (join_topics_subs _ _ _ _ _ _ Hj).
Qed.

(** *** Simulation *)

(** A step that changes the gossip service and keeps its constants. *)
Lemma world_ok_gossip w p gs' p' :
  world_ok w p → shares_host gs' p' → gossip_constants gs' = gossip_constants (wd_gossip w) →
  world_ok (put_gossip gs' w) p' ∧ constants (put_gossip gs' w) = constants w.
Proof.
  intros [_ Hsubs Hok] Hsh Hc. split; [|unfold constants; simpl; by rewrite Hc].
  injection Hc as _ Ht _ Hb _. split; simpl; [done| |by rewrite Hb].
  apply (Forall_impl _ _ _ Hsubs). unfold sub_ok. by rewrite Ht.
Qed.

(** The processor is replaced by one with the same host. *)
Lemma world_ok_processor w p p' :
  world_ok w p → fixed p' = fixed p →
  world_ok (put_processor p' w) p' ∧ constants (put_processor p' w) = constants w.
Proof.
  intros Hok Hfix. apply (world_ok_gossip w p); [done| |done]. split; [done|].
  injection Hfix as -> _. apply Hok.
Qed.

(** The host is written. *)
Lemma world_ok_host w p h :
  world_ok w p → TargetPeerCount h = TargetPeerCount (host_of w) →
  world_ok (put_host h w) (set_peerCounter h p) ∧ constants (put_host h w) = constants w ∧
  run (p, wd_flusher w) [] (set_peerCounter h p, wd_flusher (put_host h w)).
Proof.
  intros Hok Ht. destruct (world_ok_gossip w p (write_host (wd_gossip w) h) (set_peerCounter h p) Hok)
    as [Hw Hc]; [apply write_host_shares, Hok|by apply write_host_constants|].
  split_and!; [done|done|]. apply run_one, step_env, env_peers.
Qed.

(** A step of the world is a run of the processor with the label's events. *)
Lemma wstep_sim w l w' p :
  wstep w l w' → world_ok w p →
  ∃ p', world_ok w' p' ∧ constants w' = constants w ∧
    run (p, wd_flusher w) (world_events w l) (p', wd_flusher w').
Proof.
  intros Hst Hok. pose proof (ok_shares _ _ Hok) as [Hp Hpc].
  destruct Hst as [w gs subs r Hs _|w s now msg gs Hin Hturn|w topic data gs id Hid|w scores|
    w o sort gs n Hpr|w node ai t _ _|w l ai k _|w lib _|w h r Hl _|w|w hs _|w proto hd st st' _ _|
    w p1 p' f tr Hp1 Hfl|w p1 n Hp1 Hn|w p1 r l h k Hp1 Hsp Hr];
    try (rewrite Hp in Hp1; injection Hp1 as <-).
  - apply start_inv in Hs as [[ps ->] Hsubs].
    destruct (world_ok_gossip w p (set_score (wd_gossip w) ps) p Hok) as [[Hsh Hold Hf] Hc]; [done|done|].
    exists p. split_and!; [|done|apply run_nil]. split; [done| |done]. by apply Forall_app_2.
  - destruct (message_turn w p s now msg gs (wd_flusher w) Hok Hin Hturn) as (p' & Hrun & Hfix & ->).
    destruct (world_ok_processor w p p' Hok Hfix). by exists p'.
  - unfold messageIdFn in Hid. rewrite Hp in Hid. injection Hid as <- _.
    destruct (world_ok_processor w p (IncreaseSeenCountByRawID p (MsgID
      (GenesisValidatorsRoot (gs_beaconConfig (wd_gossip w))) topic data)) Hok eq_refl) as [Hw Hc].
    eexists. split_and!; [exact Hw|exact Hc|]. apply run_one, step_env, env_seen.
  - destruct (world_ok_gossip w p (inspect_scores (wd_gossip w) scores) p Hok); [done|done|].
    exists p. split_and!; [done|done|apply run_nil].
  - destruct (prune_host (λ h, TargetPeerCount h = TargetPeerCount (host_of w)) (λ _ _ Ht, Ht)
      o sort (wd_gossip w) eq_refl) as (h & Ht & Hgs). rewrite Hpr in Hgs. simpl in Hgs. subst gs.
    exact (ex_intro _ _ (world_ok_host w p h Hok Ht)).
  - exists p. split_and!; [|done|apply run_nil]. by destruct Hok.
  - destruct (world_ok_host w p (run_dial (host_of w) ai) Hok eq_refl) as ([? ? ?] & Hc & Hr).
    exists (set_peerCounter (run_dial (host_of w) ai) p). by split_and!.
  - exact (ex_intro _ _ (world_ok_host w p (set_host (host_of w) lib) Hok eq_refl)).
  - exact (ex_intro _ _ (world_ok_host w p h Hok (listen_target _ _ _ Hl))).
  - exact (ex_intro _ _ (world_ok_host w p (stop_listening (host_of w)) Hok eq_refl)).
  - exists p. split_and!; [|done|apply run_nil]. by destruct Hok.
  - exists p. split_and!; [done|done|apply run_nil].
  - destruct (world_ok_processor w p p' Hok (fixed_flush_step _ _ _ _ _ Hfl)) as [[? ? ?] ?].
    exists p'. split_and!; [done|done|]. by apply run_one, step_flush.
  - destruct (world_ok_processor w p (set_notify n p) Hok eq_refl) as [Hw Hc].
    eexists. split_and!; [exact Hw|exact Hc|]. by apply run_one, step_env, env_notified.
  - destruct (world_ok_processor w p (save_general (set_spawned (l ++ k) p) h).1 Hok) as [Hw Hc];
      [by rewrite fixed_save_general|].
    eexists. split_and!; [exact Hw|exact Hc|]. exact (run_one _ _ _ (step_env _ _ _ _ (env_save _ _ _ _ _ Hsp Hr))).
Qed.

Lemma wrun_sim w ls tr w' p :
  wrun w ls tr w' → world_ok w p →
  ∃ p', world_ok w' p' ∧ constants w' = constants w ∧
    run (p, wd_flusher w) tr (p', wd_flusher w').
Proof.
  intros Hrun Hok. induction Hrun as [w|w ls tr w1 l w2 _ IH Hst].
  { exists p. split_and!; [done|done|apply run_nil]. }
  destruct (IH Hok) as (p1 & Hok1 & Hc1 & Hr1).
  destruct (wstep_sim w1 l w2 p1 Hst Hok1) as (p2 & Hok2 & Hc2 & Hr2).
  exists p2. split_and!; [done|by rewrite Hc2|]. by apply (run_app _ _ (p1, wd_flusher w1)).
Qed.

(** The sightings of a run are the ids asked for. *)
Lemma wrun_asked w ls tr w' p id :
  wrun w ls tr w' → world_ok w p →
  total (seen_event id) tr = asked (GenesisValidatorsRoot (gs_beaconConfig (wd_gossip w))) id ls.
Proof.
  intros Hrun Hok. induction Hrun as [w|w ls tr w1 l w2 Hrun IH Hst]; [done|].
  rewrite total_app, asked_app, IH by done. f_equal. rewrite (wstep_asked _ _ _ id Hst).
  destruct (wrun_sim w ls tr w1 p Hrun Hok) as (_ & _ & [= _ _ _ _ -> _] & _).
  unfold asked. simpl. by rewrite Z.add_0_r.
Qed.




(** *** Dials *)

(** The turn of discovery that sends a peer. *)
Lemma disc_loop_sends node ai :
  disc_loop false [DsNode node true] = ([ai], None) →
  IsPrivate (Node_IP node) = false ∧ extractPeerAddrInfo node = Ret ai.
Proof.
  simpl. destruct (IsPrivate _); [done|]. destruct (extractPeerAddrInfo node) as [ai'| |]; [|done..].
  by intros [= ->].
Qed.

Lemma dial_step_other h ai t ai' : dial_step h ai = Ret (Dial t ai') → ai_ID ai ≠ host_ID (host_Host h).
Proof. unfold dial_step. by case_bool_decide. Qed.

(** A dial is to the peer received, with the connection timeout. *)
Lemma dial_step_action h ai t ai' :
  dial_step h ai = Ret (Dial t ai') → dial_step h ai = Ret (Dial ConnTimeout ai).
Proof.
  unfold dial_step. case_bool_decide; [done|]. intros (out & -> & Hk)%bind_Ret_inv.
  apply bind_Ret_inv in Hk as (full & Hf & Hk). simpl. rewrite Hf. by destruct full.
Qed.

(** The dials a watcher with this id may have under way. *)
Definition dialable (id : string) (ai : AddrInfo Multiaddr) : Prop :=
  ai_ID ai ≠ id ∧
  ∃ node, IsPrivate (Node_IP node) = false ∧ extractPeerAddrInfo node = Ret ai.
Definition dials_ok (id : string) w : Prop :=
  host_ID (host_Host (host_of w)) = id ∧ Forall (dialable id) (wd_dials w).

Lemma listen_ID `{!HostIDLaws} h h' r :
  listen h = (h', r) → host_ID (host_Host h') = host_ID (host_Host h).
Proof.
  unfold listen. destruct (Network_Conns _) as [conns|]; [|by intros [= <-]].
  pose proof (Listen_ID (Network_Notify (host_Host h))) as Hl. rewrite Notify_ID in Hl.
  destruct (Network_Listen _) as [lib [e|]]; intros [= <-]; simpl in *; by rewrite ?StopNotify_ID.
Qed.

(** The host part of a turn needs no fork schedule. *)
Lemma handler_host topic gs now msg :
  gs_host (GossipHandler.mappingTopicToHandler topic gs now msg).1 = gs_host gs.
Proof.
  assert (∀ ty fl, gs_host (process_as gs now msg ty fl).1 = gs_host gs) as Hp.
  { intros ty fl. unfold process_as. destruct (gs_messageProcessor gs) as [p|]; [|done].
    by destruct (Process p now msg ty). }
  rewrite mapping_switch. destruct (switch_kind topic) as [[]|]; simpl;
    unfold beaconBlockHandler, blobSidecarHandler, beaconAggregateAndProofHandler,
      beaconAttestationHandler, syncCommitteeContributionAndProofHandler, syncCommitteeHandler,
      proposerSlashingHandler, attesterSlashingHandler, blsToExecutionChangeHandler,
      voluntaryExitHandler; by repeat case_match.
Qed.
Definition handlers_ok w : Prop :=
  Forall (λ s, handler s = GossipHandler.mappingTopicToHandler (subscription s)) (wd_subs w).

Lemma turn_host w s now msg gs' :
  handlers_ok w → s ∈ wd_subs w →
  Subscription.Serve s (wd_gossip w) [SubMsg now msg] = SubResult gs' false None →
  gs_host gs' = host_of w.
Proof.
  intros Hh Hin. unfold handlers_ok in Hh. rewrite Forall_forall in Hh. simpl. rewrite (Hh s Hin).
  case_bool_decide; [by intros [= <-]|].
  pose proof (handler_host (subscription s) (wd_gossip w) now msg) as Hm.
  destruct (GossipHandler.mappingTopicToHandler _ _ _ _) as [gs1 []]; by [intros [= <-]|].
Qed.

Lemma wstep_dials `{!HostIDLaws} id w l w' :
  wstep w l w' → dials_ok id w ∧ handlers_ok w → dials_ok id w' ∧ handlers_ok w'.
Proof.
  intros Hst [[Hid Hd] Hh].
  destruct Hst as [w gs subs r Hs _|w s now msg gs Hin Hturn|w topic data gs mid Hmid|w scores|
    w o sort gs n Hpr|w node ai t Hsend Hdial|w dl ai dk Hdials|w lib Hlib|w h r Hl _|w|w hs _|
    w proto hd st st' _ _|w p1 p' f tr Hp1 Hfl|w p1 n Hp1 Hn|w p1 r l h k Hp1 Hsp Hr];
    (split; [|try exact Hh]); unfold dials_ok, put_host in *; simpl in *;
    rewrite ?write_host_host; try done.
  - by apply start_inv in Hs as [[ps ->] _].
  - apply start_inv in Hs as [_ Hsubs]. apply Forall_app_2; [done|].
    apply (Forall_impl _ _ _ Hsubs). by intros s [_ ?].
  - by rewrite (turn_host w s now msg gs).
  - unfold messageIdFn in Hmid. case_match; [|done]. by injection Hmid as <- _.
  - destruct (prune_host (λ h, host_ID (host_Host h) = id)
      (λ h pid Hh, eq_trans (ClosePeer_ID (host_Host h) pid) Hh) o sort (wd_gossip w) Hid) as (h & Hh' & Hgs).
    rewrite Hpr in Hgs. simpl in Hgs. by subst gs.
  - split; [done|]. apply Forall_app_2, Forall_singleton; [done|].
    split; [rewrite <-Hid; by apply (dial_step_other _ _ _ _ Hdial)|].
    exists node. by apply disc_loop_sends.
  - rewrite Hdials in Hd. apply Forall_app in Hd as [Hl [_ Hk]%Forall_cons].
    split; [|by apply Forall_app_2]. exact (eq_trans (Connect_ID _ _) Hid).
  - split; [exact (eq_trans Hlib Hid)|done].
  - split; [exact (eq_trans (listen_ID _ _ _ Hl) Hid)|done].
  - split; [exact (eq_trans (StopNotify_ID _) Hid)|done].
Qed.

Lemma wrun_dials `{!HostIDLaws} id w ls tr w' :
  wrun w ls tr w' → dials_ok id w ∧ handlers_ok w → dials_ok id w'.
Proof.
  intros Hrun Hd. enough (dials_ok id w' ∧ handlers_ok w') by tauto.
  induction Hrun as [w|w ls tr w1 l w2 Hrun IH Hst]; [done|].
  exact (wstep_dials id w1 l w2 Hst (IH Hd)).
Qed.

(** *** Creation *)

(** A created watcher starts from a world whose processor is the one served,
    shares the host, is well formed and empty, and saves to the watcher's
    repository. *)
Lemma NewWatcher_world s s' now c opts (wt : Watcher) gs :
  NewWatcher s now c opts = (s', Ret wt) → SGossipSub gs ∈ w_added wt →
  forks_ok (gs_beaconConfig gs) = true →
  ∃ p, SProcessor p ∈ w_added wt ∧ (∀ p', SProcessor p' ∈ w_added wt → p' = p) ∧
    world_ok (initial (network s') gs) p ∧ repo p = Some (w_repo wt) ∧ proc_wf p ∧
    slotCache p = NewSlotCacheStore ∧ seenCounter p = NewSeenCounter ∧ spawned p = [].
Proof.
  intros Hw Hgs Hf. apply NewWatcher_inv in Hw as (_ & _ & _ & _ & h & d & gs' & p & _ & Hadd & Hrest).
  destruct Hrest as (_ & _ & _ & Hh & Hp & Hr & Hpc & _ & _ & _ & Hca & Hsc & He & Hn & Hsp).
  rewrite Hadd in *. rewrite !elem_of_cons, elem_of_nil in Hgs.
  assert (gs = gs') as -> by naive_solver. exists p.
  split_and!; [set_solver| | |done| |done..].
  - intros p'. rewrite !elem_of_cons, elem_of_nil. naive_solver.
  - split; simpl; [|constructor|done]. split; [done|]. by rewrite Hpc, Hh.
  - split; rewrite ?Hca, ?Hsc, ?Hsp; [apply store_wf_empty|done|lia|apply map_Forall_empty|constructor..].
Qed.


(** ** Properties *)

Section Claims.
Context (s s' : eth_state) (now : Time) (c : chan) (opts : list (WatcherOption → WatcherOption)).
Context (wt : Watcher) (gs : gossip) (ls : list wlabel) (tr : trace) (w' : World).
Hypothesis Hnew : NewWatcher s now c opts = (s', Ret wt).
Hypothesis Hgs : SGossipSub gs ∈ w_added wt.
Hypothesis Hrun : wrun (initial (network s') gs) ls tr w'.
(** C24. A running watcher connects on its own only to peers that discovery found:
    in any run of its services, every dial under way is to the address that
    discovery computed of a node with a public ip address, and never to the
    watcher itself, whose id stays that of the host it was created with. *)
Theorem dials_discovered `{!HostIDLaws} :
  let id := host_ID (host_Host (gs_host gs)) in
  host_ID (host_Host (gs_host (wd_gossip w'))) = id ∧
  Forall (λ ai, ai_ID ai ≠ id ∧
    ∃ node, IsPrivate (Node_IP node) = false ∧ extractPeerAddrInfo node = Ret ai) (wd_dials w').
Proof.
  intros id. apply (wrun_dials id _ ls tr w' Hrun). split; [split; [done|]|]; constructor.
Qed.

(** The versions of the scheduled forks are distinct. *)
Hypothesis Hforks : forks_ok (gs_beaconConfig gs) = true.
Abbreviation root := (GenesisValidatorsRoot (gs_beaconConfig gs)).

(** C3. Refinement: in any run of a created watcher, whatever the gossip service, its
    subscriptions, pubsub, the pruning ticker, the host, discovery and dialer,
    the request handlers, the network and the processor's own loop do, in any
    order, the served processor behaves as the processor of the concurrent
    model, and with the events that the steps stand for: each message id asked
    for is one sighting, each message of another peer read on a topic is
    processed as the type of the topic and fork. It keeps reading the one host
    the services share; every subscription is for a topic of the service with
    the handler of that topic; and the network, supervisor, topics, fork
    version, configuration and peer target never change. *)
Theorem system_refines_processor :
  ∃ p0 p, SProcessor p0 ∈ w_added wt ∧ run (p0, FIdle) tr (p, wd_flusher w') ∧
    shares_host (wd_gossip w') p ∧ Forall (sub_ok gs) (wd_subs w') ∧
    constants w' = constants (initial (network s') gs) ∧
    ∀ id, total (seen_event id) tr = asked root id ls.
Proof.
  destruct (NewWatcher_world s s' now c opts wt gs Hnew Hgs Hforks) as (p0 & Hin & _ & Hok & _).
  destruct (wrun_sim _ ls tr w' p0 Hrun Hok) as (p & [Hsh Hsubs _] & Hc & Hr).
  exists p0, p. split_and!; [done|exact Hr|done| |done|].
  - injection Hc as _ _ Ht _ _ _. apply (Forall_impl _ _ _ Hsubs). unfold sub_ok. by rewrite Ht.
  - intros id. exact (wrun_asked _ ls tr w' p0 id Hrun Hok).
Qed.

(** C2. End to end: take any watcher that was created and any run of its services.
    The slot table of its database holds what it held at the start and then
    rows of records that were handed to it, in order and each at most once, at
    least those of the batches whose save returned no error. The records
    handed over, those being flushed and those cached are exactly the records
    stored since the start, each handed over with the count popped for it;
    modulo 2^32 the counts popped for an id and the one still held add up to
    the number of times pubsub asked for that id; and the processor is well
    formed. *)
Theorem watcher_end_to_end :
  ∃ p a ws, gs_messageProcessor (wd_gossip w') = Some p ∧ proc_wf p ∧ repo p = Some a ∧
    stats_table a = stats_table (w_repo wt) ++ (stat_row <$> ws) ∧
    along acked (w_repo wt) tr `sublist_of` ws ∧ ws `sublist_of` saved tr ∧
    forget <$> (saved tr ++ in_hand (wd_flusher w') ++ records (slotCache p)) ≡ₚ
      forget <$> stored tr ∧
    saved tr ++ done_of (wd_flusher w') = counted tr ∧
    ∀ id, (count_in p id + total (popped_event id) tr) mod 2 ^ 32 = asked root id ls mod 2 ^ 32.
Proof.
  destruct (NewWatcher_world s s' now c opts wt gs Hnew Hgs Hforks)
    as (p0 & _ & _ & Hok & Hr0 & Hwf0 & Hca & Hsc & _).
  destruct (wrun_sim _ ls tr w' p0 Hrun Hok) as (p & [[Hp _] _ _] & _ & Hr). simpl in Hr.
  destruct (balanced_run _ _ _ Hr) as (Hrec & _ & Hcounted & Hcnt).
  destruct (repo_run _ _ _ _ Hr Hr0 I) as [Ha _].
  destruct (wf_run _ _ _ Hr) as [[Hwf _] _]; [by split; [|constructor]|].
  destruct (extends_along _ _ _ _ (w_repo wt) tr extends_stats) as (ws & Hws & Hack & Hoff).
  exists p, (repo_after (w_repo wt) tr), ws. split_and!; [done..| |exact Hcounted|].
  - simpl in Hrec. rewrite Hca in Hrec. change (records NewSlotCacheStore) with (@nil SlotMessageStats) in Hrec.
    by rewrite app_nil_r in Hrec.
  - intros id. specialize (Hcnt id). rewrite (wrun_asked _ ls tr w' p0 id Hrun Hok) in Hcnt.
    refine (eq_trans Hcnt _). unfold count_in. simpl. by rewrite Hsc.
Qed.


End Claims.
End System.

(** ** Witnesses: a created watcher is started, gains connections, reads a block, is
    asked for its id twice, and flushes *)

Section Scripts.
Context `{Libp2p} `{Externals.Params, P2P, Slots, Hexutil, Bitfield, Math, Forks, PubSub} `{Encoder}.
Context `{!EnodeTypes} `{!Enode} {St : Type} `{!Stream St} `{Goodbye} `{Driver}.
Implicit Types (w : World (St := St)) (gs : GossipSub adapter Host).

(** An uninterrupted flush, as steps of the world. *)
Lemma wrun_flush_run s tr s' w :
  flush_run s tr s' → gs_messageProcessor (wd_gossip w) = Some s.1 → wd_flusher w = s.2 →
  ∃ ls w', wrun w ls tr w' ∧ gs_messageProcessor (wd_gossip w') = Some s'.1 ∧
    ∀ root id, asked root id ls = 0.
Proof.
  intros Hrun. revert w. induction Hrun as [s|s tr s1 tr' s2 _ Hst _ IH]; intros w Hp Hf.
  { exists [], w. by split_and!; [apply wrun_nil| |]. }
  destruct s as [p f], s1 as [p1 f1]. simpl in *. subst f.
  destruct (IH (put_flusher f1 (put_processor p1 w)) eq_refl eq_refl) as (ls & w' & Hr & Hp' & Ha).
  exists ([LFlush tr] ++ ls), w'. split_and!; [|done|].
  - eapply wrun_app; [|exact Hr]. exact (wrun_one _ _ _ (w_flush _ _ _ _ _ Hp Hst)).
  - intros root id. rewrite asked_app, Ha. done.
Qed.

Lemma wrun_flush os o now p p' w :
  flushCompletedSlots os o p now = (p', Ret ()) →
  gs_messageProcessor (wd_gossip w) = Some p → wd_flusher w = FIdle →
  ∃ ls tr w', wrun w ls tr w' ∧ gs_messageProcessor (wd_gossip w') = Some p' ∧
    ∀ root id, asked root id ls = 0.
Proof.
  intros Hfl Hp Hf. destruct (proj1 (flush_run_exact p p')) as (slots & tr & Hst & Hrun); [eauto|].
  rewrite <-Hf in Hst.
  destruct (wrun_flush_run _ _ _ (put_flusher (FSlots slots) (put_processor p w)) Hrun eq_refl eq_refl)
    as (ls & w' & Hr & Hp' & Ha).
  exists ([LFlush []] ++ ls), ([] ++ tr), w'. split_and!; [|done|].
  - eapply wrun_app; [|exact Hr]. exact (wrun_one _ _ _ (w_flush _ _ _ _ _ Hp Hst)).
  - intros root id. rewrite asked_app, Ha. done.
Qed.

Lemma sub_result_running {S} (r : sub_result S) :
  cancelled r = false → sub_return r = None → r = SubResult (sub_state r) false None.
Proof. destruct r. simpl. by intros -> ->. Qed.

(** The message pubsub delivers for some data, with the id it asked for. *)
Definition delivered gs (topic data : string) : Message :=
  {| ReceivedFrom := "peer"; msg_Topic := topic;
     msg_ID := MsgID (GenesisValidatorsRoot (gs_beaconConfig gs)) topic data; msg_Data := data |}.

(** The run of the witnesses: the processor at its end, [None] where a step is not
    possible. *)
Definition script (net topic data : string) (lib : LibHost) (now later : Time) gs
    : option (BeaconMessageProcessor adapter Host) :=
  match start net gs with
  | (gs, subs, Ret _) =>
      if negb (bool_decide (host_ID lib = host_ID (host_Host (gs_host gs)))) then None else
      let gs := write_host gs (set_host (gs_host gs) lib) in
      s ← List.find (λ s, bool_decide (subscription s = topic)) subs;
      match messageIdFn gs topic data with
      | (gs, Ret _) =>
          let res := Subscription.Serve s gs [SubMsg now (delivered gs topic data)] in
          if cancelled res || bool_decide (is_Some (is_panic <$> sub_return res)) then None else
          match messageIdFn (sub_state res) topic data with
          | (gs, Ret _) =>
              p ← gs_messageProcessor gs;
              match flushCompletedSlots id_order (λ _, id_order) p later with
              | (p, Ret _) => Some p
              | _ => None
              end
          | _ => None
          end
      | _ => None
      end
  | _ => None
  end.

Lemma script_run net topic data lib now later gs p :
  script net topic data lib now later gs = Some p →
  ∃ ls tr w', wrun (initial net gs) ls tr w' ∧ gs_messageProcessor (wd_gossip w') = Some p ∧
    asked (GenesisValidatorsRoot (gs_beaconConfig gs))
      (hexEncode (MsgID (GenesisValidatorsRoot (gs_beaconConfig gs)) topic data)) ls = 2.
Proof.
  unfold script. destruct (start net gs) as [[gs1 subs] [u|e|v]] eqn:Hs; [|done..].
  case_bool_decide as Hid; [|done]. cbn [negb].
  set (gs2 := write_host gs1 _). intros (s & Hfind & Hscript)%bind_Some.
  apply List.find_some in Hfind as [Hin%list_elem_of_In Hsub%bool_decide_eq_true].
  destruct (messageIdFn gs2 topic data) as [gs3 [id3|e|v]] eqn:Hid3; [|done..].
  destruct (cancelled _ || _) eqn:Hres; [done|]. apply orb_false_iff in Hres as [Hc Hr].
  set (res := Subscription.Serve _ _ _) in *.
  assert (res = SubResult (sub_state res) false None) as Hres.
  { apply sub_result_running; [done|]. apply bool_decide_eq_false in Hr.
    destruct (sub_return res); [|done]. by destruct Hr. }
  destruct (messageIdFn (sub_state res) topic data) as [gs5 [id5|e|v]] eqn:Hid5; [|done..].
  apply bind_Some in Hscript as (p5 & Hp5 & Hfl).
  destruct (flushCompletedSlots id_order _ p5 later) as [p6 [[]|e|v]] eqn:Hflush; [|done..].
  injection Hfl as ->.
  pose (w1 := put_subs ([] ++ subs) (put_gossip gs1 (initial (St := St) net gs))).
  destruct (wrun_flush _ _ _ _ _ (put_gossip gs5 w1) Hflush Hp5 eq_refl) as (lsf & trf & w' & Hf & Hp & Ha).
  eexists _, _, w'. split_and!; [|exact Hp|].
  - eapply wrun_app; [exact (wrun_one _ _ _ (w_start (initial net gs) gs1 subs (Ret u) Hs eq_refl))|].
    eapply wrun_app; [exact (wrun_one _ _ _ (w_network w1 lib Hid))|].
    eapply wrun_app; [exact (wrun_one _ _ _ (w_message_id (put_gossip gs2 w1) topic data gs3 id3 Hid3))|].
    eapply wrun_app; [exact (wrun_one _ _ _ (w_message (put_gossip gs3 w1) s now _ _ Hin Hres))|].
    eapply wrun_app; [exact (wrun_one _ _ _ (w_message_id (put_gossip (sub_state res) w1) topic data gs5 id5 Hid5))|].
    exact Hf.
  - rewrite !asked_app, Ha. unfold asked. simpl. by rewrite bool_decide_true.
Qed.
End Scripts.

Section Witnesses.
#[local] Existing Instance list_types.
#[local] Existing Instance list_libp2p.
#[local] Existing Instance prysm_params.
#[local] Existing Instance prysm_p2p.
#[local] Existing Instance clock_slots.
#[local] Existing Instance hex_hexutil.
#[local] Existing Instance byte_bitfield.
#[local] Existing Instance fixed_forks.
#[local] Existing Instance half_math.
#[local] Existing Instance open_pubsub.
#[local] Existing Instance sample_encoder.
#[local] Existing Instance list_enode_types.
#[local] Existing Instance list_enode.
#[local] Existing Instance fixed_keys.
#[local] Existing Instance pipe_stream.
#[local] Existing Instance no_goodbyes.
#[local] Existing Instance mem_driver.
#[local] Existing Instance mem_driver_laws.
#[local] Existing Instance mem_driver_exec.

Abbreviation sample_new := (NewWatcher (EthState "" hoodi_network) (after_genesis 150000000) 1%positive
  sample_opts) (only parsing).
Definition sample_conns : @LibHost list_types :=
  [MkConn "a" DirInbound; MkConn "a" DirOutbound; MkConn "b" DirInbound].
Definition sample_script : GossipSub adapter Host → option (BeaconMessageProcessor adapter Host) :=
  script "mainnet" (msg_Topic sample_message) "block" sample_conns (after_genesis 1201) (after_genesis 1300).
Definition sample_id : string :=
  hexEncode (MsgID (GenesisValidatorsRoot mainnet) (msg_Topic sample_message) "block").

(** What is evaluated of the sample: one row is written. *)
Definition sample_checks (wt : Watcher) (sv : service) : bool :=
  match sv with
  | SGossipSub gs =>
      forks_ok (gs_beaconConfig gs) &&
      bool_decide (GenesisValidatorsRoot (gs_beaconConfig gs) = GenesisValidatorsRoot mainnet) &&
      match p ← sample_script gs; repo p with
      | Some a => (length (stats_table (w_repo wt)) =? 0)%nat && (length (stats_table a) =? 1)%nat
      | None => false
      end
  | _ => true
  end.

Lemma sample_evaluates : match sample_new with
  | (s', Ret wt) => bool_decide (network s' = "mainnet") && forallb (sample_checks wt) (w_added wt)
  | _ => false
  end = true.
Proof. vm_compute. reflexivity. Qed.

Lemma sample_created : ∃ s' wt gs, sample_new = (s', Ret wt) ∧ network s' = "mainnet" ∧
  SGossipSub gs ∈ w_added wt ∧ sample_checks wt (SGossipSub gs) = true.
Proof.
  pose proof sample_evaluates as Hev. destruct sample_new as [s' [wt|e|v]] eqn:Hw; [|discriminate..].
  apply andb_prop in Hev as [Hnet%bool_decide_eq_true Hall].
  destruct (NewWatcher_inv _ _ _ _ _ _ Hw) as (_ & _ & _ & _ & h & d & gs & p & _ & Hadd & _).
  assert (SGossipSub gs ∈ w_added wt) as Hin by (rewrite Hadd; do 3 apply list_elem_of_further; apply list_elem_of_here).
  exists s', wt, gs. split_and!; [done|done|done|].
  rewrite forallb_forall in Hall. by apply Hall, list_elem_of_In.
Qed.

(** The run of the sample: two ids asked for, one row written. *)
Lemma sample_wrun : ∃ s' wt gs ls tr w' p a, sample_new = (s', Ret wt) ∧
  SGossipSub gs ∈ w_added wt ∧ forks_ok (gs_beaconConfig gs) = true ∧
  wrun (St := pipe) (initial (network s') gs) ls tr w' ∧
  gs_messageProcessor (wd_gossip w') = Some p ∧ repo p = Some a ∧
  stats_table (w_repo wt) = [] ∧ length (stats_table a) = 1%nat ∧
  asked (GenesisValidatorsRoot (gs_beaconConfig gs)) sample_id ls = 2.
Proof.
  destruct sample_created as (s' & wt & gs & Hw & Hnet & Hin & Hck). unfold sample_checks in Hck.
  apply andb_prop in Hck as [[Hf Hroot%bool_decide_eq_true]%andb_prop Hck].
  destruct (sample_script gs) as [p|] eqn:Hs; [|discriminate]. simpl in Hck.
  destruct (repo p) as [a|] eqn:Ha; [|discriminate].
  apply andb_prop in Hck as [H0%Nat.eqb_eq H1%Nat.eqb_eq].
  destruct (script_run (St := pipe) _ _ _ _ _ _ _ _ Hs) as (ls & tr & w' & Hrun & Hp & Hask).
  rewrite Hroot in Hask. exists s', wt, gs, ls, tr, w', p, a. rewrite Hnet, Hroot.
  split_and!; [done..|by apply length_zero_iff_nil|done|exact Hask].
Qed.


Lemma system_refines_processor_witness :
  ∃ (p0 p : BeaconMessageProcessor adapter Host) tr f, run (p0, FIdle) tr (p, f) ∧
    total (seen_event sample_id) tr = 2.
Proof.
  destruct sample_wrun as (s' & wt & gs & ls & tr & w' & p & a & Hw & Hin & Hf & Hrun & _ & _ & _ & _ & Hask).
  destruct (system_refines_processor _ s' _ _ _ wt gs ls tr w' Hw Hin Hrun Hf)
    as (p0 & p' & _ & Hr & _ & _ & _ & Hseen).
  exists p0, p', tr, (wd_flusher w'). split; [exact Hr|]. rewrite Hseen. exact Hask.
Defined.

Lemma watcher_end_to_end_witness :
  ∃ (p : BeaconMessageProcessor adapter Host) a ws tr, repo p = Some a ∧
    stats_table a = stat_row <$> ws ∧ length ws = 1%nat ∧ ws `sublist_of` saved tr ∧
    (count_in p sample_id + total (popped_event sample_id) tr) mod 2 ^ 32 = 2.
Proof.
  destruct sample_wrun as (s' & wt & gs & ls & tr & w' & p & a & Hw & Hin & Hf & Hrun & Hp & Ha & H0 & H1 & Hask).
  destruct (watcher_end_to_end _ s' _ _ _ wt gs ls tr w' Hw Hin Hrun Hf)
    as (p' & a' & ws & Hp' & _ & Ha' & Ht & _ & Hs & _ & _ & Hcnt).
  rewrite Hp in Hp'. injection Hp' as <-. rewrite Ha in Ha'. injection Ha' as <-. rewrite H0 in Ht.
  exists p, a, ws, tr. split_and!; [exact Ha|exact Ht| |exact Hs|].
  - rewrite Ht, app_nil_l, length_fmap in H1. exact H1.
  - rewrite Hcnt, Hask. reflexivity.
Defined.


#[local] Instance list_host_id : HostIDLaws.
Proof. by split. Qed.

(** The peer of a node with a public address, which the new watcher dials. *)
Definition sample_peer : AddrInfo Multiaddr :=
  MkAddrInfo "id-key" ["/ip4/8.2.3.4/udp/9000" : @Multiaddr list_types].
Definition dials_sample (sv : service) : bool :=
  match sv with
  | SGossipSub gs =>
      match dial_step (gs_host gs) sample_peer with
      | Ret (Dial t ai) => (t =? ConnTimeout) && bool_decide (ai_ID ai = ai_ID sample_peer)
      | _ => false
      end
  | _ => true
  end.
Lemma sample_dials :
  match sample_new.2 with Ret wt => forallb dials_sample (w_added wt) | _ => false end = true.
Proof. vm_compute. reflexivity. Qed.

Lemma sample_dialled net wt gs :
  forallb dials_sample (w_added wt) = true → SGossipSub gs ∈ w_added wt →
  ∃ tr, wrun (St := pipe) (initial net gs) [LDial] tr (put_dials [sample_peer] (initial net gs)).
Proof.
  intros Hall Hin. rewrite forallb_forall in Hall. apply list_elem_of_In, Hall in Hin. eexists.
  apply wrun_one, (w_dial (initial net gs) (sample_node 8 9000 0) sample_peer ConnTimeout);
    [vm_compute; reflexivity|].
  unfold dials_sample in Hin. change (gs_host (wd_gossip (initial (St := pipe) net gs))) with (gs_host gs).
  destruct (dial_step (gs_host gs) sample_peer) as [[|d|t ai]|e|v] eqn:Hs; try discriminate.
  rewrite <-Hs. exact (dial_step_action _ _ _ _ Hs).
Qed.

Lemma dials_discovered_witness : ∃ gs ls tr (w' : World (St := pipe)),
  wrun (initial "mainnet" gs) ls tr w' ∧
  wd_dials w' = [sample_peer] ∧ ai_ID sample_peer ≠ host_ID (host_Host (gs_host gs)).
Proof.
  pose proof sample_dials as Hall. destruct sample_created as (s' & wt & gs & Hnew & Hnet & Hin & _).
  rewrite Hnew in Hall. cbn [snd] in Hall.
  destruct (sample_dialled "mainnet" wt gs Hall Hin) as [tr Hrun].
  pose proof Hrun as Hrun'. rewrite <-Hnet in Hrun'.
  destruct (dials_discovered s' gs _ tr _ Hrun') as [_ [[Hid _] _]%Forall_cons].
  eexists gs, _, tr, _. split; [exact Hrun|]. split; [reflexivity|exact Hid].
Defined.
End Witnesses.
