(* ===== verification/Cmd.v ===== *)
(** * cmd: the command line

    [cmd_watcher.go] turns the flags that are set into options of the watcher and
    runs it; [cmd.go] maps the result to the exit code. The parsed command of
    urfave/cli is the class [Command]. *)

From Stdlib Require Import Ascii.
From stdpp Require Import pretty.
From S2P Require Import Prelude GoStrings GoTime GoFloat GoNet Externals Eth Repository.
From S2P Require Import SlotExtractor Processor Host Dialer Discovery PeerScore.
From S2P Require Import GossipHandler GossipSub ReqResp Watcher.
Local Open Scope Z_scope.

Definition EnvPrefix : string := "PEEKD".
Definition CmdWatcher : string := "watcher".

Definition FlagLogLevel : string := "log-level".
Definition FlagEcdsaPrivateKeyHex : string := "ecdsa-private-key-hex".
Definition FlagListenIp : string := "listen-ip".
Definition FlagUDPPort : string := "udp-port".
Definition FlagTCPPort : string := "tcp-port".
Definition FlagTargetPeers : string := "target-peers".
Definition FlagNetwork : string := "network".
Definition FlagEstimateActiveValidators : string := "estimate-active-validators".
Definition FlagDbType : string := "db-type".
Definition FlagDbHost : string := "db-host".
Definition FlagDbPort : string := "db-port".
Definition FlagDbName : string := "db-name".
Definition FlagDbUser : string := "db-user".
Definition FlagDbPassword : string := "db-password".
Definition FlagDbSecure : string := "db-secure".
Definition FlagNodeAlias : string := "node-alias".
Definition FlagNodeRegion : string := "node-region".

(** A flag: its kind, its environment variable and the default shown in the help. *)
Inductive flag_kind := StringFlag | IntFlag | UintFlag | BoolFlag.
Record Flag := MkFlag {
  flag_kind_of : flag_kind;
  flag_Name : string;
  flag_Env : string;
  flag_DefaultText : option string;
}.

Definition env_var (name : string) : string := Sprintf "%s_%s" [FString EnvPrefix; FString name].

Definition cmdWatcher_flags `{Params} : list Flag := [
  MkFlag StringFlag FlagLogLevel (env_var "LOG_LEVEL") None;
  MkFlag StringFlag FlagEcdsaPrivateKeyHex (env_var "ECDSA_PRIVATE_KEY_HEX") None;
  MkFlag StringFlag FlagListenIp (env_var "LISTEN_IP") (Some "127.0.0.1");
  MkFlag IntFlag FlagUDPPort (env_var "UDP_PORT") (Some "9090");
  MkFlag IntFlag FlagTCPPort (env_var "TCP_PORT") (Some "9090");
  MkFlag IntFlag FlagTargetPeers (env_var "TARGET_PEERS") (Some "100");
  MkFlag StringFlag FlagNetwork (env_var "NETWORK") (Some MainnetName);
  MkFlag UintFlag FlagEstimateActiveValidators (env_var "ESTIMATE_ACTIVE_VALIDATORS") (Some "0");
  MkFlag StringFlag FlagDbType (env_var "DB_TYPE") (Some "clickhouse");
  MkFlag StringFlag FlagDbHost (env_var "DB_HOST") (Some "localhost");
  MkFlag IntFlag FlagDbPort (env_var "DB_PORT") (Some "9000");
  MkFlag StringFlag FlagDbName (env_var "DB_NAME") (Some "peekd");
  MkFlag StringFlag FlagDbUser (env_var "DB_USER") (Some "default");
  MkFlag StringFlag FlagDbPassword (env_var "DB_PASSWORD") (Some "");
  MkFlag BoolFlag FlagDbSecure (env_var "DB_SECURE") (Some "false");
  MkFlag StringFlag FlagNodeAlias (env_var "NODE_ALIAS") (Some "");
  MkFlag StringFlag FlagNodeRegion (env_var "NODE_REGION") (Some "")].

(** The parsed command: which flags are set, and their values. *)
Class Command := {
  IsSet : string → bool;
  cmd_String : string → string;
  cmd_Int : string → Z;
  cmd_Uint : string → Z;
  cmd_Bool : string → bool;
}.

Inductive level := LevelDebug | LevelInfo | LevelWarn | LevelError.

Definition lower (c : ascii) : ascii :=
  let n := N_of_ascii c in
  if ((65 <=? n) && (n <=? 90))%N then ascii_of_N (n + 32) else c.
(** strings.ToLower on ASCII text *)
Fixpoint ToLower (s : string) : string :=
  match s with EmptyString => EmptyString | String c s => String (lower c) (ToLower s) end.

Section Cmd.
Context `{Command}.

(** The level of the new default logger, when the flag is set. *)
Definition log_level : option level :=
  if IsSet FlagLogLevel then
    let s := ToLower (cmd_String FlagLogLevel) in
    Some (if bool_decide (s = "debug") then LevelDebug
          else if bool_decide (s = "info") then LevelInfo
          else if bool_decide (s = "warn") then LevelWarn
          else if bool_decide (s = "error") then LevelError
          else LevelInfo)
  else None.

(** [if cmd.IsSet(flag) { opts = append(opts, opt) }] *)
Definition when_set (flag : string) (opt : WatcherOption → WatcherOption)
    (opts : list (WatcherOption → WatcherOption)) : list (WatcherOption → WatcherOption) :=
  if IsSet flag then opts ++ [opt] else opts.

Definition watcher_opts : list (WatcherOption → WatcherOption) :=
  foldl (λ opts f, f opts) [] [
    when_set FlagEcdsaPrivateKeyHex (WithECDSAPrivateKeyHex (cmd_String FlagEcdsaPrivateKeyHex));
    when_set FlagListenIp (Watcher.WithListenIP (cmd_String FlagListenIp));
    when_set FlagUDPPort (Watcher.WithPortUDP (i64 (cmd_Int FlagUDPPort)));
    when_set FlagTCPPort (Watcher.WithPortTCP (i64 (cmd_Int FlagTCPPort)));
    when_set FlagTargetPeers (Watcher.WithTargetPeers (i64 (cmd_Int FlagTargetPeers)));
    when_set FlagNetwork (WithEthNetwork (cmd_String FlagNetwork));
    when_set FlagEstimateActiveValidators
      (Watcher.WithEstimateActiveValidators (cmd_Uint FlagEstimateActiveValidators));
    when_set FlagDbType (Watcher.WithDBType (cmd_String FlagDbType));
    when_set FlagDbHost (Watcher.WithDBHost (cmd_String FlagDbHost));
    when_set FlagDbPort (Watcher.WithDBPort (i64 (cmd_Int FlagDbPort)));
    when_set FlagDbName (Watcher.WithDBName (cmd_String FlagDbName));
    when_set FlagDbUser (Watcher.WithDBUser (cmd_String FlagDbUser));
    when_set FlagDbPassword (Watcher.WithDBPassword (cmd_String FlagDbPassword));
    when_set FlagDbSecure (Watcher.WithDBSecure (cmd_Bool FlagDbSecure));
    when_set FlagNodeAlias (Watcher.WithNodeAlias (cmd_String FlagNodeAlias));
    when_set FlagNodeRegion (Watcher.WithNodeRegion (cmd_String FlagNodeRegion))].

Context `{Libp2p} `{Params, P2P, Slots, Hexutil, Bitfield, Forks, Math, PubSub}.
Context `{!EnodeTypes} `{!Enode} `{!Keys} `{Driver}.

(** The action of the watcher command. *)
Definition launchWatcher (s : eth_state) (now : Time) (c : chan)
    (supervise : list service → outcome unit) : eth_state * outcome unit :=
  let '(s, r) := NewWatcher s now c watcher_opts in
  (s, w ← wrap "failed to create watcher" r; (Watcher.Serve w supervise).2).
End Cmd.

(** ** cmd.go *)

Definition context_Canceled : error := error_ext "context canceled".

(** [errors.Is]: the error or one it wraps. *)
Fixpoint errors_Is (e target : error) : bool :=
  bool_decide (e = target) ||
  match e with errors_Wrap cause _ => errors_Is cause target | _ => false end.

(** The exit code after [cmd.Run]: an error other than a cancellation is 1. *)
Definition main_exit (r : outcome unit) : Z :=
  match r with
  | Ret _ => 0
  | Fail e => if negb (errors_Is e context_Canceled) then 1 else 0
  | Panicked _ => 2
  end.

(** The hooks around every command do nothing. *)
Definition rootBefore {Ctx : Type} (ctx : Ctx) : Ctx * option error := (ctx, None).
Definition rootAfter : option error := None.

(** The root command: its name, the command run when none is named, and the
    commands by name. *)
Record RootCommand := {
  cmd_Name : string;
  EnableShellCompletion : bool;
  DefaultCommand : string;
  Commands : list string;
}.
Definition cmd : RootCommand := {|
  cmd_Name := "peekd"; EnableShellCompletion := true; DefaultCommand := CmdWatcher;
  Commands := [CmdWatcher] |}.

(** [main]: the context of the run, and whether its goroutine still takes the
    signals; afterwards a signal has its default effect and kills the program. *)
Record main_state := MainState { cancelled : bool; notified : bool }.
Inductive main_event :=
  | MSignal
  | MReturned (r : outcome unit).
Inductive main_end :=
  | Exit (code : Z)
  | Killed.

(** [signal.Notify] and [context.WithCancel] at the start. *)
Definition main_init : main_state := MainState false true.

Fixpoint main_loop (st : main_state) (evs : list main_event) : main_state * option main_end :=
  match evs with
  | [] => (st, None)
  | MSignal :: evs =>
      if notified st then main_loop (MainState true false) evs else (st, Some Killed)
  | MReturned r :: _ => (st, Some (Exit (main_exit r)))
  end.

(** ** Properties *)

Section Claims.
Context `{Command} `{Externals.Params}.

(** An option applied when its flag is set. *)
Definition set_if (flag : string) (opt : WatcherOption → WatcherOption) (o : WatcherOption)
    : WatcherOption :=
  if IsSet flag then opt o else o.

Lemma apply_when_set flag opt opts (o : WatcherOption) :
  apply_opts (when_set flag opt opts) o = set_if flag opt (apply_opts opts o).
Proof. unfold when_set, set_if. case_match; [apply apply_opts_snoc|done]. Qed.

(** A field after an option: the option's value, or untouched. *)
Lemma field_set {A} (f : WatcherOption → A) flag opt o :
  (∀ o, f (opt o) = f (opt watcher_defaults)) →
  f (set_if flag opt o) = if IsSet flag then f (opt watcher_defaults) else f o.
Proof. intros Hv. unfold set_if. by case_match. Qed.
Lemma field_other {A} (f : WatcherOption → A) flag opt o :
  (∀ o, f (opt o) = f o) → f (set_if flag opt o) = f o.
Proof. intros Hf. unfold set_if. by case_match. Qed.

Lemma WatcherOption_ext (a b : WatcherOption) :
  ecdsaPrivateKeyHex a = ecdsaPrivateKeyHex b → wo_listenIP a = wo_listenIP b →
  wo_portUDP a = wo_portUDP b → wo_portTCP a = wo_portTCP b →
  wo_targetPeers a = wo_targetPeers b → ethNetwork a = ethNetwork b →
  wo_estimateActiveValidators a = wo_estimateActiveValidators b →
  wo_dbType a = wo_dbType b → wo_dbName a = wo_dbName b → wo_dbHost a = wo_dbHost b →
  wo_dbPort a = wo_dbPort b → wo_dbUser a = wo_dbUser b → wo_dbPassword a = wo_dbPassword b →
  wo_dbSecure a = wo_dbSecure b → wo_nodeAlias a = wo_nodeAlias b →
  wo_nodeRegion a = wo_nodeRegion b → a = b.
Proof. destruct a, b. simpl. intros. subst. reflexivity. Qed.

(** The options of the watcher by the names of their flags, as the help would print
    them. *)
Definition option_texts (o : WatcherOption) : list (string * string) :=
  [(FlagListenIp, wo_listenIP o); (FlagUDPPort, pretty (wo_portUDP o));
   (FlagTCPPort, pretty (wo_portTCP o)); (FlagTargetPeers, pretty (wo_targetPeers o));
   (FlagNetwork, ethNetwork o);
   (FlagEstimateActiveValidators, pretty (wo_estimateActiveValidators o));
   (FlagDbType, wo_dbType o); (FlagDbHost, wo_dbHost o); (FlagDbPort, pretty (wo_dbPort o));
   (FlagDbName, wo_dbName o); (FlagDbUser, wo_dbUser o); (FlagDbPassword, wo_dbPassword o);
   (FlagDbSecure, if wo_dbSecure o then "true" else "false");
   (FlagNodeAlias, wo_nodeAlias o); (FlagNodeRegion, wo_nodeRegion o)].
Definition option_text (o : WatcherOption) (flag : string) : option string :=
  head (omap (λ p, if bool_decide (p.1 = flag) then Some p.2 else None) (option_texts o)).

(** The flags whose help shows another default. *)
Definition other_default : list string :=
  [FlagTargetPeers; FlagDbType; FlagDbHost; FlagDbPort; FlagDbName; FlagDbUser].

Lemma help_defaults : Forall (λ fl, ∀ text, flag_DefaultText fl = Some text →
  option_text watcher_defaults (flag_Name fl) = Some text ↔ flag_Name fl ∉ other_default)
  cmdWatcher_flags.
Proof.
  assert (∀ flag, bool_decide (flag ∉ other_default) = true → flag ∉ other_default) as Hout
    by (intros flag; apply bool_decide_eq_true).
  assert (∀ flag, bool_decide (flag ∈ other_default) = true → flag ∈ other_default) as Hin
    by (intros flag; apply bool_decide_eq_true).
  unfold cmdWatcher_flags. repeat apply Forall_cons_2; [..|apply Forall_nil_2];
    intros text [= <-]; cbn [flag_Name];
    first [split; [intros _; by apply Hout|reflexivity]
          |split; [discriminate|intros Hn; destruct Hn; by apply Hin]].
Qed.

(** C40. The command line decides each option of the watcher on its own: the value
    of its flag if that flag is set (or its environment variable), the default
    of the watcher otherwise, whatever else is set. The default is the one that
    the help of the flag shows, but for six flags: the help shows 100 target
    peers where the watcher takes 80, and names a database type, host, port,
    name and user where the watcher takes empty ones and port 0. *)
Theorem flags_decide_options :
  let pick {A} (flag : string) (v d : A) : A := if IsSet flag then v else d in
  (apply_opts watcher_opts watcher_defaults = {|
    ecdsaPrivateKeyHex := pick FlagEcdsaPrivateKeyHex (cmd_String FlagEcdsaPrivateKeyHex) "";
    wo_listenIP := pick FlagListenIp (cmd_String FlagListenIp) "127.0.0.1";
    wo_portUDP := pick FlagUDPPort (i64 (cmd_Int FlagUDPPort)) 9090;
    wo_portTCP := pick FlagTCPPort (i64 (cmd_Int FlagTCPPort)) 9090;
    wo_targetPeers := pick FlagTargetPeers (i64 (cmd_Int FlagTargetPeers)) 80;
    ethNetwork := pick FlagNetwork (cmd_String FlagNetwork) MainnetName;
    wo_estimateActiveValidators :=
      pick FlagEstimateActiveValidators (cmd_Uint FlagEstimateActiveValidators) 0;
    wo_dbType := pick FlagDbType (cmd_String FlagDbType) "";
    wo_dbName := pick FlagDbName (cmd_String FlagDbName) "";
    wo_dbHost := pick FlagDbHost (cmd_String FlagDbHost) "";
    wo_dbPort := pick FlagDbPort (i64 (cmd_Int FlagDbPort)) 0;
    wo_dbUser := pick FlagDbUser (cmd_String FlagDbUser) "";
    wo_dbPassword := pick FlagDbPassword (cmd_String FlagDbPassword) "";
    wo_dbSecure := pick FlagDbSecure (cmd_Bool FlagDbSecure) false;
    wo_nodeAlias := pick FlagNodeAlias (cmd_String FlagNodeAlias) "";
    wo_nodeRegion := pick FlagNodeRegion (cmd_String FlagNodeRegion) "" |}) ∧
  ∀ fl text, fl ∈ cmdWatcher_flags → flag_DefaultText fl = Some text →
    option_text watcher_defaults (flag_Name fl) = Some text ↔
    flag_Name fl ∉ [FlagTargetPeers; FlagDbType; FlagDbHost; FlagDbPort; FlagDbName; FlagDbUser].
Proof.
  intros pick. split; [|intros fl text Hfl; exact (proj1 (Forall_forall _ _) help_defaults fl Hfl text)].
  unfold watcher_opts. cbn [foldl]. rewrite !apply_when_set.
  apply WatcherOption_ext; cbn [ecdsaPrivateKeyHex wo_listenIP wo_portUDP wo_portTCP
    wo_targetPeers ethNetwork wo_estimateActiveValidators wo_dbType wo_dbName wo_dbHost
    wo_dbPort wo_dbUser wo_dbPassword wo_dbSecure wo_nodeAlias wo_nodeRegion];
    repeat first [rewrite field_other by reflexivity | rewrite field_set by reflexivity];
    reflexivity.
Qed.

(** The watcher is the default command, and it exists. *)
Lemma default_command_exists : DefaultCommand cmd ∈ Commands cmd.
Proof. by apply list_elem_of_singleton. Qed.

(** The causes of an error, outermost first. *)
Fixpoint causes (e : error) : list error :=
  e :: match e with errors_Wrap cause _ => causes cause | _ => [] end.

Lemma errors_Is_causes e target : errors_Is e target = true ↔ target ∈ causes e.
Proof.
  induction e as [msg|cause IH msg|msg]; cbn [errors_Is causes];
    rewrite elem_of_cons, orb_true_iff, bool_decide_eq_true;
    rewrite ?elem_of_nil, ?IH; naive_solver.
Qed.

(** The first termination signal cancels the context of the run and a second
    one kills the program. Without a second signal the exit code is that of
    the run: 0 if it returned no error or one caused by the cancellation, 1
    for any other error. *)
Theorem main_exit_codes (signals : list main_event) (r : outcome unit) (evs : list main_event)
  (Hsig : Forall (λ ev, ev = MSignal) signals) :
  main_loop main_init (signals ++ MReturned r :: evs) =
    match signals with
    | [] => (main_init, Some (Exit (main_exit r)))
    | [_] => (MainState true false, Some (Exit (main_exit r)))
    | _ => (MainState true false, Some Killed)
    end ∧
  (∀ e, r = Fail e → (main_exit r = 0 ↔ context_Canceled ∈ causes e)) ∧
  main_exit (Ret ()) = 0.
Proof.
  split_and!; [| |done].
  - destruct signals as [|ev1 [|ev2 l]]; simpl; [done|..];
      repeat (apply Forall_cons in Hsig as [-> Hsig]); done.
  - intros e ->. rewrite <-errors_Is_causes. simpl. by destruct (errors_Is e context_Canceled).
Qed.
End Claims.
